(* ===== verification/_CoqProject ===== *)
-Q . S2P
Prelude.v
Json.v
JsText.v
GoText.v
JsonParse.v
JsDate.v
Errors.v
Db.v
LastEventId.v
SyncLog.v
VersionLock.v
ScoreWriter.v
Snapshot.v
Policy.v
SseQueue.v
Scheduler.v
Principals.v
EdgeStore.v
GraphLoader.v
VeriRank.v
VeriRankStream.v
SseSession.v
EdgeStream.v
Replication.v
SseLifecycle.v
Canonicalize.v
SchemaValidator.v
Attestations.v
Tokens.v
Decisions.v
Bootstrap.v
DeEmphasis.v
Auth.v
SyncRoutes.v
Billing.v
Access.v
DecisionReads.v
ScoreReads.v
Config.v
App.v
Migrate.v
TestUtil.v
Client.v
ClientTokens.v
Dashboard.v
DashboardAuth.v
DashboardApi.v
Wire.v
DashboardPages.v
