(* ===== verification/Prelude.v ===== *)
(** * VeriLink: a verification library of the control plane, its clients and its edges

    VeriLink lets issuers attest the behaviour of software agents, turns the
    attestations into trust scores, and distributes the scores to edge verifiers
    that decide on requests.  This library models the TypeScript programs of the
    repository ([src/control-plane], [src/client/node] and [src/dashboard]) and the
    replica of the Go edge ([src/internal/edgeverifier]) as executable definitions and
    proves what makes them correct.

    ** The system

    - Issuers submit signed tokens ([routes/attestations.ts]); the attestation
      service verifies and stores them and marks the score table dirty.
    - The recompute scheduler runs: it loads the attestation graph, streams it to
      the trust engine over gRPC, and writes the returned score table, one sync
      event per difference, in one transaction.
    - Edges follow the sync log: a snapshot first, then a server-sent event stream
      from a cursor, through a bounded write queue per connection.  Tenant policies
      travel in the same log.
    - Edges upload batches of decisions, which are recorded once, rolled up and
      sampled, and read back by the dashboard.
    - Around these: principals and keys, the bootstrap registry with its
      de-emphasis gate, authentication by API key or OIDC, billing webhooks, schema
      migrations, the Node client with its request signatures, the process with its
      request pipeline, and the dashboard, a single-page application that signs in by
      API key or OIDC and shows what the read routes return.

    ** Files, in dependency order, and the sources they model

    - [Prelude]: JavaScript strings (lists of UTF-16 units), trimming, decimal
      printing, the [result] of code that can throw, tactics, the hint database
      [verilink], sorting and list lemmas.
    - [Json]: binary64 numbers with their decimal printing, JSON values,
      [JSON.stringify], UTF-8 length.  [Errors]: [shared/errors/AppError.ts],
      [shared/http/responses.ts].  [Db]: the tables of the migrations as one record,
      the state-and-exception monad [M], [db/transaction.ts].  [JsText], [GoText],
      [JsonParse], [JsDate]: the parts of the two runtimes' libraries the code uses
      (text, base64, integers and JSON as Go reads them, ISO dates).
    - [LastEventId], [SyncLog], [VersionLock]: [domains/sync/parseLastEventId.ts],
      [syncRepository.ts], [syncCursorRepository.ts]; the advisory lock as a step
      relation of concurrent transactions.
    - [ScoreWriter]: [domains/graph/scoreDiff.ts], [scoreWriter.ts] and the score
      reads.  [Snapshot]: [domains/sync/syncService.ts] with the specification of an
      edge that replays events.
    - [Policy]: [domains/policy], and the Go edge's decoding of policy payloads.
    - [EdgeStore]: the Go edge's [snapshot.go], [apply.go], [policy.go], [validate.go]
      and the snapshot reader of [cpclient.go], with the text of a snapshot response.
      [EdgeStream]: the stream reader of [sse.go].  [Replication]: the class
      [SyncSource] of what a control plane promises to an edge, its instance, and the
      protocol between the two as a step relation.
    - [SseQueue], [SseSession]: [domains/sync/sseWriteQueue.ts], [sseSession.ts],
      [sseRegistry.ts].  [SseLifecycle]: the life of a session on its write queue,
      from admission to the end of the response.  [SyncRoutes]: [routes/sync.ts].
      [Scheduler]:
      [domains/graph/recomputeScheduler.ts].
    - [Principals]: [domains/principal].  [GraphLoader]:
      [domains/graph/observationGrouping.ts], [attestationGraphLoader.ts].
      [VeriRank]: [grpc/runVeriRankClient.ts],
      [domains/graph/scoreComputationService.ts].  [VeriRankStream]: the streaming
      call with backpressure, failures and its deadline.
    - [Canonicalize], [SchemaValidator], [Attestations]: [domains/attestation] and
      [grpc/trustEngineClient.ts].  [Tokens]: the tokens the control plane's own signers
      build, and that well-formed ones are accepted.
    - [Decisions]: [domains/decision/decisionIngestService.ts], [decisionSample.ts].
    - [Bootstrap], [DeEmphasis]: [domains/bootstrap] and the admin routes.
    - [Auth]: [middleware/auth.ts], [requireScope.ts], [requireStaff.ts], the API key
      repository and routes, [lib/activeMembership.ts], [lib/tenantFilter.ts].
    - [Billing]: [domains/billing] and its two routers.  [Config]: [config.ts] and
      [domains/billing/billingTransport.ts].  [App]: [app.ts], [index.ts],
      [middleware/audit.ts], [requestTracker.ts], [dashboard/spaServe.ts],
      [scripts/seed-bootstrap.ts].
    - [Access]: [shared/http/defineHandler.ts] and the listing and registration
      routes (tenants, attestations, principals, edge nodes, sync lag).
      [DecisionReads]: [lib/timeWindow.ts], [decisionReadRepository.ts],
      [routes/decisions.ts].  [ScoreReads]: [scoreReadRepository.ts],
      [routes/scores.ts], [routes/graph.ts].
    - [Client]: [src/client/node/index.ts].  [ClientTokens]: its tokens at
      the control plane's verifier.  [Migrate]: [db/migrate.ts].  [TestUtil]:
      [testutil/], [db/client.ts].
    - [Dashboard]: [src/dashboard/src/lib], [auth/session.ts], [api/client.ts].
      [DashboardAuth]: [auth/oidc.ts], [AuthProvider.tsx], [router.tsx], the login and
      callback pages.  [DashboardApi]: the fetchers of [api/], and the read routes
      they call.  [Wire]: the interfaces the dashboard declares and the rows the
      routes send.  [DashboardPages]: the pages and their panels, [lib/scoreSeries.ts].

    A component is a [Module]; its state is a record or part of [db]; each function,
    handler or step of the source is one definition of the same name where the
    language allows it, with the source's guards and early returns in their order.

    ** What the theorems show

    - Distribution: through histories of writes, connections, lost connections,
      refetched snapshots, crashes and restarts an edge's score table converges to the
      control plane's, as long as no poll of the edge's connections overflows its batch
      limit and every event fits the edge's line limit ([edge_replica_converges], proved
      against [SyncSource], states both conditions); the edge loads a snapshot document exactly or refuses it ([snapshot_loads_exactly]), and
      reads from the stream's text what the session wrote ([stream_text_roundtrip]);
      two keys of one name, or an event beyond the edge's line limit, stop it
      ([shared_key_id_blocks_edges], [large_event_blocks_stream]); a session delivers
      each event of its range exactly once while the batch limit is not exceeded, and skips events when a
      poll overflows it ([session_delivers_exactly_once],
      [poll_overflow_skips_events]); a reconnecting edge gets exactly the events
      after its cursor or is told to take a snapshot ([reconnect_resumes_exactly]); an
      aborted session ends, gives its slot back, and the cursor it stores was
      delivered ([SseLifecycle]; the abort also ends its pause, so that it polls no
      more); versions are allocated in commit order under the lock; the queue is bounded, first-in first-out and never stalls.
    - Scores: the writer replaces the table and logs exactly the differences,
      atomically; the history starts with the current score; the scheduler runs one
      computation at a time, drains on stop and recomputes what was marked dirty; the
      graph it sends is one the engine accepts, and the streaming call settles once,
      after at most the graph's chunks in their order ([VeriRankStream]).
    - Ingest: stored attestations were verified against a registered key active at
      their issue time; a refused submission stores nothing; canonical JSON is the same
      value with its keys in code unit order, and the schema validators agree with
      declarative specifications; of several attestations of one fact the graph takes
      the most restrictive; a token the control plane's helpers sign is accepted with the row its options say; decision batches
      count once however often they are sent, and the reports show what was ingested.
    - Access: API keys live from creation to revocation; listings show a caller what
      it may see; and three holes, stated as theorems: any tenant caller can mint a
      staff key, any caller can plant a key on another tenant's issuer, and scopes of
      one tenant are honoured in another.
    - Clients: a request the Node client signs is accepted by its verifier exactly
      inside its window, if that is at most five minutes long; an accepted
      request has the method, target, body digest and headers of a signed one, within its time window; the nonce is not covered; the client's tokens
      enter the control plane only through the legacy door.
    - Operation: migrations run once each in order and the tracking table never lies;
      billing webhooks take effect once and in production only with a verified
      signature; the de-emphasis gate opens exactly when the tables meet the criteria
      of its code, which are weaker than those of its plan; the page fallback never shadows an API route; the process shuts down in order; the test
      helpers truncate, through a postgres URL, no database but the local test one, and
      bring its schema to the state the migration runner would.
    - Dashboard: a sign-in only stores a token obtained for the state and verifier of
      this browser; a request with an id in its path reaches the route it is meant for,
      unless the id is empty or one or two dots ([id_reaches_its_route]); every answer
      it reads has the interface it declares ([dashboard_answers_well_typed]); what the policy card, the
      billing link, the fleet table and the readiness panel show is what the tables
      hold; a click in the registry editor does what the button says.  Where the
      pages go wrong is stated as theorems too (a stale row erases a reason, the
      selection survives a change of the tenant, an expired key looks valid).

    ** Parameters, bounds and fuel

    Code outside the repository is a parameter: cryptography, base64 and JSON decoding
    of the runtimes, date and URL parsing, the trust engine, Stripe, the transport, the
    execution of SQL scripts.  What a theorem needs of it is a named hypothesis, and
    its witness instantiates the parameter.  SQL queries are functions on [db] with
    the constraints of the migrations; timestamps are integers.  Recursion is
    structural almost everywhere; decimal printing uses as many steps as the binary
    logarithm of the number plus one, which bounds its digits, and the shortest
    decimal of a double needs at most 17 digits.  Loops of the event-driven classes
    (queue, session, scheduler) are step functions or step relations, with invariants
    over all event sequences.  64-bit columns keep their range checks; a score needs none, as
    the engine's 32-bit field fits its INTEGER column.

    ** Not modelled

    Logging and the rate limiter's library ([shared/logger.ts],
    [middleware/rateLimit.ts]): I/O and third-party code.  The Stripe SDK, the gRPC
    channel, the database driver, jose, the browser and the query cache of the dashboard
    are third-party interfaces, parameters here or modelled only as far as the code uses
    them (the keys of the cache and their invalidation; connect, release and end of a
    pool).  Layout, styling and chart drawing of the dashboard, the mounting of its React
    tree and the bundler's configuration.  Of the Go programs: the ranking of the trust
    engine, and the edge's decision log, flush loop, proxy, disk format, HTTP client, idle
    watchdog and metrics. *)

From stdpp Require Import base gmap strings sorting list.
From Stdlib Require Import ZArith Lia.

#[global] Open Scope Z_scope.

(** ** JavaScript strings

    A JavaScript string is a sequence of UTF-16 code units; [jstr] is that
    sequence, each unit an integer in [0, 65535].  String literals of the
    source are written [js "..."]. *)

Abbreviation jstr := (list Z).

Definition js (s : string) : jstr :=
  (λ a, Z.of_N (Ascii.N_of_ascii a)) <$> String.list_ascii_of_string s.
Arguments js : simpl never.

(** [String.prototype.trim] strips WhiteSpace and LineTerminator code points
    (ECMA-262 sections 12.2 and 12.3). *)
Definition is_space (c : Z) : bool :=
  bool_decide (c ∈ [9; 10; 11; 12; 13; 32; 160; 5760; 8232; 8233; 8239; 8287; 12288; 65279])
  || ((8192 <=? c) && (c <=? 8202)).

Fixpoint drop_while {A} (p : A → bool) (l : list A) : list A :=
  match l with
  | [] => []
  | x :: l' => if p x then drop_while p l' else l
  end.

Definition trim (s : jstr) : jstr :=
  reverse (drop_while is_space (reverse (drop_while is_space s))).

(** The ASCII digits, which is what [\d] matches. *)
Definition is_digit (c : Z) : bool := (48 <=? c) && (c <=? 57).

(** [/^\d+$/.test(s)] (no [m] flag, so [$] only matches at the end). *)
Definition all_digits (s : jstr) : bool :=
  match s with [] => false | _ => forallb is_digit s end.

(** The value of a digit string, most significant digit first: [BigInt(s)]
    on a string that [all_digits] accepts. *)
Definition digits_value (s : jstr) : Z :=
  fold_left (λ acc c, 10 * acc + (c - 48)) s 0.

(** Decimal printing of a non-negative integer: [String(n)]. [fuel] bounds
    the number of digits. *)
Fixpoint show_digits (fuel : nat) (n : Z) (acc : jstr) : jstr :=
  match fuel with
  | O => acc
  | S f =>
      let acc' := (48 + n mod 10) :: acc in
      if n <? 10 then acc' else show_digits f (n / 10) acc'
  end.

Definition show_nonneg (n : Z) : jstr := show_digits (S (Z.to_nat (Z.log2 n))) n [].

Definition show_Z (n : Z) : jstr :=
  if n <? 0 then 45 :: show_nonneg (- n) else show_nonneg n.

(** ** Results of code that can throw *)

Inductive result (E A : Type) : Type :=
| Ok (a : A)
| Throw (e : E).
Arguments Ok {E A} a.
Arguments Throw {E A} e.

#[global] Instance result_ret {E} : MRet (result E) := λ A a, Ok a.
#[global] Instance result_bind {E} : MBind (result E) := λ A B k m,
  match m with Ok a => k a | Throw e => Throw e end.
#[global] Instance result_fmap {E} : FMap (result E) := λ A B f m,
  match m with Ok a => Ok (f a) | Throw e => Throw e end.

(** [if (!b) throw e]. *)
Definition guard_or {E} (b : bool) (e : E) : result E unit :=
  if b then Ok tt else Throw e.

Lemma bind_Ok {E A B} (m : result E A) (k : A → result E B) b :
  (m ≫= k) = Ok b ↔ ∃ a, m = Ok a ∧ k a = Ok b.
Proof.
  destruct m as [a|e]; unfold mbind, result_bind; simpl; split.
  - eauto.
  - by intros (a' & [= <-] & ?).
  - done.
  - by intros (? & ? & _).
Qed.

Lemma guard_or_Ok {E} (b : bool) (e : E) u : guard_or b e = Ok u ↔ b = true.
Proof. unfold guard_or. destruct b, u; split; congruence. Qed.

(** ** Tactics and hints of the development *)

Create HintDb verilink.

(** Split the conjunctions, existentials and binds of the hypotheses. *)
Ltac invert_ok :=
  repeat match goal with
  | H : (_ ≫= _) = Ok _ |- _ =>
      apply bind_Ok in H; let a := fresh "a" in destruct H as (a & ? & H)
  | H : guard_or _ _ = Ok _ |- _ => apply guard_or_Ok in H
  | H : Ok _ = Ok _ |- _ => injection H as H
  | H : Throw _ = Ok _ |- _ => discriminate H
  | H : Ok _ = Throw _ |- _ => discriminate H
  end.

(** Case analysis on the innermost [match]/[if] of the goal or of a
    hypothesis, keeping the equation. *)
Ltac case_match_in H :=
  match type of H with
  | context [ match ?x with _ => _ end ] => destruct x eqn:?
  end.

Ltac bool_to_prop :=
  repeat match goal with
  | H : (_ <? _) = true |- _ => apply Z.ltb_lt in H
  | H : (_ <? _) = false |- _ => apply Z.ltb_ge in H
  | H : (_ <=? _) = true |- _ => apply Z.leb_le in H
  | H : (_ <=? _) = false |- _ => apply Z.leb_gt in H
  | H : (_ =? _) = true |- _ => apply Z.eqb_eq in H
  | H : (_ =? _) = false |- _ => apply Z.eqb_neq in H
  | H : (_ && _) = true |- _ => apply andb_true_iff in H as [? H]
  | H : (_ || _) = false |- _ => apply orb_false_iff in H as [? H]
  | H : negb _ = true |- _ => apply negb_true_iff in H
  | H : negb _ = false |- _ => apply negb_false_iff in H
  | H : bool_decide _ = true |- _ => apply bool_decide_eq_true in H
  | H : bool_decide _ = false |- _ => apply bool_decide_eq_false in H
  end.

(** ** Decimal printing and parsing *)

Lemma digits_value_snoc s c : digits_value (s ++ [c]) = 10 * digits_value s + (c - 48).
Proof. unfold digits_value. by rewrite fold_left_app. Qed.

Lemma digits_value_app s t :
  digits_value (s ++ t) = 10 ^ Z.of_nat (length t) * digits_value s + digits_value t.
Proof.
  induction t as [|c t IH] using rev_ind.
  { rewrite app_nil_r. simpl length. change (10 ^ Z.of_nat 0) with 1.
    unfold digits_value at 3. simpl. lia. }
  rewrite app_assoc, !digits_value_snoc, IH, length_app. simpl length.
  replace (Z.of_nat (length t + 1)) with (Z.succ (Z.of_nat (length t))) by lia.
  rewrite Z.pow_succ_r by lia. lia.
Qed.

Lemma digits_value_bounds s :
  forallb is_digit s = true → 0 ≤ digits_value s < 10 ^ Z.of_nat (length s).
Proof.
  induction s as [|c s IH] using rev_ind; [done|].
  rewrite forallb_app. intros [Hs Hc]%andb_true_iff.
  rewrite digits_value_snoc, length_app. simpl length.
  replace (Z.of_nat (length s + 1)) with (Z.succ (Z.of_nat (length s))) by lia.
  rewrite Z.pow_succ_r by lia. specialize (IH Hs).
  simpl in Hc. unfold is_digit in Hc. bool_to_prop. lia.
Qed.

Lemma show_digits_spec fuel n acc :
  0 ≤ n < 10 ^ Z.of_nat fuel →
  ∃ ds, show_digits fuel n acc = ds ++ acc ∧ forallb is_digit ds = true
        ∧ digits_value ds = n ∧ (fuel ≠ 0%nat → ds ≠ []).
Proof.
  revert n acc. induction fuel as [|f IH]; intros n acc Hn.
  { exists []. simpl in Hn. repeat split; try done. unfold digits_value; simpl. lia. }
  rewrite Nat2Z.inj_succ, Z.pow_succ_r in Hn by lia. simpl.
  pose proof (Z.mod_pos_bound n 10). pose proof (Z_div_mod_eq_full n 10).
  assert (Hd : is_digit (48 + n mod 10) = true)
    by (unfold is_digit; rewrite andb_true_iff, !Z.leb_le; lia).
  destruct (n <? 10) eqn:Hlt; bool_to_prop.
  - exists [48 + n mod 10]. simpl. rewrite Hd. repeat split; try done.
    unfold digits_value; simpl. rewrite Z.mod_small; lia.
  - destruct (IH (n / 10) ((48 + n mod 10) :: acc)) as (ds & -> & Hds & Hv & _).
    { split; [apply Z.div_pos; lia|]. apply Z.div_lt_upper_bound; lia. }
    exists (ds ++ [48 + n mod 10]). rewrite <- app_assoc, forallb_app, Hds. simpl.
    rewrite Hd, digits_value_snoc, Hv. repeat split; [lia|]. by destruct ds.
Qed.

Lemma show_nonneg_spec n :
  0 ≤ n → all_digits (show_nonneg n) = true ∧ digits_value (show_nonneg n) = n.
Proof.
  intros Hn. unfold show_nonneg.
  destruct (show_digits_spec (S (Z.to_nat (Z.log2 n))) n []) as (ds & -> & Hd & Hv & Hne).
  { split; [done|]. rewrite Nat2Z.inj_succ, Z2Nat.id by apply Z.log2_nonneg.
    destruct (Z.eq_dec n 0) as [->|]; [done|].
    apply Z.lt_le_trans with (2 ^ Z.succ (Z.log2 n)); [apply Z.log2_spec; lia|].
    apply Z.pow_le_mono_l. pose proof (Z.log2_nonneg n). lia. }
  rewrite app_nil_r. split; [|done].
  destruct ds; [by destruct Hne|]. done.
Qed.

(** ** Trimming *)

Lemma drop_while_app_all {A} (p : A → bool) l l' :
  forallb p l = true → drop_while p (l ++ l') = drop_while p l'.
Proof.
  induction l as [|x l IH]; [done|]. simpl. intros [-> ?]%andb_true_iff. auto.
Qed.

Lemma drop_while_stop {A} (p : A → bool) x l : p x = false → drop_while p (x :: l) = x :: l.
Proof. simpl. by intros ->. Qed.

Lemma forallb_reverse {A} (p : A → bool) l : forallb p (reverse l) = forallb p l.
Proof.
  induction l as [|x l IH]; [done|].
  rewrite reverse_cons, forallb_app, IH. simpl. rewrite andb_true_r. apply andb_comm.
Qed.

(** Trimming removes exactly surrounding white space: a string with no white
    space in it survives any padding. *)
Lemma trim_padded ws s ws' :
  forallb is_space ws = true → forallb is_space ws' = true →
  forallb (λ c, negb (is_space c)) s = true →
  trim (ws ++ s ++ ws') = s.
Proof.
  intros H1 H2 Hs. unfold trim. rewrite drop_while_app_all by done.
  destruct s as [|c s].
  { simpl. assert (drop_while is_space ws' = []) as ->; [|done].
    rewrite <- (app_nil_r ws'). by rewrite drop_while_app_all. }
  simpl in Hs. apply andb_true_iff in Hs as [Hc Hs]. apply negb_true_iff in Hc.
  simpl app. rewrite drop_while_stop by done.
  change (c :: s ++ ws') with ((c :: s) ++ ws').
  rewrite reverse_app, drop_while_app_all by by rewrite forallb_reverse.
  rewrite <- (reverse_involutive (c :: s)) at 2. f_equal.
  destruct (reverse (c :: s)) as [|d r] eqn:E; [done|].
  apply drop_while_stop.
  assert (Hall : forallb (λ c, negb (is_space c)) (reverse (c :: s)) = true).
  { rewrite forallb_reverse. simpl. by rewrite Hc. }
  rewrite E in Hall. simpl in Hall. apply andb_true_iff in Hall as [?%negb_true_iff _]. done.
Qed.

Lemma digit_not_space c : is_digit c = true → is_space c = false.
Proof.
  unfold is_digit, is_space. intros H. bool_to_prop.
  apply orb_false_iff. split.
  - apply bool_decide_eq_false_2. rewrite !elem_of_cons, elem_of_nil. lia.
  - apply andb_false_iff. left. apply Z.leb_gt. lia.
Qed.

Lemma digits_not_space s :
  forallb is_digit s = true → forallb (λ c, negb (is_space c)) s = true.
Proof.
  induction s as [|c s IH]; [done|]. simpl. intros [Hc Hs]%andb_true_iff.
  by rewrite digit_not_space, IH.
Qed.

Lemma all_digits_forallb s : all_digits s = true → forallb is_digit s = true.
Proof. by destruct s. Qed.

#[export] Hint Resolve digits_not_space all_digits_forallb : verilink.

(** ** Filtering *)

Lemma filter_all {A} (P : A → Prop) `{∀ x, Decision (P x)} (l : list A) :
  (∀ x, x ∈ l → P x) → filter P l = l.
Proof.
  induction l as [|x l IH]; intros Hl; [done|]. rewrite filter_cons_True by (apply Hl; by left).
  f_equal. apply IH. intros y Hy. apply Hl. by right.
Qed.

Lemma filter_none {A} (P : A → Prop) `{∀ x, Decision (P x)} (l : list A) :
  (∀ x, x ∈ l → ¬ P x) → filter P l = [].
Proof.
  induction l as [|x l IH]; intros Hl; [done|]. rewrite filter_cons_False by (apply Hl; by left).
  apply IH. intros y Hy. apply Hl. by right.
Qed.

Lemma filter_iff_in {A} (P Q : A → Prop) `{∀ x, Decision (P x)} `{∀ x, Decision (Q x)} (l : list A) :
  (∀ x, x ∈ l → P x ↔ Q x) → filter P l = filter Q l.
Proof.
  induction l as [|x l IH]; intros Hl; [done|]. rewrite !filter_cons, IH by (intros y Hy; apply Hl; by right).
  rewrite (decide_ext (P x) (Q x)) by (apply Hl; by left). by destruct (decide (Q x)).
Qed.

Lemma Forall_filter_keep {A} (P Q : A → Prop) `{∀ x, Decision (Q x)} (l : list A) :
  Forall P l → Forall P (filter Q l).
Proof. rewrite !Forall_forall. intros HF x [_ Hx]%list_elem_of_filter. auto. Qed.

Lemma NoDup_fmap_filter {A B} (f : A → B) (P : A → Prop) `{∀ x, Decision (P x)} (l : list A) :
  NoDup (f <$> l) → NoDup (f <$> filter P l).
Proof.
  induction l as [|x l IH]; [done|]. simpl. intros [Hni Hnd]%NoDup_cons.
  rewrite filter_cons. case_decide; [|auto]. simpl. apply NoDup_cons. split; [|auto].
  intros (y & Heq & [_ Hy]%list_elem_of_filter)%list_elem_of_fmap.
  apply Hni. rewrite Heq. by apply list_elem_of_fmap_2.
Qed.

(** ** Pairs *)

(** To run a computation for its result only. *)
Lemma fst_run {A B} (x : A * B) a : x.1 = a → ∃ b, x = (a, b).
Proof. destruct x as [a' b]. simpl. intros ->. eauto. Qed.

(** ** NUL-separated keys *)

Definition nul_free (s : jstr) : Prop := 0 ∉ s.

Lemma app_sep_inj (a a' b b' : jstr) :
  nul_free a → nul_free a' → a ++ 0 :: b = a' ++ 0 :: b' → a = a' ∧ b = b'.
Proof.
  unfold nul_free. revert a'. induction a as [|x a IH]; intros [|y a'] Ha Ha' H; simpl in *.
  - by injection H as ->.
  - injection H as <- _. exfalso. apply Ha'. by left.
  - injection H as -> _. exfalso. apply Ha. by left.
  - injection H as -> H. apply not_elem_of_cons in Ha as [_ Ha]. apply not_elem_of_cons in Ha' as [_ Ha'].
    by destruct (IH a' Ha Ha' H) as [-> ->].
Qed.

(** The same, split at the last separator. *)
Lemma app_sep_inj_r (a a' b b' : jstr) :
  nul_free b → nul_free b' → a ++ 0 :: b = a' ++ 0 :: b' → a = a' ∧ b = b'.
Proof.
  intros Hb Hb' H. apply (f_equal reverse) in H. rewrite !reverse_app, !reverse_cons, <- !app_assoc in H.
  apply app_sep_inj in H as [H1%(inj reverse) H2%(inj reverse)]; [done|unfold nul_free; by rewrite elem_of_reverse..].
Qed.

(** ** Stable sorting: [Array.prototype.sort] with a comparator *)

Fixpoint insert_by {A} (le : A → A → bool) (x : A) (l : list A) : list A :=
  match l with
  | [] => [x]
  | y :: l' => if le x y then x :: l else y :: insert_by le x l'
  end.

Fixpoint sort_by {A} (le : A → A → bool) (l : list A) : list A :=
  match l with
  | [] => []
  | x :: l' => insert_by le x (sort_by le l')
  end.

Lemma insert_by_Permutation {A} (le : A → A → bool) x l : insert_by le x l ≡ₚ x :: l.
Proof.
  induction l as [|y l IH]; simpl; [done|]. destruct (le x y); [done|]. rewrite IH. apply Permutation_swap.
Qed.

Lemma sort_by_Permutation {A} (le : A → A → bool) l : sort_by le l ≡ₚ l.
Proof. induction l as [|x l IH]; simpl; [done|]. by rewrite insert_by_Permutation, IH. Qed.

Lemma sort_by_fmap {A B} (le : A → A → bool) (le' : B → B → bool) (f : A → B) l :
  (∀ x y, le' (f x) (f y) = le x y) → sort_by le' (f <$> l) = f <$> sort_by le l.
Proof.
  intros Hf. induction l as [|x l IH]; [done|]. rewrite fmap_cons. cbn [sort_by]. rewrite IH. generalize (sort_by le l) as k. intros k.
  induction k as [|y k IHk]; [done|]. rewrite fmap_cons. cbn [insert_by]. rewrite Hf.
  destruct (le x y); [done|]. by rewrite fmap_cons, IHk.
Qed.

Lemma sort_by_sorted {A} (le : A → A → bool) l :
  (∀ x y, le x y = true ∨ le y x = true) → (∀ x y z, le x y = true → le y z = true → le x z = true) →
  StronglySorted (λ x y, le x y = true) (sort_by le l).
Proof.
  intros Htot Htr. induction l as [|x l IH]; simpl; [constructor|].
  induction IH as [|y k Hs IHk Hf]; simpl; [repeat constructor|].
  destruct (le x y) eqn:E.
  - constructor; [by constructor|]. constructor; [done|]. eapply Forall_impl; [exact Hf|]. eauto.
  - constructor; [done|]. rewrite insert_by_Permutation. constructor; [|done].
    by destruct (Htot x y); [congruence|].
Qed.

Lemma StronglySorted_mono {A} (R S : relation A) l :
  (∀ x y, R x y → S x y) → StronglySorted R l → StronglySorted S l.
Proof. intros H. induction 1; constructor; [done|]. by eapply Forall_impl; [|intros; apply H]. Qed.

Lemma sort_by_elem {A} (le : A → A → bool) l x : x ∈ sort_by le l ↔ x ∈ l.
Proof. by rewrite sort_by_Permutation. Qed.

Lemma elem_of_values {K A} `{Countable K} (m : gmap K A) x : x ∈ (map_to_list m).*2 ↔ ∃ k, m !! k = Some x.
Proof.
  rewrite list_elem_of_fmap. split.
  - intros ([k y] & -> & Hk%elem_of_map_to_list). by exists k.
  - intros [k Hk]. exists (k, x). split; [done|]. by apply elem_of_map_to_list.
Qed.

(** Sorting by a key, largest first (ORDER BY key DESC). *)
Lemma sort_by_desc {A} (key : A → Z) (l : list A) :
  StronglySorted (λ a b, key b ≤ key a) (sort_by (λ a b, key b <=? key a) l).
Proof.
  apply (StronglySorted_mono (λ a b, (key b <=? key a) = true)).
  { intros a b Hab. by apply Z.leb_le. }
  apply sort_by_sorted.
  - intros a b. destruct (Z.le_ge_cases (key b) (key a)); [left|right]; by apply Z.leb_le.
  - intros a b c Hab%Z.leb_le Hbc%Z.leb_le. apply Z.leb_le. lia.
Qed.
