(* ===== verification/Json.v ===== *)
(** * JavaScript numbers and JSON values

    What the sources use of the language: IEEE-754 binary64 numbers with
    their decimal printing ([Number::toString], ECMA-262 6.1.6.1.20), JSON
    values, [JSON.stringify] and the UTF-8 length of a string
    ([Buffer.byteLength]). *)
From stdpp Require Import base strings list.
From S2P Require Import Prelude.

(** ** Numbers

    [Fin m e] is the finite number [m * 2^e], in the normal form
    [wf_number]: [m] odd, or [m = e = 0].  Negative zero prints, compares and
    serializes as zero everywhere the sources use a number, so it is not kept
    apart. *)
Inductive number :=
| NaN
| Infinity (neg : bool)
| Fin (m e : Z).

#[global] Instance number_eq_dec : EqDecision number.
Proof. solve_decision. Defined.

(** Strip the factors of two of [m]. *)
Fixpoint strip_pos (p : positive) (e : Z) : positive * Z :=
  match p with xO p' => strip_pos p' (e + 1) | _ => (p, e) end.

Definition mk_fin (m e : Z) : number :=
  match m with
  | Z0 => Fin 0 0
  | Zpos p => let '(p', e') := strip_pos p e in Fin (Zpos p') e'
  | Zneg p => let '(p', e') := strip_pos p e in Fin (Zneg p') e'
  end.

(** An integer literal or integer-valued number. *)
Definition num_of_Z (z : Z) : number := mk_fin z 0.

(** The integer value, when there is one ([Number.isInteger]). *)
Definition num_to_Z (n : number) : option Z :=
  match n with
  | Fin m e => if 0 <=? e then Some (m * 2 ^ e) else None
  | _ => None
  end.

Definition isInteger (n : number) : bool := bool_decide (is_Some (num_to_Z n)).
Definition isNaN (n : number) : bool := match n with NaN => true | _ => false end.
Definition isFinite (n : number) : bool := match n with Fin _ _ => true | _ => false end.

(** Exact comparison of two finite numbers: both scaled to the smaller
    exponent. *)
Definition fin_compare (m1 e1 m2 e2 : Z) : comparison :=
  let e := Z.min e1 e2 in (m1 * 2 ^ (e1 - e)) ?= (m2 * 2 ^ (e2 - e)).

(** [a < b]; any comparison with NaN is false. *)
Definition num_ltb (a b : number) : bool :=
  match a, b with
  | NaN, _ | _, NaN => false
  | Infinity n1, Infinity n2 => n1 && negb n2
  | Infinity n, Fin _ _ => n
  | Fin _ _, Infinity n => negb n
  | Fin m1 e1, Fin m2 e2 => match fin_compare m1 e1 m2 e2 with Lt => true | _ => false end
  end.

(** The binary64 nearest to [a / b], ties to even, for [0 <= a], [0 < b] and a
    quotient in the normal range: the value of a division of two exactly
    represented integers, and of a decimal literal with numerator [a] over a power
    of ten. *)
Definition num_ratio (a b : Z) : number :=
  if a =? 0 then Fin 0 0 else
  let e0 := Z.log2 a - Z.log2 b - 53 in
  let scaled e := (if 0 <=? e then a else a * 2 ^ (- e), if 0 <=? e then b * 2 ^ e else b) in
  let e := let '(n, d) := scaled e0 in if d * 2 ^ 53 <=? n then e0 + 1 else e0 in
  let '(n, d) := scaled e in
  let q := n / d in let r := n mod d in
  let q' := if (d <? 2 * r) || ((2 * r =? d) && Z.odd q) then q + 1 else q in
  mk_fin q' e.

(** ** Decimal printing *)

(** [s * 10^p] compared with the rational [a / b], [b > 0]. *)
Definition pow10_num (p : Z) : Z := if 0 <=? p then 10 ^ p else 1.
Definition pow10_den (p : Z) : Z := if 0 <=? p then 1 else 10 ^ (- p).

(** The number of decimal digits before the point of [a / b > 0]: the [n]
    with [10^(n-1) <= a/b < 10^n].  [fuel] steps up from a lower estimate. *)
Fixpoint decimal_exp (fuel : nat) (a b n : Z) : Z :=
  match fuel with
  | O => n
  | S f => if a * pow10_den n <? b * pow10_num n then n else decimal_exp f a b (n + 1)
  end.

Definition decimal_exp_of (a b lg : Z) : Z := decimal_exp 4 a b (lg * 30103 / 100000 - 1).

(** Positive number [m * 2^e]: the numerator and denominator. *)
Definition frac (m e : Z) : Z * Z := if 0 <=? e then (m * 2 ^ e, 1) else (m, 2 ^ (- e)).

(** Does the decimal [s * 10^p] round to the double [m * 2^e]?  With [q] the
    exponent of the last of the 53 mantissa bits, the decimals that do are
    those within half a unit of the last place (a quarter below a power of
    two), ends included when the mantissa is even. *)
Definition rounds_to (m e s p : Z) : bool :=
  let lg := Z.log2 m + e in
  let q := Z.max (lg - 52) (-1074) in
  let mant := m * 2 ^ (e - q) in
  let pow2 := bool_decide (mant = 2 ^ 52) && (-1074 <? q) in
  (* four times the value, in units of 2^q *)
  let lo := 4 * mant - (if pow2 then 1 else 2) in
  let hi := 4 * mant + 2 in
  let '(un, ud) := frac 1 q in
  (* compare s * 10^p with lo/4 * 2^q and hi/4 * 2^q *)
  let x := 4 * s * pow10_num p * ud in
  let y := pow10_den p * un in
  if Z.even mant then (lo * y <=? x) && (x <=? hi * y)
  else (lo * y <? x) && (x <? hi * y).

(** The shortest digits: the least [k] for which some [k]-digit [s] works,
    and the [s] closest to the value. *)
Fixpoint shortest (fuel : nat) (m e a b n k : Z) : Z * Z :=
  match fuel with
  | O => (0, k)
  | S f =>
      let p := n - k in
      let num := a * pow10_den p in
      let den := b * pow10_num p in
      let s0 := num / den in
      let s1 := s0 + 1 in
      let ok s := (10 ^ (k - 1) <=? s) && (s <? 10 ^ k) && rounds_to m e s p in
      match ok s0, ok s1 with
      | true, true =>
          let d0 := num - s0 * den in
          let d1 := s1 * den - num in
          ((if (d0 <? d1) || ((d0 =? d1) && Z.even s0) then s0 else s1), k)
      | true, false => (s0, k)
      | false, true => (s1, k)
      | false, false => shortest f m e a b n (k + 1)
      end
  end.

Definition zeros (n : Z) : jstr := repeat 48 (Z.to_nat n).

(** [Number::toString] for a positive finite number. *)
Definition show_pos (m e : Z) : jstr :=
  let '(a, b) := frac m e in
  let n := decimal_exp_of a b (Z.log2 m + e) in
  let '(s, k) := shortest 17 m e a b n 1 in
  let ds := show_Z s in
  if (k <=? n) && (n <=? 21) then ds ++ zeros (n - k)
  else if (0 <? n) && (n <=? 21) then
    take (Z.to_nat n) ds ++ js "." ++ drop (Z.to_nat n) ds
  else if (-6 <? n) && (n <=? 0) then js "0." ++ zeros (- n) ++ ds
  else
    let ex := n - 1 in
    let tail := (if 0 <=? ex then js "e+" else js "e-") ++ show_Z (Z.abs ex) in
    if k =? 1 then ds ++ tail
    else take 1 ds ++ js "." ++ drop 1 ds ++ tail.

(** [String(n)]. *)
Definition num_to_string (n : number) : jstr :=
  match n with
  | NaN => js "NaN"
  | Infinity neg => if neg then js "-Infinity" else js "Infinity"
  | Fin m e =>
      if m =? 0 then js "0"
      else if m <? 0 then js "-" ++ show_pos (- m) e
      else show_pos m e
  end.

(** ** JSON values

    [JUndef] is [undefined], which only occurs inside values built by code.
    An object is the list of its own enumerable properties, in
    [Object.entries] order. *)
Set Warnings "-register-all".

Inductive json :=
| JUndef
| JNull
| JBool (b : bool)
| JNum (n : number)
| JStr (s : jstr)
| JArr (l : list json)
| JObj (fields : list (jstr * json)).

(** [obj[key]], [JUndef] when the property is absent. *)
Fixpoint lookup_field (k : jstr) (fs : list (jstr * json)) : json :=
  match fs with
  | [] => JUndef
  | (k', v) :: fs' => if decide (k = k') then v else lookup_field k fs'
  end.

Definition is_nullish (v : json) : bool :=
  match v with JUndef | JNull => true | _ => false end.

(** [a ?? b]. *)
Definition nullish (a b : json) : json := if is_nullish a then b else a.

(** [Boolean(v)]. *)
Definition truthy (v : json) : bool :=
  match v with
  | JUndef | JNull => false
  | JBool b => b
  | JNum n => negb (isNaN n || bool_decide (n = Fin 0 0))
  | JStr s => negb (bool_decide (s = []))
  | JArr _ | JObj _ => true
  end.

Definition hex_digit (d : Z) : Z := if d <? 10 then 48 + d else 87 + d.

(** [\uXXXX], lower case. *)
Definition unicode_escape (c : Z) : jstr :=
  js "\u" ++ [hex_digit (c / 4096 mod 16); hex_digit (c / 256 mod 16);
              hex_digit (c / 16 mod 16); hex_digit (c mod 16)].

Definition is_high (c : Z) : bool := (0xd800 <=? c) && (c <=? 0xdbff).
Definition is_low (c : Z) : bool := (0xdc00 <=? c) && (c <=? 0xdfff).

Definition quote_unit (c : Z) : jstr :=
  if c =? 8 then js "\b" else if c =? 9 then js "\t" else if c =? 10 then js "\n"
  else if c =? 12 then js "\f" else if c =? 13 then js "\r"
  else if c =? 34 then [92; 34] else if c =? 92 then [92; 92]
  else if c <? 32 then unicode_escape c
  else [c].

(** The body of QuoteJSONString (ECMA-262 25.5.2.3): surrogate pairs stay,
    lone surrogates are escaped. *)
Fixpoint quote_body (s : jstr) : jstr :=
  match s with
  | [] => []
  | c :: s' =>
      if is_high c then
        match s' with
        | d :: s'' => if is_low d then c :: d :: quote_body s''
                      else unicode_escape c ++ quote_body s'
        | [] => unicode_escape c
        end
      else if is_low c then unicode_escape c ++ quote_body s'
      else quote_unit c ++ quote_body s'
  end.

Definition quote (s : jstr) : jstr := [34] ++ quote_body s ++ [34].

(** [Array.prototype.join]. *)
Fixpoint join (sep : jstr) (l : list jstr) : jstr :=
  match l with
  | [] => []
  | [x] => x
  | x :: l' => x ++ sep ++ join sep l'
  end.

(** [JSON.stringify(v)] of a value other than [undefined]: array holes and
    undefined elements print [null], undefined properties are dropped. *)
Fixpoint stringify (v : json) : jstr :=
  match v with
  | JUndef | JNull => js "null"
  | JBool b => if b then js "true" else js "false"
  | JNum n => if isFinite n then num_to_string n else js "null"
  | JStr s => quote s
  | JArr l => js "[" ++ join (js ",") (map stringify l) ++ js "]"
  | JObj fs =>
      js "{" ++
      join (js ",")
        ((fix go fs := match fs with
          | [] => []
          | (k, JUndef) :: fs' => go fs'
          | (k, v) :: fs' => (quote k ++ js ":" ++ stringify v) :: go fs'
          end) fs) ++ js "}"
  end.

(** [String(v)] *)
Fixpoint String_ (v : json) : jstr :=
  match v with
  | JUndef => js "undefined"
  | JNull => js "null"
  | JBool b => if b then js "true" else js "false"
  | JNum n => num_to_string n
  | JStr s => s
  | JArr l => join (js ",") (map (λ x, match x with JUndef | JNull => [] | _ => String_ x end) l)
  | JObj _ => js "[object Object]"
  end.

(** [v.field] for a value that is an object (absent on anything else). *)
Definition get (v : json) (f : string) : json :=
  match v with JObj fs => lookup_field (js f) fs | _ => JUndef end.

(** [Buffer.byteLength(s)]: UTF-8 length; a lone surrogate is encoded as
    U+FFFD, three bytes. *)
Fixpoint byteLength (s : jstr) : Z :=
  match s with
  | [] => 0
  | c :: s' =>
      if is_high c then
        match s' with
        | d :: s'' => if is_low d then 4 + byteLength s'' else 3 + byteLength s'
        | [] => 3
        end
      else (if c <? 128 then 1 else if c <? 2048 then 2 else 3) + byteLength s'
  end.

(** ** Checks of the printing against known outputs *)

Example show_tenth : num_to_string (Fin 3602879701896397 (-55)) = js "0.1".
Proof. vm_compute. reflexivity. Qed.
Example ratio_tenth : num_ratio 1 10 = Fin 3602879701896397 (-55).
Proof. vm_compute. reflexivity. Qed.
Example ratio_third : num_ratio 1 3 = Fin 6004799503160661 (-54).
Proof. vm_compute. reflexivity. Qed.
Example show_1e21 : num_to_string (num_of_Z (10 ^ 21)) = js "1e+21".
Proof. vm_compute. reflexivity. Qed.
Example show_1e20 : num_to_string (num_of_Z (10 ^ 20)) = js "100000000000000000000".
Proof. vm_compute. reflexivity. Qed.
Example show_min : num_to_string (Fin 1 (-1074)) = js "5e-324".
Proof. vm_compute. reflexivity. Qed.
Example show_third : num_to_string (Fin 6004799503160661 (-54)) = js "0.3333333333333333".
Proof. vm_compute. reflexivity. Qed.
Example show_neg : num_to_string (mk_fin (-10) (-2)) = js "-2.5".
Proof. vm_compute. reflexivity. Qed.
Example show_2p53 : num_to_string (num_of_Z (2 ^ 53 - 1)) = js "9007199254740991".
Proof. vm_compute. reflexivity. Qed.
Example stringify_ex :
  stringify (JObj [(js "a", JNum (num_of_Z 1000)); (js "b", JUndef); (js "c", JArr [JUndef; JStr [233; 10]])])
  = js "{" ++ quote (js "a") ++ js ":1000," ++ quote (js "c") ++ js ":[null," ++ [34; 233; 92; 110; 34] ++ js "]}".
Proof. vm_compute. reflexivity. Qed.

(** ** Lemmas *)

(** Induction on a value with the hypothesis for every element and property. *)
Lemma json_nested_ind (P : json → Prop) :
  P JUndef → P JNull → (∀ b, P (JBool b)) → (∀ n, P (JNum n)) → (∀ s, P (JStr s)) →
  (∀ l, Forall P l → P (JArr l)) → (∀ fs, Forall (λ kv, P kv.2) fs → P (JObj fs)) → ∀ v, P v.
Proof.
  intros H1 H2 H3 H4 H5 H6 H7. fix IH 1. intros [| |b|n|s|l|fs];
    [exact H1|exact H2|apply H3|apply H4|apply H5| |].
  - apply H6. induction l as [|x l IHl]; constructor; [apply IH|exact IHl].
  - apply H7. induction fs as [|[k x] fs IHl]; constructor; [apply IH|exact IHl].
Qed.

Lemma strip_pos_spec p e p' e' :
  strip_pos p e = (p', e') → e ≤ e' ∧ Zpos p' * 2 ^ (e' - e) = Zpos p.
Proof.
  revert e p' e'. induction p as [p IH|p IH|]; intros e p' e' H; simpl in H.
  - injection H as <- <-. rewrite Z.sub_diag. lia.
  - apply IH in H as [Hle Heq]. split; [lia|].
    replace (e' - e) with (Z.succ (e' - (e + 1))) by lia.
    rewrite Z.pow_succ_r by lia. lia.
  - injection H as <- <-. rewrite Z.sub_diag. lia.
Qed.

(** Integers survive the normal form. *)
Lemma num_to_of_Z z : num_to_Z (num_of_Z z) = Some z.
Proof.
  unfold num_of_Z, mk_fin. destruct z as [|p|p]; [done| |];
    destruct (strip_pos p 0) as [p' e'] eqn:E; apply strip_pos_spec in E as [Hle Heq];
    unfold num_to_Z; rewrite (proj2 (Z.leb_le 0 e')) by lia; f_equal;
    rewrite Z.sub_0_r in Heq; lia.
Qed.

Lemma byteLength_nonneg s : 0 ≤ byteLength s.
Proof.
  assert (H : 0 ≤ byteLength s ∧ ∀ c, 0 ≤ byteLength (c :: s)); [|apply H].
  induction s as [|d s [IH1 IH2]]; split; try done.
  - intros c. simpl. destruct (is_high c); [lia|]. destruct (c <? 128), (c <? 2048); lia.
  - intros c. specialize (IH2 d). cbn -[is_high is_low byteLength] in *.
    change (byteLength (c :: d :: s)) with
      (if is_high c then if is_low d then 4 + byteLength s else 3 + byteLength (d :: s)
       else (if c <? 128 then 1 else if c <? 2048 then 2 else 3) + byteLength (d :: s)).
    destruct (is_high c), (is_low d), (c <? 128), (c <? 2048); lia.
Qed.

#[export] Hint Resolve byteLength_nonneg : verilink.
