(* ===== verification/JsText.v ===== *)
(** * Text, bytes and sums of numbers

    What the Node client ([src/client/node/index.ts]) uses of the language
    beyond [Json]: [split], [indexOf], [join] on strings, the UTF-8 and base64
    encodings of [Buffer], and the sum of two binary64 numbers. The encoders are
    the client's own ([b64url] is the function of that name); [unb64url] is their
    inverse, which instantiates the decoder of the runtime in the witnesses. *)

From stdpp Require Import base strings sets list.
From Stdlib Require Import ZArith Lia.
From S2P Require Import Prelude Json.

(** ** Strings *)

(** [s.split(c)] for a one-character separator. *)
Fixpoint split_on (sep : Z) (s : jstr) : list jstr :=
  match s with
  | [] => [[]]
  | c :: s' =>
      if c =? sep then [] :: split_on sep s'
      else match split_on sep s' with
           | p :: ps => (c :: p) :: ps
           | [] => [[c]]
           end
  end.

(** The parts before and after the first [c]: [s.slice(0, i)] and
    [s.slice(i + 1)] for [i = s.indexOf(c)]; [None] when [i < 0]. *)
Fixpoint cut_at (c : Z) (s : jstr) : option (jstr * jstr) :=
  match s with
  | [] => None
  | x :: s' =>
      if x =? c then Some ([], s')
      else match cut_at c s' with Some (a, b) => Some (x :: a, b) | None => None end
  end.

(** [s] without one leading and one trailing double quote (the [replace] of
    line 197, whose expression matches a quote at either end). *)
Definition strip_quotes (s : jstr) : jstr :=
  let s1 := match s with 34 :: r => r | _ => s end in
  match reverse s1 with 34 :: r => reverse r | _ => s1 end.

(** The matches of line 229's expression (a double quote, one or more other
    characters, a double quote), each without its quotes: the state is the text
    read since the quote that may open a match. *)
Fixpoint quoted (inside : option jstr) (s : jstr) : list jstr :=
  match s with
  | [] => []
  | c :: s' =>
      match inside with
      | None => quoted (if c =? 34 then Some [] else None) s'
      | Some acc =>
          if c =? 34 then
            match acc with
            | [] => quoted (Some []) s'
            | _ => acc :: quoted None s'
            end
          else quoted (Some (acc ++ [c])) s'
      end
  end.

(** ** Bytes *)

(** [Buffer.from(s)]: UTF-8; a lone surrogate is encoded as U+FFFD. *)
Definition utf8_unit (c : Z) : list Z :=
  if c <? 128 then [c]
  else if c <? 2048 then [192 + c / 64; 128 + c mod 64]
  else [224 + c / 4096; 128 + c / 64 mod 64; 128 + c mod 64].

Definition replacement : list Z := [239; 191; 189].

Definition utf8_pair (hi lo : Z) : list Z :=
  let c := 0x10000 + (hi - 0xd800) * 1024 + (lo - 0xdc00) in
  [240 + c / 262144; 128 + c / 4096 mod 64; 128 + c / 64 mod 64; 128 + c mod 64].

Fixpoint utf8 (s : jstr) : list Z :=
  match s with
  | [] => []
  | c :: s' =>
      if is_high c then
        match s' with
        | d :: s'' => if is_low d then utf8_pair c d ++ utf8 s'' else replacement ++ utf8 s'
        | [] => replacement
        end
      else (if is_low c then replacement else utf8_unit c) ++ utf8 s'
  end.

(** The character of a sextet in the standard alphabet. *)
Definition b64_char (n : Z) : Z :=
  if n <? 26 then 65 + n else if n <? 52 then 71 + n else if n <? 62 then n - 4
  else if n =? 62 then 43 else 47.

(** [buf.toString('base64')] *)
Fixpoint base64 (bs : list Z) : jstr :=
  match bs with
  | a :: b :: c :: r =>
      [b64_char (a / 4); b64_char (a mod 4 * 16 + b / 16);
       b64_char (b mod 16 * 4 + c / 64); b64_char (c mod 64)] ++ base64 r
  | [a; b] => [b64_char (a / 4); b64_char (a mod 4 * 16 + b / 16); b64_char (b mod 16 * 4); 61]
  | [a] => [b64_char (a / 4); b64_char (a mod 4 * 16); 61; 61]
  | [] => []
  end.

(** [s.replace(/x/g, y)] for single characters. *)
Definition replace_char (x y : Z) (s : jstr) : jstr := (λ c, if c =? x then y else c) <$> s.
Definition remove_char (x : Z) (s : jstr) : jstr := filter (λ c, c ≠ x) s.

Definition b64url (bs : list Z) : jstr :=
  remove_char 61 (replace_char 47 95 (replace_char 43 45 (base64 bs))).

(** The inverse on strings [b64url] produces. *)
Definition b64_value (c : Z) : Z :=
  if (65 <=? c) && (c <=? 90) then c - 65
  else if (97 <=? c) && (c <=? 122) then c - 71
  else if is_digit c then c + 4
  else if c =? 45 then 62 else 63.

Fixpoint unb64url (s : jstr) : list Z :=
  match s with
  | p :: q :: r :: t :: s' =>
      let p := b64_value p in let q := b64_value q in let r := b64_value r in let t := b64_value t in
      [p * 4 + q / 16; q mod 16 * 16 + r / 4; r mod 4 * 64 + t] ++ unb64url s'
  | [p; q; r] =>
      let p := b64_value p in let q := b64_value q in let r := b64_value r in
      [p * 4 + q / 16; q mod 16 * 16 + r / 4]
  | [p; q] => [b64_value p * 4 + b64_value q / 16]
  | _ => []
  end.

(** [Buffer.from(s, 'hex')]: pairs of hex digits, up to the first that is not. *)
Definition hex_value (c : Z) : option Z :=
  if is_digit c then Some (c - 48)
  else if (97 <=? c) && (c <=? 102) then Some (c - 87)
  else if (65 <=? c) && (c <=? 70) then Some (c - 55)
  else None.

Fixpoint hex_bytes (s : jstr) : list Z :=
  match s with
  | a :: b :: s' =>
      match hex_value a, hex_value b with
      | Some x, Some y => (16 * x + y) :: hex_bytes s'
      | _, _ => []
      end
  | _ => []
  end.

(** ** Sums *)

(** [a + b] in binary64: the exact sum, rounded to 53 bits (a sum of two
    binary64 numbers is a multiple of the least subnormal, so no bits are lost
    below it) and infinite from [2^1024] on. *)
Definition num_neg (n : number) : number :=
  match n with NaN => NaN | Infinity s => Infinity (negb s) | Fin m e => Fin (- m) e end.

Definition round53 (m e : Z) : number :=
  let '(a, b) := frac (Z.abs m) e in
  let r := num_ratio a b in
  let r := if num_ltb r (Fin 1 1024) then r else Infinity false in
  if m <? 0 then num_neg r else r.

Definition num_add (x y : number) : number :=
  match x, y with
  | NaN, _ | _, NaN => NaN
  | Infinity s, Infinity t => if Bool.eqb s t then Infinity s else NaN
  | Infinity s, _ | _, Infinity s => Infinity s
  | Fin m1 e1, Fin m2 e2 =>
      let e := Z.min e1 e2 in round53 (m1 * 2 ^ (e1 - e) + m2 * 2 ^ (e2 - e)) e
  end.

Definition num_sub (x y : number) : number := num_add x (num_neg y).

(** [Boolean(n)] *)
Definition truthy_num (n : number) : bool := negb (isNaN n || bool_decide (n = Fin 0 0)).

(** ** Splitting *)

Lemma split_on_clean sep s : sep ∉ s → split_on sep s = [s].
Proof.
  induction s as [|c s IH]; [done|]. rewrite not_elem_of_cons. intros [Hc Hs]. simpl.
  rewrite (proj2 (Z.eqb_neq c sep)) by congruence. by rewrite IH.
Qed.

Lemma split_on_app sep a b : sep ∉ a → split_on sep (a ++ sep :: b) = a :: split_on sep b.
Proof.
  induction a as [|c a IH]; simpl; [by rewrite Z.eqb_refl|].
  rewrite not_elem_of_cons. intros [Hc Ha]. rewrite (proj2 (Z.eqb_neq c sep)) by congruence. by rewrite IH.
Qed.

Lemma cut_at_app c a b : c ∉ a → cut_at c (a ++ c :: b) = Some (a, b).
Proof.
  induction a as [|x a IH]; simpl; [by rewrite Z.eqb_refl|].
  rewrite not_elem_of_cons. intros [Hc Ha]. rewrite (proj2 (Z.eqb_neq x c)) by congruence. by rewrite IH.
Qed.

Lemma strip_quotes_quoted s : strip_quotes (34 :: s ++ [34]) = s.
Proof. unfold strip_quotes. rewrite reverse_app. simpl. apply reverse_involutive. Qed.

Lemma strip_quotes_clean s : 34 ∉ s → strip_quotes s = s.
Proof.
  intros H. unfold strip_quotes.
  assert (match s with 34 :: r => r | _ => s end = s) as ->.
  { destruct s as [|c s]; [done|]. apply not_elem_of_cons in H as [H _].
    destruct (decide (c = 34)) as [->|]; [done|]. repeat case_match; congruence. }
  destruct (reverse s) as [|c r] eqn:E; [done|].
  assert (c ≠ 34). { intros ->. apply H. rewrite <- (reverse_involutive s), E, reverse_cons. set_solver. }
  repeat case_match; congruence.
Qed.

Lemma quoted_item acc n r : 34 ∉ n → acc ++ n ≠ [] → quoted (Some acc) (n ++ 34 :: r) = (acc ++ n) :: quoted None r.
Proof.
  revert acc. induction n as [|c n IH]; intros acc Hn Hne.
  - rewrite app_nil_r in *. simpl. by destruct acc.
  - apply not_elem_of_cons in Hn as [Hc Hn]. simpl. rewrite (proj2 (Z.eqb_neq c 34)) by congruence.
    rewrite IH; [by rewrite <- app_assoc|done|]. by rewrite <- app_assoc.
Qed.

(** The quoted names of a space-separated list of quoted names. *)
Lemma quoted_names ns :
  Forall (λ n, n ≠ [] ∧ 34 ∉ n) ns → quoted None (join [32] ((λ n, 34 :: n ++ [34]) <$> ns)) = ns.
Proof.
  induction 1 as [|n ns [Hne Hq] _ IH]; [done|]. simpl fmap.
  destruct ns as [|m ns].
  - simpl. by rewrite (quoted_item [] n []).
  - change (quoted None (34 :: (n ++ [34]) ++ 32 :: join [32] ((λ n, 34 :: n ++ [34]) <$> m :: ns)) = n :: m :: ns).
    rewrite <- app_assoc. cbn [quoted Z.eqb Pos.eqb app]. rewrite (quoted_item [] n) by done.
    by f_equal.
Qed.

(** ** Base64 *)

Definition byte (b : Z) : Prop := 0 ≤ b < 256.

Definition url_char (n : Z) : Z :=
  if n <? 26 then 65 + n else if n <? 52 then 71 + n else if n <? 62 then n - 4
  else if n =? 62 then 45 else 95.

Definition swap_char (c : Z) : Z := let c := if c =? 43 then 45 else c in if c =? 47 then 95 else c.

Ltac split_ifs :=
  cbv zeta;
  repeat (match goal with
  | |- context [Z.ltb ?a ?b] => destruct (Z.ltb_spec a b)
  | |- context [Z.leb ?a ?b] => destruct (Z.leb_spec a b)
  | |- context [Z.eqb ?a ?b] =>
      lazymatch a with context [if _ then _ else _] => fail | _ => destruct (Z.eqb_spec a b) end
  end; cbv iota).

Lemma swap_b64_char n : 0 ≤ n < 64 → swap_char (b64_char n) = url_char n.
Proof. intros H. unfold swap_char, b64_char, url_char. split_ifs; lia. Qed.

Lemma url_char_neq n c : 0 ≤ n < 64 → c ∈ [34; 46; 59; 61] → url_char n ≠ c.
Proof. intros H Hc. unfold url_char. split_ifs; rewrite !elem_of_cons, elem_of_nil in Hc; lia. Qed.

Lemma b64_value_url n : 0 ≤ n < 64 → b64_value (url_char n) = n.
Proof. intros H. unfold b64_value, url_char, is_digit. split_ifs; simpl; try done; lia. Qed.

Lemma b64url_swap bs : b64url bs = filter (λ c, c ≠ 61) (swap_char <$> base64 bs).
Proof. unfold b64url, remove_char, replace_char. by rewrite <- list_fmap_compose. Qed.

(** The sextets of a byte string, without padding. *)
Fixpoint sextets (bs : list Z) : list Z :=
  match bs with
  | a :: b :: c :: r => [a / 4; a mod 4 * 16 + b / 16; b mod 16 * 4 + c / 64; c mod 64] ++ sextets r
  | [a; b] => [a / 4; a mod 4 * 16 + b / 16; b mod 16 * 4]
  | [a] => [a / 4; a mod 4 * 16]
  | [] => []
  end.

Lemma triple_ind (P : list Z → Prop) :
  P [] → (∀ a, P [a]) → (∀ a b, P [a; b]) → (∀ a b c r, P r → P (a :: b :: c :: r)) → ∀ bs, P bs.
Proof.
  intros H0 H1 H2 H3. fix IH 1. intros [|a [|b [|c r]]]; [exact H0|exact (H1 a)|exact (H2 a b)|].
  exact (H3 a b c r (IH r)).
Qed.

Ltac zdiv := Z.div_mod_to_equations; lia.

Lemma sextets_bound bs : Forall byte bs → Forall (λ n, 0 ≤ n < 64) (sextets bs).
Proof.
  unfold byte. induction bs using triple_ind; simpl; intros H;
    repeat match goal with H : Forall _ (_ :: _) |- _ => apply Forall_cons in H as [? ?] end;
    repeat constructor; try zdiv. auto.
Qed.

Lemma b64url_sextets bs : Forall byte bs → b64url bs = url_char <$> sextets bs.
Proof.
  rewrite b64url_swap. intros H. pose proof (sextets_bound bs H) as Hs. clear H.
  assert (Hf : ∀ n l, 0 ≤ n < 64 → filter (λ c, c ≠ 61) (swap_char (b64_char n) :: l) = url_char n :: filter (λ c, c ≠ 61) l).
  { intros n l Hn. rewrite swap_b64_char by done. apply filter_cons_True. apply url_char_neq; set_solver. }
  induction bs using triple_ind; [done| | |]; cbn [sextets app] in Hs;
    repeat match goal with H : Forall _ (_ :: _) |- _ => apply Forall_cons in H as [? ?] end;
    cbn [base64 fmap list_fmap app sextets].
  - by rewrite !Hf.
  - by rewrite !Hf.
  - rewrite !Hf by done. do 4 f_equal. by apply IHbs.
Qed.

(** Decoding undoes encoding. *)
Lemma unb64url_b64url bs : Forall byte bs → unb64url (b64url bs) = bs.
Proof.
  intros H. rewrite b64url_sextets by done. pose proof (sextets_bound bs H) as Hs.
  revert H Hs. unfold byte. induction bs using triple_ind; intros H Hs; [done| | |]; cbn [sextets app] in Hs;
    repeat match goal with H : Forall _ (_ :: _) |- _ => apply Forall_cons in H as [? ?] end;
    cbn [sextets fmap list_fmap app unb64url]; rewrite !b64_value_url by done.
  - f_equal. zdiv.
  - repeat f_equal; zdiv.
  - rewrite IHbs by done. repeat f_equal; zdiv.
Qed.

Lemma b64url_clean bs c : Forall byte bs → c ∈ [34; 46; 59; 61] → c ∉ b64url bs.
Proof.
  intros H Hc. rewrite b64url_sextets by done. intros (n & -> & Hn)%list_elem_of_fmap.
  pose proof (sextets_bound bs H) as Hs. rewrite Forall_forall in Hs. by eapply url_char_neq; [apply Hs| |].
Qed.

(** Induction for functions that look at two units at once. *)
Lemma two_step_ind (P : jstr → Prop) :
  P [] → (∀ c, P [c]) → (∀ c d s, P s → P (d :: s) → P (c :: d :: s)) → ∀ s, P s.
Proof.
  intros H0 H1 H2 s. assert (H : P s ∧ ∀ c, P (c :: s)); [|by destruct H].
  induction s as [|d s [IH1 IH2]]; [done|]. split; [done|]. intros c. apply H2; [done|apply IH2].
Qed.

Lemma utf8_length s : Z.of_nat (length (utf8 s)) = byteLength s.
Proof.
  enough (∀ n s, (length s < n)%nat → Z.of_nat (length (utf8 s)) = byteLength s) by eauto.
  clear s. induction n as [|n IH]; intros s Hn; [lia|]. destruct s as [|c s]; [done|]. simpl in Hn.
  cbn [utf8 byteLength]. destruct (is_high c) eqn:Eh.
  - destruct s as [|d s]; [done|]. simpl in Hn. destruct (is_low d); rewrite length_app, Nat2Z.inj_add, IH by (simpl; lia); done.
  - rewrite length_app, Nat2Z.inj_add, IH by lia. f_equal. unfold utf8_unit, is_low.
    split_ifs; simpl; try done; lia.
Qed.

(** ** Sums and comparisons of integers *)

Lemma mk_fin_double m e : mk_fin (2 * m) e = mk_fin m (e + 1).
Proof. by destruct m. Qed.

Lemma mk_fin_shift m k e : 0 ≤ k → mk_fin (m * 2 ^ k) e = mk_fin m (e + k).
Proof.
  intros Hk. revert e. pattern k. apply natlike_ind; [| |done].
  { intros e. by rewrite Z.pow_0_r, Z.mul_1_r, Z.add_0_r. }
  clear k Hk. intros k Hk IH e. rewrite Z.pow_succ_r by done.
  replace (m * (2 * 2 ^ k)) with (2 * (m * 2 ^ k)) by ring. rewrite mk_fin_double, IH. f_equal. lia.
Qed.

Definition safe_int (z : Z) : Prop := - 2 ^ 53 < z < 2 ^ 53.

Lemma num_ratio_int z : 0 ≤ z < 2 ^ 53 → num_ratio z 1 = num_of_Z z.
Proof.
  intros Hz. unfold num_ratio. destruct (Z.eqb_spec z 0) as [->|Hne]; [done|].
  destruct (Z.log2_spec z) as [Hlo Hhi]; [lia|].
  assert (Hl : 0 ≤ Z.log2 z < 53). { split; [apply Z.log2_nonneg|]. apply Z.log2_lt_pow2; lia. }
  set (l := Z.log2 z) in *. change (Z.log2 1) with 0. cbv zeta.
  replace (l - 0 - 53) with (l - 53) by lia. rewrite (proj2 (Z.leb_gt 0 (l - 53))) by lia.
  replace (- (l - 53)) with (53 - l) by lia.
  assert (Hn : 2 ^ 53 ≤ z * 2 ^ (53 - l)).
  { replace (2 ^ 53) with (2 ^ l * 2 ^ (53 - l)) by (rewrite <- Z.pow_add_r by lia; f_equal; lia).
    apply Z.mul_le_mono_nonneg_r; [|lia]. apply Z.pow_nonneg. lia. }
  rewrite (proj2 (Z.leb_le (1 * 2 ^ 53) _)) by lia.
  assert (Hr : ∀ n e, n / 1 = n ∧ n mod 1 = 0 → mk_fin (if (1 <? 2 * (n mod 1)) || ((2 * (n mod 1) =? 1) && Z.odd (n / 1))
     then n / 1 + 1 else n / 1) e = mk_fin n e) by (intros n e [-> ->]; done).
  destruct (Z.leb_spec 0 (l - 53 + 1)).
  - assert (l = 52) by lia. subst l. replace (Z.log2 z - 53 + 1) with 0 by lia.
    change (1 * 2 ^ 0) with 1. rewrite Hr by (rewrite Z.div_1_r, Z.mod_1_r; done). done.
  - rewrite Hr by (rewrite Z.div_1_r, Z.mod_1_r; done).
    rewrite mk_fin_shift by lia. unfold num_of_Z. f_equal. lia.
Qed.

(** An integer's normal form. *)
Lemma num_of_Z_Fin z : ∃ m e, num_of_Z z = Fin m e ∧ 0 ≤ e ∧ m * 2 ^ e = z.
Proof.
  unfold num_of_Z. destruct z as [|p|p]; [by exists 0, 0| |]; simpl;
    destruct (strip_pos p 0) as [p' e'] eqn:E; apply strip_pos_spec in E as [Hle Heq]; rewrite Z.sub_0_r in Heq.
  - by exists (Zpos p'), e'.
  - exists (Zneg p'), e'. split_and!; [done..|]. change (Zneg p') with (- Zpos p'). rewrite Z.mul_opp_l, Heq. done.
Qed.

Lemma fin_compare_int m1 e1 m2 e2 : 0 ≤ e1 → 0 ≤ e2 → fin_compare m1 e1 m2 e2 = (m1 * 2 ^ e1 ?= m2 * 2 ^ e2).
Proof.
  intros H1 H2. unfold fin_compare. set (e := Z.min e1 e2). assert (Hp : 0 < 2 ^ e) by (apply Z.pow_pos_nonneg; lia).
  replace (2 ^ e1) with (2 ^ (e1 - e) * 2 ^ e) by (rewrite <- Z.pow_add_r by lia; f_equal; lia).
  replace (2 ^ e2) with (2 ^ (e2 - e) * 2 ^ e) by (rewrite <- Z.pow_add_r by lia; f_equal; lia).
  rewrite !Z.mul_assoc. apply Zmult_compare_compat_r. lia.
Qed.

Lemma num_ltb_int a b : num_ltb (num_of_Z a) (num_of_Z b) = (a <? b).
Proof.
  destruct (num_of_Z_Fin a) as (m1 & e1 & -> & H1 & <-), (num_of_Z_Fin b) as (m2 & e2 & -> & H2 & <-).
  simpl. rewrite fin_compare_int by done. unfold Z.ltb. by destruct (_ ?= _).
Qed.

Lemma num_neg_int z : num_neg (num_of_Z z) = num_of_Z (- z).
Proof. destruct z as [|p|p]; [done| |]; unfold num_of_Z; simpl; by destruct (strip_pos p 0). Qed.

Lemma num_add_int a b : safe_int (a + b) → num_add (num_of_Z a) (num_of_Z b) = num_of_Z (a + b).
Proof.
  unfold safe_int. destruct (num_of_Z_Fin a) as (m1 & e1 & -> & H1 & <-), (num_of_Z_Fin b) as (m2 & e2 & -> & H2 & <-).
  intros Hs. simpl. set (e := Z.min e1 e2).
  assert (Hv : (m1 * 2 ^ (e1 - e) + m2 * 2 ^ (e2 - e)) * 2 ^ e = m1 * 2 ^ e1 + m2 * 2 ^ e2).
  { rewrite Z.mul_add_distr_r, <- !Z.mul_assoc, <- !Z.pow_add_r by lia. do 2 f_equal; f_equal; lia. }
  set (s := _ + m2 * 2 ^ (e2 - e)) in *. assert (0 < 2 ^ e) by (apply Z.pow_pos_nonneg; lia).
  unfold round53, frac. rewrite (proj2 (Z.leb_le 0 e)) by lia.
  replace (Z.abs s * 2 ^ e) with (Z.abs (m1 * 2 ^ e1 + m2 * 2 ^ e2)) by (rewrite <- Hv, Z.abs_mul; lia).
  rewrite num_ratio_int by lia.
  change (Fin 1 1024) with (num_of_Z (2 ^ 1024)). rewrite num_ltb_int, (proj2 (Z.ltb_lt _ (2 ^ 1024))).
  2: { apply Z.lt_trans with (2 ^ 53); [lia|]. reflexivity. }
  rewrite <- Hv. destruct (Z.ltb_spec s 0).
  - rewrite num_neg_int. f_equal. nia.
  - f_equal. nia.
Qed.

Lemma num_sub_int a b : safe_int (a - b) → num_sub (num_of_Z a) (num_of_Z b) = num_of_Z (a - b).
Proof. intros H. unfold num_sub. rewrite num_neg_int. by apply num_add_int. Qed.

Lemma truthy_num_int z : truthy_num (num_of_Z z) = negb (z =? 0).
Proof.
  destruct (Z.eqb_spec z 0) as [->|Hne]; [done|].
  destruct (num_of_Z_Fin z) as (m & e & E & He & Hz). unfold truthy_num. rewrite E. simpl.
  rewrite bool_decide_false; [done|]. intros [= -> ->]. lia.
Qed.

(** ** The characters of a printed number *)

(** None of the characters the header grammar reserves. *)
Definition plain (c : Z) : bool := negb (is_space c || bool_decide (c ∈ [34; 59; 61])).

Lemma digit_plain c : is_digit c = true → plain c = true.
Proof.
  intros H. unfold plain. rewrite digit_not_space by done. simpl. apply negb_true_iff, bool_decide_eq_false.
  unfold is_digit in H. bool_to_prop. rewrite !elem_of_cons, elem_of_nil. lia.
Qed.

Lemma forallb_digit_plain s : forallb is_digit s = true → forallb plain s = true.
Proof. rewrite !forallb_forall. eauto using digit_plain. Qed.

Lemma show_digits_plain fuel n acc : forallb plain acc = true → forallb plain (show_digits fuel n acc) = true.
Proof.
  revert n acc. induction fuel as [|f IH]; intros n acc H; [done|]. simpl.
  assert (plain (48 + n mod 10) = true).
  { apply digit_plain. unfold is_digit. pose proof (Z.mod_pos_bound n 10). apply andb_true_iff. rewrite !Z.leb_le. lia. }
  case_match; [|apply IH]; simpl; by apply andb_true_iff.
Qed.

Lemma show_Z_plain n : forallb plain (show_Z n) = true.
Proof. unfold show_Z, show_nonneg. case_match; [apply andb_true_iff; split; [done|]|]; by apply show_digits_plain. Qed.

Lemma zeros_plain n : forallb plain (zeros n) = true.
Proof. unfold zeros. by induction (Z.to_nat n). Qed.

Lemma forallb_take_drop {A} (p : A → bool) n l :
  forallb p l = true → forallb p (take n l) = true ∧ forallb p (drop n l) = true.
Proof. intros H. rewrite <- (take_drop n l), forallb_app, andb_true_iff in H. done. Qed.

Lemma show_pos_plain m e : forallb plain (show_pos m e) = true.
Proof.
  unfold show_pos. destruct (frac m e) as [a b]. destruct (shortest _ _ _ _ _ _ _) as [s k].
  set (n := decimal_exp_of _ _ _). clearbody n. pose proof (show_Z_plain s) as Hs.
  pose proof (λ i, proj1 (forallb_take_drop plain i _ Hs)) as Ht. pose proof (λ i, proj2 (forallb_take_drop plain i _ Hs)) as Hd.
  repeat case_match; rewrite ?forallb_app, ?Hs, ?Ht, ?Hd, ?zeros_plain, ?show_Z_plain; reflexivity.
Qed.

Lemma num_to_string_plain n : forallb plain (num_to_string n) = true.
Proof.
  destruct n as [|[]|m e]; [reflexivity..|]. unfold num_to_string. repeat case_match; rewrite ?forallb_app, ?show_pos_plain; reflexivity.
Qed.

Lemma plain_not_in s c : forallb plain s = true → c ∈ [34; 59; 61] → c ∉ s.
Proof.
  rewrite forallb_forall. intros H Hc Hin. apply list_elem_of_In, H in Hin. unfold plain in Hin.
  apply negb_true_iff, orb_false_iff in Hin as [_ Hin]. by apply bool_decide_eq_false in Hin.
Qed.

Lemma plain_trim s : forallb plain s = true → trim s = s.
Proof.
  intros H. rewrite <- (app_nil_r s) at 1. apply (trim_padded [] s []); [done..|].
  rewrite forallb_forall in *. intros c Hc%H. unfold plain in Hc. apply negb_true_iff, orb_false_iff in Hc as [-> _]. done.
Qed.
