(* ===== verification/GoText.v ===== *)
(** * What the Go edge uses of its standard library

    The edge verifier ([src/internal/edgeverifier]) reads what the control plane
    writes.  This file has the parts of [strconv], [strings], [encoding/base64] and
    [encoding/json] it reads with, as executable definitions on the same strings
    and JSON values as the rest of the library: [strconv.ParseInt(s, 10, 64)],
    [strings.TrimSpace], the three base64 decoders of [DecodePublicKeyRaw], and the
    decoding of one struct field.  Decoding the text of a JSON document into a
    value stays a parameter of the files that need it.

    The main lemmas say that the two languages agree: an integer below 2^53 that
    JavaScript prints is the integer [ParseInt] reads, and [StdEncoding] decodes
    what [encode(bytes, 'base64')] produced. *)

From stdpp Require Import base strings list.
From Stdlib Require Import ZArith Lia.
From S2P Require Import Prelude Json JsText.

(** ** Numbers *)

Definition INT64_MAX : Z := 9223372036854775807.

Definition int64 (z : Z) : Prop := - INT64_MAX - 1 ≤ z ≤ INT64_MAX.

(** [strconv.ParseInt(s, 10, 64)]: an optional sign, then decimal digits. *)
Definition parse_int64 (s : jstr) : option Z :=
  let '(neg, ds) := match s with
                    | 45 :: r => (true, r)
                    | 43 :: r => (false, r)
                    | _ => (false, s)
                    end in
  if all_digits ds then
    let z := if neg : bool then - digits_value ds else digits_value ds in
    if (- INT64_MAX - 1 <=? z) && (z <=? INT64_MAX) then Some z else None
  else None.

(** [isValidNumber]: the number syntax of JSON. *)
Definition skip_digits (s : jstr) : jstr := drop_while is_digit s.

Definition valid_exponent (s : jstr) : bool :=
  match s with
  | [] => true
  | c :: r =>
      if (c =? 101) || (c =? 69) then
        let r := match r with 43 :: r' | 45 :: r' => r' | _ => r end in
        all_digits r
      else false
  end.

Definition valid_fraction (s : jstr) : bool :=
  match s with
  | 46 :: d :: r => if is_digit d then valid_exponent (skip_digits r) else false
  | _ => valid_exponent s
  end.

Definition isValidNumber (s : jstr) : bool :=
  match (match s with 45 :: r => r | _ => s end) with
  | 48 :: r => valid_fraction r
  | c :: r => if (49 <=? c) && (c <=? 57) then valid_fraction (skip_digits r) else false
  | [] => false
  end.

(** ** Strings *)

(** [unicode.IsSpace]. *)
Definition go_space (c : Z) : bool :=
  ((9 <=? c) && (c <=? 13)) || (c =? 32) || (c =? 133) || (c =? 160) || (c =? 5760)
  || ((8192 <=? c) && (c <=? 8202)) || (c =? 8232) || (c =? 8233) || (c =? 8239) || (c =? 8287) || (c =? 12288).

Definition trim_right (p : Z → bool) (s : jstr) : jstr := reverse (drop_while p (reverse s)).
Definition TrimSpace (s : jstr) : jstr := trim_right go_space (drop_while go_space s).

(** [strings.HasPrefix(s, p)] with the rest of [s]. *)
Fixpoint strip_prefix (p s : jstr) : option jstr :=
  match p, s with
  | [], _ => Some s
  | x :: p', y :: s' => if x =? y then strip_prefix p' s' else None
  | _ :: _, [] => None
  end.

(** ** Base64 *)

(** The sextet of a character; the alphabets differ in the last two. *)
Definition sextet (c62 c63 c : Z) : option Z :=
  if (65 <=? c) && (c <=? 90) then Some (c - 65)
  else if (97 <=? c) && (c <=? 122) then Some (c - 71)
  else if is_digit c then Some (c + 4)
  else if c =? c62 then Some 62 else if c =? c63 then Some 63 else None.

Definition bytes1 (p q : Z) : list Z := [p * 4 + q / 16].
Definition bytes2 (p q r : Z) : list Z := [p * 4 + q / 16; q mod 16 * 16 + r / 4].
Definition bytes3 (p q r t : Z) : list Z := [p * 4 + q / 16; q mod 16 * 16 + r / 4; r mod 4 * 64 + t].

(** With padding every group has four characters; without, the last has two or
    three.  Bits left over in the last sextet are ignored (not [Strict]). *)
Fixpoint decode_groups (val : Z → option Z) (padded : bool) (s : jstr) : option (list Z) :=
  match s with
  | [] => Some []
  | a :: b :: c :: d :: r =>
      p ← val a; q ← val b;
      if padded && (d =? 61) then
        if bool_decide (r = []) then
          if c =? 61 then Some (bytes1 p q) else x ← val c; Some (bytes2 p q x)
        else None
      else x ← val c; t ← val d; bs ← decode_groups val padded r; Some (bytes3 p q x t ++ bs)
  | [a; b; c] => if padded then None else p ← val a; q ← val b; x ← val c; Some (bytes2 p q x)
  | [a; b] => if padded then None else p ← val a; q ← val b; Some (bytes1 p q)
  | [_] => None
  end.

(** Line breaks are skipped. *)
Definition decode64 (c62 c63 : Z) (padded : bool) (s : jstr) : option (list Z) :=
  decode_groups (sextet c62 c63) padded (filter (λ c, c ≠ 10 ∧ c ≠ 13) s).

Definition StdEncoding : jstr → option (list Z) := decode64 43 47 true.
Definition RawStdEncoding : jstr → option (list Z) := decode64 43 47 false.
Definition RawURLEncoding : jstr → option (list Z) := decode64 45 95 false.

(** ** Struct fields

    [json.Unmarshal] of a value into a field: an absent property or null leaves the
    zero value, a value of another type is an error.  The decoder also accepts
    other capitalisations of a property name, which the control plane never sends. *)

Definition go_int (v : json) : result jstr Z :=
  match v with
  | JUndef | JNull => Ok 0
  | JNum n => match parse_int64 (num_to_string n) with
              | Some z => Ok z
              | None => Throw (js "cannot unmarshal number into int")
              end
  | _ => Throw (js "cannot unmarshal into int")
  end.

Definition go_string (v : json) : result jstr jstr :=
  match v with JUndef | JNull => Ok [] | JStr s => Ok s | _ => Throw (js "cannot unmarshal into string") end.

(** A field of type [*string]. *)
Definition go_string_ptr (v : json) : result jstr (option jstr) :=
  match v with JUndef | JNull => Ok None | JStr s => Ok (Some s) | _ => Throw (js "cannot unmarshal into string") end.

Definition go_bool (v : json) : result jstr bool :=
  match v with JUndef | JNull => Ok false | JBool b => Ok b | _ => Throw (js "cannot unmarshal into bool") end.

Fixpoint go_elems {W A} (f : W → result jstr A) (l : list W) : result jstr (list A) :=
  match l with [] => Ok [] | v :: l' => s ← f v; ss ← go_elems f l'; Ok (s :: ss) end.

(** A field of slice type. *)
Definition go_slice {A} (f : json → result jstr A) (v : json) : result jstr (list A) :=
  match v with JUndef | JNull => Ok [] | JArr l => go_elems f l | _ => Throw (js "cannot unmarshal into slice") end.

(** A field of type [json.Number] is the text of a number, or a string that is one. *)
Definition go_Number (v : json) : result jstr jstr :=
  match v with
  | JUndef | JNull => Ok []
  | JNum n => Ok (num_to_string n)
  | JStr s => if isValidNumber s then Ok s else Throw (js "invalid number literal")
  | _ => Throw (js "cannot unmarshal into Number")
  end.

(** A value decoded into a struct: an object, or null, which changes nothing. *)
Definition go_struct (v : json) : result jstr json :=
  match v with JObj _ | JNull => Ok v | _ => Throw (js "cannot unmarshal into struct") end.

(** ** JavaScript's integers are Go's integers *)

Lemma log2_shift m e : 0 < m → 0 ≤ e → Z.log2 m + e = Z.log2 (m * 2 ^ e).
Proof. intros. rewrite Z.log2_mul_pow2; lia. Qed.

(** The estimate of the number of digits is at most three below it. *)
Lemma digits_estimate lg : 0 ≤ lg < 53 →
  let n0 := lg * 30103 / 100000 - 1 in
  -1 ≤ n0 ∧ n0 ≤ 14 ∧ 10 ^ n0 ≤ 2 ^ lg ∧ 2 ^ (lg + 1) ≤ 10 ^ (n0 + 3).
Proof.
  intros Hlg. assert (H : forallb (λ lg, let n0 := lg * 30103 / 100000 - 1 in
    (-1 <=? n0) && (n0 <=? 14) && (10 ^ n0 <=? 2 ^ lg) && (2 ^ (lg + 1) <=? 10 ^ (n0 + 3))) (seqZ 0 53) = true)
    by (vm_compute; reflexivity).
  rewrite forallb_forall in H. specialize (H lg ltac:(apply list_elem_of_In, elem_of_seqZ; lia)).
  cbv zeta in *. bool_to_prop. lia.
Qed.

Lemma decimal_exp_spec fuel z n :
  1 ≤ z → -1 ≤ n → 10 ^ n ≤ z → z < 10 ^ (n + Z.of_nat fuel) →
  let r := decimal_exp (S fuel) z 1 n in
  n ≤ r ≤ n + Z.of_nat fuel ∧ 1 ≤ r ∧ 10 ^ (r - 1) ≤ z < 10 ^ r.
Proof.
  revert n. induction fuel as [|f IH]; intros n Hz Hn Hlo Hhi.
  { rewrite Z.add_0_r in Hhi. lia. }
  assert (Hneg : n ≠ -1 ∨ n = -1) by lia.
  change (decimal_exp (S (S f)) z 1 n) with
    (if z * pow10_den n <? 1 * pow10_num n then n else decimal_exp (S f) z 1 (n + 1)).
  assert (Hf : (z * pow10_den n <? 1 * pow10_num n) = false).
  { apply Z.ltb_ge. unfold pow10_den, pow10_num. destruct (Z.leb_spec 0 n); [lia|].
    assert (n = -1) as -> by lia. simpl. lia. }
  rewrite Hf. destruct (Z.ltb_spec z (10 ^ (n + 1))) as [Hlt|Hge].
  - assert (Hn0 : 0 ≤ n) by (destruct (Z.leb_spec 0 n); [done|]; assert (n = -1) as -> by lia; simpl in Hlt; lia).
    assert (Hr : decimal_exp (S f) z 1 (n + 1) = n + 1).
    { cbn [decimal_exp]. unfold pow10_den, pow10_num. rewrite (proj2 (Z.leb_le _ _)) by lia.
      rewrite (proj2 (Z.ltb_lt _ _)) by lia. done. }
    rewrite Hr. cbv zeta. replace (n + 1 - 1) with n by lia. lia.
  - specialize (IH (n + 1) Hz ltac:(lia) Hge).
    replace (n + 1 + Z.of_nat f) with (n + Z.of_nat (S f)) in IH by lia. specialize (IH Hhi). cbv zeta in *. lia.
Qed.

Lemma decimal_exp_int z : 1 ≤ z < 2 ^ 53 →
  let n := decimal_exp_of z 1 (Z.log2 z) in 1 ≤ n ≤ 17 ∧ 10 ^ (n - 1) ≤ z < 10 ^ n.
Proof.
  intros Hz. assert (Hlg : 0 ≤ Z.log2 z < 53).
  { split; [apply Z.log2_nonneg|]. apply Z.log2_lt_pow2; lia. }
  destruct (digits_estimate _ Hlg) as (H1 & H2 & H3 & H4).
  pose proof (Z.log2_spec z ltac:(lia)) as Hs. rewrite <- Z.add_1_r in Hs.
  unfold decimal_exp_of. destruct (decimal_exp_spec 3 z (Z.log2 z * 30103 / 100000 - 1)) as (Ha & Hb & Hc); lia.
Qed.

(** Below 2^53 a decimal without fraction rounds to the integer only if it is the
    integer. *)
Lemma rounds_to_int m e s p : 0 < m → 0 ≤ e → m * 2 ^ e < 2 ^ 53 → 0 ≤ p →
  rounds_to m e s p = bool_decide (s * 10 ^ p = m * 2 ^ e).
Proof.
  intros Hm He Hz Hp. unfold rounds_to. rewrite log2_shift by done. set (z := m * 2 ^ e) in *.
  assert (Hlg : Z.log2 z < 53) by (apply Z.log2_lt_pow2; [unfold z; nia|done]).
  pose proof (Z.log2_nonneg z). rewrite Z.max_l by lia. set (q := Z.log2 z - 52).
  assert (Hmant : m * 2 ^ (e - q) = z * 2 ^ (- q)).
  { unfold z. rewrite <- Z.mul_assoc, <- Z.pow_add_r by lia. do 2 f_equal. }
  rewrite Hmant. assert (Hfrac : frac 1 q = (1, 2 ^ (- q))).
  { unfold frac. destruct (Z.leb_spec 0 q); [|done]. assert (q = 0) as -> by lia. done. }
  rewrite Hfrac. unfold pow10_num, pow10_den. rewrite (proj2 (Z.leb_le 0 p)) by done.
  assert (Hu : 1 ≤ 2 ^ (- q)) by (pose proof (Z.pow_pos_nonneg 2 (- q)); lia).
  set (u := 2 ^ (- q)) in *. set (v := s * 10 ^ p). replace (4 * s * 10 ^ p * u) with (4 * (v * u)) by (unfold v; ring).
  rewrite !Z.mul_1_r. set (b := if _ && _ then 1 else 2). assert (Hb : 1 ≤ b ≤ 2) by (unfold b; destruct (_ && _); lia).
  clearbody b u v z. clear -Hu Hb. case_bool_decide as Hv.
  - subst v. destruct (Z.even _); rewrite andb_true_iff, ?Z.leb_le, ?Z.ltb_lt; lia.
  - assert (v ≤ z - 1 ∨ z + 1 ≤ v) as [H|H] by lia.
    + destruct (Z.even _); apply andb_false_iff; left; rewrite ?Z.leb_gt, ?Z.ltb_ge; nia.
    + destruct (Z.even _); apply andb_false_iff; right; rewrite ?Z.leb_gt, ?Z.ltb_ge; nia.
Qed.

(** The shortest digits of an integer are its digits without the trailing zeros. *)
Lemma shortest_int m e n fuel k :
  0 < m → 0 ≤ e → m * 2 ^ e < 2 ^ 53 → 10 ^ (n - 1) ≤ m * 2 ^ e < 10 ^ n → 1 ≤ k ≤ n → n - k < Z.of_nat fuel →
  ∃ s k', shortest fuel m e (m * 2 ^ e) 1 n k = (s, k') ∧ k ≤ k' ≤ n ∧ 0 ≤ s ∧ s * 10 ^ (n - k') = m * 2 ^ e.
Proof.
  intros Hm He Hz Hn. revert k. induction fuel as [|f IH]; intros k Hk Hf; [lia|].
  assert (Hpn : pow10_num (n - k) = 10 ^ (n - k) ∧ pow10_den (n - k) = 1)
    by (unfold pow10_num, pow10_den; by rewrite (proj2 (Z.leb_le 0 (n - k))) by lia).
  cbn [shortest]. rewrite !(proj1 Hpn), !(proj2 Hpn).
  rewrite !Z.mul_1_r, !Z.mul_1_l. rewrite !rounds_to_int by lia. set (z := m * 2 ^ e) in *.
  assert (Hp : 0 < 10 ^ (n - k)) by (apply Z.pow_pos_nonneg; lia).
  pose proof (Z.div_mod z (10 ^ (n - k)) ltac:(lia)) as Hdm. pose proof (Z.mod_pos_bound z (10 ^ (n - k)) Hp) as Hmb.
  assert (Hmul : 10 ^ k * 10 ^ (n - k) = 10 ^ n) by (rewrite <- Z.pow_add_r by lia; f_equal; lia).
  assert (Hmul' : 10 ^ (k - 1) * 10 ^ (n - k) = 10 ^ (n - 1)) by (rewrite <- Z.pow_add_r by lia; f_equal; lia).
  set (s0 := z / 10 ^ (n - k)) in *. set (P := 10 ^ (n - k)) in *.
  rewrite (bool_decide_eq_false_2 ((s0 + 1) * P = z)) by nia.
  rewrite andb_false_r. destruct (decide (s0 * P = z)) as [E|E].
  - rewrite (bool_decide_eq_true_2 _ E). rewrite (proj2 (Z.leb_le _ _)), (proj2 (Z.ltb_lt _ _)) by nia. simpl.
    exists s0, k. split_and!; [done|lia|lia|apply Z.div_pos; lia|done].
  - rewrite (bool_decide_eq_false_2 _ E), andb_false_r.
    assert (k ≠ n). { intros ->. apply E. unfold s0, P. rewrite Z.sub_diag, Z.pow_0_r, Z.div_1_r. lia. }
    destruct (IH (k + 1)) as (s & k' & -> & ? & ? & ?); [lia|lia|]. exists s, k'. split_and!; try done; lia.
Qed.

Lemma zeros_value s j : 0 ≤ j → digits_value (s ++ zeros j) = digits_value s * 10 ^ j.
Proof.
  intros Hj. rewrite digits_value_app. unfold zeros. rewrite repeat_length, Z2Nat.id by done.
  assert (digits_value (repeat 48 (Z.to_nat j)) = 0) as ->; [|lia].
  induction (Z.to_nat j) as [|n IH]; [done|]. cbn [repeat]. rewrite repeat_cons, digits_value_snoc, IH. done.
Qed.

Lemma show_Z_nonneg n : 0 ≤ n → all_digits (show_Z n) = true ∧ digits_value (show_Z n) = n.
Proof. intros Hn. unfold show_Z. rewrite (proj2 (Z.ltb_ge _ _)) by done. by apply show_nonneg_spec. Qed.

Lemma all_digits_app s t : all_digits s = true → forallb is_digit t = true → all_digits (s ++ t) = true.
Proof.
  destruct s as [|c s]; [done|]. unfold all_digits. intros Hs Ht. change ((c :: s) ++ t) with (c :: (s ++ t)).
  change (forallb is_digit ((c :: s) ++ t) = true). by rewrite forallb_app, Hs.
Qed.

(** [String(z)] of a safe non-negative integer is decimal digits of value [z]. *)
Lemma num_to_string_int z : 0 ≤ z < 2 ^ 53 →
  all_digits (num_to_string (num_of_Z z)) = true ∧ digits_value (num_to_string (num_of_Z z)) = z.
Proof.
  intros Hz. destruct (decide (z = 0)) as [->|Hz0]; [done|].
  destruct (num_of_Z_Fin z) as (m & e & -> & He & Hme). assert (Hm : 0 < m) by nia.
  cbn [num_to_string]. rewrite (proj2 (Z.eqb_neq m 0)), (proj2 (Z.ltb_ge m 0)) by lia.
  unfold show_pos. assert (Hfr : frac m e = (z, 1)) by (unfold frac; rewrite (proj2 (Z.leb_le 0 e)), Hme by done; done).
  rewrite Hfr, log2_shift, Hme by done.
  destruct (decimal_exp_int z ltac:(lia)) as [Hn Hn']. set (n := decimal_exp_of z 1 (Z.log2 z)) in *.
  rewrite <- Hme in Hn', Hz.
  destruct (shortest_int m e n 17 1 Hm He ltac:(lia) Hn' ltac:(lia) ltac:(lia)) as (s & k & Hs & Hk & Hs0 & Hval).
  rewrite Hme in Hs. rewrite Hs. rewrite (proj2 (Z.leb_le k n)), (proj2 (Z.leb_le n 21)) by lia. cbn [andb].
  destruct (show_Z_nonneg s Hs0) as [Hd Hv]. split.
  - apply all_digits_app; [done|]. unfold zeros. induction (Z.to_nat (n - k)) as [|i IH]; [done|]. exact IH.
  - rewrite zeros_value by lia. rewrite Hv, Hval. done.
Qed.

Lemma parse_digits s : all_digits s = true → digits_value s ≤ INT64_MAX → parse_int64 s = Some (digits_value s).
Proof.
  intros Hd Hle. assert (Hge : 0 ≤ digits_value s) by (apply digits_value_bounds; eauto with verilink).
  assert (Hs : (match s with 45 :: r => (true, r) | 43 :: r => (false, r) | _ => (false, s) end) = (false, s)).
  { destruct s as [|c r]; [done|]. apply all_digits_forallb in Hd. simpl in Hd. apply andb_true_iff in Hd as [Hc _].
    unfold is_digit in Hc. bool_to_prop. destruct c as [|p|p]; try done; repeat (destruct p as [p|p|]; try lia; try done). }
  unfold parse_int64. rewrite Hs, Hd. unfold INT64_MAX in *.
  rewrite !(proj2 (Z.leb_le _ _)) by lia. done.
Qed.

Lemma parse_int64_show z : 0 ≤ z ≤ INT64_MAX → parse_int64 (show_Z z) = Some z.
Proof. intros Hz. destruct (show_Z_nonneg z ltac:(lia)) as [Hd Hv]. rewrite parse_digits by (done || lia). by rewrite Hv. Qed.

Lemma go_int_num z : 0 ≤ z < 2 ^ 53 → go_int (JNum (num_of_Z z)) = Ok z.
Proof.
  intros Hz. destruct (num_to_string_int z Hz) as [Hd Hv]. unfold go_int.
  rewrite parse_digits by (done || unfold INT64_MAX; lia). by rewrite Hv.
Qed.

Lemma go_elems_strings l : go_elems go_string (JStr <$> l) = Ok l.
Proof. induction l as [|x l IH]; [done|]. rewrite fmap_cons. cbn [go_elems go_string]. by rewrite IH. Qed.

Lemma go_elems_all {W A B} (f : W → result jstr B) (j : A → W) (g : A → B) l :
  Forall (λ x, f (j x) = Ok (g x)) l → go_elems f (j <$> l) = Ok (g <$> l).
Proof. induction 1 as [|x l Hx _ IH]; [done|]. rewrite !fmap_cons. cbn [go_elems]. rewrite Hx. cbn. by rewrite IH. Qed.

(** ** Base64 *)

Lemma sextet_b64_char n : 0 ≤ n < 64 → sextet 43 47 (b64_char n) = Some n.
Proof. intros H. unfold sextet, b64_char, is_digit. split_ifs; cbn [andb]; try lia; f_equal; lia. Qed.

Lemma b64_char_clean n : 0 ≤ n < 64 → b64_char n ≠ 10 ∧ b64_char n ≠ 13 ∧ b64_char n ≠ 61.
Proof. intros H. unfold b64_char. split_ifs; lia. Qed.

Lemma base64_clean bs c : Forall byte bs → c ∈ base64 bs → c ≠ 10 ∧ c ≠ 13.
Proof.
  unfold byte. induction bs using triple_ind; cbn [base64]; intros H Hc;
    repeat match goal with H : Forall _ (_ :: _) |- _ => apply Forall_cons in H as [? ?] end;
    rewrite ?elem_of_app, ?elem_of_cons, ?elem_of_nil in Hc; destruct_or? Hc; subst; try done; try lia;
    try (apply IHbs; done);
    match goal with |- b64_char ?n ≠ _ ∧ _ => destruct (b64_char_clean n) as (? & ? & ?); [zdiv|done] end.
Qed.

Lemma StdEncoding_base64 bs : Forall byte bs → StdEncoding (base64 bs) = Some bs.
Proof.
  intros Hb. unfold StdEncoding, decode64. rewrite filter_all by (intros c Hc; by apply (base64_clean bs)).
  revert Hb. unfold byte. induction bs using triple_ind; intros H; [done| | |];
    repeat match goal with H : Forall _ (_ :: _) |- _ => apply Forall_cons in H as [? ?] end;
    cbn [base64 app decode_groups]; rewrite !sextet_b64_char by zdiv; cbn [mbind option_bind andb].
  - rewrite bool_decide_eq_true_2 by done. cbn. unfold bytes1. do 2 f_equal. zdiv.
  - rewrite bool_decide_eq_true_2 by done. rewrite Z.eqb_refl.
    rewrite (proj2 (Z.eqb_neq _ 61)) by (apply b64_char_clean; zdiv).
    unfold bytes2. repeat f_equal; zdiv.
  - rewrite (proj2 (Z.eqb_neq _ 61)) by (apply b64_char_clean; zdiv).
    rewrite IHbs by done. cbn. unfold bytes3. cbn [app]. repeat f_equal; zdiv.
Qed.
