(* ===== verification/JsonParse.v ===== *)
(** * Reading JSON text

    The inverse of [stringify] ([JSON.stringify]): strings with their escapes,
    numbers, arrays and objects, by recursive descent.  Both ends of every wire in
    the system parse with a library ([JSON.parse], Go's [json.Unmarshal]), which
    stays a parameter of the theorems; [json_parse] shows that a reader with the
    property they rely on exists.  It is more lenient than either library about
    numbers (leading zeros), does not accept white space between tokens, and keeps
    the properties of an object in the order of the text.

    The main lemma: [json_parse (stringify v) = Some v] for every value whose strings
    consist of UTF-16 units, whose numbers print exactly, and without [undefined]. *)

From stdpp Require Import base strings list.
From Stdlib Require Import ZArith Lia.
From S2P Require Import Prelude Json JsText GoText.

(** ** Numbers *)

Definition numchar (c : Z) : bool :=
  is_digit c || bool_decide (c ∈ [43; 45; 46; 69; 101]).

Fixpoint span (p : Z → bool) (s : jstr) : jstr * jstr :=
  match s with
  | [] => ([], [])
  | c :: r => if p c then let '(a, b) := span p r in (c :: a, b) else ([], s)
  end.

(** The value of [mantissa * 10^p]. *)
Definition decimal (m p : Z) : number :=
  if 0 <=? p then num_ratio (m * 10 ^ p) 1 else num_ratio m (10 ^ (- p)).

Definition exponent (s : jstr) : option Z :=
  match s with
  | [] => Some 0
  | c :: r => if (c =? 101) || (c =? 69) then parse_int64 r else None
  end.

Definition parse_unsigned (s : jstr) : option number :=
  let '(int, r) := span is_digit s in
  let '(frac, r) := match r with 46 :: r' => span is_digit r' | _ => ([], r) end in
  if all_digits int then
    ex ← exponent r; Some (decimal (digits_value (int ++ frac)) (ex - Z.of_nat (length frac)))
  else None.

Definition parse_number (s : jstr) : option number :=
  match s with 45 :: r => num_neg <$> parse_unsigned r | _ => parse_unsigned s end.

(** The number prints as a text that reads back as the number. *)
Definition num_ok (n : number) : bool :=
  isFinite n && forallb numchar (num_to_string n) && negb (bool_decide (num_to_string n = []))
  && bool_decide (parse_number (num_to_string n) = Some n).

(** ** Strings *)

Definition simple_escape (c : Z) : option Z :=
  if c =? 98 then Some 8 else if c =? 116 then Some 9 else if c =? 110 then Some 10 else if c =? 102 then Some 12
  else if c =? 114 then Some 13 else if bool_decide (c ∈ [34; 47; 92]) then Some c else None.

Definition hex4 (a b c d : Z) : option Z :=
  w ← hex_value a; x ← hex_value b; y ← hex_value c; z ← hex_value d;
  Some (w * 4096 + x * 256 + y * 16 + z).

(** The units of a string up to the closing quote, and what follows it. *)
Fixpoint scan (s : jstr) : option (jstr * jstr) :=
  match s with
  | 34 :: r => Some ([], r)
  | 92 :: 117 :: a :: b :: c :: d :: r => u ← hex4 a b c d; '(t, r') ← scan r; Some (u :: t, r')
  | 92 :: e :: r => u ← simple_escape e; '(t, r') ← scan r; Some (u :: t, r')
  | c :: r => if c <? 32 then None else '(t, r') ← scan r; Some (c :: t, r')
  | [] => None
  end.

(** ** Values *)

Fixpoint parse_value (fuel : nat) (s : jstr) : option (json * jstr) :=
  match fuel with
  | O => None
  | S f =>
      match s with
      | 110 :: 117 :: 108 :: 108 :: r => Some (JNull, r)
      | 116 :: 114 :: 117 :: 101 :: r => Some (JBool true, r)
      | 102 :: 97 :: 108 :: 115 :: 101 :: r => Some (JBool false, r)
      | 34 :: r => '(x, r) ← scan r; Some (JStr x, r)
      | 91 :: 93 :: r => Some (JArr [], r)
      | 91 :: r => '(l, r) ← parse_elems f r; Some (JArr l, r)
      | 123 :: 125 :: r => Some (JObj [], r)
      | 123 :: r => '(l, r) ← parse_fields f r; Some (JObj l, r)
      | _ => let '(t, r) := span numchar s in n ← parse_number t; Some (JNum n, r)
      end
  end
with parse_elems (fuel : nat) (s : jstr) : option (list json * jstr) :=
  match fuel with
  | O => None
  | S f =>
      '(v, r) ← parse_value f s;
      match r with
      | 44 :: r => '(l, r) ← parse_elems f r; Some (v :: l, r)
      | 93 :: r => Some ([v], r)
      | _ => None
      end
  end
with parse_fields (fuel : nat) (s : jstr) : option (list (jstr * json) * jstr) :=
  match fuel with
  | O => None
  | S f =>
      match s with
      | 34 :: r =>
          '(k, r) ← scan r;
          match r with
          | 58 :: r =>
              '(v, r) ← parse_value f r;
              match r with
              | 44 :: r => '(l, r) ← parse_fields f r; Some ((k, v) :: l, r)
              | 125 :: r => Some ([(k, v)], r)
              | _ => None
              end
          | _ => None
          end
      | _ => None
      end
  end.

Definition json_parse (s : jstr) : option json :=
  match parse_value (S (2 * length s)) s with Some (v, []) => Some v | _ => None end.

(** ** The values that survive printing *)

Definition units (s : jstr) : bool := forallb (λ c, (0 <=? c) && (c <? 65536)) s.

Fixpoint clean (v : json) : bool :=
  match v with
  | JUndef => false
  | JNull | JBool _ => true
  | JNum n => num_ok n
  | JStr s => units s
  | JArr l => forallb clean l
  | JObj fs => forallb (λ kv, units kv.1 && clean kv.2) fs
  end.

(** ** Lemmas *)

Lemma hex_digit_value x : 0 ≤ x < 16 → hex_value (hex_digit x) = Some x.
Proof.
  intros H. unfold hex_value, hex_digit, is_digit.
  destruct (Z.ltb_spec x 10); split_ifs; cbn [andb]; try lia; f_equal; lia.
Qed.

Lemma hex4_escape c : 0 ≤ c < 65536 →
  hex4 (hex_digit (c / 4096 mod 16)) (hex_digit (c / 256 mod 16)) (hex_digit (c / 16 mod 16)) (hex_digit (c mod 16)) = Some c.
Proof.
  intros H. unfold hex4. rewrite !hex_digit_value by (apply Z.mod_pos_bound; lia). cbn. f_equal. zdiv.
Qed.

Lemma scan_unicode c s r : 0 ≤ c < 65536 → scan s = Some r → scan (unicode_escape c ++ s) = Some (c :: r.1, r.2).
Proof.
  intros Hc Hs. destruct r as [t r']. change (scan (unicode_escape c ++ s)) with
    (u ← hex4 (hex_digit (c / 4096 mod 16)) (hex_digit (c / 256 mod 16)) (hex_digit (c / 16 mod 16)) (hex_digit (c mod 16));
     '(t, r') ← scan s; Some (u :: t, r')).
  rewrite hex4_escape, Hs by done. done.
Qed.

Lemma scan_plain c s : 32 ≤ c → c ≠ 34 → c ≠ 92 → scan (c :: s) = '(t, r) ← scan s; Some (c :: t, r).
Proof.
  intros H1 H2 H3. cbn [scan]. destruct c as [|p|p]; [lia| |lia].
  destruct (Z.ltb_spec (Zpos p) 32); [lia|]. repeat (destruct p as [p|p|]; try lia; try done).
Qed.

(** A two-character escape. *)
Ltac escaped s Hs :=
  match goal with |- _ = Some (?u :: _, _) =>
    transitivity ('(t, r) ← scan s; Some (u :: t, r)); [reflexivity|by rewrite Hs] end.

Lemma scan_unit c s r : 0 ≤ c < 65536 → scan s = Some r → scan (quote_unit c ++ s) = Some (c :: r.1, r.2).
Proof.
  intros Hc Hs. destruct r as [t r']. unfold quote_unit.
  destruct (Z.eqb_spec c 8) as [->|]; [escaped s Hs|].
  destruct (Z.eqb_spec c 9) as [->|]; [escaped s Hs|].
  destruct (Z.eqb_spec c 10) as [->|]; [escaped s Hs|].
  destruct (Z.eqb_spec c 12) as [->|]; [escaped s Hs|].
  destruct (Z.eqb_spec c 13) as [->|]; [escaped s Hs|].
  destruct (Z.eqb_spec c 34) as [->|]; [escaped s Hs|].
  destruct (Z.eqb_spec c 92) as [->|]; [escaped s Hs|].
  destruct (Z.ltb_spec c 32); [by rewrite (scan_unicode c s (t, r'))|].
  cbn [app]. rewrite scan_plain, Hs by lia. done.
Qed.

Lemma scan_quoted s rest : units s = true → scan (quote_body s ++ 34 :: rest) = Some (s, rest).
Proof.
  induction s as [|c|c d s IH IH'] using two_step_ind; [done| |]; unfold units in *; cbn [forallb]; intros Hu.
  - apply andb_true_iff in Hu as [Hc _]. bool_to_prop. cbn [quote_body].
    destruct (is_high c); [by rewrite (scan_unicode c _ ([], rest))|].
    destruct (is_low c); rewrite app_nil_r; [by rewrite (scan_unicode c _ ([], rest))|by rewrite (scan_unit c _ ([], rest))].
  - apply andb_true_iff in Hu as [Hc Hu]. specialize (IH' Hu). apply andb_true_iff in Hu as [Hd Hu].
    specialize (IH Hu). bool_to_prop. cbn [quote_body] in *.
    destruct (is_high c) eqn:Hh; [destruct (is_low d) eqn:Hl|destruct (is_low c)].
    + unfold is_high in Hh. unfold is_low in Hl. bool_to_prop. cbn [app].
      rewrite !scan_plain by lia. by rewrite IH.
    + by rewrite <- app_assoc, (scan_unicode c _ (d :: s, rest)).
    + by rewrite <- app_assoc, (scan_unicode c _ (d :: s, rest)).
    + by rewrite <- app_assoc, (scan_unit c _ (d :: s, rest)).
Qed.

(** ** Numbers in context *)

(** What may follow a number. *)
Definition stops (rest : jstr) : Prop := match rest with [] => True | c :: _ => numchar c = false end.

Lemma span_stops p s rest : forallb p s = true → match rest with [] => True | c :: _ => p c = false end →
  span p (s ++ rest) = (s, rest).
Proof.
  intros Hs Hr. induction s as [|c s IH]; cbn [app span].
  - destruct rest as [|c r]; [done|]. cbn [span]. by rewrite Hr.
  - simpl in Hs. apply andb_true_iff in Hs as [-> Hs]. by rewrite IH.
Qed.

Lemma numchar_start c s f : numchar c = true →
  parse_value (S f) (c :: s) = (let '(t, r) := span numchar (c :: s) in n ← parse_number t; Some (JNum n, r)).
Proof.
  intros Hc. unfold numchar, is_digit in Hc. apply orb_true_iff in Hc as [Hc|Hc].
  - bool_to_prop. assert (c = 48 ∨ c = 49 ∨ c = 50 ∨ c = 51 ∨ c = 52 ∨ c = 53 ∨ c = 54 ∨ c = 55 ∨ c = 56 ∨ c = 57) as Hin by lia.
    destruct_or? Hin; subst; done.
  - apply bool_decide_eq_true in Hc. rewrite !elem_of_cons, elem_of_nil in Hc. destruct_or? Hc; subst; done.
Qed.

Lemma parse_num f n rest : num_ok n = true → stops rest →
  parse_value (S f) (num_to_string n ++ rest) = Some (JNum n, rest).
Proof.
  unfold num_ok. rewrite !andb_true_iff. intros [[[Hf Hc] Hne] Hp] Hr. bool_to_prop.
  destruct (num_to_string n) as [|c s] eqn:E; [done|]. pose proof Hc as Hc'. simpl in Hc'.
  apply andb_true_iff in Hc' as [Hc0 _]. change ((c :: s) ++ rest) with (c :: (s ++ rest)).
  rewrite (numchar_start c (s ++ rest) f Hc0). change (c :: (s ++ rest)) with ((c :: s) ++ rest).
  rewrite span_stops by done. by rewrite Hp.
Qed.

(** ** Values in context *)

Lemma length_quote s : (2 ≤ length (quote s))%nat.
Proof. unfold quote. rewrite !length_app. simpl. lia. Qed.

Lemma comma_stops r : stops (44 :: r) ∧ stops (93 :: r) ∧ stops (125 :: r).
Proof. done. Qed.

(** A value, printed before [rest], is read with fuel for twice its length. *)
Definition reads_back (v : json) : Prop := ∀ f rest, (2 * length (stringify v) ≤ f)%nat → stops rest →
  parse_value (S f) (stringify v ++ rest) = Some (v, rest).

Lemma parse_elems_join x l f rest :
  Forall reads_back (x :: l) → (2 * length (join (js ",") (map stringify (x :: l))) < f)%nat →
  parse_elems (S f) (join (js ",") (map stringify (x :: l)) ++ 93 :: rest) = Some (x :: l, rest).
Proof.
  revert x f. induction l as [|y l IH]; intros x f HF Hf; apply Forall_cons in HF as [Hx HF].
  - cbn [map join] in *. cbn [parse_elems]. destruct f as [|f]; [lia|]. rewrite Hx by (lia || done). done.
  - change (join (js ",") (map stringify (x :: y :: l))) with
      (stringify x ++ [44] ++ join (js ",") (map stringify (y :: l))) in *.
    rewrite !length_app in Hf. simpl (length [44]) in Hf. destruct f as [|f]; [lia|].
    change (parse_elems (S (S f)) ?s) with ('(v, r) ← parse_value (S f) s;
      match r with
      | 44 :: r => '(l, r) ← parse_elems (S f) r; Some (v :: l, r) | 93 :: r => Some ([v], r) | _ => None end).
    rewrite <- !app_assoc, Hx by (lia || done). cbn [mbind option_bind app]. rewrite IH by (done || lia). done.
Qed.

(** A property of an object, printed. *)
Definition field_text (kv : jstr * json) : jstr := quote kv.1 ++ js ":" ++ stringify kv.2.

Lemma stringify_fields fs : forallb (λ kv, units kv.1 && clean kv.2) fs = true →
  stringify (JObj fs) = js "{" ++ join (js ",") (map field_text fs) ++ js "}".
Proof.
  intros Hc. cbn [stringify]. do 3 f_equal.
  induction fs as [|[k v] fs IH]; [done|]. simpl in Hc. apply andb_true_iff in Hc as [[_ Hv]%andb_true_iff Hc].
  destruct v; try done; cbn [map]; (f_equal; by apply IH).
Qed.

Lemma parse_fields_join x l f rest :
  Forall (λ kv, units kv.1 = true ∧ reads_back kv.2) (x :: l) →
  (2 * length (join (js ",") (map field_text (x :: l))) < f)%nat →
  parse_fields (S f) (join (js ",") (map field_text (x :: l)) ++ 125 :: rest) = Some (x :: l, rest).
Proof.
  assert (Hstep : ∀ kv f rest', units kv.1 = true → reads_back kv.2 → stops rest' →
    (2 * length (field_text kv) < f)%nat →
    parse_fields (S f) (field_text kv ++ rest') =
    match rest' with
    | 44 :: r => '(l, r) ← parse_fields f r; Some (kv :: l, r) | 125 :: r => Some ([kv], r) | _ => None end).
  { intros [k v] g rest' Hk Hv Hs Hg. unfold field_text in *. cbn [fst snd] in *. rewrite !length_app in Hg.
    pose proof (length_quote k). destruct g as [|g]; [lia|].
    assert ((quote k ++ js ":" ++ stringify v) ++ rest' = 34 :: (quote_body k ++ 34 :: (58 :: (stringify v ++ rest')))) as ->.
    { unfold quote. cbn [js app]. by rewrite <- !app_assoc. }
    change (parse_fields (S (S g)) (34 :: ?s)) with ('(k, r) ← scan s;
      match r with
      | 58 :: r => '(v, r) ← parse_value (S g) r;
          match r with
          | 44 :: r => '(l, r) ← parse_fields (S g) r; Some ((k, v) :: l, r) | 125 :: r => Some ([(k, v)], r) | _ => None end
      | _ => None end).
    rewrite scan_quoted by done. cbn [mbind option_bind]. rewrite Hv by (done || lia). done. }
  revert x f. induction l as [|y l IH]; intros x f HF Hf; apply Forall_cons in HF as [[Hk Hv] HF].
  - cbn [map join] in *. by rewrite Hstep.
  - change (join (js ",") (map field_text (x :: y :: l))) with
      (field_text x ++ [44] ++ join (js ",") (map field_text (y :: l))) in *.
    rewrite !length_app in Hf. simpl (length [44]) in Hf. rewrite <- !app_assoc, Hstep by (done || lia). cbn [app].
    destruct f as [|f]; [lia|]. rewrite IH by (done || lia). done.
Qed.

(** No printed value starts with a closing bracket. *)
Lemma stringify_head v : clean v = true → ∃ c s, stringify v = c :: s ∧ c ≠ 93.
Proof.
  destruct v; cbn [clean stringify]; intros Hc; try done; try (by eexists _, _).
  - destruct b; by eexists _, _.
  - unfold num_ok in Hc. rewrite !andb_true_iff in Hc. destruct Hc as [[[-> Hn] Hne] _]. bool_to_prop.
    destruct (num_to_string n) as [|c s]; [done|]. exists c, s. split; [done|]. intros ->. by vm_compute in Hn.
Qed.

Lemma clean_reads_back v : clean v = true → reads_back v.
Proof.
  induction v as [| |b|n|s|l IH|fs IH] using json_nested_ind; intros Hc f rest Hf Hr; [done|done|by destruct b| | | |].
  - cbn [clean] in Hc. cbn [stringify]. assert (isFinite n = true) as -> by (unfold num_ok in Hc; by destruct (isFinite n)).
    by apply parse_num.
  - cbn [stringify quote app]. change (parse_value (S f) (34 :: ?t)) with ('(x, r) ← scan t; Some (JStr x, r)).
    rewrite <- app_assoc. cbn [app]. by rewrite scan_quoted.
  - cbn [clean] in Hc. destruct l as [|x l]; [done|]. assert (HF : Forall reads_back (x :: l)).
    { rewrite forallb_forall in Hc. rewrite Forall_forall in *. intros v Hv. apply IH; [done|]. by apply Hc, list_elem_of_In. }
    change (stringify (JArr (x :: l))) with (91 :: (join (js ",") (map stringify (x :: l)) ++ js "]")) in *.
    rewrite length_cons, length_app in Hf. change (length (js "]")) with 1%nat in Hf.
    change ((91 :: ?a) ++ rest) with (91 :: (a ++ rest)). rewrite <- app_assoc. change (js "]" ++ rest) with (93 :: rest).
    destruct (stringify_head x) as (c & s & Hs & Hne); [simpl in Hc; by apply andb_true_iff in Hc as [? _]|].
    destruct f as [|f]; [lia|].
    pose proof (parse_elems_join x l f rest HF ltac:(lia)) as Hp.
    assert (Hj : ∃ j, join (js ",") (map stringify (x :: l)) ++ 93 :: rest = c :: j).
    { destruct l; cbn [map join]; rewrite Hs; by eexists. }
    destruct Hj as [j Hj]. rewrite Hj in *.
    assert (parse_value (S (S f)) (91 :: c :: j) = '(l, r) ← parse_elems (S f) (c :: j); Some (JArr l, r)) as ->; [|by rewrite Hp].
    destruct c as [|p|p]; [done| |done]. repeat (destruct p as [p|p|]; try done).
  - cbn [clean] in Hc. destruct fs as [|x fs]; [done|].
    assert (HF : Forall (λ kv, units kv.1 = true ∧ reads_back kv.2) (x :: fs)).
    { rewrite forallb_forall in Hc. rewrite Forall_forall in *. intros v Hv. specialize (IH v Hv).
      apply list_elem_of_In, Hc, andb_true_iff in Hv as [Hk Hv]. split; [done|by apply IH]. }
    rewrite stringify_fields in Hf |- * by done. rewrite !length_app in Hf.
    change (length (js "{")) with 1%nat in Hf. change (length (js "}")) with 1%nat in Hf.
    destruct f as [|f]; [lia|]. pose proof (parse_fields_join x fs f rest HF ltac:(lia)) as Hp.
    assert (Hj : ∃ j, join (js ",") (map field_text (x :: fs)) ++ 125 :: rest = 34 :: j).
    { destruct fs; cbn [map join]; unfold field_text, quote; by eexists. }
    rewrite <- !app_assoc. change (js "}" ++ rest) with (125 :: rest). destruct Hj as [j Hj]. rewrite Hj in *.
    change (parse_value (S (S f)) (js "{" ++ 34 :: j)) with ('(l, r) ← parse_fields (S f) (34 :: j); Some (JObj l, r)).
    by rewrite Hp.
Qed.

(** Parsing undoes printing. *)
Lemma json_parse_stringify v : clean v = true → json_parse (stringify v) = Some v.
Proof.
  intros Hc. unfold json_parse. pose proof (clean_reads_back v Hc (2 * length (stringify v))%nat [] ltac:(lia) I) as H.
  rewrite app_nil_r in H. by rewrite H.
Qed.

(** Safe integers print exactly. *)
Lemma num_ok_int z : 0 ≤ z < 2 ^ 53 → num_ok (num_of_Z z) = true.
Proof.
  intros Hz. destruct (num_to_string_int z Hz) as [Hd Hv]. unfold num_ok.
  destruct (num_of_Z_Fin z) as (m & e & E & _). rewrite E at 1. cbn [isFinite andb].
  set (s := num_to_string (num_of_Z z)) in *. pose proof (all_digits_forallb s Hd) as Hf.
  assert (Hn : forallb numchar s = true).
  { rewrite forallb_forall in *. intros c Hc%Hf. unfold numchar. by rewrite Hc. }
  rewrite Hn, bool_decide_eq_false_2 by (intros Hs; by rewrite Hs in Hd). cbn [negb andb].
  apply bool_decide_eq_true_2. assert (Hp : parse_unsigned s = Some (num_of_Z z)).
  { unfold parse_unsigned. rewrite <- (app_nil_r s) at 1. rewrite span_stops by done. rewrite Hd. cbn [exponent mbind option_bind].
    rewrite app_nil_r, Hv. unfold decimal. cbn. by rewrite Z.mul_1_r, num_ratio_int. }
  unfold parse_number. destruct s as [|c s']; [done|]. simpl in Hf. apply andb_true_iff in Hf as [Hc _].
  unfold is_digit in Hc. bool_to_prop. destruct c as [|p|p]; [done| |done]. repeat (destruct p as [p|p|]; try done; try lia).
Qed.
