(* ===== verification/JsDate.v ===== *)
(** * Instants and their ISO text

    A [Date] is the number of milliseconds since 1970-01-01T00:00:00Z.  JSON has no
    dates: [JSON.stringify] writes [Date.prototype.toISOString], and the edge reads
    the text back with [time.Parse(time.RFC3339Nano, s)].

    [toISOString] is written out for the years 0 to 9999, which print with four
    digits.  [parse_iso] reads exactly the texts it prints; it is not a model of
    either language's parser, which accept more, but instantiates them where a
    theorem takes the parser as a parameter. *)

From stdpp Require Import base strings list.
From Stdlib Require Import ZArith Lia.
From S2P Require Import Prelude Json JsText GoText.

(** ** The proleptic Gregorian calendar

    Days are counted from 0000-03-01, so that the leap day ends the year. *)

Definition DAY_MS : Z := 86400000.

(** Days since the epoch to (year, month, day). *)
Definition civil (days : Z) : Z * Z * Z :=
  let z := days + 719468 in
  let era := z / 146097 in
  let doe := z mod 146097 in
  let yoe := (doe - doe / 1460 + doe / 36524 - doe / 146096) / 365 in
  let doy := doe - (365 * yoe + yoe / 4 - yoe / 100) in
  let mp := (5 * doy + 2) / 153 in
  let d := doy - (153 * mp + 2) / 5 + 1 in
  let m := if mp <? 10 then mp + 3 else mp - 9 in
  (yoe + era * 400 + (if m <=? 2 then 1 else 0), m, d).

Definition days_of (y m d : Z) : Z :=
  let y := if m <=? 2 then y - 1 else y in
  let era := y / 400 in
  let yoe := y mod 400 in
  let doy := (153 * (if 2 <? m then m - 3 else m + 9) + 2) / 5 + d - 1 in
  era * 146097 + (yoe * 365 + yoe / 4 - yoe / 100 + doy) - 719468.

(** ** Text *)

(** [n] in [k] decimal digits. *)
Fixpoint pad (k : nat) (n : Z) : jstr :=
  match k with O => [] | S k' => pad k' (n / 10) ++ [48 + n mod 10] end.

(** YYYY-MM-DDTHH:mm:ss.sssZ *)
Definition toISOString (t : Z) : jstr :=
  let '(y, m, d) := civil (t / DAY_MS) in
  let ms := t mod DAY_MS in
  pad 4 y ++ [45] ++ pad 2 m ++ [45] ++ pad 2 d ++ [84]
  ++ pad 2 (ms / 3600000) ++ [58] ++ pad 2 (ms / 60000 mod 60) ++ [58] ++ pad 2 (ms / 1000 mod 60)
  ++ [46] ++ pad 3 (ms mod 1000) ++ [90].

(** Digits of a fixed width, then a separator. *)
Definition field (k : nat) (sep : Z) (s : jstr) : option (Z * jstr) :=
  if all_digits (take k s) && bool_decide (length (take k s) = k) then
    match drop k s with c :: r => if c =? sep then Some (digits_value (take k s), r) else None | [] => None end
  else None.

Definition parse_iso (s : jstr) : option Z :=
  '(y, s) ← field 4 45 s; '(m, s) ← field 2 45 s; '(d, s) ← field 2 84 s;
  '(hh, s) ← field 2 58 s; '(mi, s) ← field 2 58 s; '(ss, s) ← field 2 46 s; '(ms, s) ← field 3 90 s;
  if bool_decide (s = []) then Some (days_of y m d * DAY_MS + hh * 3600000 + mi * 60000 + ss * 1000 + ms) else None.

(** The instants of the years 0 to 9999. *)
Definition iso_range (t : Z) : Prop := -62167219200000 ≤ t ≤ 253402300799999.

(** ** Lemmas *)

Lemma year_of_era doe : 0 ≤ doe < 146097 →
  let yoe := (doe - doe / 1460 + doe / 36524 - doe / 146096) / 365 in
  0 ≤ yoe < 400 ∧ 0 ≤ doe - (365 * yoe + yoe / 4 - yoe / 100) ≤ 366.
Proof. intros H. cbv zeta. split; Z.div_mod_to_equations; lia. Qed.

Lemma month_of_year doy : 0 ≤ doy ≤ 366 →
  let mp := (5 * doy + 2) / 153 in 0 ≤ mp < 12 ∧ 0 ≤ doy - (153 * mp + 2) / 5 < 31.
Proof. intros H. cbv zeta. split; Z.div_mod_to_equations; lia. Qed.

Lemma days_of_civil days :
  let '(y, m, d) := civil days in days_of y m d = days ∧ 1 ≤ m ≤ 12 ∧ 1 ≤ d ≤ 31.
Proof.
  unfold civil. pose proof (Z.div_mod (days + 719468) 146097 ltac:(lia)) as Hdm.
  pose proof (Z.mod_pos_bound (days + 719468) 146097 ltac:(lia)) as Hdoe.
  set (doe := (days + 719468) mod 146097) in *. set (era := (days + 719468) / 146097) in *.
  destruct (year_of_era doe Hdoe) as [Hy Hdoy]. set (yoe := (doe - _ + _ - _) / 365) in *.
  set (doy := doe - (365 * yoe + yoe / 4 - yoe / 100)) in *. destruct (month_of_year doy Hdoy) as [Hmp Hd].
  set (mp := (5 * doy + 2) / 153) in *. cbv zeta.
  assert (Hyy : ∀ k, (yoe + era * 400 + k - k) / 400 = era ∧ (yoe + era * 400 + k - k) mod 400 = yoe).
  { intros k. replace (yoe + era * 400 + k - k) with (yoe + era * 400) by lia.
    rewrite Z.div_add, Z.mod_add by lia. rewrite Z.div_small, Z.mod_small by lia. lia. }
  unfold days_of. destruct (Z.ltb_spec mp 10) as [Hlt|Hge].
  - rewrite (proj2 (Z.leb_gt (mp + 3) 2)), (proj2 (Z.ltb_lt 2 (mp + 3))) by lia.
    specialize (Hyy 0). rewrite !Z.sub_0_r in Hyy. destruct Hyy as [-> ->].
    replace (mp + 3 - 3) with mp by lia. unfold doy in *. lia.
  - rewrite (proj2 (Z.leb_le (mp - 9) 2)), (proj2 (Z.ltb_ge 2 (mp - 9))) by lia.
    destruct (Hyy 1) as [-> ->]. replace (mp - 9 + 9) with mp by lia. unfold doy in *. lia.
Qed.

Lemma civil_year days : -719528 ≤ days ≤ 2932896 → 0 ≤ (civil days).1.1 ≤ 9999.
Proof.
  intros Hd. pose proof (days_of_civil days) as H. destruct (civil days) as [[y m] d].
  destruct H as (H & Hm & Hdd). simpl. unfold days_of in H.
  destruct (Z.leb_spec m 2), (Z.ltb_spec 2 m); try lia; revert H; Z.div_mod_to_equations; lia.
Qed.

Lemma pad_length k n : length (pad k n) = k.
Proof. revert n. induction k as [|k IH]; intros n; [done|]. cbn [pad]. rewrite length_app, IH. simpl. lia. Qed.

Lemma pad_digits k n : forallb is_digit (pad k n) = true.
Proof.
  revert n. induction k as [|k IH]; intros n; [done|]. cbn [pad]. rewrite forallb_app, IH. simpl.
  unfold is_digit. pose proof (Z.mod_pos_bound n 10 ltac:(lia)). rewrite !(proj2 (Z.leb_le _ _)) by lia. done.
Qed.

Lemma pad_value k n : 0 ≤ n < 10 ^ Z.of_nat k → digits_value (pad k n) = n.
Proof.
  revert n. induction k as [|k IH]; intros n Hn; [simpl in Hn; unfold digits_value; simpl; lia|].
  rewrite Nat2Z.inj_succ, Z.pow_succ_r in Hn by lia. cbn [pad]. rewrite digits_value_snoc, IH.
  - pose proof (Z.div_mod n 10 ltac:(lia)). lia.
  - split; [apply Z.div_pos; lia|apply Z.div_lt_upper_bound; lia].
Qed.

Lemma field_pad k n sep r : (0 < k)%nat → 0 ≤ n < 10 ^ Z.of_nat k → field k sep (pad k n ++ [sep] ++ r) = Some (n, r).
Proof.
  intros Hk Hn. unfold field. rewrite take_app_length', drop_app_length' by (by rewrite pad_length).
  rewrite pad_length, (bool_decide_eq_true_2 (k = k)) by done. rewrite pad_value by done.
  assert (all_digits (pad k n) = true) as ->.
  { pose proof (pad_digits k n) as H. pose proof (pad_length k n) as Hl. destruct (pad k n); [simpl in Hl; lia|exact H]. }
  cbn [app andb]. by rewrite Z.eqb_refl.
Qed.

(** Reading back what was printed. *)
Lemma parse_iso_toISOString t : iso_range t → parse_iso (toISOString t) = Some t.
Proof.
  intros Ht. unfold iso_range in Ht. unfold toISOString.
  pose proof (Z.div_mod t DAY_MS ltac:(done)) as Hdm. pose proof (Z.mod_pos_bound t DAY_MS ltac:(done)) as Hms.
  assert (Hdays : -719528 ≤ t / DAY_MS ≤ 2932896) by (unfold DAY_MS in *; lia).
  pose proof (civil_year _ Hdays) as Hy. pose proof (days_of_civil (t / DAY_MS)) as Hc.
  destruct (civil (t / DAY_MS)) as [[y m] d]. destruct Hc as (Hc & Hm & Hd). cbn [fst] in Hy.
  set (ms := t mod DAY_MS) in *. unfold DAY_MS in Hms.
  assert (Hh : 0 ≤ ms / 3600000 < 24) by zdiv.
  pose proof (Z.mod_pos_bound (ms / 60000) 60 ltac:(lia)). pose proof (Z.mod_pos_bound (ms / 1000) 60 ltac:(lia)).
  pose proof (Z.mod_pos_bound ms 1000 ltac:(lia)).
  assert (P4 : 10 ^ Z.of_nat 4 = 10000) by done. assert (P3 : 10 ^ Z.of_nat 3 = 1000) by done.
  assert (P2 : 10 ^ Z.of_nat 2 = 100) by done.
  unfold parse_iso.
  rewrite (field_pad 4) by lia. cbn [mbind option_bind]. rewrite (field_pad 2) by lia. cbn [mbind option_bind].
  rewrite (field_pad 2) by lia. cbn [mbind option_bind]. rewrite (field_pad 2) by lia. cbn [mbind option_bind].
  rewrite (field_pad 2) by lia. cbn [mbind option_bind]. rewrite (field_pad 2) by lia. cbn [mbind option_bind].
  change (pad 3 (ms mod 1000) ++ [90]) with (pad 3 (ms mod 1000) ++ [90] ++ []).
  rewrite (field_pad 3) by lia. cbn [mbind option_bind]. rewrite bool_decide_eq_true_2 by done. rewrite Hc. f_equal.
  unfold DAY_MS in *. zdiv.
Qed.

Lemma toISOString_nonempty t : toISOString t ≠ [].
Proof.
  unfold toISOString. destruct (civil _) as [[y m] d]. intros H%(f_equal length).
  rewrite length_app, pad_length in H. simpl in H. lia.
Qed.

Example iso_example : toISOString 1785578400123 = js "2026-08-01T10:00:00.123Z".
Proof. vm_compute. reflexivity. Qed.

(** The printed characters: digits and the separators. *)
Definition iso_char (c : Z) : bool := is_digit c || bool_decide (c ∈ [45; 84; 58; 46; 90]).

Lemma toISOString_length t : length (toISOString t) = 24%nat.
Proof. unfold toISOString. destruct (civil _) as [[y m] d]. rewrite !length_app, !pad_length. done. Qed.

Lemma toISOString_chars t : forallb iso_char (toISOString t) = true.
Proof.
  assert (Hd : ∀ k n, forallb iso_char (pad k n) = true).
  { intros k n. pose proof (pad_digits k n) as H. rewrite forallb_forall in H |- *. intros c Hc.
    unfold iso_char. by rewrite (H c Hc). }
  unfold toISOString. destruct (civil _) as [[y m] d]. by rewrite !forallb_app, !Hd.
Qed.
