(* ===== verification/Errors.v ===== *)
(** * Application errors (control-plane/src/shared/errors/AppError.ts,
    shared/http/responses.ts)

    [exn] is what control-plane code can throw: an [AppError], a Postgres
    error with its SQLSTATE, or any other [Error]. *)
From stdpp Require Import base strings list.
From S2P Require Import Prelude Json.

Inductive ErrorCode :=
| BAD_REQUEST | UNAUTHORIZED | FORBIDDEN | NOT_FOUND | GONE | CONFLICT
| PAYLOAD_TOO_LARGE | UNPROCESSABLE | RATE_LIMITED | SERVICE_UNAVAILABLE
| INTERNAL | UPSTREAM.

#[global] Instance ErrorCode_eq_dec : EqDecision ErrorCode.
Proof. solve_decision. Defined.

Definition STATUS_FOR (c : ErrorCode) : Z :=
  match c with
  | BAD_REQUEST => 400
  | UNAUTHORIZED => 401
  | FORBIDDEN => 403
  | NOT_FOUND => 404
  | GONE => 410
  | CONFLICT => 409
  | PAYLOAD_TOO_LARGE => 413
  | UNPROCESSABLE => 422
  | RATE_LIMITED => 429
  | SERVICE_UNAVAILABLE => 503
  | INTERNAL => 500
  | UPSTREAM => 502
  end.

(** The string a code stands for in [CODES]. *)
Definition code_string (c : ErrorCode) : jstr :=
  match c with
  | BAD_REQUEST => js "BAD_REQUEST"
  | UNAUTHORIZED => js "UNAUTHORIZED"
  | FORBIDDEN => js "FORBIDDEN"
  | NOT_FOUND => js "NOT_FOUND"
  | GONE => js "GONE"
  | CONFLICT => js "CONFLICT"
  | PAYLOAD_TOO_LARGE => js "PAYLOAD_TOO_LARGE"
  | UNPROCESSABLE => js "UNPROCESSABLE"
  | RATE_LIMITED => js "RATE_LIMITED"
  | SERVICE_UNAVAILABLE => js "SERVICE_UNAVAILABLE"
  | INTERNAL => js "INTERNAL"
  | UPSTREAM => js "UPSTREAM"
  end.

(** An [AppError]; [details] is [JUndef] when absent.  [cause] only reaches
    the log and is not kept. *)
Record AppError := mkAppError { code : ErrorCode; message : jstr; details : json }.

Definition app_error (c : ErrorCode) (msg : jstr) : AppError := mkAppError c msg JUndef.

(** [err.status]. *)
Definition status (e : AppError) : Z := STATUS_FOR (code e).

Inductive exn :=
| EApp (e : AppError)
| EPg (sqlstate : jstr)
| EError (msg : jstr).

(** [err.code === c] for a SQLSTATE [c]. *)
Definition has_sqlstate (c : jstr) (e : exn) : bool :=
  match e with EPg s => bool_decide (s = c) | _ => false end.

Definition throw_app {A} (c : ErrorCode) (msg : jstr) : result exn A :=
  Throw (EApp (app_error c msg)).

(** [AppError.from]: an [AppError] passes through, everything else becomes an
    internal error that does not repeat the original message. *)
Definition from (err : exn) : AppError :=
  match err with
  | EApp e => e
  | EPg _ | EError _ => app_error INTERNAL (js "Internal server error")
  end.

(** [toResponse]: [details] is spread in only when truthy. *)
Definition toResponse (e : AppError) : json :=
  JObj [(js "ok", JBool false);
        (js "error",
         JObj ([(js "code", JStr (code_string (code e))); (js "message", JStr (message e))] ++
               (if truthy (details e) then [(js "details", details e)] else [])))].

(** An HTTP response: status, Location header, JSON body. *)
Record response := mkResponse { r_status : Z; r_location : option jstr; r_body : json }.

Definition ok_body (data : json) : json := JObj [(js "ok", JBool true); (js "data", data)].

Definition ok (data : json) : response := mkResponse 200 None (ok_body data).
Definition created (data : json) (locationUrl : option jstr) : response :=
  mkResponse 201 (match locationUrl with Some [] => None | l => l end) (ok_body data).
Definition accepted (data : json) : response := mkResponse 202 None (ok_body data).
Definition noContent : response := mkResponse 204 None JUndef.
Definition paginated (items : list json) (total limit offset : Z) : response :=
  ok (JObj [(js "items", JArr items); (js "total", JNum (num_of_Z total));
            (js "limit", JNum (num_of_Z limit)); (js "offset", JNum (num_of_Z offset))]).

(** The global error handler's response. *)
Definition error (err : exn) : response :=
  let appErr := from err in mkResponse (status appErr) None (toResponse appErr).
