(* ===== verification/Db.v ===== *)
(** * The control plane's database and the code's access to it

    The tables of control-plane/migrations, as the TypeScript row types of
    the repositories see them.  A table with a primary key is a finite map
    from that key; [sync_events] and the append-only tables are lists in
    insertion order.  Timestamps are integers (milliseconds), NUMERIC(3,2)
    columns are integers of hundredths, NUMERIC(4,3) of thousandths.

    [M] is the state-and-exception monad of code that queries the database;
    [withTransaction] (db/transaction.ts) undoes the writes of a failed body. *)
From stdpp Require Import base gmap strings list.
From S2P Require Import Prelude Json Errors.

(** ** Rows *)

Record Principal := mkPrincipal {
  p_id : jstr; p_entity_kind : jstr; p_name : option jstr;
  p_owner_tenant_id : option jstr; p_metadata : json;
  p_first_seen_at : Z; p_last_seen_at : Z; p_status : jstr;
}.

Record PrincipalKey := mkPrincipalKey {
  k_principal_id : jstr; k_key_id : jstr; k_public_key_raw : list Z;
  k_public_key_jwk : json; k_key_hash : jstr; k_control_verified_at : option Z;
  k_valid_from : Z; k_valid_until : option Z; k_revoked_at : option Z;
}.

Record Issuer := mkIssuer {
  i_principal_id : jstr; i_trust_weight : Z; i_is_bootstrap : bool;
  i_verified_at : option Z; i_created_at : Z;
}.

Record Attestation := mkAttestation {
  a_id : jstr; a_issuer_id : jstr; a_subject_id : jstr; a_jws_token : jstr;
  a_token_digest : jstr; a_payload : json; a_facts : json; a_facts_hash : jstr;
  a_visibility : jstr; a_trust_delta : Z; a_attestation_type : jstr;
  a_schema_version : jstr; a_jti : option jstr; a_observation_id : option jstr;
  a_issued_at : Z; a_expires_at : option Z; a_superseded_by : option jstr;
  a_sig_verified : bool; a_verified_key_id : jstr; a_received_at : Z;
  a_bootstrap_origin : bool;
}.

(** A row of [network_scores] and of [network_score_history]. *)
Record ScoreRow := mkScoreRow {
  ns_principal_id : jstr; ns_entity_kind : jstr; ns_score : Z;
  ns_blacklisted : bool; ns_score_reason : jstr;
  ns_computed_at : Z; ns_sync_version : Z;
}.

Record SyncEvent := mkSyncEvent {
  se_sync_version : Z; se_event_type : jstr; se_principal_id : option jstr;
  se_tenant_id : option jstr; se_payload : json; se_created_at : Z;
}.

Record BootstrapIssuer := mkBootstrapIssuer {
  b_principal_id : jstr; b_name : jstr; b_current_weight : Z;
  b_seeded_at : Z; b_de_emphasized_at : option Z; b_de_emphasis_reason : option jstr;
  b_approved_by : option jstr; b_removed_from_registry_at : option Z;
}.

Record Policy := mkPolicy {
  pol_id : jstr; pol_tenant_id : jstr; pol_name : jstr; pol_threshold : Z;
  pol_below_threshold_action : jstr; pol_unsigned_action : jstr;
  pol_allow_fingerprints : list jstr; pol_deny_fingerprints : list jstr;
  pol_fail_open_expired : bool; pol_no_drop_decisions : bool;
  pol_max_snapshot_age_seconds : Z; pol_allow_sample_rate : Z;
  pol_is_active : bool; pol_created_at : Z;
}.

Record EdgeNode := mkEdgeNode {
  en_id : jstr; en_tenant_id : jstr; en_name : jstr; en_api_key_id : option jstr;
  en_status : jstr; en_last_seen_at : option Z; en_created_at : Z;
}.

Record SyncCursor := mkSyncCursor { sc_last_cursor : Z; sc_last_sync_at : option Z }.

Record Aggregate := mkAggregate {
  ag_tenant_id : jstr; ag_edge_node_id : jstr; ag_bucket_minute : Z;
  ag_kind : jstr; ag_value : jstr; ag_action : jstr; ag_count : Z;
}.

Record Sample := mkSample {
  sm_tenant_id : jstr; sm_edge_node_id : jstr; sm_wal_seq : Z; sm_fingerprint : jstr;
  sm_principal_id : option jstr; sm_score : Z; sm_blacklisted : bool;
  sm_score_reason : option jstr; sm_action : jstr; sm_decided_at : Z;
}.

Record Batch := mkBatch {
  ba_edge_node_id : jstr; ba_batch_id : jstr; ba_tenant_id : jstr;
  ba_first_wal_seq : Z; ba_last_wal_seq : Z; ba_payload_hash : jstr;
}.

Record Subscription := mkSubscription {
  sub_id : jstr; sub_tenant_id : jstr; sub_stripe_customer_id : jstr;
  sub_stripe_subscription_id : jstr; sub_plan : jstr; sub_status : jstr;
  sub_current_period_end : option Z; sub_created_at : Z;
}.

Record WebhookEvent := mkWebhookEvent { wh_payload : json; wh_processed_at : option Z }.

Record Tenant := mkTenant {
  t_id : jstr; t_slug : jstr; t_name : jstr; t_plan : jstr; t_status : jstr; t_created_at : Z;
}.

Record User := mkUser {
  u_id : jstr; u_email : jstr; u_oidc_issuer : jstr; u_oidc_subject : jstr; u_platform_role : jstr;
}.

Record ApiKey := mkApiKey {
  ak_id : jstr; ak_tenant_id : jstr; ak_key_prefix : jstr; ak_key_hash_hmac : jstr;
  ak_scopes : list jstr; ak_last_used_at : option Z; ak_created_at : Z; ak_revoked_at : option Z;
}.

Record AuditEntry := mkAuditEntry {
  au_tenant_id : jstr; au_actor_type : jstr; au_actor_id : option jstr; au_action : jstr;
  au_resource : jstr; au_resource_id : option jstr; au_metadata : json;
}.

(** ** The database *)

Record db := mkDb {
  principals : gmap jstr Principal;
  principal_keys : gmap (jstr * jstr) PrincipalKey;
  issuers : gmap jstr Issuer;
  attestations : gmap jstr Attestation;
  network_scores : gmap jstr ScoreRow;
  network_score_history : list ScoreRow;
  sync_events : list SyncEvent;
  bootstrap_issuers : gmap jstr BootstrapIssuer;
  tenants : gmap jstr Tenant;
  users : gmap jstr User;
  tenant_memberships : gmap (jstr * jstr) jstr;
  api_keys : gmap jstr ApiKey;
  policies : gmap jstr Policy;
  edge_nodes : gmap jstr EdgeNode;
  sync_cursors : gmap (jstr * jstr) SyncCursor;
  decision_aggregates : list Aggregate;
  decision_samples : list Sample;
  decision_batches : gmap (jstr * jstr) Batch;
  subscriptions : list Subscription;
  webhook_events : gmap jstr WebhookEvent;
  audit_log : list AuditEntry;
}.

Definition empty_db : db :=
  mkDb ∅ ∅ ∅ ∅ ∅ [] [] ∅ ∅ ∅ ∅ ∅ ∅ ∅ ∅ [] [] ∅ [] ∅ [].

(** Field updates. *)

Definition set_principals (t : gmap jstr Principal) (d : db) : db :=
  mkDb
    t (principal_keys d) (issuers d) (attestations d) (network_scores d)
    (network_score_history d) (sync_events d) (bootstrap_issuers d) (tenants d) (users d)
    (tenant_memberships d) (api_keys d) (policies d) (edge_nodes d) (sync_cursors d)
    (decision_aggregates d) (decision_samples d) (decision_batches d) (subscriptions d)
    (webhook_events d) (audit_log d).

Definition set_principal_keys (t : gmap (jstr * jstr) PrincipalKey) (d : db) : db :=
  mkDb
    (principals d) t (issuers d) (attestations d) (network_scores d) (network_score_history d)
    (sync_events d) (bootstrap_issuers d) (tenants d) (users d) (tenant_memberships d)
    (api_keys d) (policies d) (edge_nodes d) (sync_cursors d) (decision_aggregates d)
    (decision_samples d) (decision_batches d) (subscriptions d) (webhook_events d)
    (audit_log d).

Definition set_issuers (t : gmap jstr Issuer) (d : db) : db :=
  mkDb
    (principals d) (principal_keys d) t (attestations d) (network_scores d)
    (network_score_history d) (sync_events d) (bootstrap_issuers d) (tenants d) (users d)
    (tenant_memberships d) (api_keys d) (policies d) (edge_nodes d) (sync_cursors d)
    (decision_aggregates d) (decision_samples d) (decision_batches d) (subscriptions d)
    (webhook_events d) (audit_log d).

Definition set_attestations (t : gmap jstr Attestation) (d : db) : db :=
  mkDb
    (principals d) (principal_keys d) (issuers d) t (network_scores d)
    (network_score_history d) (sync_events d) (bootstrap_issuers d) (tenants d) (users d)
    (tenant_memberships d) (api_keys d) (policies d) (edge_nodes d) (sync_cursors d)
    (decision_aggregates d) (decision_samples d) (decision_batches d) (subscriptions d)
    (webhook_events d) (audit_log d).

Definition set_network_scores (t : gmap jstr ScoreRow) (d : db) : db :=
  mkDb
    (principals d) (principal_keys d) (issuers d) (attestations d) t (network_score_history d)
    (sync_events d) (bootstrap_issuers d) (tenants d) (users d) (tenant_memberships d)
    (api_keys d) (policies d) (edge_nodes d) (sync_cursors d) (decision_aggregates d)
    (decision_samples d) (decision_batches d) (subscriptions d) (webhook_events d)
    (audit_log d).

Definition set_network_score_history (t : list ScoreRow) (d : db) : db :=
  mkDb
    (principals d) (principal_keys d) (issuers d) (attestations d) (network_scores d) t
    (sync_events d) (bootstrap_issuers d) (tenants d) (users d) (tenant_memberships d)
    (api_keys d) (policies d) (edge_nodes d) (sync_cursors d) (decision_aggregates d)
    (decision_samples d) (decision_batches d) (subscriptions d) (webhook_events d)
    (audit_log d).

Definition set_sync_events (t : list SyncEvent) (d : db) : db :=
  mkDb
    (principals d) (principal_keys d) (issuers d) (attestations d) (network_scores d)
    (network_score_history d) t (bootstrap_issuers d) (tenants d) (users d)
    (tenant_memberships d) (api_keys d) (policies d) (edge_nodes d) (sync_cursors d)
    (decision_aggregates d) (decision_samples d) (decision_batches d) (subscriptions d)
    (webhook_events d) (audit_log d).

Definition set_bootstrap_issuers (t : gmap jstr BootstrapIssuer) (d : db) : db :=
  mkDb
    (principals d) (principal_keys d) (issuers d) (attestations d) (network_scores d)
    (network_score_history d) (sync_events d) t (tenants d) (users d) (tenant_memberships d)
    (api_keys d) (policies d) (edge_nodes d) (sync_cursors d) (decision_aggregates d)
    (decision_samples d) (decision_batches d) (subscriptions d) (webhook_events d)
    (audit_log d).

Definition set_tenants (t : gmap jstr Tenant) (d : db) : db :=
  mkDb
    (principals d) (principal_keys d) (issuers d) (attestations d) (network_scores d)
    (network_score_history d) (sync_events d) (bootstrap_issuers d) t (users d)
    (tenant_memberships d) (api_keys d) (policies d) (edge_nodes d) (sync_cursors d)
    (decision_aggregates d) (decision_samples d) (decision_batches d) (subscriptions d)
    (webhook_events d) (audit_log d).

Definition set_users (t : gmap jstr User) (d : db) : db :=
  mkDb
    (principals d) (principal_keys d) (issuers d) (attestations d) (network_scores d)
    (network_score_history d) (sync_events d) (bootstrap_issuers d) (tenants d) t
    (tenant_memberships d) (api_keys d) (policies d) (edge_nodes d) (sync_cursors d)
    (decision_aggregates d) (decision_samples d) (decision_batches d) (subscriptions d)
    (webhook_events d) (audit_log d).

Definition set_tenant_memberships (t : gmap (jstr * jstr) jstr) (d : db) : db :=
  mkDb
    (principals d) (principal_keys d) (issuers d) (attestations d) (network_scores d)
    (network_score_history d) (sync_events d) (bootstrap_issuers d) (tenants d) (users d) t
    (api_keys d) (policies d) (edge_nodes d) (sync_cursors d) (decision_aggregates d)
    (decision_samples d) (decision_batches d) (subscriptions d) (webhook_events d)
    (audit_log d).

Definition set_api_keys (t : gmap jstr ApiKey) (d : db) : db :=
  mkDb
    (principals d) (principal_keys d) (issuers d) (attestations d) (network_scores d)
    (network_score_history d) (sync_events d) (bootstrap_issuers d) (tenants d) (users d)
    (tenant_memberships d) t (policies d) (edge_nodes d) (sync_cursors d)
    (decision_aggregates d) (decision_samples d) (decision_batches d) (subscriptions d)
    (webhook_events d) (audit_log d).

Definition set_policies (t : gmap jstr Policy) (d : db) : db :=
  mkDb
    (principals d) (principal_keys d) (issuers d) (attestations d) (network_scores d)
    (network_score_history d) (sync_events d) (bootstrap_issuers d) (tenants d) (users d)
    (tenant_memberships d) (api_keys d) t (edge_nodes d) (sync_cursors d)
    (decision_aggregates d) (decision_samples d) (decision_batches d) (subscriptions d)
    (webhook_events d) (audit_log d).

Definition set_edge_nodes (t : gmap jstr EdgeNode) (d : db) : db :=
  mkDb
    (principals d) (principal_keys d) (issuers d) (attestations d) (network_scores d)
    (network_score_history d) (sync_events d) (bootstrap_issuers d) (tenants d) (users d)
    (tenant_memberships d) (api_keys d) (policies d) t (sync_cursors d) (decision_aggregates d)
    (decision_samples d) (decision_batches d) (subscriptions d) (webhook_events d)
    (audit_log d).

Definition set_sync_cursors (t : gmap (jstr * jstr) SyncCursor) (d : db) : db :=
  mkDb
    (principals d) (principal_keys d) (issuers d) (attestations d) (network_scores d)
    (network_score_history d) (sync_events d) (bootstrap_issuers d) (tenants d) (users d)
    (tenant_memberships d) (api_keys d) (policies d) (edge_nodes d) t (decision_aggregates d)
    (decision_samples d) (decision_batches d) (subscriptions d) (webhook_events d)
    (audit_log d).

Definition set_decision_aggregates (t : list Aggregate) (d : db) : db :=
  mkDb
    (principals d) (principal_keys d) (issuers d) (attestations d) (network_scores d)
    (network_score_history d) (sync_events d) (bootstrap_issuers d) (tenants d) (users d)
    (tenant_memberships d) (api_keys d) (policies d) (edge_nodes d) (sync_cursors d) t
    (decision_samples d) (decision_batches d) (subscriptions d) (webhook_events d)
    (audit_log d).

Definition set_decision_samples (t : list Sample) (d : db) : db :=
  mkDb
    (principals d) (principal_keys d) (issuers d) (attestations d) (network_scores d)
    (network_score_history d) (sync_events d) (bootstrap_issuers d) (tenants d) (users d)
    (tenant_memberships d) (api_keys d) (policies d) (edge_nodes d) (sync_cursors d)
    (decision_aggregates d) t (decision_batches d) (subscriptions d) (webhook_events d)
    (audit_log d).

Definition set_decision_batches (t : gmap (jstr * jstr) Batch) (d : db) : db :=
  mkDb
    (principals d) (principal_keys d) (issuers d) (attestations d) (network_scores d)
    (network_score_history d) (sync_events d) (bootstrap_issuers d) (tenants d) (users d)
    (tenant_memberships d) (api_keys d) (policies d) (edge_nodes d) (sync_cursors d)
    (decision_aggregates d) (decision_samples d) t (subscriptions d) (webhook_events d)
    (audit_log d).

Definition set_subscriptions (t : list Subscription) (d : db) : db :=
  mkDb
    (principals d) (principal_keys d) (issuers d) (attestations d) (network_scores d)
    (network_score_history d) (sync_events d) (bootstrap_issuers d) (tenants d) (users d)
    (tenant_memberships d) (api_keys d) (policies d) (edge_nodes d) (sync_cursors d)
    (decision_aggregates d) (decision_samples d) (decision_batches d) t (webhook_events d)
    (audit_log d).

Definition set_webhook_events (t : gmap jstr WebhookEvent) (d : db) : db :=
  mkDb
    (principals d) (principal_keys d) (issuers d) (attestations d) (network_scores d)
    (network_score_history d) (sync_events d) (bootstrap_issuers d) (tenants d) (users d)
    (tenant_memberships d) (api_keys d) (policies d) (edge_nodes d) (sync_cursors d)
    (decision_aggregates d) (decision_samples d) (decision_batches d) (subscriptions d) t
    (audit_log d).

Definition set_audit_log (t : list AuditEntry) (d : db) : db :=
  mkDb
    (principals d) (principal_keys d) (issuers d) (attestations d) (network_scores d)
    (network_score_history d) (sync_events d) (bootstrap_issuers d) (tenants d) (users d)
    (tenant_memberships d) (api_keys d) (policies d) (edge_nodes d) (sync_cursors d)
    (decision_aggregates d) (decision_samples d) (decision_batches d) (subscriptions d)
    (webhook_events d) t.

(** ** Code that queries the database *)

Definition M (A : Type) : Type := db → result exn A * db.

#[global] Instance M_ret : MRet M := λ A a d, (Ok a, d).
#[global] Instance M_bind : MBind M := λ A B k m d,
  match m d with
  | (Ok a, d') => k a d'
  | (Throw e, d') => (Throw e, d')
  end.

(** A query that only reads. *)
Definition reads {A} (f : db → A) : M A := λ d, (Ok (f d), d).
(** A statement that only writes. *)
Definition writes (f : db → db) : M unit := λ d, (Ok tt, f d).
Definition throw {A} (e : exn) : M A := λ d, (Throw e, d).
Definition lift {A} (r : result exn A) : M A := λ d, (r, d).

(** [try { m } catch (e) { h(e) }]: what [m] wrote before it threw stays. *)
Definition catch {A} (m : M A) (h : exn → M A) : M A := λ d,
  match m d with (Throw e, d') => h e d' | r => r end.

(** [for (const x of l) await f(x)]. *)
Fixpoint for_each {A} (l : list A) (f : A → M unit) : M unit :=
  match l with
  | [] => mret tt
  | x :: l' => _ ← f x; for_each l' f
  end.

(** The same loop with a local variable carried along. *)
Fixpoint for_fold {A S} (l : list A) (f : S → A → M S) (s : S) : M S :=
  match l with
  | [] => mret s
  | x :: l' => s' ← f s x; for_fold l' f s'
  end.

(** [withTransaction]: BEGIN, the body, COMMIT; any exception rolls back all
    writes of the body and is rethrown. *)
Definition withTransaction {A} (work : M A) : M A := λ d,
  match work d with
  | (Ok a, d') => (Ok a, d')
  | (Throw e, _) => (Throw e, d)
  end.

(** SQLSTATEs of constraint violations. *)
Definition unique_violation : jstr := js "23505".
Definition foreign_key_violation : jstr := js "23503".
Definition check_violation : jstr := js "23514".

(** [COALESCE(MAX(x), 0)] of a list of non-negative integers. *)
Definition max_or_zero (l : list Z) : Z := fold_right Z.max 0 l.

(** ** Lemmas *)

Lemma M_bind_Ok {A B} (m : M A) (k : A → M B) d b d' :
  (m ≫= k) d = (Ok b, d') ↔ ∃ a d1, m d = (Ok a, d1) ∧ k a d1 = (Ok b, d').
Proof.
  unfold mbind, M_bind. destruct (m d) as [[a|e] d1]; split.
  - eauto.
  - by intros (a' & d1' & [= <- <-] & ?).
  - done.
  - by intros (a' & d1' & ? & _).
Qed.

Lemma M_bind_run {A B} (m : M A) (k : A → M B) d a d1 : m d = (Ok a, d1) → (m ≫= k) d = k a d1.
Proof. unfold mbind, M_bind. by intros ->. Qed.

Lemma lift_Ok {A} (r : result exn A) d a d' : lift r d = (Ok a, d') ↔ r = Ok a ∧ d' = d.
Proof. unfold lift. split; [by intros [= -> ->]|by intros [-> ->]]. Qed.

Lemma for_each_app {A} (l1 l2 : list A) f d :
  for_each (l1 ++ l2) f d = (for_each l1 f ≫= λ _, for_each l2 f) d.
Proof.
  revert d. induction l1 as [|x l1 IH]; intros d; [done|].
  simpl. unfold mbind, M_bind in *. destruct (f x d) as [[[]|e] d1]; [|done]. apply IH.
Qed.

(** A transaction that throws leaves the database as it was. *)
Lemma withTransaction_throw {A} (m : M A) d e d' :
  withTransaction m d = (Throw e, d') → d' = d.
Proof. unfold withTransaction. destruct (m d) as [[]]; congruence. Qed.

Lemma withTransaction_Ok {A} (m : M A) d a d' :
  withTransaction m d = (Ok a, d') ↔ m d = (Ok a, d').
Proof. unfold withTransaction. destruct (m d) as [[]]; split; congruence. Qed.

(** An invariant kept by every iteration is kept by the loop. *)
Lemma for_fold_invariant {A S} (P : S → db → Prop) (l : list A) (f : S → A → M S) s d s' d' :
  (∀ s d x s1 d1, x ∈ l → P s d → f s x d = (Ok s1, d1) → P s1 d1) →
  P s d → for_fold l f s d = (Ok s', d') → P s' d'.
Proof.
  intros Hstep. revert s d. induction l as [|x l IH]; intros s d HP; simpl.
  { by intros [= <- <-]. }
  intros (s1 & d1 & Hf & Hl)%M_bind_Ok. eapply IH; [|eapply Hstep; [|done..]|done].
  - intros. eapply Hstep; [|done..]. by apply elem_of_cons; right.
  - by apply elem_of_cons; left.
Qed.

Lemma max_or_zero_ge l x : x ∈ l → x ≤ max_or_zero l.
Proof. induction 1; simpl; lia. Qed.

Lemma max_or_zero_nonneg l : 0 ≤ max_or_zero l.
Proof. induction l; simpl; lia. Qed.

Lemma max_or_zero_app l1 l2 : max_or_zero (l1 ++ l2) = Z.max (max_or_zero l1) (max_or_zero l2).
Proof.
  induction l1 as [|x l1 IH]; simpl; [|rewrite IH; lia].
  pose proof (max_or_zero_nonneg l2). lia.
Qed.

#[export] Hint Resolve max_or_zero_nonneg max_or_zero_ge : verilink.

Ltac invert_M :=
  repeat match goal with
  | H : (_ ≫= _) _ = (Ok _, _) |- _ =>
      apply M_bind_Ok in H; let a := fresh "a" in let d := fresh "d" in
      destruct H as (a & d & ? & H)
  | H : mret _ _ = (Ok _, _) |- _ => injection H as ? ?
  | H : reads _ _ = (Ok _, _) |- _ => injection H as ? ?
  | H : writes _ _ = (Ok _, _) |- _ => injection H as ? ?
  | H : lift _ _ = (Ok _, _) |- _ => injection H as ? ?
  | H : throw _ _ = (Ok _, _) |- _ => discriminate H
  | H : withTransaction _ _ = (Ok _, _) |- _ => rewrite withTransaction_Ok in H
  end.
