(* ===== verification/LastEventId.v ===== *)
(** * Last-Event-ID parsing (control-plane/src/domains/sync/parseLastEventId.ts)

    The resume position of an SSE client arrives as a raw header or query
    string.  The parser is translated with its messages; [value] is the
    BigInt, an unbounded integer. *)
From stdpp Require Import base strings list.
From S2P Require Import Prelude.

Module LastEventId.

(** Postgres signed BIGINT max (sync_events.sync_version). *)
Definition PG_BIGINT_MAX : Z := 9223372036854775807.

(** [ParseLastEventIdResult]: [Ok value] is [{ok: true, value}], [Throw
    message] is [{ok: false, message}]. *)
Definition ParseLastEventIdResult : Type := result jstr Z.

(** [string | string[]]. *)
Inductive RawValue :=
| RawString (s : jstr)
| RawArray (l : list jstr).

Record LastEventIdInputs := {
  header : option RawValue;
  query : option RawValue;
  queryKeyPresent : option bool;
  headerPresent : option bool;
}.

Definition firstString (v : option RawValue) : option jstr :=
  match v with
  | None => None
  | Some (RawArray l) => head l
  | Some (RawString s) => Some s
  end.

(** [BigInt] of a digit string always succeeds, except for engine size limits
    that lie far above [PG_BIGINT_MAX] and are mapped to the same message. *)
Definition parseNonNegativeInteger (raw : jstr) : ParseLastEventIdResult :=
  let trimmed := trim raw in
  if bool_decide (length trimmed = 0%nat) then Throw (js "last_event_id must not be blank")
  else if negb (all_digits trimmed) then
    Throw (js "last_event_id must be a non-negative integer")
  else
    let value := digits_value trimmed in
    if PG_BIGINT_MAX <? value then Throw (js "last_event_id is out of range")
    else Ok value.

(** [h === undefined || h.trim().length === 0]. *)
Definition absent_or_blank (s : option jstr) : bool :=
  match s with None => true | Some s => bool_decide (length (trim s) = 0%nat) end.

Definition parseLastEventId (input : LastEventIdInputs) : ParseLastEventIdResult :=
  let headerPresent := default (bool_decide (is_Some (header input))) (headerPresent input) in
  let queryPresent := default (bool_decide (is_Some (query input))) (queryKeyPresent input) in
  if headerPresent then
    let h := firstString (header input) in
    if absent_or_blank h then Throw (js "Last-Event-ID must not be blank")
    else parseNonNegativeInteger (default [] h)
  else if queryPresent then
    let q := firstString (query input) in
    if absent_or_blank q then Throw (js "last_event_id must not be blank")
    else parseNonNegativeInteger (default [] q)
  else Ok 0.

(** The inputs of a request that sends the header [h] and no query value. *)
Definition header_input (h : jstr) : LastEventIdInputs :=
  {| header := Some (RawString h); query := None;
     queryKeyPresent := Some false; headerPresent := Some true |}.

(** ** Lemmas *)

Lemma parseNonNegativeInteger_Ok raw v :
  parseNonNegativeInteger raw = Ok v ↔
  all_digits (trim raw) = true ∧ v = digits_value (trim raw) ∧ v ≤ PG_BIGINT_MAX.
Proof.
  unfold parseNonNegativeInteger. split.
  - intros H. destruct (bool_decide _) eqn:?; [done|].
    destruct (all_digits _) eqn:?; [|done]. simpl in H.
    destruct (_ <? _) eqn:?; [done|]. bool_to_prop. injection H as <-. done.
  - intros (Hd & -> & Hle). rewrite Hd.
    rewrite bool_decide_eq_false_2 by (destruct (trim raw); done). simpl.
    destruct (_ <? _) eqn:?; [|done]. bool_to_prop. lia.
Qed.

Lemma parseLastEventId_Ok input v :
  parseLastEventId input = Ok v →
  v = 0 ∨ ∃ raw, parseNonNegativeInteger raw = Ok v.
Proof.
  unfold parseLastEventId. intros H.
  repeat case_match_in H; try done; try (injection H as <-; by left); right; eauto.
Qed.

Lemma blank_digits s : all_digits (trim s) = true → absent_or_blank (Some s) = false.
Proof.
  intros Hd. apply bool_decide_eq_false_2. by destruct (trim s).
Qed.

(** ** Properties *)

(** Every accepted cursor is a value a Postgres BIGINT column can hold:
    non-negative and at most 2^63 - 1. *)
Theorem parse_in_bigint_range input v :
  parseLastEventId input = Ok v → 0 ≤ v ≤ PG_BIGINT_MAX.
Proof.
  intros [->|(raw & (Hd & -> & Hle)%parseNonNegativeInteger_Ok)]%parseLastEventId_Ok; [done|].
  split; [|done]. apply digits_value_bounds. eauto with verilink.
Qed.

Lemma parse_in_bigint_range_witness :
  parseLastEventId (header_input (js " 42 ")) = Ok 42 ∧ 0 ≤ 42 ≤ PG_BIGINT_MAX.
Proof.
  assert (H : parseLastEventId (header_input (js " 42 ")) = Ok 42) by (vm_compute; reflexivity).
  split; [exact H|exact (parse_in_bigint_range _ _ H)].
Defined.

(** Resuming is lossless: the decimal [id:] an SSE event carries, sent
    back in the header with any white space around it, parses to the same
    sync version, for every version a BIGINT column can hold; and a present
    header decides the result whatever the query string says. *)
Theorem last_event_id_roundtrip v ws ws' q qp :
  0 ≤ v ≤ PG_BIGINT_MAX →
  forallb is_space ws = true → forallb is_space ws' = true →
  parseLastEventId {| header := Some (RawString (ws ++ show_Z v ++ ws'));
                      query := q; queryKeyPresent := qp; headerPresent := Some true |} = Ok v.
Proof.
  intros [H0 Hm] Hw Hw'. unfold show_Z. destruct (v <? 0) eqn:?; bool_to_prop; [lia|].
  destruct (show_nonneg_spec v H0) as [Hd Hv].
  assert (Ht : trim (ws ++ show_nonneg v ++ ws') = show_nonneg v)
    by (apply trim_padded; eauto with verilink).
  unfold parseLastEventId. simpl header. simpl headerPresent. simpl default.
  cbn [firstString]. rewrite blank_digits by by rewrite Ht.
  simpl default. apply parseNonNegativeInteger_Ok. by rewrite Ht.
Qed.

Lemma last_event_id_roundtrip_witness :
  parseLastEventId {| header := Some (RawString ([32] ++ show_Z PG_BIGINT_MAX ++ [9]));
                      query := Some (RawString (js "7")); queryKeyPresent := Some true;
                      headerPresent := Some true |} = Ok PG_BIGINT_MAX.
Proof. apply (last_event_id_roundtrip PG_BIGINT_MAX [32] [9]); [done|reflexivity|reflexivity]. Defined.

(** A cursor above the BIGINT range is refused as out of range instead of
    being truncated. *)
Theorem last_event_id_overflow_rejected v :
  PG_BIGINT_MAX < v →
  parseLastEventId (header_input (show_Z v)) = Throw (js "last_event_id is out of range").
Proof.
  intros Hv. assert (H0 : 0 ≤ v) by (unfold PG_BIGINT_MAX in Hv; lia).
  unfold show_Z. destruct (v <? 0) eqn:?; bool_to_prop; [lia|].
  destruct (show_nonneg_spec v H0) as [Hd Hval].
  assert (Ht : trim (show_nonneg v) = show_nonneg v).
  { rewrite <- (app_nil_l (show_nonneg v)), <- (app_nil_r (show_nonneg v)) at 1.
    apply trim_padded; eauto with verilink. }
  unfold parseLastEventId, header_input. simpl header. simpl headerPresent. simpl default.
  cbn [firstString]. rewrite blank_digits by by rewrite Ht. simpl default.
  unfold parseNonNegativeInteger. rewrite Ht, Hd.
  rewrite bool_decide_eq_false_2 by (by destruct (show_nonneg v)). simpl.
  rewrite Hval. destruct (_ <? _) eqn:?; [done|]. bool_to_prop. lia.
Qed.

Lemma last_event_id_overflow_rejected_witness :
  parseLastEventId (header_input (show_Z 9223372036854775808)) =
  Throw (js "last_event_id is out of range").
Proof. apply (last_event_id_overflow_rejected 9223372036854775808). reflexivity. Defined.

End LastEventId.
