(* ===== verification/SyncLog.v ===== *)
(** * The sync event log (domains/sync/syncRepository.ts, syncService.ts,
    syncCursorRepository.ts)

    Every change an edge must learn about is a row of [sync_events] with a
    version allocated as the current maximum plus one.  Edges read the rows
    above their cursor in version order, and their acknowledged cursors are
    kept in [sync_cursors].  Versions are integers; node-pg hands BIGINT back
    as a decimal string, so nothing is lost on the way. *)
From stdpp Require Import base gmap strings sorting numbers list.
From S2P Require Import Prelude Json Errors Db.

Module SyncLog.

Definition SYNC_VERSION_LOCK_KEY : Z := 8392018.

(** ** Operations *)

(** [x || null]: an empty string becomes NULL. *)
Definition or_null (x : option jstr) : option jstr :=
  match x with Some [] => None | _ => x end.

(** CHECK (event_type IN (...)) of migration 003. *)
Definition event_types : list jstr :=
  [js "score.upsert"; js "score.delete"; js "key.upsert"; js "key.revoke"; js "policy.replace"].

Definition versions (d : db) : list Z := se_sync_version <$> sync_events d.

(** [SELECT COALESCE(MAX(sync_version), 0) FROM sync_events]. *)
Definition high_water (d : db) : Z := max_or_zero (versions d).

Definition appendEventWithClient (now : Z) (eventType : jstr) (payload : json)
    (principalId tenantId : option jstr) : M Z := λ d,
  if bool_decide (eventType ∈ event_types) then
    let v := high_water d + 1 in
    let row := mkSyncEvent v eventType (or_null principalId) (or_null tenantId) payload now in
    (Ok v, set_sync_events (sync_events d ++ [row]) d)
  else (Throw (EPg check_violation), d).

Definition appendEvent (now : Z) (eventType : jstr) (payload : json)
    (principalId tenantId : option jstr) : M Z :=
  withTransaction (appendEventWithClient now eventType payload principalId tenantId).

(** [tenant_id IS NULL OR tenant_id = $2], applied only when the caller names
    a (non-empty) tenant. *)
Definition visible (tenantId : option jstr) (e : SyncEvent) : bool :=
  match or_null tenantId with
  | None => true
  | Some t => match se_tenant_id e with
              | None => true
              | Some t' => bool_decide (t' = t)
              end
  end.

Definition selected (sinceVersion : Z) (tenantId : option jstr) (e : SyncEvent) : bool :=
  (sinceVersion <? se_sync_version e) && visible tenantId e.

Definition version_le (a b : SyncEvent) : Prop := se_sync_version a ≤ se_sync_version b.
#[global] Instance version_le_dec : RelDecision version_le.
Proof. unfold version_le. intros a b. apply _. Defined.
#[global] Instance version_le_total : Total version_le.
Proof. unfold version_le. intros a b. lia. Qed.
#[global] Instance version_le_trans : Transitive version_le.
Proof. unfold version_le. intros a b c. lia. Qed.

(** [ORDER BY sync_version ASC LIMIT n]. *)
Definition limited {A} (limit : option nat) (l : list A) : list A :=
  match limit with None => l | Some n => take n l end.

Definition getEventsSince (sinceVersion : Z) (tenantId : option jstr) (limit : option nat)
    (d : db) : list SyncEvent :=
  limited limit (merge_sort version_le (filter (λ e, selected sinceVersion tenantId e) (sync_events d))).

Definition getHighWaterVersion (d : db) : Z := high_water d.

(** Events and high water from one REPEATABLE READ snapshot. *)
Definition fetchEventsAndHighWaterInSnapshot (sinceVersion : Z) (tenantId : option jstr)
    (fetchLimit : nat) (d : db) : list SyncEvent * Z :=
  (getEventsSince sinceVersion tenantId (Some fetchLimit) d, high_water d).

Record InitialBatchResult := mkInitialBatch {
  ib_events : list SyncEvent; ib_highWater : Z; ib_backlogExceeded : bool;
}.

Definition getInitialBatchWithHighWater (sinceVersion : Z) (tenantId : option jstr)
    (maxBatch : nat) (d : db) : InitialBatchResult :=
  let '(events, highWater) :=
    fetchEventsAndHighWaterInSnapshot sinceVersion tenantId (maxBatch + 1) d in
  let backlogExceeded := bool_decide (maxBatch < length events)%nat in
  mkInitialBatch (if backlogExceeded then take maxBatch events else events)
                 highWater backlogExceeded.

Definition getPollBatchWithHighWater (sinceVersion : Z) (tenantId : option jstr)
    (limit : nat) (d : db) : list SyncEvent * Z :=
  fetchEventsAndHighWaterInSnapshot sinceVersion tenantId limit d.

(** [resolveEdgeNodeForApiKey]: insert, or touch the row the unique index on
    (tenant_id, api_key_id) already holds.  [uuid] is the id the database
    would generate. *)
Definition edge_of_key (tenantId apiKeyId : jstr) (d : db) : option EdgeNode :=
  snd <$> head (filter (λ kv : jstr * EdgeNode,
    en_tenant_id kv.2 = tenantId ∧ en_api_key_id kv.2 = Some apiKeyId) (map_to_list (edge_nodes d))).

Definition resolveEdgeNodeForApiKey (now : Z) (uuid tenantId apiKeyId : jstr) : M jstr := λ d,
  match edge_of_key tenantId apiKeyId d with
  | Some en =>
      let en' := mkEdgeNode (en_id en) (en_tenant_id en) (en_name en) (en_api_key_id en)
                            (js "online") (Some now) (en_created_at en) in
      (Ok (en_id en), set_edge_nodes (<[en_id en := en']> (edge_nodes d)) d)
  | None =>
      match api_keys d !! apiKeyId with
      | Some k =>
          if bool_decide (ak_tenant_id k = tenantId) then
            let en := mkEdgeNode uuid tenantId (js "edge-" ++ take 8 apiKeyId) (Some apiKeyId)
                                 (js "online") (Some now) now in
            (Ok uuid, set_edge_nodes (<[uuid := en]> (edge_nodes d)) d)
          else (Throw (EPg foreign_key_violation), d)
      | None => (Throw (EPg foreign_key_violation), d)
      end
  end.

(** [upsertSyncCursor]: monotone, and failures are logged and swallowed. *)
Definition upsertSyncCursor (now : Z) (tenantId edgeNodeId : jstr) (lastCursor : Z) (d : db) : db :=
  match edge_nodes d !! edgeNodeId with
  | Some en =>
      if bool_decide (en_tenant_id en = tenantId) then
        let stored := sync_cursors d !! (tenantId, edgeNodeId) in
        let c := match stored with
                 | Some sc => Z.max (sc_last_cursor sc) lastCursor
                 | None => lastCursor
                 end in
        set_sync_cursors (<[(tenantId, edgeNodeId) := mkSyncCursor c (Some now)]> (sync_cursors d)) d
      else d
  | None => d
  end.

(** ** The log invariant

    The log is gap-free: its versions are 1, 2, ..., n in insertion order. *)
Definition log_wf (d : db) : Prop := versions d = seqZ 1 (Z.of_nat (length (sync_events d))).

Lemma max_seqZ n : max_or_zero (seqZ 1 (Z.of_nat n)) = Z.of_nat n.
Proof.
  induction n as [|n IH]; [done|].
  rewrite Nat2Z.inj_succ, <- Z.add_1_r, seqZ_app by lia.
  rewrite max_or_zero_app, IH. change (seqZ (1 + Z.of_nat n) 1) with [1 + Z.of_nat n].
  simpl. lia.
Qed.

Lemma high_water_wf d : log_wf d → high_water d = Z.of_nat (length (sync_events d)).
Proof. unfold log_wf, high_water. intros ->. apply max_seqZ. Qed.

Lemma empty_log_wf : log_wf empty_db.
Proof. done. Qed.

Lemma appendEventWithClient_Ok now ty pl p t d v d' :
  appendEventWithClient now ty pl p t d = (Ok v, d') →
  v = high_water d + 1 ∧ ty ∈ event_types ∧
  d' = set_sync_events (sync_events d ++ [mkSyncEvent v ty (or_null p) (or_null t) pl now]) d.
Proof. unfold appendEventWithClient. case_bool_decide; [|done]. by intros [= <- <-]. Qed.

Lemma high_water_append d e :
  high_water (set_sync_events (sync_events d ++ [e]) d) =
  Z.max (high_water d) (Z.max (se_sync_version e) 0).
Proof.
  unfold high_water, versions. simpl. rewrite fmap_app, max_or_zero_app. simpl. lia.
Qed.

(** Any change that appends one row with the next version keeps the log
    well formed, whatever it does to the other tables. *)
Lemma log_wf_append d d' e :
  log_wf d → sync_events d' = sync_events d ++ [e] → se_sync_version e = high_water d + 1 →
  log_wf d'.
Proof.
  intros Hwf He Hv. pose proof (high_water_wf d Hwf) as Hh. unfold log_wf, versions in *.
  rewrite He, fmap_app, Hwf, length_app. simpl. rewrite Hv, Hh.
  rewrite Nat2Z.inj_add, seqZ_app by lia.
  change (seqZ (1 + ?n) (Z.of_nat 1)) with [1 + n]. by rewrite Z.add_comm.
Qed.

Lemma append_log_wf now ty pl p t d v d' :
  log_wf d → appendEventWithClient now ty pl p t d = (Ok v, d') → log_wf d'.
Proof. intros Hwf (-> & _ & ->)%appendEventWithClient_Ok. by eapply log_wf_append. Qed.

Lemma score_upsert_type : js "score.upsert" ∈ event_types.
Proof. apply elem_of_cons. by left. Qed.
Lemma score_delete_type : js "score.delete" ∈ event_types.
Proof. apply elem_of_cons. right. apply elem_of_cons. by left. Qed.
Lemma policy_replace_type : js "policy.replace" ∈ event_types.
Proof. unfold event_types. rewrite !elem_of_cons. tauto. Qed.

(** An append of a known event type always succeeds. *)
Lemma appendEventWithClient_eq now ty pl p t d :
  ty ∈ event_types →
  appendEventWithClient now ty pl p t d =
  (Ok (high_water d + 1),
   set_sync_events
     (sync_events d ++ [mkSyncEvent (high_water d + 1) ty (or_null p) (or_null t) pl now]) d).
Proof. intros Hty. unfold appendEventWithClient. by rewrite bool_decide_eq_true_2. Qed.

#[export] Hint Resolve score_upsert_type score_delete_type policy_replace_type : verilink.

Lemma versions_NoDup d : log_wf d → NoDup (versions d).
Proof. intros ->. apply NoDup_seqZ. Qed.

Lemma version_inj d e1 e2 :
  log_wf d → e1 ∈ sync_events d → e2 ∈ sync_events d →
  se_sync_version e1 = se_sync_version e2 → e1 = e2.
Proof.
  intros Hwf%versions_NoDup [i H1]%list_elem_of_lookup [j H2]%list_elem_of_lookup Heq.
  assert (i = j) as ->; [|congruence].
  eapply NoDup_lookup; [exact Hwf| |].
  - unfold versions. by rewrite list_lookup_fmap, H1.
  - unfold versions. rewrite list_lookup_fmap, H2. simpl. by rewrite Heq.
Qed.

Lemma elem_of_getEventsSince since t d e :
  e ∈ getEventsSince since t None d ↔
  e ∈ sync_events d ∧ since < se_sync_version e ∧ visible t e = true.
Proof.
  unfold getEventsSince. simpl. rewrite merge_sort_Permutation, list_elem_of_filter.
  unfold selected. rewrite Is_true_true, andb_true_iff, Z.ltb_lt. tauto.
Qed.

Lemma getEventsSince_limited since t n d :
  getEventsSince since t (Some n) d = take n (getEventsSince since t None d).
Proof. done. Qed.

Lemma getEventsSince_sorted since t d :
  StronglySorted version_le (getEventsSince since t None d).
Proof. apply StronglySorted_merge_sort; apply _. Qed.

Lemma StronglySorted_seqZ a n : StronglySorted Z.le (seqZ a (Z.of_nat n)).
Proof.
  induction n as [|n IH] using nat_ind; [constructor|].
  rewrite Nat2Z.inj_succ, <- Z.add_1_r, seqZ_app by lia.
  apply StronglySorted_app. split; [|split; [done|]].
  - intros x1 x2 H1 H2. apply elem_of_seqZ in H1, H2. lia.
  - change (seqZ (a + Z.of_nat n) 1) with [a + Z.of_nat n]. repeat constructor.
Qed.

Lemma log_sorted d : log_wf d → StronglySorted version_le (sync_events d).
Proof.
  unfold log_wf, versions. intros Hwf.
  pose proof (StronglySorted_seqZ 1 (length (sync_events d))) as Hs.
  rewrite <- Hwf in Hs. clear Hwf. induction (sync_events d) as [|e l IH]; [constructor|].
  simpl in Hs. apply StronglySorted_inv in Hs as [Hs Hf]. constructor; [auto|].
  by rewrite Forall_fmap in Hf.
Qed.

Lemma StronglySorted_filter' {A} (R : relation A) (P : A → Prop) `{∀ x, Decision (P x)} l :
  StronglySorted R l → StronglySorted R (filter P l).
Proof.
  induction 1 as [|x l Hs IH Hf]; [constructor|]. rewrite filter_cons.
  case_decide; [|done]. constructor; [done|].
  apply Forall_forall. intros y [_ Hy]%list_elem_of_filter. rewrite Forall_forall in Hf. auto.
Qed.

(** On a well-formed log the query returns the selected rows in log order. *)
Lemma getEventsSince_eq_filter since t d :
  log_wf d →
  getEventsSince since t None d = filter (λ e, selected since t e) (sync_events d).
Proof.
  intros Hwf. eapply StronglySorted_unique_strong with (R := version_le).
  - intros e1 e2 H1 H2 Hle Hle'.
    apply elem_of_getEventsSince in H1 as [H1 _]. apply list_elem_of_filter in H2 as [_ H2].
    eapply version_inj; eauto. unfold version_le in *. lia.
  - apply getEventsSince_sorted.
  - by apply StronglySorted_filter', log_sorted.
  - apply merge_sort_Permutation.
Qed.

Lemma versions_le_high_water d e : e ∈ sync_events d → se_sync_version e ≤ high_water d.
Proof.
  intros He. apply max_or_zero_ge. unfold versions. by apply list_elem_of_fmap_2.
Qed.

(** Events appended to a well-formed log are above its old high-water mark. *)
Lemma appended_above d d' l e :
  log_wf d → log_wf d' → sync_events d' = sync_events d ++ l → e ∈ l → high_water d < se_sync_version e.
Proof.
  intros Hd Hd' Hl He. rewrite (high_water_wf d Hd). unfold log_wf, versions in *.
  rewrite Hl, fmap_app, length_app, Nat2Z.inj_add, seqZ_app in Hd' by lia.
  apply app_inj_1 in Hd' as [_ Hd']; [|rewrite length_fmap, length_seqZ; lia].
  apply (list_elem_of_fmap_2 se_sync_version) in He. rewrite Hd' in He. apply elem_of_seqZ in He. lia.
Qed.

(** What is selected above the old high-water mark is what was appended. *)
Lemma events_since_appended t d d' l :
  log_wf d → log_wf d' → sync_events d' = sync_events d ++ l →
  getEventsSince (high_water d) t None d' = filter (λ e, visible t e) l.
Proof.
  intros Hd Hd' Hl. rewrite getEventsSince_eq_filter, Hl, filter_app by done. rewrite filter_none; simpl.
  - apply filter_iff_in. intros e He. unfold selected.
    rewrite (proj2 (Z.ltb_lt _ _)) by (by eapply appended_above). done.
  - intros e He. unfold selected. rewrite (proj2 (Z.ltb_ge _ _)) by (by apply versions_le_high_water). simpl. by intros [].
Qed.

Lemma visible_iff t e :
  visible t e = true ↔
  or_null t = None ∨ se_tenant_id e = None ∨ se_tenant_id e = or_null t.
Proof.
  unfold visible. destruct (or_null t) as [t'|], (se_tenant_id e) as [t''|];
    rewrite ?bool_decide_eq_true; split; intros H; try tauto; try congruence;
    intuition congruence.
Qed.

(** A list sorted by version with distinct versions has increasing versions. *)
Lemma sorted_versions_lt l :
  NoDup (se_sync_version <$> l) → StronglySorted version_le l →
  StronglySorted Z.lt (se_sync_version <$> l).
Proof.
  induction l as [|e l IH]; intros Hnd Hs; [constructor|].
  apply NoDup_cons in Hnd as [Hni Hnd]. apply StronglySorted_inv in Hs as [Hs Hf].
  simpl. constructor; [auto|]. apply Forall_fmap, Forall_forall. intros x Hx.
  rewrite Forall_forall in Hf. specialize (Hf x Hx). unfold version_le in Hf. simpl.
  assert (se_sync_version x ≠ se_sync_version e); [|lia].
  intros Heq. apply Hni. rewrite <- Heq. by apply list_elem_of_fmap_2.
Qed.

(** ** Properties *)

(** Allocation is gap-free and in order: appending an event to a
    well-formed log gives it the next version after the high-water mark,
    makes that version the new high-water mark, leaves the log well formed
    and changes no other table and no earlier row. *)
Theorem append_allocates_next now ty pl p t d v d' :
  log_wf d →
  appendEventWithClient now ty pl p t d = (Ok v, d') →
  v = high_water d + 1 ∧ high_water d' = v ∧ log_wf d' ∧
  ∃ e, sync_events d' = sync_events d ++ [e] ∧ se_sync_version e = v ∧
       d' = set_sync_events (sync_events d') d.
Proof.
  intros Hwf Happ. pose proof (append_log_wf _ _ _ _ _ _ _ _ Hwf Happ) as Hwf'.
  apply appendEventWithClient_Ok in Happ as (Hv & _ & Hd').
  split; [done|]. split; [|split; [done|]].
  - rewrite Hd', high_water_append. simpl.
    pose proof (max_or_zero_nonneg (versions d)). unfold high_water in *. lia.
  - rewrite Hd'. simpl. by eexists.
Qed.

(** Two events of the example database, one global and one for tenant [t1]. *)
Definition sample_db : db :=
  set_sync_events
    [mkSyncEvent 1 (js "score.delete") (Some (js "p1")) None JNull 0;
     mkSyncEvent 2 (js "policy.replace") None (Some (js "t1")) JNull 0] empty_db.

Lemma append_allocates_next_witness :
  log_wf sample_db ∧
  (∃ v d', appendEventWithClient 5 (js "score.upsert") JNull (Some (js "p")) None sample_db = (Ok v, d')
           ∧ v = 3 ∧ high_water d' = 3).
Proof.
  assert (Hwf : log_wf sample_db) by (vm_compute; reflexivity).
  split; [exact Hwf|].
  destruct (appendEventWithClient 5 (js "score.upsert") JNull (Some (js "p")) None sample_db)
    as [[v|e] d'] eqn:E; [|vm_compute in E; discriminate E].
  destruct (append_allocates_next 5 (js "score.upsert") JNull (Some (js "p")) None sample_db v d' Hwf E)
    as (Hv & Hh & _).
  exists v, d'. split; [reflexivity|].
  assert (v = 3) by (rewrite Hv; vm_compute; reflexivity). split; [assumption|congruence].
Defined.

(** A sync read is exact and isolated: on a well-formed log
    [getEventsSince] returns, in strictly increasing version order, exactly
    the rows above the cursor that are global or belong to the caller's
    tenant (all rows when no tenant is named); a LIMIT returns a prefix of
    that list. *)
Theorem events_since_exact since t lim d :
  log_wf d →
  (∀ e, e ∈ getEventsSince since t None d ↔
        e ∈ sync_events d ∧ since < se_sync_version e ∧
        (or_null t = None ∨ se_tenant_id e = None ∨ se_tenant_id e = or_null t)) ∧
  StronglySorted Z.lt (se_sync_version <$> getEventsSince since t None d) ∧
  getEventsSince since t (Some lim) d `prefix_of` getEventsSince since t None d.
Proof.
  intros Hwf. split; [|split].
  - intros e. by rewrite elem_of_getEventsSince, visible_iff.
  - rewrite getEventsSince_eq_filter by done. apply sorted_versions_lt.
    + by apply NoDup_fmap_filter, versions_NoDup.
    + by apply StronglySorted_filter', log_sorted.
  - rewrite getEventsSince_limited. apply prefix_take.
Qed.

Lemma events_since_exact_witness :
  log_wf sample_db ∧ (getEventsSince 0 (Some (js "t2")) (Some 5%nat) sample_db
                        `prefix_of` getEventsSince 0 (Some (js "t2")) None sample_db)
  ∧ se_sync_version <$> getEventsSince 0 (Some (js "t2")) None sample_db = [1].
Proof.
  assert (Hwf : log_wf sample_db) by (vm_compute; reflexivity).
  split; [exact Hwf|]. split; [|vm_compute; reflexivity].
  exact (proj2 (proj2 (events_since_exact 0 (Some (js "t2")) 5 sample_db Hwf))).
Defined.

(** Admission of a resuming client is all or nothing: either the batch
    is not flagged and it is the whole backlog above the cursor, or it is
    flagged and the backlog really is larger than the cap. *)
Theorem initial_batch_complete_or_exceeded since t maxBatch d :
  let r := getInitialBatchWithHighWater since t maxBatch d in
  let backlog := getEventsSince since t None d in
  ib_highWater r = high_water d ∧
  (if ib_backlogExceeded r then (maxBatch < length backlog)%nat ∧ ib_events r = take maxBatch backlog
   else ib_events r = backlog ∧ (length backlog ≤ maxBatch)%nat).
Proof.
  unfold getInitialBatchWithHighWater, fetchEventsAndHighWaterInSnapshot.
  rewrite getEventsSince_limited. generalize (getEventsSince since t None d) as l. intros l.
  simpl. split; [done|]. rewrite length_take. case_bool_decide; simpl.
  - split; [lia|]. rewrite take_take. f_equal. lia.
  - rewrite take_ge by lia. split; [done|lia].
Qed.

(** Acknowledged cursors never move backwards: after any sequence of
    [upsertSyncCursor] calls the stored cursor of an edge is at least what it
    was, and at least every value acknowledged for it. *)
Theorem cursor_upserts_monotone now t e (cs : list Z) d sc :
  sync_cursors d !! (t, e) = Some sc →
  en_tenant_id <$> edge_nodes d !! e = Some t →
  ∃ sc', sync_cursors (fold_left (λ d c, upsertSyncCursor now t e c d) cs d) !! (t, e) = Some sc' ∧
         sc_last_cursor sc' = fold_left Z.max cs (sc_last_cursor sc).
Proof.
  revert d sc. induction cs as [|c cs IH]; intros d sc Hsc Hen; [by exists sc|]. simpl.
  assert (Hstep : upsertSyncCursor now t e c d =
    set_sync_cursors (<[(t, e) := mkSyncCursor (Z.max (sc_last_cursor sc) c) (Some now)]> (sync_cursors d)) d).
  { unfold upsertSyncCursor. destruct (edge_nodes d !! e) as [en|]; [|done].
    simpl in Hen. injection Hen as Hen. rewrite bool_decide_eq_true_2 by done. by rewrite Hsc. }
  rewrite Hstep. apply (IH _ (mkSyncCursor (Z.max (sc_last_cursor sc) c) (Some now))); [|done].
  simpl. by rewrite lookup_insert_eq.
Qed.

Lemma cursor_upserts_monotone_witness :
  let d := set_sync_cursors {[(js "t", js "e") := mkSyncCursor 7 None]}
    (set_edge_nodes {[js "e" := mkEdgeNode (js "e") (js "t") (js "n") None (js "online") None 0]} empty_db) in
  ∃ sc', sync_cursors (fold_left (λ d c, upsertSyncCursor 1 (js "t") (js "e") c d) [9; 3] d)
           !! (js "t", js "e") = Some sc' ∧ sc_last_cursor sc' = 9.
Proof.
  exact (cursor_upserts_monotone 1 (js "t") (js "e") [9; 3]
    (set_sync_cursors {[(js "t", js "e") := mkSyncCursor 7 None]}
      (set_edge_nodes {[js "e" := mkEdgeNode (js "e") (js "t") (js "n") None (js "online") None 0]} empty_db))
    (mkSyncCursor 7 None) eq_refl eq_refl).
Defined.

End SyncLog.
