(* ===== verification/VersionLock.v ===== *)
(** * Version allocation under concurrency

    Several transactions allocate sync versions at the same time
    ([appendEvent], [applyScoreTable] and [replaceActivePolicy]).  The
    allocating statement [INSERT ... SELECT COALESCE(MAX(sync_version), 0) + 1]
    reads the rows its READ COMMITTED snapshot shows (committed rows and the
    transaction's own) and then inserts; the primary key makes the insert wait
    for another transaction's uncommitted row with the same key and fail with
    23505 once that row is committed.  [astep] is one atomic step of one
    transaction.  [disciplined] says that allocating transactions first take
    [pg_advisory_xact_lock(SYNC_VERSION_LOCK_KEY)], as the comment on
    [appendEventWithClient] demands. *)
From stdpp Require Import base gmap numbers relations sorting list.
From S2P Require Import Prelude Db SyncLog.

Module VersionLock.
Import SyncLog.

(** An open transaction: its uncommitted versions, and the version its running
    allocation statement computed. *)
Record tx := mkTx { pending : list Z; stmt : option Z }.

Record alloc := mkAlloc {
  committed : list Z;          (* versions, in commit order *)
  lock : option nat;           (* holder of the advisory lock *)
  open : gmap nat tx;
  failed : list nat;           (* transactions aborted by 23505 *)
}.

Definition init : alloc := mkAlloc [] None ∅ [].

(** The lock is transaction scoped: commit and rollback release it. *)
Definition release (t : nat) (l : option nat) : option nat :=
  if decide (l = Some t) then None else l.

Inductive astep (disciplined : bool) : alloc → alloc → Prop :=
| step_begin c l o f t :
    o !! t = None →
    astep disciplined (mkAlloc c l o f) (mkAlloc c l (<[t := mkTx [] None]> o) f)
| step_lock c o f t x :
    o !! t = Some x →
    astep disciplined (mkAlloc c None o f) (mkAlloc c (Some t) o f)
| step_stmt c l o f t p :
    o !! t = Some (mkTx p None) →
    (disciplined = true → l = Some t) →
    astep disciplined (mkAlloc c l o f)
      (mkAlloc c l (<[t := mkTx p (Some (max_or_zero (c ++ p) + 1))]> o) f)
| step_insert c l o f t p v :
    o !! t = Some (mkTx p (Some v)) →
    v ∉ c →
    (∀ t' x, t' ≠ t → o !! t' = Some x → v ∉ pending x) →
    astep disciplined (mkAlloc c l o f) (mkAlloc c l (<[t := mkTx (p ++ [v]) None]> o) f)
| step_violation c l o f t p v :
    o !! t = Some (mkTx p (Some v)) →
    v ∈ c →
    astep disciplined (mkAlloc c l o f) (mkAlloc c (release t l) (delete t o) (f ++ [t]))
| step_commit c l o f t p :
    o !! t = Some (mkTx p None) →
    astep disciplined (mkAlloc c l o f) (mkAlloc (c ++ p) (release t l) (delete t o) f)
| step_rollback c l o f t x :
    o !! t = Some x →
    astep disciplined (mkAlloc c l o f) (mkAlloc c (release t l) (delete t o) f).

(** ** Invariant of the locked protocol

    Only the lock holder has allocated or is allocating, and what is committed
    followed by what it has pending is 1, 2, 3, ... *)
Definition consecutive (l : list Z) : Prop := l = seqZ 1 (Z.of_nat (length l)).

Record lock_inv (s : alloc) : Prop := {
  inv_committed : consecutive (committed s);
  inv_failed : failed s = [];
  inv_holder t x : open s !! t = Some x →
    (pending x ≠ [] ∨ stmt x ≠ None) → lock s = Some t;
  inv_pending t x : open s !! t = Some x → consecutive (committed s ++ pending x);
  inv_stmt t x v : open s !! t = Some x → stmt x = Some v →
    v = Z.of_nat (length (committed s ++ pending x)) + 1;
}.

Lemma max_consecutive l : consecutive l → max_or_zero l = Z.of_nat (length l).
Proof. unfold consecutive. intros Hl. rewrite Hl at 1. apply max_seqZ. Qed.

Lemma consecutive_snoc l : consecutive l → consecutive (l ++ [Z.of_nat (length l) + 1]).
Proof.
  unfold consecutive. intros Hl. rewrite length_app, Nat2Z.inj_add, seqZ_app by (simpl; lia).
  rewrite <- Hl. change (seqZ (1 + ?n) (Z.of_nat 1)) with [1 + n]. by rewrite Z.add_comm.
Qed.

Lemma consecutive_fresh l : consecutive l → Z.of_nat (length l) + 1 ∉ l.
Proof. unfold consecutive. intros Hl Hin. rewrite Hl in Hin at 2. apply elem_of_seqZ in Hin. lia. Qed.

Lemma lock_inv_init : lock_inv init.
Proof. by split. Qed.

(** A transaction other than the lock holder has nothing pending. *)
Lemma others_idle c l o f t t' p v x :
  lock_inv (mkAlloc c l o f) → o !! t = Some (mkTx p v) → (p ≠ [] ∨ v ≠ None) →
  o !! t' = Some x → t' ≠ t → pending x = [] ∧ stmt x = None.
Proof.
  intros Hinv Ht Hne Ht' Hneq. pose proof (inv_holder _ Hinv _ _ Ht Hne) as Hl.
  destruct (decide (pending x = [] ∧ stmt x = None)) as [|Hno]; [done|].
  assert (Hl' : lock (mkAlloc c l o f) = Some t').
  { apply (inv_holder _ Hinv _ _ Ht'). apply not_and_l in Hno. tauto. }
  congruence.
Qed.

(** Removing a transaction keeps the invariant. *)
Lemma lock_inv_remove c l o f t x :
  lock_inv (mkAlloc c l o f) → o !! t = Some x →
  lock_inv (mkAlloc c (release t l) (delete t o) f).
Proof.
  intros Hinv Ht. split; simpl; [apply Hinv|apply Hinv| | |].
  - intros t' x' [Hne Ht']%lookup_delete_Some Hx'.
    pose proof (inv_holder _ Hinv _ _ Ht' Hx') as Hl. simpl in Hl. unfold release.
    case_decide; congruence.
  - intros t' x' [Hne Ht']%lookup_delete_Some. eapply (inv_pending _ Hinv); eauto.
  - intros t' x' v [Hne Ht']%lookup_delete_Some. eapply (inv_stmt _ Hinv); eauto.
Qed.

(** So does changing one transaction, if it is the holder's where it must be. *)
Lemma lock_inv_put c l o f t x :
  lock_inv (mkAlloc c l o f) → (pending x ≠ [] ∨ stmt x ≠ None → l = Some t) → consecutive (c ++ pending x) →
  (∀ v, stmt x = Some v → v = Z.of_nat (length (c ++ pending x)) + 1) →
  lock_inv (mkAlloc c l (<[t := x]> o) f).
Proof.
  intros Hinv Hl Hp Hs. split; simpl; [apply Hinv|apply Hinv| | |].
  - intros t' y [[<- <-]|[_ Ht']]%lookup_insert_Some; [done|]. by apply (inv_holder _ Hinv).
  - intros t' y [[<- <-]|[_ Ht']]%lookup_insert_Some; [done|]. by apply (inv_pending _ Hinv _ _ Ht').
  - intros t' y v [[<- <-]|[_ Ht']]%lookup_insert_Some; [by apply Hs|]. by apply (inv_stmt _ Hinv _ _ _ Ht').
Qed.

Lemma astep_lock_inv s s' : lock_inv s → astep true s s' → lock_inv s'.
Proof.
  intros Hinv Hstep. destruct Hstep.
  - (* begin *) apply lock_inv_put; simpl; [done|tauto| |done]. rewrite app_nil_r. apply Hinv.
  - (* lock *) split; simpl; [apply Hinv|apply Hinv| |apply Hinv|apply Hinv].
    intros t' x' Ht' Hx'. by pose proof (inv_holder _ Hinv _ _ Ht' Hx').
  - (* stmt *) specialize (H0 eq_refl) as ->. pose proof (inv_pending _ Hinv _ _ H) as Hp. simpl in Hp.
    apply lock_inv_put; simpl; [done..|]. intros w [= <-]. by rewrite max_consecutive.
  - (* insert *) pose proof (inv_pending _ Hinv _ _ H) as Hp.
    pose proof (inv_stmt _ Hinv _ _ _ H eq_refl) as Hv. simpl in Hp, Hv.
    assert (Hl : l = Some t) by (apply (inv_holder _ Hinv _ _ H); right; done).
    apply lock_inv_put; simpl; [done..| |done]. rewrite app_assoc, Hv. by apply consecutive_snoc.
  - (* violation: impossible *) exfalso.
    pose proof (inv_stmt _ Hinv _ _ _ H eq_refl) as Hv. simpl in Hv.
    pose proof (inv_pending _ Hinv _ _ H) as Hp. simpl in Hp.
    apply (consecutive_fresh _ Hp). rewrite <- Hv. apply elem_of_app. by left.
  - (* commit *) pose proof (inv_pending _ Hinv _ _ H) as Hp. simpl in Hp.
    destruct p as [|v p].
    { rewrite app_nil_r. eapply lock_inv_remove; eauto. }
    assert (Hidle : ∀ t' x, t' ≠ t → o !! t' = Some x → pending x = [] ∧ stmt x = None).
    { intros t' x Hne Ht'. eapply others_idle; eauto. }
    split; simpl; [done|apply Hinv| | |];
      intros t' x; [intros Ht'|intros Ht'|intros w Ht'];
      apply lookup_delete_Some in Ht' as [Hne Ht'];
      destruct (Hidle t' x) as [Hpx Hsx]; auto; rewrite ?Hpx, ?Hsx.
    + tauto.
    + by rewrite app_nil_r.
    + done.
  - (* rollback *) eapply lock_inv_remove; eauto.
Qed.

Lemma reachable_lock_inv s : rtc (astep true) init s → lock_inv s.
Proof.
  intros H. remember init as i eqn:Hi. assert (Hinv : lock_inv i) by (subst; apply lock_inv_init).
  clear Hi. induction H; eauto using astep_lock_inv.
Qed.

(** ** Properties *)

(** C10. When every allocating transaction holds the advisory lock, no
    interleaving of any number of transactions makes an allocation fail, and
    the committed versions are exactly 1, 2, 3, ... in commit order: a reader
    that has seen version h never later finds a version at or below h that it
    had not seen. *)
Theorem locked_allocation_in_commit_order s s' :
  rtc (astep true) init s → rtc (astep true) s s' →
  failed s' = [] ∧ consecutive (committed s') ∧ committed s `prefix_of` committed s' ∧
  (∀ v, v ∈ committed s' → v ∉ committed s → max_or_zero (committed s) < v).
Proof.
  intros Hs Hs'.
  assert (Hpre : committed s `prefix_of` committed s').
  { clear Hs. induction Hs' as [s|s s1 s2 Hstep _ IH]; [done|].
    etransitivity; [|exact IH]. destruct Hstep; simpl; try done. by apply prefix_app_r. }
  pose proof (reachable_lock_inv s Hs) as Hi.
  assert (Hi' : lock_inv s') by (apply reachable_lock_inv; etransitivity; eassumption).
  split; [apply Hi'|]. split; [apply Hi'|]. split; [done|].
  intros v Hv Hnv. rewrite max_consecutive by apply Hi.
  destruct Hpre as [k Hk]. pose proof (inv_committed _ Hi) as Hc. unfold consecutive in Hc. rewrite Hc in Hnv.
  pose proof (inv_committed _ Hi') as Hc'. unfold consecutive in Hc'. rewrite Hc' in Hv.
  apply elem_of_seqZ in Hv. rewrite elem_of_seqZ in Hnv. lia.
Qed.

Definition one_commit : alloc := mkAlloc [1] None ∅ [].

Lemma one_commit_reachable : rtc (astep true) init one_commit.
Proof.
  unfold init, one_commit.
  eapply rtc_l; [apply (step_begin _ [] None ∅ [] 0%nat); done|].
  eapply rtc_l; [eapply (step_lock _ [] _ [] 0%nat); reflexivity|].
  eapply rtc_l; [eapply (step_stmt _ [] _ _ [] 0%nat []); [reflexivity|done]|].
  eapply rtc_l; [eapply (step_insert _ [] _ _ [] 0%nat [] 1); [reflexivity|set_solver|]|].
  { intros t' x Hne Hx. by rewrite !lookup_insert_ne, lookup_empty in Hx by done. }
  eapply rtc_l; [eapply (step_commit _ [] _ _ [] 0%nat [1]); reflexivity|].
  vm_compute. apply rtc_refl.
Qed.

Lemma locked_allocation_in_commit_order_witness :
  consecutive (committed one_commit) ∧ failed one_commit = [].
Proof.
  destruct (locked_allocation_in_commit_order init one_commit (rtc_refl _ _) one_commit_reachable)
    as (Hf & Hc & _).
  split; [exact Hc|exact Hf].
Defined.

(** Without the lock the protocol can fail: if one transaction allocates
    without taking it, as [replaceActivePolicy] does, a concurrent transaction
    that does hold the lock can be aborted by a unique violation. *)
Theorem unlocked_allocation_can_abort :
  ∃ s, rtc (astep false) init s ∧ failed s = [1%nat] ∧ committed s = [1].
Proof.
  (* 0: the policy transaction, no lock; 1: the score writer, holding the lock *)
  eexists. split; [|split]; cycle 1.
  - instantiate (1 := mkAlloc [1] None ∅ [1%nat]). done.
  - done.
  - unfold init.
    eapply rtc_l; [apply (step_begin _ [] None ∅ [] 0%nat); done|].
    eapply rtc_l; [apply (step_begin _ [] None _ [] 1%nat); done|].
    eapply rtc_l; [eapply (step_lock _ [] _ [] 1%nat); reflexivity|].
    eapply rtc_l; [eapply (step_stmt _ [] _ _ [] 0%nat []); [reflexivity|done]|].
    eapply rtc_l; [eapply (step_stmt _ [] _ _ [] 1%nat []); [reflexivity|done]|].
    eapply rtc_l; [eapply (step_insert _ [] _ _ [] 0%nat [] 1); [reflexivity|set_solver|]|].
    { intros t' x Hne Hx. destruct (decide (t' = 1%nat)) as [->|Hne1].
      - rewrite lookup_insert_eq in Hx. injection Hx as <-. set_solver.
      - by rewrite !lookup_insert_ne, lookup_empty in Hx by done. }
    eapply rtc_l; [eapply (step_commit _ [] _ _ [] 0%nat [1]); reflexivity|].
    eapply rtc_l; [eapply (step_violation _ [1] _ _ [] 1%nat [] 1); [reflexivity|set_solver]|].
    vm_compute. apply rtc_refl.
Qed.

End VersionLock.
