(* ===== verification/ScoreWriter.v ===== *)
(** * Score table writer (domains/graph/scoreDiff.ts, scoreWriter.ts and the
    read side domains/score/scoreReadRepository.ts)

    A recompute hands the writer the engine's complete score table.  The
    writer diffs it against [network_scores], writes the differences, logs one
    sync event per difference and one history row per upsert, all in one
    transaction.  [edge_apply] is the specification of what an edge does with
    those events: the writer refines "replace the replica's table". *)
From stdpp Require Import base gmap strings sorting numbers list.
From S2P Require Import Prelude Json Errors Db SyncLog.

Module ScoreWriter.
Import SyncLog.

(** [EngineScore] and [ExistingScore] have the same fields. *)
Record EngineScore := mkScore {
  es_principal_id : jstr; es_entity_kind : jstr; es_score : Z;
  es_blacklisted : bool; es_score_reason : jstr;
}.
Abbreviation ExistingScore := EngineScore.

#[global] Instance EngineScore_eq_dec : EqDecision EngineScore.
Proof. solve_decision. Defined.

Definition scoreChanged (prev : ExistingScore) (next : EngineScore) : bool :=
  negb (es_score prev =? es_score next)
  || negb (Bool.eqb (es_blacklisted prev) (es_blacklisted next))
  || negb (bool_decide (es_score_reason prev = es_score_reason next))
  || negb (bool_decide (es_entity_kind prev = es_entity_kind next)).

(** The columns the queries of the writer and of the snapshot select. *)
Definition view_row (r : ScoreRow) : ExistingScore :=
  mkScore (ns_principal_id r) (ns_entity_kind r) (ns_score r) (ns_blacklisted r) (ns_score_reason r).

Definition loadExistingScores (d : db) : gmap jstr ExistingScore := view_row <$> network_scores d.

Definition stamp (row : EngineScore) (syncVersion computedAt : Z) : ScoreRow :=
  mkScoreRow (es_principal_id row) (es_entity_kind row) (es_score row) (es_blacklisted row)
             (es_score_reason row) computedAt syncVersion.

(** CHECK constraints of migrations 002 and 011. *)
Definition score_reasons : list jstr := [js "propagated"; js "blacklisted"].
Definition entity_kinds : list jstr := [js "agent"; js "issuer"; js "both"].

Definition upsertScore (row : EngineScore) (syncVersion computedAt : Z) : M unit := λ d,
  if bool_decide (es_score_reason row ∈ score_reasons) then
    (Ok tt, set_network_scores
              (<[es_principal_id row := stamp row syncVersion computedAt]> (network_scores d)) d)
  else (Throw (EPg check_violation), d).

Definition insertHistory (row : EngineScore) (syncVersion computedAt : Z) : M unit := λ d,
  if negb (bool_decide (es_entity_kind row ∈ entity_kinds)) then (Throw (EPg check_violation), d)
  else if negb (bool_decide (is_Some (principals d !! es_principal_id row)))
  then (Throw (EPg foreign_key_violation), d)
  else (Ok tt, set_network_score_history
                 (network_score_history d ++ [stamp row syncVersion computedAt]) d).

(** The payload of a [score.upsert] event. *)
Definition upsert_payload (row : EngineScore) : json :=
  JObj [(js "principal_id", JStr (es_principal_id row));
        (js "entity_kind", JStr (es_entity_kind row));
        (js "score", JNum (num_of_Z (es_score row)));
        (js "blacklisted", JBool (es_blacklisted row));
        (js "score_reason", JStr (es_score_reason row))].

Definition delete_payload (principalId : jstr) : json :=
  JObj [(js "principal_id", JStr principalId)].

(** One iteration of the upsert loop; [n] is [upserts]. *)
Definition apply_row (now computedAt : Z) (existing : gmap jstr ExistingScore)
    (n : Z) (row : EngineScore) : M Z :=
  let changed := match existing !! es_principal_id row with
                 | None => true
                 | Some prev => scoreChanged prev row
                 end in
  if negb changed then mret n
  else
    syncVersion ← appendEventWithClient now (js "score.upsert") (upsert_payload row)
                    (Some (es_principal_id row)) None;
    _ ← upsertScore row syncVersion computedAt;
    _ ← insertHistory row syncVersion computedAt;
    mret (n + 1).

(** One iteration of the delete loop; [n] is [deletes]. *)
Definition delete_row (now : Z) (nextIds : gset jstr) (n : Z) (principalId : jstr) : M Z :=
  if bool_decide (principalId ∈ nextIds) then mret n
  else
    _ ← appendEventWithClient now (js "score.delete") (delete_payload principalId)
          (Some principalId) None;
    _ ← writes (λ d, set_network_scores (delete principalId (network_scores d)) d);
    mret (n + 1).

(** [applyScoreTable]: returns ([upserts], [deletes]).  The advisory lock is
    the subject of [VersionLock]. *)
Definition applyScoreTable (now : Z) (engineRows : list EngineScore) (computedAt : Z) : M (Z * Z) :=
  withTransaction (
    existing ← reads loadExistingScores;
    let nextIds : gset jstr := list_to_set (es_principal_id <$> engineRows) in
    upserts ← for_fold engineRows (apply_row now computedAt existing) 0;
    deletes ← for_fold (map_to_list existing).*1 (delete_row now nextIds) 0;
    mret (upserts, deletes)).

Definition clearAllScores (now : Z) : M Z :=
  result ← applyScoreTable now [] now; mret result.2.

(** Read side. *)
Definition getCurrentScore (principalId : jstr) (d : db) : option ScoreRow :=
  network_scores d !! principalId.

Definition newer (a b : ScoreRow) : Prop := ns_sync_version b ≤ ns_sync_version a.
#[global] Instance newer_dec : RelDecision newer.
Proof. unfold newer. intros a b. apply _. Defined.

Definition getScoreHistory (principalId : jstr) (limit : nat) (d : db) : list ScoreRow :=
  take limit (merge_sort newer
    (filter (λ r, ns_principal_id r = principalId) (network_score_history d))).

(** ** Specification of an edge replica *)

Definition read_score (payload : json) : option EngineScore :=
  match payload with
  | JObj fs =>
      match lookup_field (js "principal_id") fs, lookup_field (js "entity_kind") fs,
            lookup_field (js "score") fs, lookup_field (js "blacklisted") fs,
            lookup_field (js "score_reason") fs with
      | JStr p, JStr k, JNum n, JBool b, JStr r =>
          z ← num_to_Z n; Some (mkScore p k z b r)
      | _, _, _, _, _ => None
      end
  | _ => None
  end.

Definition read_deleted (payload : json) : option jstr :=
  match payload with
  | JObj fs => match lookup_field (js "principal_id") fs with JStr p => Some p | _ => None end
  | _ => None
  end.

Definition edge_apply (scores : gmap jstr EngineScore) (e : SyncEvent) : gmap jstr EngineScore :=
  if decide (se_event_type e = js "score.upsert") then
    match read_score (se_payload e) with
    | Some row => <[es_principal_id row := row]> scores
    | None => scores
    end
  else if decide (se_event_type e = js "score.delete") then
    match read_deleted (se_payload e) with
    | Some p => delete p scores
    | None => scores
    end
  else scores.

Definition replay (events : list SyncEvent) (scores : gmap jstr EngineScore) : gmap jstr EngineScore :=
  fold_left edge_apply events scores.

(** ** Lemmas *)

Lemma scoreChanged_false prev next :
  es_principal_id prev = es_principal_id next →
  scoreChanged prev next = false ↔ prev = next.
Proof.
  destruct prev, next. unfold scoreChanged. simpl. intros ->. split.
  - intros H. repeat apply orb_false_iff in H as [H ?].
    repeat match goal with H : negb _ = false |- _ => apply negb_false_iff in H end.
    bool_to_prop. repeat match goal with H : Bool.eqb _ _ = true |- _ => apply eqb_prop in H end.
    congruence.
  - intros [= -> -> -> ->]. rewrite Z.eqb_refl, eqb_reflx.
    by rewrite !bool_decide_eq_true_2.
Qed.

(** Every row sits under its own principal id. *)
Definition scores_wf (d : db) : Prop :=
  ∀ p r, network_scores d !! p = Some r → ns_principal_id r = p.

Lemma view_stamp row v at_ : view_row (stamp row v at_) = row.
Proof. by destruct row. Qed.

Lemma read_upsert_payload row : read_score (upsert_payload row) = Some row.
Proof.
  unfold read_score, upsert_payload.
  change (lookup_field (js "principal_id") _) with (JStr (es_principal_id row)).
  change (lookup_field (js "entity_kind") _) with (JStr (es_entity_kind row)).
  change (lookup_field (js "score") _) with (JNum (num_of_Z (es_score row))).
  change (lookup_field (js "blacklisted") _) with (JBool (es_blacklisted row)).
  change (lookup_field (js "score_reason") _) with (JStr (es_score_reason row)).
  cbv beta iota. rewrite num_to_of_Z. by destruct row.
Qed.

Lemma replay_app l1 l2 m : replay (l1 ++ l2) m = replay l2 (replay l1 m).
Proof. apply fold_left_app. Qed.

Lemma edge_apply_upsert m v row t now :
  edge_apply m (mkSyncEvent v (js "score.upsert") t None (upsert_payload row) now) =
  <[es_principal_id row := row]> m.
Proof.
  unfold edge_apply. simpl se_event_type. simpl se_payload.
  rewrite decide_True by done. by rewrite read_upsert_payload.
Qed.

Lemma edge_apply_delete m v p t now :
  edge_apply m (mkSyncEvent v (js "score.delete") t None (delete_payload p) now) = delete p m.
Proof. done. Qed.

(** *** One iteration of each loop *)

(** Is this row written? *)
Definition is_changed (existing : gmap jstr ExistingScore) (row : EngineScore) : bool :=
  match existing !! es_principal_id row with
  | None => true
  | Some prev => scoreChanged prev row
  end.

(** A row the table's constraints admit. *)
Definition row_ok (d : db) (row : EngineScore) : Prop :=
  es_score_reason row ∈ score_reasons ∧ es_entity_kind row ∈ entity_kinds ∧
  is_Some (principals d !! es_principal_id row).

(** The writes of one upsert. *)
Definition put_row (now computedAt : Z) (row : EngineScore) (d : db) : db :=
  let v := high_water d + 1 in
  set_network_score_history (network_score_history d ++ [stamp row v computedAt])
    (set_network_scores (<[es_principal_id row := stamp row v computedAt]> (network_scores d))
      (set_sync_events
        (sync_events d ++ [mkSyncEvent v (js "score.upsert") (or_null (Some (es_principal_id row)))
                             None (upsert_payload row) now]) d)).

Definition drop_row (now : Z) (p : jstr) (d : db) : db :=
  set_network_scores (delete p (network_scores d))
    (set_sync_events
      (sync_events d ++ [mkSyncEvent (high_water d + 1) (js "score.delete") (or_null (Some p)) None
                           (delete_payload p) now]) d).

Lemma apply_row_Ok now at_ ex n row d n' d' :
  apply_row now at_ ex n row d = (Ok n', d') →
  if is_changed ex row then n' = n + 1 ∧ d' = put_row now at_ row d ∧ row_ok d row
  else n' = n ∧ d' = d.
Proof.
  unfold apply_row. change (match ex !! _ with Some _ => _ | None => _ end) with (is_changed ex row).
  destruct (is_changed ex row); simpl; [|by intros [= <- <-]].
  intros H. invert_M.
  match goal with H : appendEventWithClient _ _ _ _ _ _ = _ |- _ =>
    apply appendEventWithClient_Ok in H as (-> & _ & ->) end.
  match goal with H : upsertScore _ _ _ _ = _ |- _ => unfold upsertScore in H end.
  case_bool_decide; [|done]. simplify_eq.
  match goal with H : insertHistory _ _ _ _ = _ |- _ => unfold insertHistory in H; simpl in H end.
  repeat case_bool_decide; simpl in *; simplify_eq. done.
Qed.

Lemma apply_row_total now at_ ex n row d :
  row_ok d row → ∃ n' d', apply_row now at_ ex n row d = (Ok n', d').
Proof.
  intros (Hr & Hk & Hp). unfold apply_row.
  change (match ex !! _ with Some _ => _ | None => _ end) with (is_changed ex row).
  destruct (is_changed ex row); simpl; [|by eexists _, _].
  unfold mbind, M_bind. rewrite appendEventWithClient_eq by auto with verilink.
  unfold upsertScore. rewrite bool_decide_eq_true_2 by done.
  unfold insertHistory. simpl. rewrite !bool_decide_eq_true_2 by done. simpl. by eexists _, _.
Qed.

Lemma delete_row_eq now ids n p d :
  delete_row now ids n p d =
  if bool_decide (p ∈ ids) then (Ok n, d) else (Ok (n + 1), drop_row now p d).
Proof. unfold delete_row. by case_bool_decide. Qed.

(** *** Frames, versions and replicas *)

(** What both kinds of writes have in common, relative to the start [d0] of
    the transaction: events were only appended, the log is well formed, the
    appended events replayed on the old scores give the current ones, and
    principals are untouched. *)
Record tracks (d0 d : db) : Prop := {
  tr_wf : log_wf d;
  tr_scores_wf : scores_wf d;
  tr_principals : principals d = principals d0;
  tr_events : ∃ evs, sync_events d = sync_events d0 ++ evs ∧
    replay evs (loadExistingScores d0) = loadExistingScores d ∧
    Forall (λ e, se_tenant_id e = None) evs;
}.

Lemma tracks_refl d : log_wf d → scores_wf d → tracks d d.
Proof. split; try done. exists []. by rewrite app_nil_r. Qed.

Lemma tracks_trans d0 d1 d2 : tracks d0 d1 → tracks d1 d2 → tracks d0 d2.
Proof.
  intros [_ _ Hp (l & Hl & Hr & Hn)] [? ? Hp' (l' & Hl' & Hr' & Hn')]. split; try done; [congruence|].
  exists (l ++ l'). rewrite Hl', Hl, app_assoc, replay_app, Hr, Forall_app. done.
Qed.

Lemma load_put_row now at_ row d :
  loadExistingScores (put_row now at_ row d) = <[es_principal_id row := row]> (loadExistingScores d).
Proof. unfold loadExistingScores. simpl. by rewrite fmap_insert, view_stamp. Qed.

Lemma load_drop_row now p d :
  loadExistingScores (drop_row now p d) = delete p (loadExistingScores d).
Proof. unfold loadExistingScores. simpl. apply fmap_delete. Qed.

(** A step that appends one event and changes the scores the way an edge
    would keeps [tracks]. *)
Lemma tracks_step d0 d d' e :
  tracks d0 d → sync_events d' = sync_events d ++ [e] → se_sync_version e = high_water d + 1 →
  principals d' = principals d → scores_wf d' →
  edge_apply (loadExistingScores d) e = loadExistingScores d' → se_tenant_id e = None → tracks d0 d'.
Proof.
  intros [Hwf Hs Hp (evs & He & Hr & Hn)] He' Hv Hp' Hs' Happ Ht. split.
  - by eapply log_wf_append.
  - done.
  - congruence.
  - exists (evs ++ [e]). rewrite He', He, app_assoc, replay_app, Hr, Forall_app.
    split_and!; [done|done|done|by constructor].
Qed.

Lemma tracks_put_row now at_ row d0 d : tracks d0 d → tracks d0 (put_row now at_ row d).
Proof.
  intros Ht. eapply tracks_step; [exact Ht|reflexivity|reflexivity|reflexivity| | |reflexivity].
  - intros p r. simpl. intros [[<- <-]|[_ H]]%lookup_insert_Some; [done|]. by apply (tr_scores_wf _ _ Ht).
  - by rewrite edge_apply_upsert, load_put_row.
Qed.

Lemma tracks_drop_row now p d0 d : tracks d0 d → tracks d0 (drop_row now p d).
Proof.
  intros Ht. eapply tracks_step; [exact Ht|reflexivity|reflexivity|reflexivity| | |reflexivity].
  - intros q r. simpl. intros [_ H]%lookup_delete_Some. by apply (tr_scores_wf _ _ Ht).
  - by rewrite edge_apply_delete, load_drop_row.
Qed.

Lemma upsert_loop_tracks now at_ ex rows n d0 d n' d' :
  tracks d0 d → for_fold rows (apply_row now at_ ex) n d = (Ok n', d') → tracks d0 d'.
Proof.
  intros Ht. apply (for_fold_invariant (λ _ d, tracks d0 d)); [|done].
  intros s d1 row s1 d2 _ Ht1 H%apply_row_Ok. destruct (is_changed ex row).
  - destruct H as (_ & -> & _). by apply tracks_put_row.
  - by destruct H as [_ ->].
Qed.

Lemma delete_loop_tracks now ids ps n d0 d n' d' :
  tracks d0 d → for_fold ps (delete_row now ids) n d = (Ok n', d') → tracks d0 d'.
Proof.
  intros Ht. apply (for_fold_invariant (λ _ d, tracks d0 d)); [|done].
  intros s d1 p s1 d2 _ Ht1. rewrite delete_row_eq. case_bool_decide; intros [= <- <-]; [done|].
  by apply tracks_drop_row.
Qed.

(** *** The loops as functions on the score table *)

Definition rows_map (rows : list EngineScore) : gmap jstr EngineScore :=
  list_to_map ((λ r, (es_principal_id r, r)) <$> rows).

Lemma rows_map_None rows p : p ∉ es_principal_id <$> rows → rows_map rows !! p = None.
Proof.
  intros Hp. apply not_elem_of_list_to_map_1.
  rewrite <- list_fmap_compose. exact Hp.
Qed.

Lemma upsert_loop_view now at_ ex rows n d n' d' :
  NoDup (es_principal_id <$> rows) →
  (∀ r, r ∈ rows → loadExistingScores d !! es_principal_id r = ex !! es_principal_id r) →
  (∀ p r, ex !! p = Some r → es_principal_id r = p) →
  for_fold rows (apply_row now at_ ex) n d = (Ok n', d') →
  loadExistingScores d' = rows_map rows ∪ loadExistingScores d ∧
  n' = n + Z.of_nat (length (filter (λ r, is_changed ex r) rows)).
Proof.
  intros Hnd Hex Hid. revert n d Hnd Hex.
  induction rows as [|row rows IH]; intros n d Hnd Hex; simpl.
  { intros [= <- <-]. split; [|lia]. unfold rows_map. simpl. by rewrite (left_id_L ∅ (∪)). }
  apply NoDup_cons in Hnd as [Hni Hnd].
  intros (n1 & d1 & H%apply_row_Ok & Hloop)%M_bind_Ok.
  assert (Hview : loadExistingScores d1 = <[es_principal_id row := row]> (loadExistingScores d)).
  { destruct (is_changed ex row) eqn:Hc.
    - destruct H as (_ & -> & _). apply load_put_row.
    - destruct H as [_ ->]. symmetry. apply insert_id.
      rewrite Hex by (by apply elem_of_cons; left).
      unfold is_changed in Hc. destruct (ex !! es_principal_id row) as [prev|] eqn:Hprev; [|done].
      apply scoreChanged_false in Hc as ->; [done|]. by apply Hid. }
  destruct (IH n1 d1 Hnd) as [HV Hn]; [|done|].
  { intros r Hr. rewrite Hview, lookup_insert_ne.
    - apply Hex. by apply elem_of_cons; right.
    - intros Heq. apply Hni. rewrite Heq. by apply list_elem_of_fmap_2. }
  split.
  - rewrite HV, Hview. change (rows_map (row :: rows)) with (<[es_principal_id row := row]> (rows_map rows)).
    rewrite <- insert_union_l. symmetry. apply insert_union_r. by apply rows_map_None.
  - rewrite Hn, filter_cons. destruct (is_changed ex row) eqn:Hc; destruct H as [-> _]; simpl; lia.
Qed.

Lemma delete_loop_view now ids ps n d :
  ∃ d', for_fold ps (delete_row now ids) n d =
          (Ok (n + Z.of_nat (length (filter (λ p, p ∉ ids) ps))), d') ∧
  ∀ p, loadExistingScores d' !! p =
       if decide (p ∈ ps ∧ p ∉ ids) then None else loadExistingScores d !! p.
Proof.
  revert n d. induction ps as [|q ps IH]; intros n d; cbn [for_fold].
  { exists d. split; [by rewrite filter_nil, Z.add_0_r|]. intros p. rewrite decide_False; [done|].
    intros [H _]. by apply elem_of_nil in H. }
  unfold mbind, M_bind. rewrite delete_row_eq, filter_cons.
  destruct (decide (q ∈ ids)) as [Hq|Hq].
  - rewrite bool_decide_eq_true_2, decide_False by (try tauto; done).
    destruct (IH n d) as (d' & -> & Hv). exists d'. split; [done|].
    intros p. rewrite Hv. apply decide_ext. rewrite elem_of_cons. naive_solver.
  - rewrite bool_decide_eq_false_2, decide_True by done. simpl length.
    destruct (IH (n + 1) (drop_row now q d)) as (d' & -> & Hv). exists d'. split.
    { do 2 f_equal. lia. }
    intros p. rewrite Hv, load_drop_row.
    destruct (decide (p = q)) as [->|Hne].
    + rewrite lookup_delete_eq, (decide_True (P := q ∈ q :: ps ∧ q ∉ ids)) by (rewrite elem_of_cons; tauto).
      by case_decide.
    + rewrite lookup_delete_ne by done. apply decide_ext. rewrite elem_of_cons. naive_solver.
Qed.

Lemma upsert_loop_total now at_ ex rows n d :
  Forall (row_ok d) rows → ∃ n' d', for_fold rows (apply_row now at_ ex) n d = (Ok n', d').
Proof.
  revert n d. induction rows as [|row rows IH]; intros n d Hok; simpl; [by eexists _, _|].
  apply Forall_cons in Hok as [Hrow Hok].
  destruct (apply_row_total now at_ ex n row d Hrow) as (n1 & d1 & H).
  unfold mbind, M_bind. rewrite H. apply IH.
  eapply Forall_impl; [exact Hok|]. intros r (? & ? & ?). split_and!; [done..|].
  apply apply_row_Ok in H. destruct (is_changed ex row); [by destruct H as (_ & -> & _)|].
  by destruct H as [_ ->].
Qed.

(** A loop over unchanged rows writes nothing. *)
Lemma upsert_loop_noop now at_ ex rows n d :
  Forall (λ r, is_changed ex r = false) rows →
  for_fold rows (apply_row now at_ ex) n d = (Ok n, d).
Proof.
  induction 1 as [|row rows Hrow _ IH]; [done|]. simpl. unfold mbind at 1, M_bind at 1.
  unfold apply_row at 1.
  change (match ex !! _ with Some _ => _ | None => _ end) with (is_changed ex row).
  by rewrite Hrow.
Qed.

Lemma delete_loop_noop now ids ps n d :
  Forall (λ p, p ∈ ids) ps → for_fold ps (delete_row now ids) n d = (Ok n, d).
Proof.
  induction 1 as [|p ps Hp _ IH]; [done|]. simpl. unfold mbind, M_bind in *.
  rewrite delete_row_eq, bool_decide_eq_true_2 by done. done.
Qed.

(** Each counted change is one event. *)
Lemma upsert_loop_count now at_ ex rows n d n' d' :
  for_fold rows (apply_row now at_ ex) n d = (Ok n', d') →
  Z.of_nat (length (sync_events d')) - n' = Z.of_nat (length (sync_events d)) - n.
Proof.
  apply (for_fold_invariant (λ m d1, Z.of_nat (length (sync_events d1)) - m =
                                     Z.of_nat (length (sync_events d)) - n)); [|done].
  intros s d1 row s1 d2 _ HP H%apply_row_Ok. destruct (is_changed ex row).
  - destruct H as (-> & -> & _). simpl. rewrite length_app. simpl. lia.
  - by destruct H as [-> ->].
Qed.

Lemma delete_loop_count now ids ps n d n' d' :
  for_fold ps (delete_row now ids) n d = (Ok n', d') →
  Z.of_nat (length (sync_events d')) - n' = Z.of_nat (length (sync_events d)) - n.
Proof.
  apply (for_fold_invariant (λ m d1, Z.of_nat (length (sync_events d1)) - m =
                                     Z.of_nat (length (sync_events d)) - n)); [|done].
  intros s d1 p s1 d2 _ HP. rewrite delete_row_eq. case_bool_decide; intros [= <- <-]; [done|].
  simpl. rewrite length_app. simpl. lia.
Qed.

Lemma load_id d p r : scores_wf d → loadExistingScores d !! p = Some r → es_principal_id r = p.
Proof.
  unfold loadExistingScores. rewrite lookup_fmap. intros Hwf.
  destruct (network_scores d !! p) as [r'|] eqn:E; [|done]. intros [= <-]. by apply Hwf.
Qed.

Lemma elem_of_keys (m : gmap jstr EngineScore) p : p ∈ (map_to_list m).*1 ↔ is_Some (m !! p).
Proof.
  rewrite list_elem_of_fmap. split.
  - intros ([q r] & -> & H%elem_of_map_to_list). by exists r.
  - intros [r H]. exists (p, r). split; [done|]. by apply elem_of_map_to_list.
Qed.

(** The body of [applyScoreTable], and what its two loops are run on. *)
Lemma applyScoreTable_Ok now rows at_ d u k d' :
  applyScoreTable now rows at_ d = (Ok (u, k), d') ↔
  ∃ d1, for_fold rows (apply_row now at_ (loadExistingScores d)) 0 d = (Ok u, d1) ∧
        for_fold (map_to_list (loadExistingScores d)).*1
          (delete_row now (list_to_set (es_principal_id <$> rows))) 0 d1 = (Ok k, d').
Proof.
  unfold applyScoreTable. rewrite withTransaction_Ok. split.
  - intros H. invert_M. simplify_eq. eauto.
  - intros (d1 & H1 & H2). unfold mbind, M_bind, reads. by rewrite H1, H2.
Qed.

Lemma rows_map_lookup rows r :
  NoDup (es_principal_id <$> rows) → r ∈ rows → rows_map rows !! es_principal_id r = Some r.
Proof.
  intros Hnd Hr. apply elem_of_list_to_map_1.
  - by rewrite <- list_fmap_compose.
  - by apply (list_elem_of_fmap_2 (λ r, (es_principal_id r, r))).
Qed.

(** After both loops the table is the engine's. *)
Lemma loops_view now rows at_ d u k d' :
  scores_wf d → NoDup (es_principal_id <$> rows) →
  applyScoreTable now rows at_ d = (Ok (u, k), d') →
  loadExistingScores d' = rows_map rows ∧
  u = Z.of_nat (length (filter (λ r, is_changed (loadExistingScores d) r) rows)) ∧
  k = Z.of_nat (length (filter (λ p, p ∉ es_principal_id <$> rows) (map_to_list (loadExistingScores d)).*1)).
Proof.
  intros Hwf Hnd (d1 & H1 & H2)%applyScoreTable_Ok.
  apply upsert_loop_view in H1 as [HV ->]; [|done|done|by intros p r; apply load_id].
  set (ids := list_to_set (es_principal_id <$> rows) : gset jstr) in *.
  destruct (delete_loop_view now ids (map_to_list (loadExistingScores d)).*1 0 d1) as (d2 & H & Hv).
  rewrite H in H2. injection H2 as <- <-. split; [|split; [lia|]].
  - apply map_eq. intros p. rewrite Hv, HV. unfold ids.
    destruct (decide (p ∈ es_principal_id <$> rows)) as [Hp|Hp].
    + rewrite decide_False by (rewrite elem_of_list_to_set; tauto).
      apply list_elem_of_fmap in Hp as (r & -> & Hr).
      pose proof (rows_map_lookup rows r Hnd Hr) as Hl. rewrite Hl.
      by apply lookup_union_Some_l.
    + rewrite rows_map_None by done.
      case_decide as Hd; [done|]. rewrite lookup_union_r by by apply rows_map_None.
      rewrite elem_of_keys, elem_of_list_to_set in Hd.
      destruct (loadExistingScores d !! p) eqn:E; [|done]. exfalso. eauto.
  - rewrite Z.add_0_l. f_equal.
    rewrite (list_filter_iff (λ p, p ∉ ids) (λ p, p ∉ es_principal_id <$> rows)); [done|].
    intros p. unfold ids. by rewrite elem_of_list_to_set.
Qed.

(** ** Properties *)

(** Whatever its outcome, a run of the writer tracks the state it started in. *)
Lemma applyScoreTable_tracks now rows at_ d :
  log_wf d → scores_wf d → tracks d (applyScoreTable now rows at_ d).2.
Proof.
  intros Hl Hs. destruct (applyScoreTable now rows at_ d) as [[[u k]|e] d'] eqn:E; simpl.
  - apply applyScoreTable_Ok in E as (d1 & H1 & H2).
    eapply delete_loop_tracks; [|exact H2]. eapply upsert_loop_tracks; [|exact H1]. by apply tracks_refl.
  - apply withTransaction_throw in E as ->. by apply tracks_refl.
Qed.

(** The writer's success, with everything the other components need. *)
Lemma applyScoreTable_spec now rows at_ d :
  log_wf d → scores_wf d → NoDup (es_principal_id <$> rows) → Forall (row_ok d) rows →
  ∃ u k d' evs,
    applyScoreTable now rows at_ d = (Ok (u, k), d') ∧
    loadExistingScores d' = rows_map rows ∧
    u = Z.of_nat (length (filter (λ r, is_changed (loadExistingScores d) r) rows)) ∧
    k = Z.of_nat (length (filter (λ p, p ∉ es_principal_id <$> rows)
                            (map_to_list (loadExistingScores d)).*1)) ∧
    sync_events d' = sync_events d ++ evs ∧ Z.of_nat (length evs) = u + k ∧
    log_wf d' ∧ scores_wf d' ∧ replay evs (loadExistingScores d) = rows_map rows.
Proof.
  intros Hwf Hs Hnd Hok.
  destruct (upsert_loop_total now at_ (loadExistingScores d) rows 0 d Hok) as (u & d1 & H1).
  destruct (delete_loop_view now (list_to_set (es_principal_id <$> rows))
              (map_to_list (loadExistingScores d)).*1 0 d1) as (d' & H2 & _).
  assert (H : applyScoreTable now rows at_ d = (Ok (u, _), d')) by (apply applyScoreTable_Ok; eauto).
  pose proof (upsert_loop_tracks _ _ _ _ _ _ _ _ _ (tracks_refl d Hwf Hs) H1) as Ht1.
  pose proof (delete_loop_tracks _ _ _ _ _ _ _ _ Ht1 H2) as [Hwf' Hs' _ (evs & He & Hr & _)].
  pose proof (upsert_loop_count _ _ _ _ _ _ _ _ H1) as Hc1.
  pose proof (delete_loop_count _ _ _ _ _ _ _ H2) as Hc2.
  destruct (loops_view _ _ _ _ _ _ _ Hs Hnd H) as (HV & Hu & Hk).
  eexists u, _, d', evs. split; [exact H|]. rewrite He, length_app in Hc2.
  split_and!; try done; [lia|congruence].
Qed.

(** C9. The writer replaces the table, completely and accountably: if every
    engine row satisfies the table's constraints and names a principal once,
    [applyScoreTable] succeeds; afterwards the score table is exactly the
    engine's, [upserts] counts the new or changed rows, [deletes] the rows the
    engine no longer has, the log grew by exactly that many events with
    consecutive versions, and an edge that had the old table and replays those
    events has the new one. *)
Theorem score_table_replaced now rows at_ d :
  log_wf d → scores_wf d → NoDup (es_principal_id <$> rows) → Forall (row_ok d) rows →
  ∃ u k d' evs,
    applyScoreTable now rows at_ d = (Ok (u, k), d') ∧
    loadExistingScores d' = rows_map rows ∧
    u = Z.of_nat (length (filter (λ r, is_changed (loadExistingScores d) r) rows)) ∧
    k = Z.of_nat (length (filter (λ p, p ∉ es_principal_id <$> rows)
                            (map_to_list (loadExistingScores d)).*1)) ∧
    sync_events d' = sync_events d ++ evs ∧ Z.of_nat (length evs) = u + k ∧
    log_wf d' ∧ scores_wf d' ∧ replay evs (loadExistingScores d) = rows_map rows.
Proof. apply applyScoreTable_spec. Qed.

(** The example: two known principals, [p2] scored before, the engine now
    scores [p1] only. *)
Definition example_row (p : string) (z : Z) : EngineScore :=
  mkScore (js p) (js "agent") z false (js "propagated").
Definition example_principal (p : string) : Principal :=
  mkPrincipal (js p) (js "agent") None None JNull 0 0 (js "active").
Definition example_db : db :=
  set_principals {[js "p1" := example_principal "p1"; js "p2" := example_principal "p2"]}
    (set_network_scores {[js "p2" := stamp (example_row "p2" 40) 1 0]}
      (set_network_score_history [stamp (example_row "p2" 40) 1 0]
        (set_sync_events
          [mkSyncEvent 1 (js "score.upsert") (Some (js "p2")) None
             (upsert_payload (example_row "p2" 40)) 0] empty_db))).

Lemma example_db_wf : log_wf example_db ∧ scores_wf example_db.
Proof.
  split; [vm_compute; reflexivity|].
  intros p r H. cbn in H. apply lookup_singleton_Some in H as [<- <-]. reflexivity.
Qed.

Lemma example_rows_ok : Forall (row_ok example_db) [example_row "p1" 70].
Proof.
  constructor; [|constructor]. split_and!.
  - apply elem_of_cons. by left.
  - apply elem_of_cons. by left.
  - by eexists.
Qed.

Lemma score_table_replaced_witness :
  ∃ u k d' evs,
    applyScoreTable 9 [example_row "p1" 70] 8 example_db = (Ok (u, k), d') ∧
    replay evs (loadExistingScores example_db) = rows_map [example_row "p1" 70] ∧
    Z.of_nat (length evs) = u + k.
Proof.
  destruct (score_table_replaced 9 [example_row "p1" 70] 8 example_db
              (proj1 example_db_wf) (proj2 example_db_wf)
              ltac:(apply NoDup_singleton) example_rows_ok)
    as (u & k & d' & evs & H & _ & _ & _ & _ & Hn & _ & _ & Hr).
  exists u, k, d', evs. repeat split; assumption.
Defined.

(** Writing is idempotent: when the stored table already is the engine's,
    a recompute changes nothing at all, so edges receive no event for it. *)
Theorem score_rewrite_is_noop now rows at_ d :
  NoDup (es_principal_id <$> rows) → loadExistingScores d = rows_map rows →
  applyScoreTable now rows at_ d = (Ok (0, 0), d).
Proof.
  intros Hnd Heq. apply applyScoreTable_Ok. exists d. rewrite Heq. split.
  - apply upsert_loop_noop, Forall_forall. intros r Hr. unfold is_changed.
    rewrite rows_map_lookup by done. by apply scoreChanged_false.
  - apply delete_loop_noop, Forall_forall. intros p [r Hr]%elem_of_keys.
    apply elem_of_list_to_set. apply elem_of_list_to_map_2 in Hr.
    apply list_elem_of_fmap in Hr as (r' & [= -> ->] & Hr'). by apply list_elem_of_fmap_2.
Qed.

Lemma score_rewrite_is_noop_witness :
  loadExistingScores example_db = rows_map [example_row "p2" 40] ∧
  applyScoreTable 9 [example_row "p2" 40] 8 example_db = (Ok (0, 0), example_db).
Proof.
  assert (H : loadExistingScores example_db = rows_map [example_row "p2" 40])
    by (vm_compute; reflexivity).
  split; [exact H|].
  exact (score_rewrite_is_noop 9 [example_row "p2" 40] 8 example_db ltac:(apply NoDup_singleton) H).
Defined.

(** A failed recompute write leaves no trace, and it only fails on a row
    the table's constraints refuse. *)
Theorem score_write_atomic now rows at_ d e d' :
  applyScoreTable now rows at_ d = (Throw e, d') →
  d' = d ∧ ¬ Forall (row_ok d) rows.
Proof.
  intros H. split; [by eapply withTransaction_throw|]. intros Hok.
  destruct (upsert_loop_total now at_ (loadExistingScores d) rows 0 d Hok) as (u & d1 & H1).
  destruct (delete_loop_view now (list_to_set (es_principal_id <$> rows))
              (map_to_list (loadExistingScores d)).*1 0 d1) as (d2 & H2 & _).
  assert (applyScoreTable now rows at_ d = (Ok (u, _), d2)) by (apply applyScoreTable_Ok; eauto).
  congruence.
Qed.

Lemma score_write_atomic_witness :
  ∃ e, applyScoreTable 9 [mkScore (js "p1") (js "agent") 1 false (js "odd")] 8 example_db
       = (Throw e, example_db) ∧ ¬ Forall (row_ok example_db) [mkScore (js "p1") (js "agent") 1 false (js "odd")].
Proof.
  destruct (applyScoreTable 9 [mkScore (js "p1") (js "agent") 1 false (js "odd")] 8 example_db)
    as [[a|e] d'] eqn:E; [vm_compute in E; discriminate E|].
  destruct (score_write_atomic _ _ _ _ _ _ E) as [-> H]. exists e. split; [reflexivity|exact H].
Defined.

End ScoreWriter.
