(* ===== verification/Snapshot.v ===== *)
(** * Edge bootstrap: the snapshot and the events after it

    [getSnapshot] of [src/control-plane/src/domains/sync/syncService.ts].  An
    edge loads a snapshot and then follows the event stream from the snapshot's
    high-water mark ([edge_apply] of [ScoreWriter] is what it does with an event):
    the result is the control plane's score table. *)

From stdpp Require Import base gmap strings sorting numbers list.
From Stdlib Require Import ZArith Lia.
From S2P Require Import Prelude Json Errors Db SyncLog ScoreWriter.

Module Snapshot.
Import SyncLog ScoreWriter.

Record SnapshotKey := mkSnapKey {
  sk_principal_id : jstr; sk_key_id : jstr; sk_public_key_raw : list Z;
  sk_valid_from : Z; sk_valid_until : option Z }.

Record Snapshot := mkSnapshot {
  highWaterVersion : Z;
  snap_scores : list ExistingScore;
  snap_keys : list SnapshotKey;
  snap_policy : option Policy
}.

(** [revoked_at IS NULL AND (valid_until IS NULL OR valid_until > now())] *)
Definition key_current (now : Z) (k : PrincipalKey) : bool :=
  bool_decide (k_revoked_at k = None)
  && match k_valid_until k with None => true | Some u => now <? u end.

(** All queries of the REPEATABLE READ transaction see one state [d].  The key
    bytes are sent base64-encoded, which is not modelled. *)
Definition getSnapshot (now : Z) (tenantId : jstr) (d : db) : Snapshot :=
  mkSnapshot (high_water d)
    ((λ '(_, r), view_row r) <$> map_to_list (network_scores d))
    ((λ k, mkSnapKey (k_principal_id k) (k_key_id k) (k_public_key_raw k) (k_valid_from k) (k_valid_until k))
       <$> filter (λ k, key_current now k) (map_to_list (principal_keys d)).*2)
    (head (filter (λ p, pol_tenant_id p = tenantId ∧ pol_is_active p = true) (map_to_list (policies d)).*2)).

(** The table an edge builds from the snapshot's rows. *)
Definition edge_table (s : Snapshot) : gmap jstr EngineScore :=
  list_to_map ((λ r, (es_principal_id r, r)) <$> snap_scores s).

(** A sequence of recomputes, each of which commits or rolls back. *)
Definition recomputes (rs : list (Z * list EngineScore * Z)) (d : db) : db :=
  fold_left (λ d '(now, rows, at_), (applyScoreTable now rows at_ d).2) rs d.

Lemma edge_table_loads now t d : scores_wf d → edge_table (getSnapshot now t d) = loadExistingScores d.
Proof.
  intros Hwf. unfold edge_table, loadExistingScores, getSnapshot; simpl.
  rewrite <- list_fmap_compose. rewrite <- (list_to_map_to_list (network_scores d)) at 2.
  rewrite <- list_to_map_fmap. f_equal. apply list_fmap_ext. intros i [p r] Hin.
  apply list_elem_of_lookup_2, elem_of_map_to_list in Hin. simpl. f_equal. by apply Hwf in Hin.
Qed.

Lemma recomputes_tracks rs d : log_wf d → scores_wf d → tracks d (recomputes rs d).
Proof.
  revert d. induction rs as [|[[now rows] at_] rs IH]; intros d Hl Hs; simpl; [by apply tracks_refl|].
  pose proof (applyScoreTable_tracks now rows at_ d Hl Hs) as Ht.
  eapply tracks_trans; [exact Ht|]. apply IH; by destruct Ht.
Qed.

(** The events above the old high-water mark are the appended ones. *)
Lemma tail_events t d d' evs :
  log_wf d → log_wf d' → sync_events d' = sync_events d ++ evs → Forall (λ e, se_tenant_id e = None) evs →
  getEventsSince (high_water d) t None d' = evs.
Proof.
  intros Hd Hd' He Hn. rewrite (events_since_appended t d d' evs) by done. apply filter_all.
  intros e Hin. rewrite Forall_forall in Hn. rewrite Is_true_true. apply visible_iff. auto.
Qed.

(** Snapshot plus events converge: an edge of any tenant that loads a
    snapshot and later replays the events above the snapshot's high-water mark
    has exactly the control plane's current score table, however many recomputes
    ran, committed or failed in between. *)
Theorem snapshot_and_events_converge now t rs d :
  log_wf d → scores_wf d →
  let snap := getSnapshot now t d in
  let d' := recomputes rs d in
  replay (getEventsSince (highWaterVersion snap) (Some t) None d') (edge_table snap) = loadExistingScores d'.
Proof.
  intros Hl Hs snap d'. destruct (recomputes_tracks rs d Hl Hs) as [Hl' _ _ (evs & He & Hr & Hn)].
  unfold snap. rewrite edge_table_loads by done.
  change (highWaterVersion (getSnapshot now t d)) with (high_water d). by rewrite (tail_events _ _ _ evs).
Qed.

Lemma snapshot_and_events_converge_witness :
  let snap := getSnapshot 5 (js "t") example_db in
  let d' := recomputes [(9, [example_row "p1" 70], 8); (10, [mkScore (js "nobody") (js "agent") 1 false (js "propagated")], 9)] example_db in
  replay (getEventsSince (highWaterVersion snap) (Some (js "t")) None d') (edge_table snap) = loadExistingScores d' ∧
  loadExistingScores d' = {[js "p1" := example_row "p1" 70]}.
Proof.
  split; [|vm_compute; reflexivity].
  exact (snapshot_and_events_converge 5 (js "t")
    [(9, [example_row "p1" 70], 8); (10, [mkScore (js "nobody") (js "agent") 1 false (js "propagated")], 9)]
    example_db (proj1 example_db_wf) (proj2 example_db_wf)).
Defined.

End Snapshot.
