(* ===== verification/Policy.v ===== *)
(** * Tenant policies

    [src/control-plane/src/domains/policy/policyValidation.ts] (the PUT body) and
    [policyRepository.ts] (the active policy of a tenant and the sync event its
    replacement emits), with the reader of that event on the edge,
    [src/internal/edgeverifier/apply.go] [parsePolicyPayload] and
    [validate.go] [normalizeAndValidatePolicy].

    PostgreSQL's conversion of a number to the NUMERIC(4,3) column is the parameter
    [numeric43] (thousandths). *)

From stdpp Require Import base gmap strings numbers sorting list.
From Stdlib Require Import ZArith Lia.
From S2P Require Import Prelude Json GoText Errors Db SyncLog Snapshot.

(** ** [policyValidation.ts] *)
Module PolicyValidation.

Definition ACTIONS_BELOW : list jstr := [js "allow"; js "deny"].
Definition ACTIONS_UNSIGNED : list jstr := [js "passthrough"; js "deny"].

Record PolicyUpdate := mkUpdate {
  up_threshold : Z;
  up_below_threshold_action : jstr;
  up_unsigned_action : jstr;
  up_allow_fingerprints : list jstr;
  up_deny_fingerprints : list jstr;
  up_fail_open_expired : bool;
  up_no_drop_decisions : bool;
  up_max_snapshot_age_seconds : Z;
  up_allow_sample_rate : number
}.

Definition bad_request {A} (msg : jstr) : result exn A := throw_app BAD_REQUEST msg.

Fixpoint map_strings (field : jstr) (l : list json) : result exn (list jstr) :=
  match l with
  | [] => Ok []
  | JStr (c :: s) :: l' => out ← map_strings field l'; Ok ((c :: s) :: out)
  | _ :: _ => bad_request (field ++ js " entries must be non-empty strings")
  end.

Definition asStringArray (value : json) (field : jstr) : result exn (list jstr) :=
  match value with
  | JArr l =>
      out ← map_strings field l;
      if bool_decide (256 < length out)%nat then bad_request (field ++ js " may not exceed 256 entries")
      else Ok out
  | _ => bad_request (field ++ js " must be an array of strings")
  end.

(** [typeof v === 'number' && Number.isInteger(v) && lo <= v], with an optional
    upper bound. *)
Definition as_integer (v : json) (lo : Z) (hi : option Z) (msg : jstr) : result exn Z :=
  match v with
  | JNum n =>
      match num_to_Z n with
      | Some z => if (z <? lo) || match hi with Some h => h <? z | None => false end
                  then bad_request msg else Ok z
      | None => bad_request msg
      end
  | _ => bad_request msg
  end.

Definition as_one_of (v : json) (options : list jstr) (msg : jstr) : result exn jstr :=
  match v with
  | JStr s => if bool_decide (s ∈ options) then Ok s else bad_request msg
  | _ => bad_request msg
  end.

Definition as_bool (v : json) (msg : jstr) : result exn bool :=
  match v with JBool b => Ok b | _ => bad_request msg end.

(** [typeof v !== 'number' || Number.isNaN(v) || v < 0 || v > 1] *)
Definition as_rate (v : json) (msg : jstr) : result exn number :=
  match v with
  | JNum n => if isNaN n || num_ltb n (num_of_Z 0) || num_ltb (num_of_Z 1) n then bad_request msg else Ok n
  | _ => bad_request msg
  end.

Definition parsePolicyUpdate (body : json) : result exn PolicyUpdate :=
  match body with
  | JObj _ | JArr _ =>
      threshold ← as_integer (nullish (get body "threshold") (JNum (num_of_Z 50))) 0 (Some 100)
        (js "threshold must be an integer between 0 and 100");
      below ← as_one_of (nullish (get body "below_threshold_action") (JStr (js "deny"))) ACTIONS_BELOW
        (js "below_threshold_action must be one of: " ++ join (js ", ") ACTIONS_BELOW);
      unsigned ← as_one_of (nullish (get body "unsigned_action") (JStr (js "passthrough"))) ACTIONS_UNSIGNED
        (js "unsigned_action must be one of: " ++ join (js ", ") ACTIONS_UNSIGNED);
      failOpen ← as_bool (nullish (get body "fail_open_expired") (JBool false))
        (js "fail_open_expired must be a boolean");
      noDrop ← as_bool (nullish (get body "no_drop_decisions") (JBool false))
        (js "no_drop_decisions must be a boolean");
      maxAge ← as_integer (nullish (get body "max_snapshot_age_seconds") (JNum (num_of_Z 300))) 0 None
        (js "max_snapshot_age_seconds must be a non-negative integer");
      rate ← as_rate (nullish (get body "allow_sample_rate") (JNum (num_ratio 1 100)))
        (js "allow_sample_rate must be a number between 0 and 1");
      allow ← asStringArray (nullish (get body "allow_fingerprints") (JArr [])) (js "allow_fingerprints");
      deny ← asStringArray (nullish (get body "deny_fingerprints") (JArr [])) (js "deny_fingerprints");
      Ok (mkUpdate threshold below unsigned allow deny failOpen noDrop maxAge rate)
  | _ => bad_request (js "Missing policy body")
  end.

End PolicyValidation.

(** ** [policyRepository.ts] *)
Module PolicyRepo.
Import PolicyValidation SyncLog.

Definition out_of_range : jstr := js "22003".
Definition invalid_text : jstr := js "22P02".
Definition INT4_MAX : Z := 2147483647.

(** A JavaScript integer sent to an INTEGER column: from 1e21 on it is printed
    with an exponent, which the column does not parse. *)
Definition int4 (z : Z) : result exn Z :=
  if 10 ^ 21 <=? Z.abs z then Throw (EPg invalid_text)
  else if (- INT4_MAX - 1 <=? z) && (z <=? INT4_MAX) then Ok z
  else Throw (EPg out_of_range).

(** [SELECT ... FROM policies WHERE tenant_id = $1 AND is_active = true] *)
Definition getActivePolicy (tenantId : jstr) (d : db) : option Policy :=
  head (filter (λ p, pol_tenant_id p = tenantId ∧ pol_is_active p = true) (map_to_list (policies d)).*2).

(** A row that would collide on UNIQUE (tenant_id, name). *)
Definition name_taken (tenantId name : jstr) (d : db) : bool :=
  existsb (λ p, bool_decide (pol_tenant_id p = tenantId) && bool_decide (pol_name p = name))
          (map_to_list (policies d)).*2.

(** The settings of a policy row, as JSON properties. *)
Definition policy_fields (p : Policy) : list (jstr * json) :=
  [(js "threshold", JNum (num_of_Z (pol_threshold p)));
        (js "below_threshold_action", JStr (pol_below_threshold_action p));
        (js "unsigned_action", JStr (pol_unsigned_action p));
        (js "allow_fingerprints", JArr (JStr <$> pol_allow_fingerprints p));
        (js "deny_fingerprints", JArr (JStr <$> pol_deny_fingerprints p));
        (js "fail_open_expired", JBool (pol_fail_open_expired p));
        (js "no_drop_decisions", JBool (pol_no_drop_decisions p));
        (js "max_snapshot_age_seconds", JNum (num_of_Z (pol_max_snapshot_age_seconds p)))].

(** The settings of a policy as the event and a GET response carry them, with the rate
    as a number ([allow_sample_rate::float]). A GET response has the columns id,
    tenant_id, name, is_active and created_at beside them, which the parser does not
    read; [active_policy_json] of Wire.v is the whole object. *)
Definition policy_json (p : Policy) : json :=
  JObj (policy_fields p ++ [(js "allow_sample_rate", JNum (num_ratio (pol_allow_sample_rate p) 1000))]).

(** The row in a snapshot response ([SELECT *], where NUMERIC is a string);
    [created_at], which no reader uses, is left out. *)
Definition snapshot_json (p : Policy) : json :=
  let k := pol_allow_sample_rate p in
  JObj ([(js "id", JStr (pol_id p)); (js "tenant_id", JStr (pol_tenant_id p)); (js "name", JStr (pol_name p))]
        ++ policy_fields p
        ++ [(js "allow_sample_rate",
             JStr (show_Z (k / 1000) ++ js "." ++ [48 + k / 100 mod 10; 48 + k / 10 mod 10; 48 + k mod 10]));
            (js "is_active", JBool (pol_is_active p))]).

Definition replace_payload (tenantId : jstr) (p : Policy) : json :=
  JObj [(js "tenant_id", JStr tenantId); (js "policy", policy_json p)].

Section repo.
Context (numeric43 : number → Z).

(** The CHECK constraints of migration 005. *)
Definition checks_ok (u : PolicyUpdate) : bool :=
  bool_decide (up_below_threshold_action u ∈ ACTIONS_BELOW)
  && bool_decide (up_unsigned_action u ∈ ACTIONS_UNSIGNED)
  && (0 <=? up_max_snapshot_age_seconds u)
  && (0 <=? numeric43 (up_allow_sample_rate u)) && (numeric43 (up_allow_sample_rate u) <=? 1000).

(** The row the statement leaves: a new one, or [base] with the updated columns. *)
Definition updated_row (id tenantId name : jstr) (created : Z) (u : PolicyUpdate) : Policy :=
  mkPolicy id tenantId name (up_threshold u) (up_below_threshold_action u) (up_unsigned_action u)
    (up_allow_fingerprints u) (up_deny_fingerprints u) (up_fail_open_expired u) (up_no_drop_decisions u)
    (up_max_snapshot_age_seconds u) (numeric43 (up_allow_sample_rate u)) true created.

(** [INSERT ... ON CONFLICT (tenant_id) WHERE is_active DO UPDATE ... RETURNING],
    with its parameters already converted; [uuid] is the id the database
    generates. *)
Definition put_policy (now : Z) (uuid tenantId : jstr) (u : PolicyUpdate) : M Policy := λ d,
  if negb (checks_ok u) then (Throw (EPg check_violation), d) else
  let put r := (Ok r, set_policies (<[pol_id r := r]> (policies d)) d) in
  match getActivePolicy tenantId d with
  | Some p => put (updated_row (pol_id p) tenantId (pol_name p) (pol_created_at p) u)
  | None =>
      if name_taken tenantId (js "default") d || bool_decide (is_Some (policies d !! uuid))
      then (Throw (EPg unique_violation), d)
      else if negb (bool_decide (is_Some (tenants d !! tenantId)))
      then (Throw (EPg foreign_key_violation), d)
      else put (updated_row uuid tenantId (js "default") now u)
  end.

Definition upsert_policy (now : Z) (uuid tenantId : jstr) (u : PolicyUpdate) : M Policy :=
  _ ← lift (int4 (up_threshold u));
  _ ← lift (int4 (up_max_snapshot_age_seconds u));
  put_policy now uuid tenantId u.

Definition replaceActivePolicy (now : Z) (uuid tenantId : jstr) (u : PolicyUpdate) : M (Policy * Z) :=
  withTransaction (
    policy ← upsert_policy now uuid tenantId u;
    syncVersion ← appendEventWithClient now (js "policy.replace") (replace_payload tenantId policy)
                    None (Some tenantId);
    mret (policy, syncVersion)).

End repo.
End PolicyRepo.

(** ** The edge: [parsePolicyPayload] and [normalizeAndValidatePolicy]

    [json.Unmarshal] into the struct is [go_int], [go_string], ... of [GoText]. *)
Module EdgePolicy.

Record Policy := mkEdgePolicy {
  ep_Threshold : Z; ep_BelowThresholdAction : jstr; ep_UnsignedAction : jstr;
  ep_FailOpenExpired : bool; ep_NoDropDecisions : bool; ep_MaxSnapshotAgeSeconds : Z;
  ep_AllowFingerprints : list jstr; ep_DenyFingerprints : list jstr
}.

Definition clampAge (sec : Z) : Z := if sec <? 60 then 60 else if 1800 <? sec then 1800 else sec.

Definition normalizeAndValidatePolicy (p : Policy) : result jstr Policy :=
  let age := clampAge (if ep_MaxSnapshotAgeSeconds p =? 0 then 300 else ep_MaxSnapshotAgeSeconds p) in
  let below := if bool_decide (ep_BelowThresholdAction p = []) then js "deny" else ep_BelowThresholdAction p in
  let unsigned := if bool_decide (ep_UnsignedAction p = []) then js "passthrough" else ep_UnsignedAction p in
  if negb (bool_decide (below ∈ [js "allow"; js "deny"])) then Throw (js "unsupported below_threshold_action")
  else if negb (bool_decide (unsigned ∈ [js "passthrough"; js "deny"])) then Throw (js "unsupported unsigned_action")
  else Ok (mkEdgePolicy (ep_Threshold p) below unsigned (ep_FailOpenExpired p) (ep_NoDropDecisions p) age
             (ep_AllowFingerprints p) (ep_DenyFingerprints p)).

Definition parsePolicyPayload (payload : json) : result jstr Policy :=
  _ ← go_struct payload;
  threshold ← go_int (get payload "threshold");
  below ← go_string (get payload "below_threshold_action");
  unsigned ← go_string (get payload "unsigned_action");
  failOpen ← go_bool (get payload "fail_open_expired");
  noDrop ← go_bool (get payload "no_drop_decisions");
  maxAge ← go_int (get payload "max_snapshot_age_seconds");
  allow ← go_slice go_string (get payload "allow_fingerprints");
  deny ← go_slice go_string (get payload "deny_fingerprints");
  let maxAge := if maxAge =? 0 then 300 else maxAge in
  let threshold := if (threshold =? 0) && bool_decide (below = []) then 50 else threshold in
  normalizeAndValidatePolicy (mkEdgePolicy threshold below unsigned failOpen noDrop maxAge allow deny).

(** What an edge holds for a tenant policy it has read correctly. *)
Definition of_row (p : Db.Policy) : Policy :=
  mkEdgePolicy (pol_threshold p) (pol_below_threshold_action p) (pol_unsigned_action p)
    (pol_fail_open_expired p) (pol_no_drop_decisions p)
    (clampAge (if pol_max_snapshot_age_seconds p =? 0 then 300 else pol_max_snapshot_age_seconds p))
    (pol_allow_fingerprints p) (pol_deny_fingerprints p).

(** The policy of an edge that was told nothing. *)
Definition built_in : Policy :=
  mkEdgePolicy 50 (js "deny") (js "passthrough") false false 300 [] [].

End EdgePolicy.

(** ** Lemmas *)
Module PolicyInv.
Import PolicyValidation PolicyRepo SyncLog.

(** The primary key and the partial unique index [active_policy_per_tenant]. *)
Record policies_ok (d : db) : Prop := {
  po_id : ∀ i p, policies d !! i = Some p → pol_id p = i;
  po_active : ∀ i j p q, policies d !! i = Some p → policies d !! j = Some q →
    pol_is_active p = true → pol_is_active q = true → pol_tenant_id p = pol_tenant_id q → i = j
}.

Definition is_active_for (t : jstr) (p : Policy) (d : db) : Prop :=
  policies d !! pol_id p = Some p ∧ pol_tenant_id p = t ∧ pol_is_active p = true.

Lemma elem_of_policies d p : p ∈ (map_to_list (policies d)).*2 ↔ ∃ i, policies d !! i = Some p.
Proof.
  rewrite list_elem_of_fmap. split.
  - intros ([i q] & -> & H%elem_of_map_to_list). eauto.
  - intros [i H%elem_of_map_to_list]. by exists (i, p).
Qed.

Lemma getActivePolicy_Some t d p :
  policies_ok d → getActivePolicy t d = Some p ↔ is_active_for t p d.
Proof.
  intros [Hid Hact]. unfold getActivePolicy, is_active_for. split.
  - intros H%head_Some_elem_of. apply list_elem_of_filter in H as [[Ht Ha] [i Hi]%elem_of_policies].
    by rewrite (Hid _ _ Hi).
  - intros (Hp & Ht & Ha). set (l := filter _ _).
    assert (p ∈ l) as Hin by (apply list_elem_of_filter; split; [done|apply elem_of_policies; eauto]).
    assert (∀ q, q ∈ l → q = p) as Huniq.
    { intros q [[Hqt Hqa] [j Hj]%elem_of_policies]%list_elem_of_filter.
      assert (j = pol_id p) as -> by (eapply Hact; [exact Hj|exact Hp|done..|congruence]). congruence. }
    destruct l as [|q l]; [by apply elem_of_nil in Hin|]. simpl. f_equal. apply Huniq. by left.
Qed.

Lemma getActivePolicy_None t d i p :
  getActivePolicy t d = None → policies d !! i = Some p → pol_tenant_id p = t → pol_is_active p = false.
Proof.
  unfold getActivePolicy. intros H%head_None Hp Ht. apply not_true_is_false. intros Ha.
  assert (p ∈ filter (λ p, pol_tenant_id p = t ∧ pol_is_active p = true) (map_to_list (policies d)).*2) as Hin
    by (apply list_elem_of_filter; split; [done|apply elem_of_policies; eauto]).
  rewrite H in Hin. by apply elem_of_nil in Hin.
Qed.

Lemma getActivePolicy_ext t d d' :
  policies_ok d → policies_ok d' → (∀ p, is_active_for t p d ↔ is_active_for t p d') →
  getActivePolicy t d = getActivePolicy t d'.
Proof.
  intros Hd Hd' Hiff. apply option_eq. intros p. by rewrite !getActivePolicy_Some.
Qed.

(** Writing a row that is the tenant's only active one. *)
Lemma put_row_ok d r :
  policies_ok d → pol_is_active r = true →
  (∀ i q, policies d !! i = Some q → pol_is_active q = true → pol_tenant_id q = pol_tenant_id r → i = pol_id r) →
  (∀ q, policies d !! pol_id r = Some q → pol_tenant_id q = pol_tenant_id r) →
  let d' := set_policies (<[pol_id r := r]> (policies d)) d in
  policies_ok d' ∧ getActivePolicy (pol_tenant_id r) d' = Some r ∧
  ∀ t, t ≠ pol_tenant_id r → getActivePolicy t d' = getActivePolicy t d.
Proof.
  intros Hok Ha Honly Hown d'.
  assert (Hok' : policies_ok d').
  { destruct Hok as [Hid Hact]. split; simpl.
    - intros i p [[<- <-]|[_ H]]%lookup_insert_Some; eauto.
    - intros i j p q [[<- <-]|[Hi Hp]]%lookup_insert_Some [[<- <-]|[Hj Hq]]%lookup_insert_Some; intros; eauto.
      + symmetry. eapply Honly; eauto. }
  split; [done|]. split.
  - apply getActivePolicy_Some; [done|]. unfold is_active_for. simpl. by rewrite lookup_insert_eq.
  - intros t Ht. apply getActivePolicy_ext; [done..|]. intros p. unfold is_active_for. simpl.
    split; intros (Hp & Hpt & Hpa); (split; [|done]).
    + apply lookup_insert_Some in Hp as [[_ ->]|[_ Hp]]; congruence.
    + rewrite lookup_insert_ne; [done|]. intros Heq. rewrite <- Heq in Hp. apply Hown in Hp. congruence.
Qed.

Section lemmas.
Context (numeric43 : number → Z).

Lemma put_policy_spec now uuid t u d r d1 :
  policies_ok d → put_policy numeric43 now uuid t u d = (Ok r, d1) →
  policies_ok d1 ∧ getActivePolicy t d1 = Some r ∧
  (∀ t', t' ≠ t → getActivePolicy t' d1 = getActivePolicy t' d) ∧
  r = updated_row numeric43 (pol_id r) t (pol_name r) (pol_created_at r) u ∧ checks_ok numeric43 u = true ∧
  d1 = set_policies (<[pol_id r := r]> (policies d)) d.
Proof.
  intros Hok. unfold put_policy. destruct (checks_ok numeric43 u); [|done]. simpl.
  destruct (getActivePolicy t d) as [p|] eqn:Hp.
  - apply getActivePolicy_Some in Hp as (Hp & Ht & Ha); [|done]. intros [= <- <-].
    set (r := updated_row _ _ _ _ _ _).
    destruct (put_row_ok d r) as (H1 & H2 & H3); [done|done| | |exact (conj H1 (conj H2 (conj H3 (conj eq_refl (conj eq_refl eq_refl)))))].
    + intros i q Hq Hqa Hqt. destruct Hok as [_ Hact]. eapply Hact; [exact Hq|exact Hp|done..|]. by rewrite Hqt.
    + simpl. intros q. rewrite Hp. by intros [= <-].
  - destruct (name_taken _ _ _); [done|]. simpl. case_bool_decide as Hnew; [done|].
    destruct (bool_decide (is_Some (tenants d !! t))); [|done]. simpl. intros [= <- <-].
    set (r := updated_row _ _ _ _ _ _). apply eq_None_not_Some in Hnew.
    destruct (put_row_ok d r) as (H1 & H2 & H3); [done|done| | |exact (conj H1 (conj H2 (conj H3 (conj eq_refl (conj eq_refl eq_refl)))))].
    + intros i q Hq Hqa Hqt. by rewrite (getActivePolicy_None _ _ _ _ Hp Hq Hqt) in Hqa.
    + simpl. intros q Hq. congruence.
Qed.

Lemma replaceActivePolicy_Ok now uuid t u d r v d' :
  replaceActivePolicy numeric43 now uuid t u d = (Ok (r, v), d') →
  ∃ d1, put_policy numeric43 now uuid t u d = (Ok r, d1) ∧ v = high_water d1 + 1 ∧
    0 ≤ INT4_MAX - up_max_snapshot_age_seconds u ∧
    d' = set_sync_events (sync_events d1 ++
           [mkSyncEvent v (js "policy.replace") None (or_null (Some t)) (replace_payload t r) now]) d1.
Proof.
  unfold replaceActivePolicy, upsert_policy. intros H. rewrite withTransaction_Ok in H.
  apply M_bind_Ok in H as (p & d1 & H1 & H). apply M_bind_Ok in H as (v' & d2 & H2 & H). injection H as <- <- <-.
  apply M_bind_Ok in H1 as (z1 & d3 & H3 & H1). apply M_bind_Ok in H1 as (z2 & d4 & H4 & H1).
  apply lift_Ok in H3 as [_ ->], H4 as [H4 ->].
  apply appendEventWithClient_Ok in H2 as (-> & _ & ->).
  exists d1. split; [done|]. split; [done|]. split; [|done].
  revert H4. unfold int4. destruct (_ <=? _); [done|]. destruct ((_ <=? _) && _) eqn:E; [|done].
  apply andb_true_iff in E as [_ E%Z.leb_le]. lia.
Qed.

End lemmas.

(** *** Reading and writing the JSON forms *)

Lemma map_strings_strings field l : Forall (λ s, s ≠ []) l → map_strings field (JStr <$> l) = Ok l.
Proof. induction 1 as [|[|c x] l Hx _ IH]; [done|done|]. rewrite fmap_cons. cbn [map_strings]. by rewrite IH. Qed.

Lemma no_empty_below : ([] : jstr) ∉ ACTIONS_BELOW.
Proof. apply (bool_decide_unpack _). vm_compute. done. Qed.
Lemma no_empty_unsigned : ([] : jstr) ∉ ACTIONS_UNSIGNED.
Proof. apply (bool_decide_unpack _). vm_compute. done. Qed.

Lemma as_integer_Ok v lo hi msg z :
  as_integer v lo hi msg = Ok z → lo ≤ z ∧ match hi with Some h => z ≤ h | None => True end.
Proof.
  unfold as_integer. destruct v; try done. destruct (num_to_Z n); [|done].
  destruct (_ <? lo) eqn:E1; [done|]. apply Z.ltb_ge in E1. simpl.
  destruct hi as [h|]; [|by intros [= <-]]. destruct (h <? _) eqn:E2; [done|]. apply Z.ltb_ge in E2.
  by intros [= <-].
Qed.

Lemma as_one_of_Ok v options msg s : as_one_of v options msg = Ok s → s ∈ options.
Proof. unfold as_one_of. destruct v; try done. case_bool_decide; [|done]. by intros [= <-]. Qed.

Lemma as_rate_Ok v msg n :
  as_rate v msg = Ok n → isNaN n || num_ltb n (num_of_Z 0) || num_ltb (num_of_Z 1) n = false.
Proof. unfold as_rate. destruct v; try done. destruct (_ || _) eqn:E; [done|]. by intros [= <-]. Qed.

Lemma map_strings_Ok field l out : map_strings field l = Ok out → Forall (λ s, s ≠ []) out.
Proof.
  revert out. induction l as [|[| | | |[|c s]| |] l IH]; intros out H; simpl in H; try done.
  - by injection H as <-.
  - invert_ok. subst. constructor; [done|]. by apply IH.
Qed.

Lemma asStringArray_Ok v field out :
  asStringArray v field = Ok out → Forall (λ s, s ≠ []) out ∧ (length out ≤ 256)%nat.
Proof.
  unfold asStringArray. destruct v; try done. intros H. invert_ok. case_bool_decide; [done|].
  invert_ok. subst. split; [by eapply map_strings_Ok|lia].
Qed.

(** A row that satisfies the constraints and the limits of the PUT body. *)
Record policy_valid (p : Policy) : Prop := {
  pv_threshold : 0 ≤ pol_threshold p ≤ 100;
  pv_below : pol_below_threshold_action p ∈ ACTIONS_BELOW;
  pv_unsigned : pol_unsigned_action p ∈ ACTIONS_UNSIGNED;
  pv_allow : Forall (λ s, s ≠ []) (pol_allow_fingerprints p) ∧ (length (pol_allow_fingerprints p) ≤ 256)%nat;
  pv_deny : Forall (λ s, s ≠ []) (pol_deny_fingerprints p) ∧ (length (pol_deny_fingerprints p) ≤ 256)%nat;
  pv_age : 0 ≤ pol_max_snapshot_age_seconds p ≤ INT4_MAX;
  pv_rate : 0 ≤ pol_allow_sample_rate p ≤ 1000
}.

Lemma edge_reads_fields p v :
  policy_valid p →
  (∀ f, f ∈ ["threshold"; "below_threshold_action"; "unsigned_action"; "fail_open_expired"; "no_drop_decisions";
             "max_snapshot_age_seconds"; "allow_fingerprints"; "deny_fingerprints"]%string →
        get v f = get (JObj (policy_fields p)) f) →
  match v with JObj _ => True | _ => False end →
  EdgePolicy.parsePolicyPayload v = Ok (EdgePolicy.of_row p).
Proof.
  intros [Ht Hb Hu _ _ Ha _] Hget Hobj. unfold EdgePolicy.parsePolicyPayload. destruct v; try done.
  rewrite !Hget by (rewrite !elem_of_cons; tauto).
  change (get (JObj (policy_fields p)) "threshold") with (JNum (num_of_Z (pol_threshold p))).
  change (get (JObj (policy_fields p)) "below_threshold_action") with (JStr (pol_below_threshold_action p)).
  change (get (JObj (policy_fields p)) "unsigned_action") with (JStr (pol_unsigned_action p)).
  change (get (JObj (policy_fields p)) "fail_open_expired") with (JBool (pol_fail_open_expired p)).
  change (get (JObj (policy_fields p)) "no_drop_decisions") with (JBool (pol_no_drop_decisions p)).
  change (get (JObj (policy_fields p)) "max_snapshot_age_seconds")
    with (JNum (num_of_Z (pol_max_snapshot_age_seconds p))).
  change (get (JObj (policy_fields p)) "allow_fingerprints") with (JArr (JStr <$> pol_allow_fingerprints p)).
  change (get (JObj (policy_fields p)) "deny_fingerprints") with (JArr (JStr <$> pol_deny_fingerprints p)).
  unfold INT4_MAX in Ha. rewrite !go_int_num by lia. unfold go_slice. rewrite !go_elems_strings.
  unfold mbind, result_bind, go_struct, go_string, go_bool, EdgePolicy.normalizeAndValidatePolicy,
    EdgePolicy.of_row. simpl.
  rewrite (bool_decide_eq_false_2 (pol_below_threshold_action p = [])) by (intros E; rewrite E in Hb; revert Hb; by apply no_empty_below).
  rewrite (bool_decide_eq_false_2 (pol_unsigned_action p = [])) by (intros E; rewrite E in Hu; revert Hu; by apply no_empty_unsigned).
  rewrite andb_false_r. rewrite !bool_decide_eq_true_2 by done. simpl.
  by destruct (pol_max_snapshot_age_seconds p =? 0) eqn:E; rewrite ?E.
Qed.

Lemma edge_reads_snapshot p : policy_valid p → EdgePolicy.parsePolicyPayload (snapshot_json p) = Ok (EdgePolicy.of_row p).
Proof.
  intros Hv. apply edge_reads_fields; [done| |done]. intros f Hf. rewrite !elem_of_cons, elem_of_nil in Hf.
  destruct_or! Hf; try done; subst; reflexivity.
Qed.

(** The nested payload has none of the properties the edge looks for. *)
Lemma edge_reads_event t p : EdgePolicy.parsePolicyPayload (replace_payload t p) = Ok EdgePolicy.built_in.
Proof. reflexivity. Qed.

Lemma rates_in_range k : 0 ≤ k ≤ 1000 →
  isNaN (num_ratio k 1000) || num_ltb (num_ratio k 1000) (num_of_Z 0) || num_ltb (num_of_Z 1) (num_ratio k 1000) = false.
Proof.
  intros Hk. assert (Hall : forallb (λ k, negb (isNaN (num_ratio k 1000) || num_ltb (num_ratio k 1000) (num_of_Z 0)
    || num_ltb (num_of_Z 1) (num_ratio k 1000))) (seqZ 0 1001) = true) by (vm_compute; reflexivity).
  rewrite forallb_forall in Hall. specialize (Hall k). apply negb_true_iff, Hall.
  apply list_elem_of_In, elem_of_seqZ. lia.
Qed.

Definition update_of (p : Policy) : PolicyUpdate :=
  mkUpdate (pol_threshold p) (pol_below_threshold_action p) (pol_unsigned_action p) (pol_allow_fingerprints p)
    (pol_deny_fingerprints p) (pol_fail_open_expired p) (pol_no_drop_decisions p)
    (pol_max_snapshot_age_seconds p) (num_ratio (pol_allow_sample_rate p) 1000).

Lemma parse_policy_json p : policy_valid p → parsePolicyUpdate (policy_json p) = Ok (update_of p).
Proof.
  intros [Ht Hb Hu [Ha1 Ha2] [Hd1 Hd2] Hage Hr]. unfold parsePolicyUpdate.
  change (get (policy_json p) "threshold") with (JNum (num_of_Z (pol_threshold p))).
  change (get (policy_json p) "below_threshold_action") with (JStr (pol_below_threshold_action p)).
  change (get (policy_json p) "unsigned_action") with (JStr (pol_unsigned_action p)).
  change (get (policy_json p) "fail_open_expired") with (JBool (pol_fail_open_expired p)).
  change (get (policy_json p) "no_drop_decisions") with (JBool (pol_no_drop_decisions p)).
  change (get (policy_json p) "max_snapshot_age_seconds") with (JNum (num_of_Z (pol_max_snapshot_age_seconds p))).
  change (get (policy_json p) "allow_sample_rate") with (JNum (num_ratio (pol_allow_sample_rate p) 1000)).
  change (get (policy_json p) "allow_fingerprints") with (JArr (JStr <$> pol_allow_fingerprints p)).
  change (get (policy_json p) "deny_fingerprints") with (JArr (JStr <$> pol_deny_fingerprints p)).
  cbn [policy_json nullish is_nullish as_integer as_one_of as_bool as_rate asStringArray].
  rewrite !num_to_of_Z, rates_in_range, !map_strings_strings by done.
  rewrite !bool_decide_eq_true_2 by done.
  rewrite !(proj2 (Z.ltb_ge _ _)) by lia. simpl. rewrite !bool_decide_eq_false_2 by lia. done.
Qed.

(** Ranges of an accepted update. *)
Lemma parsePolicyUpdate_Ok body u :
  parsePolicyUpdate body = Ok u →
  0 ≤ up_threshold u ≤ 100 ∧ up_below_threshold_action u ∈ ACTIONS_BELOW ∧
  up_unsigned_action u ∈ ACTIONS_UNSIGNED ∧ 0 ≤ up_max_snapshot_age_seconds u ∧
  isNaN (up_allow_sample_rate u) || num_ltb (up_allow_sample_rate u) (num_of_Z 0)
    || num_ltb (num_of_Z 1) (up_allow_sample_rate u) = false ∧
  Forall (λ s, s ≠ []) (up_allow_fingerprints u) ∧ (length (up_allow_fingerprints u) ≤ 256)%nat ∧
  Forall (λ s, s ≠ []) (up_deny_fingerprints u) ∧ (length (up_deny_fingerprints u) ≤ 256)%nat.
Proof.
  unfold parsePolicyUpdate. intros H. destruct body as [| | | | |l|fs]; [discriminate H..| |]; invert_ok; rewrite <- H; clear H;
    cbn [up_threshold up_below_threshold_action up_unsigned_action up_allow_fingerprints up_deny_fingerprints
         up_fail_open_expired up_no_drop_decisions up_max_snapshot_age_seconds up_allow_sample_rate];
    repeat match goal with
    | H : as_integer _ _ _ _ = Ok _ |- _ => apply as_integer_Ok in H as [? ?]
    | H : as_one_of _ _ _ = Ok _ |- _ => apply as_one_of_Ok in H
    | H : as_rate _ _ = Ok _ |- _ => apply as_rate_Ok in H
    | H : asStringArray _ _ = Ok _ |- _ => apply asStringArray_Ok in H as [? ?]
    end; split_and!; assumption.
Qed.

(** ** Properties *)

Section properties.
Context (numeric43 : number → Z).

(** PostgreSQL rounds a number of [0,1] to a NUMERIC(4,3) of [0,1], and takes back
    the number it printed for a stored value. *)
Hypothesis numeric43_range : ∀ n,
  isNaN n || num_ltb n (num_of_Z 0) || num_ltb (num_of_Z 1) n = false → 0 ≤ numeric43 n ≤ 1000.
Hypothesis numeric43_roundtrip : ∀ k, 0 ≤ k ≤ 1000 → numeric43 (num_ratio k 1000) = k.

(** What a tenant [t'] that has read up to the old high-water mark is sent. *)
Lemma replace_events now t r d d1 v d' t' :
  t ≠ [] → t' ≠ [] → log_wf d → sync_events d1 = sync_events d → v = high_water d1 + 1 →
  d' = set_sync_events (sync_events d1 ++
         [mkSyncEvent v (js "policy.replace") None (or_null (Some t)) (replace_payload t r) now]) d1 →
  log_wf d' ∧
  getEventsSince (high_water d) (Some t') None d' =
    if bool_decide (t' = t)
    then [mkSyncEvent (high_water d + 1) (js "policy.replace") None (Some t) (replace_payload t r) now] else [].
Proof.
  intros Ht Ht' Hl He Hv Hd'. assert (Hhw : high_water d1 = high_water d) by (unfold high_water, versions; by rewrite He).
  rewrite Hhw in Hv. subst v.
  assert (Hl' : log_wf d') by (eapply (log_wf_append d); [done|by rewrite Hd'; simpl; rewrite He|done]).
  split; [done|]. rewrite getEventsSince_eq_filter by done. rewrite Hd'. simpl. rewrite He, filter_app.
  rewrite filter_none.
  2:{ intros e Hin. unfold selected. rewrite (proj2 (Z.ltb_ge _ _)) by (by apply versions_le_high_water). by intros []. }
  destruct t as [|c t]; [done|]. destruct t' as [|c' t']; [done|].
  rewrite filter_cons, filter_nil. unfold selected, visible. simpl.
  rewrite (proj2 (Z.ltb_lt _ _)) by lia. simpl.
  destruct (decide (c' :: t' = c :: t)) as [E|E].
  - injection E as -> ->. rewrite !bool_decide_eq_true_2 by done. by destruct (decide _).
  - rewrite !bool_decide_eq_false_2 by congruence. by destruct (decide _).
Qed.

(** Replacing a policy is atomic, isolated and announced: when it succeeds the
    tenant's active policy is the one returned and carries exactly the new
    settings, no other tenant's active policy changes, there is still at most one
    per tenant, the event log gained exactly one event with the next version, and
    that event is sent to the tenant's edges and to no other tenant's. *)
Theorem policy_replace_applied now uuid t u d r v d' :
  t ≠ [] → policies_ok d → log_wf d →
  replaceActivePolicy numeric43 now uuid t u d = (Ok (r, v), d') →
  policies_ok d' ∧ log_wf d' ∧ getActivePolicy t d' = Some r ∧
  r = updated_row numeric43 (pol_id r) t (pol_name r) (pol_created_at r) u ∧
  (∀ t', t' ≠ t → getActivePolicy t' d' = getActivePolicy t' d) ∧ v = high_water d + 1 ∧
  (∀ t', t' ≠ [] → getEventsSince (high_water d) (Some t') None d' =
    if bool_decide (t' = t)
    then [mkSyncEvent v (js "policy.replace") None (Some t) (replace_payload t r) now] else []).
Proof.
  intros Ht Hok Hl (d1 & H1 & Hv & _ & Hd')%replaceActivePolicy_Ok.
  destruct (put_policy_spec _ _ _ _ _ _ _ _ Hok H1) as (Hok1 & Hact & Hoth & Hr & _ & Hd1).
  assert (He : sync_events d1 = sync_events d) by (by rewrite Hd1).
  destruct (replace_events now t r d d1 v d' t Ht Ht Hl He Hv Hd') as [Hl' _].
  assert (Hhw : high_water d1 = high_water d) by (unfold high_water, versions; by rewrite He).
  split; [by rewrite Hd'; destruct Hok1; split|]. split; [done|]. split; [by rewrite Hd'|]. split; [done|].
  split; [intros t' Htt'; rewrite Hd'; apply (Hoth t' Htt')|]. split; [congruence|].
  intros t' Ht'. destruct (replace_events now t r d d1 v d' t' Ht Ht' Hl He Hv Hd') as [_ ->].
  by rewrite Hv, Hhw.
Qed.

(** A PUT body that passes validation is stored, for a tenant that exists and
    whose name 'default' is not held by an inactive policy, provided the maximal
    snapshot age fits an INTEGER column; validation has no upper bound for it, and
    above that limit the request fails in the database instead (an internal error,
    not a bad request). *)
Theorem policy_put_outcome now uuid t body u d :
  parsePolicyUpdate body = Ok u → is_Some (tenants d !! t) → policies d !! uuid = None →
  (getActivePolicy t d = None → name_taken t (js "default") d = false) →
  (up_max_snapshot_age_seconds u ≤ INT4_MAX →
     ∃ r v d', replaceActivePolicy numeric43 now uuid t u d = (Ok (r, v), d')) ∧
  (INT4_MAX < up_max_snapshot_age_seconds u →
     ∃ s, replaceActivePolicy numeric43 now uuid t u d = (Throw (EPg s), d) ∧ status (from (EPg s)) = 500).
Proof.
  intros Hu Ht Huuid Hname.
  destruct (parsePolicyUpdate_Ok _ _ Hu) as (Hth & Hb & Hun & Hage & Hrate & _).
  unfold replaceActivePolicy, upsert_policy, withTransaction, mbind, M_bind, lift.
  assert (Hc : checks_ok numeric43 u = true).
  { unfold checks_ok. rewrite !bool_decide_eq_true_2 by done. pose proof (numeric43_range _ Hrate).
    rewrite !(proj2 (Z.leb_le _ _)) by lia. done. }
  assert (H4 : int4 (up_threshold u) = Ok (up_threshold u)).
  { unfold int4, INT4_MAX. rewrite (proj2 (Z.leb_gt _ _)), !(proj2 (Z.leb_le _ _)) by lia. done. }
  rewrite H4. split; intros Hmax.
  - assert (H5 : int4 (up_max_snapshot_age_seconds u) = Ok (up_max_snapshot_age_seconds u)).
    { unfold int4, INT4_MAX in *. rewrite (proj2 (Z.leb_gt _ _)), !(proj2 (Z.leb_le _ _)) by lia. done. }
    rewrite H5. unfold put_policy. rewrite Hc. simpl. destruct (getActivePolicy t d) as [p|].
    + rewrite ?appendEventWithClient_eq by auto with verilink. unfold mret, M_ret. eauto.
    + rewrite Hname by done. rewrite bool_decide_eq_false_2 by (rewrite Huuid; by intros []).
      rewrite bool_decide_eq_true_2 by done. simpl.
      rewrite ?appendEventWithClient_eq by auto with verilink. unfold mret, M_ret. eauto.
  - unfold int4, INT4_MAX in *. destruct (10 ^ 21 <=? Z.abs (up_max_snapshot_age_seconds u)); [by eauto|].
    rewrite (proj2 (Z.leb_gt _ 2147483647)), andb_false_r by lia. by eauto.
Qed.

(** C27. What GET returns can be PUT back: for an active policy within the limits
    the body is accepted and writing it leaves the policy as it was. *)
Theorem policy_get_put_roundtrip now uuid t r d :
  policies_ok d → getActivePolicy t d = Some r → policy_valid r →
  parsePolicyUpdate (policy_json r) = Ok (update_of r) ∧
  ∃ v d', replaceActivePolicy numeric43 now uuid t (update_of r) d = (Ok (r, v), d') ∧ policies d' = policies d.
Proof.
  intros Hok Hr Hval. split; [by apply parse_policy_json|].
  pose proof (proj1 (getActivePolicy_Some _ _ _ Hok) Hr) as (Hin & Ht & Ha).
  destruct Hval as [Hth Hb Hu _ _ Hage Hrate]. unfold INT4_MAX in *.
  unfold replaceActivePolicy, upsert_policy, withTransaction, mbind, M_bind, lift, update_of. simpl.
  unfold int4, INT4_MAX. rewrite !(proj2 (Z.leb_gt (10 ^ 21) _)), !(proj2 (Z.leb_le _ _)) by lia. simpl.
  unfold put_policy, checks_ok. simpl. rewrite numeric43_roundtrip by done.
  rewrite !bool_decide_eq_true_2 by done. rewrite !(proj2 (Z.leb_le _ _)) by lia. simpl. rewrite Hr.
  assert (Hrow : updated_row numeric43 (pol_id r) t (pol_name r) (pol_created_at r) (update_of r) = r).
  { unfold updated_row, update_of. simpl. rewrite numeric43_roundtrip by done. by destruct r; simpl in *; subst. }
  unfold update_of in Hrow. rewrite Hrow. rewrite ?appendEventWithClient_eq by auto with verilink.
  unfold mret, M_ret. do 2 eexists. split; [done|]. simpl. by apply insert_id.
Qed.

End properties.

(** C28. The event resets the edge: the control plane nests the settings under a
    [policy] property, the edge looks for them at the top level. Whatever policy a
    tenant sets, an edge that applies the event ends up with the built-in one
    (threshold 50, deny below it, pass unsigned requests, no fingerprint lists),
    while the same row read from a snapshot is read as it is. *)
Theorem policy_event_resets_edge numeric43 now uuid t u d r v d' :
  policies_ok d → log_wf d → t ≠ [] → replaceActivePolicy numeric43 now uuid t u d = (Ok (r, v), d') →
  policy_valid r →
  EdgePolicy.parsePolicyPayload ∘ se_payload <$> getEventsSince (high_water d) (Some t) None d' =
    [Ok EdgePolicy.built_in] ∧
  EdgePolicy.parsePolicyPayload ∘ snapshot_json <$> Snapshot.snap_policy (Snapshot.getSnapshot now t d') =
    Some (Ok (EdgePolicy.of_row r)).
Proof.
  intros Hok Hl Ht (d1 & H1 & Hv & _ & Hd')%replaceActivePolicy_Ok Hval.
  destruct (put_policy_spec _ _ _ _ _ _ _ _ Hok H1) as (Hok1 & Hact & _ & _ & _ & Hd1).
  assert (He : sync_events d1 = sync_events d) by (by rewrite Hd1). split.
  - destruct (replace_events now t r d d1 v d' t Ht Ht Hl He Hv Hd') as [_ ->].
    rewrite bool_decide_eq_true_2 by done. reflexivity.
  - change (Snapshot.snap_policy (Snapshot.getSnapshot now t d')) with (getActivePolicy t d').
    rewrite Hd'. change (getActivePolicy t (set_sync_events _ d1)) with (getActivePolicy t d1).
    rewrite Hact. simpl. f_equal. by apply edge_reads_snapshot.
Qed.

(** ** The properties at concrete inputs *)

(** Rounding to thousandths, half up. *)
Definition round_thousandths (n : number) : Z :=
  match n with
  | Fin m e => if 0 <=? e then m * 2 ^ e * 1000 else (2 * 1000 * m + 2 ^ (- e)) / (2 * 2 ^ (- e))
  | _ => 0
  end.

Lemma round_thousandths_range n :
  isNaN n || num_ltb n (num_of_Z 0) || num_ltb (num_of_Z 1) n = false → 0 ≤ round_thousandths n ≤ 1000.
Proof.
  destruct n as [|[]|m e]; try done. cbn [isNaN orb]. unfold num_ltb, fin_compare.
  change (num_of_Z 0) with (Fin 0 0). change (num_of_Z 1) with (Fin 1 0). cbv beta iota. intros [H1 H2]%orb_false_iff.
  unfold round_thousandths. destruct (0 <=? e) eqn:He.
  - apply Z.leb_le in He. rewrite Z.min_r in H1 by lia. rewrite Z.min_l in H2 by lia.
    rewrite !Z.sub_0_r, Z.pow_0_r in *. pose proof (Z.pow_pos_nonneg 2 e).
    destruct (_ ?= _) eqn:E1 in H1; try done; destruct (_ ?= _) eqn:E2 in H2; try done;
      rewrite ?Z.compare_eq_iff, ?Z.compare_gt_iff, ?Z.compare_lt_iff in *; nia.
  - apply Z.leb_gt in He. rewrite Z.min_l in H1 by lia. rewrite Z.min_r in H2 by lia.
    rewrite Z.sub_diag, Z.pow_0_r in *. replace (0 - e) with (- e) in * by lia.
    pose proof (Z.pow_pos_nonneg 2 (- e)).
    assert (0 ≤ m ≤ 2 ^ (- e)) as Hm.
    { destruct (_ ?= _) eqn:E1 in H1; try done; destruct (_ ?= _) eqn:E2 in H2; try done;
      rewrite ?Z.compare_eq_iff, ?Z.compare_gt_iff, ?Z.compare_lt_iff in *; lia. }
    split; [apply Z.div_pos; lia|].
    apply Z.lt_succ_r, Z.div_lt_upper_bound; nia.
Qed.

Lemma round_thousandths_roundtrip k : 0 ≤ k ≤ 1000 → round_thousandths (num_ratio k 1000) = k.
Proof.
  intros Hk. assert (Hall : forallb (λ k, round_thousandths (num_ratio k 1000) =? k) (seqZ 0 1001) = true)
    by (vm_compute; reflexivity).
  rewrite forallb_forall in Hall. apply Z.eqb_eq, Hall, list_elem_of_In, elem_of_seqZ. lia.
Qed.

Definition strict_update : PolicyUpdate :=
  mkUpdate 80 (js "deny") (js "deny") [js "fp-a"] [js "fp-b"] false true 600 (num_ratio 1 4).

Definition tenant_db : db :=
  set_tenants {[js "t" := mkTenant (js "t") (js "acme") (js "Acme") (js "pro") (js "active") 1]} empty_db.

Definition strict_row : Policy := updated_row round_thousandths (js "u1") (js "t") (js "default") 7 strict_update.

Definition policy_db : db := set_policies {[js "u1" := strict_row]} tenant_db.

Lemma tenant_db_ok : policies_ok tenant_db.
Proof. by split. Qed.

Lemma policy_db_ok : policies_ok policy_db.
Proof.
  split; simpl.
  - intros i p [<- <-]%lookup_singleton_Some. done.
  - by intros i j p q [<- <-]%lookup_singleton_Some [<- <-]%lookup_singleton_Some.
Qed.

Lemma strict_row_valid : policy_valid strict_row.
Proof.
  split; unfold strict_row, updated_row, strict_update; simpl; try (split; [repeat constructor; done|simpl; lia]).
  - unfold ACTIONS_BELOW. rewrite !elem_of_cons. tauto.
  - unfold ACTIONS_UNSIGNED. rewrite !elem_of_cons. tauto.
  - unfold INT4_MAX. lia.
  - vm_compute. split; intros ?; discriminate.
Qed.

Lemma strict_replace : ∃ d', replaceActivePolicy round_thousandths 7 (js "u1") (js "t") strict_update tenant_db
  = (Ok (strict_row, 1), d').
Proof. eexists. vm_compute. reflexivity. Qed.

Lemma policy_replace_applied_witness :
  ∃ d', replaceActivePolicy round_thousandths 7 (js "u1") (js "t") strict_update tenant_db = (Ok (strict_row, 1), d') ∧
    getActivePolicy (js "t") d' = Some strict_row ∧ 1 = high_water tenant_db + 1.
Proof.
  destruct strict_replace as [d' H]. exists d'. split; [exact H|].
  destruct (policy_replace_applied round_thousandths 7 (js "u1") (js "t") strict_update tenant_db strict_row 1 d'
    ltac:(done) tenant_db_ok empty_log_wf H) as (_ & _ & Ha & _ & _ & Hv & _). exact (conj Ha Hv).
Defined.

Lemma policy_put_outcome_witness :
  ∃ u r v d', parsePolicyUpdate (JObj [(js "threshold", JNum (num_of_Z 70))]) = Ok u ∧ up_threshold u = 70 ∧
    replaceActivePolicy round_thousandths 7 (js "u1") (js "t") u tenant_db = (Ok (r, v), d').
Proof.
  pose (u := mkUpdate 70 (js "deny") (js "passthrough") [] [] false false 300 (num_ratio 1 100)).
  destruct (policy_put_outcome round_thousandths round_thousandths_range 7 (js "u1") (js "t")
    (JObj [(js "threshold", JNum (num_of_Z 70))]) u tenant_db) as [H _].
  - vm_compute. reflexivity.
  - vm_compute. eauto.
  - vm_compute. reflexivity.
  - intros _. vm_compute. reflexivity.
  - destruct H as (r & v & d' & H); [vm_compute; discriminate|].
    exists u, r, v, d'. split; [vm_compute; reflexivity|]. exact (conj eq_refl H).
Defined.

Lemma policy_get_put_roundtrip_witness :
  ∃ v d', replaceActivePolicy round_thousandths 9 (js "u2") (js "t") (update_of strict_row) policy_db
    = (Ok (strict_row, v), d') ∧ policies d' = policies policy_db.
Proof.
  destruct (policy_get_put_roundtrip round_thousandths round_thousandths_roundtrip 9 (js "u2") (js "t") strict_row policy_db
    policy_db_ok eq_refl strict_row_valid) as [_ H]. exact H.
Defined.

Lemma policy_event_resets_edge_witness :
  ∃ d', replaceActivePolicy round_thousandths 7 (js "u1") (js "t") strict_update tenant_db = (Ok (strict_row, 1), d') ∧
    EdgePolicy.parsePolicyPayload ∘ se_payload <$> getEventsSince (high_water tenant_db) (Some (js "t")) None d' =
      [Ok EdgePolicy.built_in] ∧
    EdgePolicy.ep_DenyFingerprints (EdgePolicy.of_row strict_row) = [js "fp-b"].
Proof.
  destruct strict_replace as [d' H]. exists d'. split; [exact H|]. split; [|reflexivity].
  exact (proj1 (policy_event_resets_edge round_thousandths 7 (js "u1") (js "t") strict_update tenant_db strict_row 1 d'
    tenant_db_ok empty_log_wf ltac:(done) H strict_row_valid)).
Defined.

End PolicyInv.
