(* ===== verification/SseQueue.v ===== *)
(** * The outbound SSE write queue

    [src/control-plane/src/domains/sync/sseWriteQueue.ts].  One record holds
    the fields of the class, the microtasks it queued, the [waitForSpace]
    promises that listen or have been resolved, and the writes it made on the
    socket.  The socket is Node's: what its [n]-th [res.write] answers is the
    section variable [write]; [drain], [close] and the slow-client timer are
    events that may come in any order. *)

From stdpp Require Import base strings numbers list.
From Stdlib Require Import ZArith Lia.
From S2P Require Import Prelude Json.

Module SseQueue.

Inductive EnqueueResult := ok | oversized | closed_ | full.

Record SseWriteQueueOptions := mkOptions {
  maxFrames : Z; maxBytes : Z; maxFrameBytes : Z }.

Record DataItem := mkItem { frame : jstr; cursor : option Z }.

(** What [res.write] does: returns [true], returns [false] or throws. *)
Inductive wres := WTrue | WFalse | WError.

(** A chunk given to the socket, with the lane it came from. *)
Inductive chunk := DataChunk (i : DataItem) | ControlChunk (s : jstr).

(** A pending [waitForSpace(size)] call. *)
Record waiter := mkWaiter { w_id : nat; w_size : Z }.

Record SseWriteQueue := mkQueue {
  data : list DataItem;
  dataBytes : Z;
  inflightBytes : Z;
  control : option jstr;
  pumping : bool;
  closed : bool;
  waitingForDrain : bool;
  slowTimer : bool;
  lastWrittenCursor : option Z;
  microtasks : nat;             (** queued [() => void this.pump()] *)
  listeners : list waiter;      (** subscribed to 'space' and 'closed' *)
  resumed : list waiter;        (** promise resolved, continuation queued *)
  wire : list (chunk * wres);   (** the socket's log *)
  ended : bool                  (** [res.end()] was called *)
}.

Definition set_data v '(mkQueue _ b i c p cl w s l m ls r wi e) := mkQueue v b i c p cl w s l m ls r wi e.
Definition set_dataBytes v '(mkQueue d _ i c p cl w s l m ls r wi e) := mkQueue d v i c p cl w s l m ls r wi e.
Definition set_inflightBytes v '(mkQueue d b _ c p cl w s l m ls r wi e) := mkQueue d b v c p cl w s l m ls r wi e.
Definition set_control v '(mkQueue d b i _ p cl w s l m ls r wi e) := mkQueue d b i v p cl w s l m ls r wi e.
Definition set_pumping v '(mkQueue d b i c _ cl w s l m ls r wi e) := mkQueue d b i c v cl w s l m ls r wi e.
Definition set_closed v '(mkQueue d b i c p _ w s l m ls r wi e) := mkQueue d b i c p v w s l m ls r wi e.
Definition set_waitingForDrain v '(mkQueue d b i c p cl _ s l m ls r wi e) := mkQueue d b i c p cl v s l m ls r wi e.
Definition set_slowTimer v '(mkQueue d b i c p cl w _ l m ls r wi e) := mkQueue d b i c p cl w v l m ls r wi e.
Definition set_lastWrittenCursor v '(mkQueue d b i c p cl w s _ m ls r wi e) := mkQueue d b i c p cl w s v m ls r wi e.
Definition set_microtasks v '(mkQueue d b i c p cl w s l _ ls r wi e) := mkQueue d b i c p cl w s l v ls r wi e.
Definition set_listeners v '(mkQueue d b i c p cl w s l m _ r wi e) := mkQueue d b i c p cl w s l m v r wi e.
Definition set_resumed v '(mkQueue d b i c p cl w s l m ls _ wi e) := mkQueue d b i c p cl w s l m ls v wi e.
Definition set_wire v '(mkQueue d b i c p cl w s l m ls r _ e) := mkQueue d b i c p cl w s l m ls r v e.
Definition set_ended v '(mkQueue d b i c p cl w s l m ls r wi _) := mkQueue d b i c p cl w s l m ls r wi v.

Definition new_queue : SseWriteQueue :=
  mkQueue [] 0 0 None false false false false None 0 [] [] [] false.

(** The truthiness of [this.control]: a pending empty string is falsy. *)
Definition control_truthy (q : SseWriteQueue) : bool :=
  match control q with Some (_ :: _) => true | _ => false end.

Definition pendingFrames (q : SseWriteQueue) : Z :=
  Z.of_nat (length (data q)) + (if control_truthy q then 1 else 0).

Definition pendingBytes (q : SseWriteQueue) : Z :=
  dataBytes q + inflightBytes q +
  match control q with
  | Some s => if control_truthy q then byteLength s else 0
  | None => 0
  end.

Definition writtenCursor (q : SseWriteQueue) : option Z := lastWrittenCursor q.

Definition schedulePump (q : SseWriteQueue) : SseWriteQueue :=
  if waitingForDrain q || closed q then q
  else set_microtasks (S (microtasks q)) q.

(** [emit('space')] and [emit('closed')]: every subscribed promise
    unsubscribes itself and resolves. *)
Definition emit_wake (q : SseWriteQueue) : SseWriteQueue :=
  set_listeners [] (set_resumed (resumed q ++ listeners q) q).

Definition clearSlowTimer (q : SseWriteQueue) : SseWriteQueue := set_slowTimer false q.

Definition close (q : SseWriteQueue) : SseWriteQueue :=
  if closed q then q
  else emit_wake (emit_wake (clearSlowTimer (set_closed true q))).

Definition armSlowTimer (q : SseWriteQueue) : SseWriteQueue :=
  if slowTimer q || closed q then q else set_slowTimer true q.

(** The timer's callback. *)
Definition slow_fired (q : SseWriteQueue) : SseWriteQueue :=
  set_ended true (close (set_slowTimer false q)).

Section queue.
Context (opts : SseWriteQueueOptions) (write : nat → wres).

Definition too_large (size : Z) : bool :=
  (maxFrameBytes opts <? size) || (maxBytes opts <? size).

Definition enqueueData (f : jstr) (c : option Z) (q : SseWriteQueue) :
  EnqueueResult * SseWriteQueue :=
  if closed q then (closed_, q)
  else
    let size := byteLength f in
    if too_large size then (oversized, q)
    else if (maxFrames opts <=? Z.of_nat (length (data q)))
            || (maxBytes opts <? dataBytes q + inflightBytes q + size) then (full, q)
    else
      let q := set_data (data q ++ [mkItem f c]) q in
      let q := set_dataBytes (dataBytes q + size) q in
      (ok, schedulePump q).

Definition enqueueControl (f : jstr) (q : SseWriteQueue) : EnqueueResult * SseWriteQueue :=
  if closed q then (closed_, q) else (ok, schedulePump (set_control (Some f) q)).

(** One turn of the [for (;;)] of [waitForSpace]: [None] when the call goes
    on waiting (it subscribed). *)
Definition has_capacity (size : Z) (q : SseWriteQueue) : bool :=
  (Z.of_nat (length (data q)) <? maxFrames opts)
  && (dataBytes q + inflightBytes q + size <=? maxBytes opts).

Definition wait_turn (w : waiter) (q : SseWriteQueue) : option EnqueueResult * SseWriteQueue :=
  if closed q then (Some closed_, q)
  else if has_capacity (w_size w) q then (Some ok, q)
  else (None, set_listeners (listeners q ++ [w]) q).

Definition waitForSpace (w : waiter) (q : SseWriteQueue) : option EnqueueResult * SseWriteQueue :=
  if too_large (w_size w) then (Some closed_, q) else wait_turn w q.

Definition safeWrite (c : chunk) (q : SseWriteQueue) : wres * SseWriteQueue :=
  let r := write (length (wire q)) in (r, set_wire (wire q ++ [(c, r)]) q).

(** [item.cursor > this.lastWrittenCursor], when there is a cursor. *)
Definition next_cursor (c l : option Z) : option Z :=
  match c, l with
  | Some v, None => Some v
  | Some v, Some m => if m <? v then Some v else l
  | None, _ => l
  end.

Definition bump_cursor (c : option Z) (q : SseWriteQueue) : SseWriteQueue :=
  set_lastWrittenCursor (next_cursor c (lastWrittenCursor q)) q.

Definition backpressure (size : Z) (q : SseWriteQueue) : SseWriteQueue :=
  armSlowTimer (set_waitingForDrain true (set_inflightBytes (inflightBytes q + size) q)).

(** The body of [while (!this.closed && !this.waitingForDrain)]; the flag is
    false for a [break]. *)
Definition pump_body (q : SseWriteQueue) : bool * SseWriteQueue :=
  match control q with
  | Some next =>
      let q := set_control None q in
      match safeWrite (ControlChunk next) q with
      | (WError, q) => (false, close q)
      | (WFalse, q) => (false, backpressure (byteLength next) q)
      | (WTrue, q) => (true, q)
      end
  | None =>
      match data q with
      | [] => (false, q)
      | item :: rest =>
          let q := set_data rest q in
          let q := set_dataBytes (dataBytes q - byteLength (frame item)) q in
          match safeWrite (DataChunk item) q with
          | (WError, q) => (false, close q)
          | (WFalse, q) => (false, backpressure (byteLength (frame item)) (bump_cursor (cursor item) q))
          | (WTrue, q) => (true, emit_wake (bump_cursor (cursor item) q))
          end
      end
  end.

(** The [while] loop; [None] when [fuel] turns were not enough. *)
Fixpoint pump_while (fuel : nat) (q : SseWriteQueue) : option SseWriteQueue :=
  match fuel with
  | O => None
  | S f =>
      if closed q || waitingForDrain q then Some q
      else match pump_body q with
           | (false, q') => Some q'
           | (true, q') => pump_while f q'
           end
  end.

(** [pump], with the call it makes of itself in the [finally]. *)
Fixpoint pump_fuel (fuel : nat) (q : SseWriteQueue) : option SseWriteQueue :=
  match fuel with
  | O => None
  | S f =>
      if pumping q || closed q || waitingForDrain q then Some q
      else match pump_while f (set_pumping true q) with
           | None => None
           | Some q' =>
               let q' := set_pumping false q' in
               if negb (waitingForDrain q') && negb (closed q')
                  && (control_truthy q' || negb (bool_decide (data q' = [])))
               then pump_fuel f q' else Some q'
           end
  end.

(** Turns that suffice: one per frame, one for the control lane, one to leave
    the loop and one for the call. *)
Definition pump_bound (q : SseWriteQueue) : nat := length (data q) + 4.

Definition pump (q : SseWriteQueue) : SseWriteQueue :=
  default q (pump_fuel (pump_bound q) q).

(** The 'drain' handler of the constructor. *)
Definition on_drain (q : SseWriteQueue) : SseWriteQueue :=
  pump (emit_wake (clearSlowTimer (set_inflightBytes 0 (set_waitingForDrain false q)))).

(** *** The event loop *)

Inductive event :=
| EvEnqueueData (f : jstr) (c : option Z)
| EvEnqueueControl (f : jstr)
| EvWaitForSpace (w : waiter)
| EvMicrotask                 (** a queued pump runs *)
| EvResume                    (** the first resolved waiter goes on *)
| EvAbort (id : nat)          (** the waiter's signal aborts *)
| EvDrain
| EvSlowTimer
| EvClose.                    (** 'close' or 'error' of the response, or a caller *)

(** An event that cannot happen (no microtask queued, no timer armed) leaves
    the queue as it is. *)
Definition step (ev : event) (q : SseWriteQueue) : SseWriteQueue :=
  match ev with
  | EvEnqueueData f c => snd (enqueueData f c q)
  | EvEnqueueControl f => snd (enqueueControl f q)
  | EvWaitForSpace w => snd (waitForSpace w q)
  | EvMicrotask =>
      match microtasks q with
      | O => q
      | S n => pump (set_microtasks n q)
      end
  | EvResume =>
      match resumed q with
      | [] => q
      | w :: ws => snd (wait_turn w (set_resumed ws q))
      end
  | EvAbort id => set_listeners (filter (λ w, w_id w ≠ id) (listeners q)) q
  | EvDrain => on_drain q
  | EvSlowTimer => if slowTimer q then slow_fired q else q
  | EvClose => close q
  end.

Definition run (evs : list event) (q : SseWriteQueue) : SseWriteQueue :=
  fold_left (λ q ev, step ev q) evs q.

(** The data frames the queue answered 'ok' to, in order. *)
Definition accepted_by (ev : event) (q : SseWriteQueue) : list DataItem :=
  match ev with
  | EvEnqueueData f c =>
      match fst (enqueueData f c q) with ok => [mkItem f c] | _ => [] end
  | _ => []
  end.

Fixpoint accepted (evs : list event) (q : SseWriteQueue) : list DataItem :=
  match evs with
  | [] => []
  | ev :: evs' => accepted_by ev q ++ accepted evs' (step ev q)
  end.

(** *** The invariant *)

Definition chunk_bytes (c : chunk) : Z :=
  match c with DataChunk i => byteLength (frame i) | ControlChunk s => byteLength s end.

(** The data items of a socket log: those handed to [res.write], and those it
    did not throw on. *)
Definition attempted (l : list (chunk * wres)) : list DataItem :=
  omap (λ '(c, _), match c with DataChunk i => Some i | _ => None end) l.
Definition delivered (l : list (chunk * wres)) : list DataItem :=
  omap (λ '(c, r), match c, r with DataChunk i, (WTrue | WFalse) => Some i | _, _ => None end) l.

Definition bytes_of (l : list DataItem) : Z :=
  foldr (λ i s, byteLength (frame i) + s) 0 l.

(** [l] is the largest cursor of [items], if any has one. *)
Definition is_max_cursor (l : option Z) (items : list DataItem) : Prop :=
  (∀ i c, i ∈ items → cursor i = Some c → ∃ m, l = Some m ∧ c ≤ m) ∧
  (∀ m, l = Some m → ∃ i, i ∈ items ∧ cursor i = Some m).

Definition has_work (q : SseWriteQueue) : Prop := data q ≠ [] ∨ control q ≠ None.

(** What holds between any two statements of [pump]. *)
Record core_inv (q : SseWriteQueue) : Prop := {
  ci_bytes : dataBytes q = bytes_of (data q);
  ci_frames : Z.of_nat (length (data q)) ≤ maxFrames opts;
  ci_cap : dataBytes q ≤ maxBytes opts;
  ci_idle : waitingForDrain q = false → inflightBytes q = 0;
  ci_inflight : waitingForDrain q = true →
    ∃ c, last (wire q) = Some (c, WFalse) ∧ inflightBytes q = chunk_bytes c ∧
         (∀ i, c = DataChunk i → dataBytes q + inflightBytes q ≤ maxBytes opts);
  ci_slow : closed q = false → waitingForDrain q = slowTimer q;
  ci_timer : closed q = true → slowTimer q = false;
  ci_sizes : Forall (λ w, too_large (w_size w) = false) (listeners q ++ resumed q);
  ci_listen : listeners q ≠ [] → closed q = false ∧
    (waitingForDrain q = true ∨ Forall (λ w, has_capacity (w_size w) q = false) (listeners q));
  ci_cursor : is_max_cursor (lastWrittenCursor q) (delivered (wire q));
  ci_errors : closed q = false → delivered (wire q) = attempted (wire q)
}.

(** What holds between two events. *)
Definition queue_inv (q : SseWriteQueue) : Prop :=
  core_inv q ∧ pumping q = false ∧
  (closed q = false → waitingForDrain q = false → has_work q → (0 < microtasks q)%nat).

Lemma bytes_of_app l k : bytes_of (l ++ k) = bytes_of l + bytes_of k.
Proof. induction l as [|i l IH]; simpl; lia. Qed.

Lemma bytes_of_nonneg l : 0 ≤ bytes_of l.
Proof. induction l as [|i l IH]; simpl; [lia|]. pose proof (byteLength_nonneg (frame i)). lia. Qed.

Lemma attempted_app l k : attempted (l ++ k) = attempted l ++ attempted k.
Proof. apply omap_app. Qed.
Lemma delivered_app l k : delivered (l ++ k) = delivered l ++ delivered k.
Proof. apply omap_app. Qed.

Lemma is_max_cursor_snoc l items i :
  is_max_cursor l items →
  is_max_cursor (next_cursor (cursor i) l) (items ++ [i]).
Proof.
  intros [H1 H2]. unfold next_cursor.
  assert (Hin : i ∈ items ++ [i]) by (apply elem_of_app; right; by apply list_elem_of_singleton).
  assert (Hl : ∀ j, j ∈ items → j ∈ items ++ [i]) by (intros; apply elem_of_app; by left).
  destruct (cursor i) as [v|] eqn:Hv; [|split; [|naive_solver]].
  - destruct l as [m|]; [destruct (m <? v) eqn:E; bool_to_prop|]; simpl; split.
    + intros j c [Hj| ->%list_elem_of_singleton]%elem_of_app Hc.
      * destruct (H1 j c Hj Hc) as (? & [= <-] & ?). eexists. split; [done|lia].
      * eexists. split; [done|]. simplify_eq. lia.
    + intros ? [= <-]. eauto.
    + intros j c [Hj| ->%list_elem_of_singleton]%elem_of_app Hc; [eauto|].
      eexists. split; [done|]. simplify_eq. lia.
    + naive_solver.
    + intros j c [Hj| ->%list_elem_of_singleton]%elem_of_app Hc.
      * by destruct (H1 j c Hj Hc) as (? & ? & ?).
      * eexists. split; [done|]. simplify_eq. lia.
    + intros ? [= <-]. eauto.
  - intros j c [Hj| ->%list_elem_of_singleton]%elem_of_app Hc; [eauto|congruence].
Qed.

(** [close] ends in a closed queue that keeps everything else. *)
Lemma close_inv q : core_inv q → core_inv (close q).
Proof.
  destruct q as [d b i c p [] w s l m ls r wi e]; intros []; [by split|].
  unfold close; simpl in *. split; simpl; try done.
  by rewrite app_nil_r, Permutation_app_comm.
Qed.

Lemma pump_body_inv q :
  core_inv q → closed q = false → waitingForDrain q = false → core_inv (snd (pump_body q)).
Proof.
  intros HI Hc Hw. pose proof HI as [].
  destruct q as [d b i co p cl w s l m ls rs wi e]; simpl in *. subst.
  specialize (ci_idle0 eq_refl). specialize (ci_slow0 eq_refl). specialize (ci_errors0 eq_refl). subst.
  unfold pump_body, safeWrite; simpl. destruct co as [next|]; simpl.
  - destruct (write (length wi)); simpl.
    + split; simpl; rewrite ?delivered_app, ?attempted_app, ?app_nil_r; simpl; rewrite ?app_nil_r; auto; done.
    + unfold backpressure, armSlowTimer; simpl.
      split; simpl; rewrite ?delivered_app, ?attempted_app, ?last_snoc; simpl; rewrite ?app_nil_r; auto; try done.
      intros _. eexists. split_and!; [done|done|]. by intros ? [=].
    + unfold close; simpl. split; simpl; try done; rewrite ?app_nil_r, ?delivered_app; simpl; rewrite ?app_nil_r; auto.
      by rewrite Permutation_app_comm.
  - destruct d as [|it d]; simpl; [done|]. simpl in *.
    pose proof (bytes_of_nonneg d). pose proof (byteLength_nonneg (frame it)).
    pose proof (is_max_cursor_snoc _ _ it ci_cursor0) as HM.
    destruct (write (length wi)); simpl in *.
    + split; simpl; rewrite ?delivered_app, ?attempted_app, ?app_nil_r; simpl; try done; try lia.
      * by rewrite Permutation_app_comm.
      * by rewrite ci_errors0.
    + unfold backpressure, armSlowTimer; simpl.
      split; simpl; rewrite ?delivered_app, ?attempted_app, ?last_snoc; simpl; auto; try done; try lia.
      * intros _. eexists. split_and!; [done|done|]. intros ? [=]. lia.
      * by rewrite ci_errors0.
    + unfold close; simpl. split; simpl; try done; rewrite ?app_nil_r, ?delivered_app; simpl; rewrite ?app_nil_r; auto; try lia.
      by rewrite Permutation_app_comm.
Qed.

(** Turns left: frames pending, and the control frame. *)
Definition work (q : SseWriteQueue) : nat :=
  length (data q) + match control q with Some _ => 1 | None => 0 end.

Lemma pump_body_continue q q' : pump_body q = (true, q') → (work q' < work q)%nat.
Proof.
  destruct q as [d b i co p cl w s l m ls rs wi e]; unfold pump_body, safeWrite, work; simpl.
  destruct co; simpl; [|destruct d; simpl; [done|]]; destruct (write _); simpl; intros [= <-]; simpl; lia.
Qed.

Lemma pump_body_break q q' :
  pump_body q = (false, q') →
  closed q' = true ∨ waitingForDrain q' = true ∨ ¬ has_work q'.
Proof.
  destruct q as [d b i co p cl w s l m ls rs wi e]; unfold pump_body, safeWrite, has_work; simpl.
  destruct co; simpl; [|destruct d; simpl; [by intros [= <-]; naive_solver|]];
    destruct (write _); simpl; intros [= <-];
    unfold backpressure, armSlowTimer, close; simpl; auto;
    destruct (_ || _) eqn:E || destruct cl eqn:E; simpl; auto.
Qed.

Lemma pump_body_frame q : pumping (snd (pump_body q)) = pumping q ∧
  microtasks (snd (pump_body q)) = microtasks q ∧
  attempted (wire (snd (pump_body q))) ++ data (snd (pump_body q)) = attempted (wire q) ++ data q.
Proof.
  destruct q as [d b i co p cl w s l m ls rs wi e]; unfold pump_body, safeWrite; simpl.
  destruct co; simpl; [|destruct d; simpl; [done|]]; destruct (write _); simpl;
    unfold backpressure, armSlowTimer, close; simpl;
    repeat (case_match; simpl); rewrite attempted_app; simpl; rewrite <- app_assoc; simpl; done.
Qed.

(** The loop ends within one turn per pending frame and one more, in a queue
    that waits for the socket, is closed or has nothing left. *)
Lemma pump_while_spec f q :
  core_inv q → (work q < f)%nat →
  ∃ q', pump_while f q = Some q' ∧ core_inv q' ∧
    pumping q' = pumping q ∧ microtasks q' = microtasks q ∧
    attempted (wire q') ++ data q' = attempted (wire q) ++ data q ∧
    (closed q' = true ∨ waitingForDrain q' = true ∨ ¬ has_work q').
Proof.
  revert q. induction f as [|f IH]; intros q HI Hf; [lia|]. simpl.
  destruct (closed q) eqn:Hc; [by exists q; auto 10|].
  destruct (waitingForDrain q) eqn:Hw; [by exists q; auto 10|]. simpl.
  pose proof (pump_body_inv q HI Hc Hw) as HI'.
  pose proof (pump_body_frame q) as (Hp & Hm & Ha).
  destruct (pump_body q) as [[] q'] eqn:E; simpl in *.
  - pose proof (pump_body_continue _ _ E).
    destruct (IH q' HI' ltac:(lia)) as (q2 & H2 & ? & ? & ? & ? & ?).
    exists q2. rewrite H2. split_and!; try done; congruence.
  - exists q'. split_and!; try done. by apply (pump_body_break q).
Qed.

Lemma pump_while_mono f f' q q' :
  pump_while f q = Some q' → (f ≤ f')%nat → pump_while f' q = Some q'.
Proof.
  revert f' q. induction f as [|f IH]; intros [|f'] q H Hf; try done; [lia|]. simpl in *.
  destruct (_ || _); [done|]. destruct (pump_body q) as [[] ?]; [|done]. apply IH; [done|lia].
Qed.

Lemma core_inv_pumping b q : core_inv (set_pumping b q) ↔ core_inv q.
Proof. destruct q; split; intros []; by split. Qed.

Lemma no_work_again q :
  closed q = true ∨ waitingForDrain q = true ∨ ¬ has_work q →
  negb (waitingForDrain q) && negb (closed q)
    && (control_truthy q || negb (bool_decide (data q = []))) = false.
Proof.
  unfold has_work, control_truthy. intros [H|[H|H]].
  - by rewrite H, andb_false_r.
  - by rewrite H.
  - assert (data q = [] ∧ control q = None) as [-> ->]; [|by rewrite !andb_false_r].
    split; [destruct (data q)|destruct (control q)]; naive_solver.
Qed.

(** [pump] returns; the call in its [finally] is never made. *)
Lemma pump_spec q :
  core_inv q → pumping q = false →
  (∀ f, (pump_bound q ≤ f)%nat → pump_fuel f q = Some (pump q)) ∧
  queue_inv (pump q) ∧
  attempted (wire (pump q)) ++ data (pump q) = attempted (wire q) ++ data q ∧
  (closed (pump q) = true ∨ waitingForDrain (pump q) = true ∨ ¬ has_work (pump q)).
Proof.
  intros HI Hp.
  assert (∃ q', (∀ f, (pump_bound q ≤ f)%nat → pump_fuel f q = Some q') ∧
    core_inv q' ∧ pumping q' = false ∧
    attempted (wire q') ++ data q' = attempted (wire q) ++ data q ∧
    (closed q' = true ∨ waitingForDrain q' = true ∨ ¬ has_work q')) as (q' & Hf & HI' & Hp' & Ha & Hx).
  { destruct (closed q || waitingForDrain q) eqn:Hcw.
    { exists q. split_and!; try done; [|apply orb_true_iff in Hcw; naive_solver].
      intros [|f] ?; unfold pump_bound in *; [lia|]. cbn [pump_fuel]. rewrite Hp. cbn [orb]. by rewrite Hcw. }
    assert (Hwork : (work (set_pumping true q) < pump_bound q - 1)%nat)
      by (unfold work, pump_bound; destruct q as [?? ? []]; simpl; lia).
    destruct (pump_while_spec _ _ (proj2 (core_inv_pumping true q) HI) Hwork)
      as (q' & Hq & HI' & _ & _ & Ha & Hx).
    exists (set_pumping false q').
    assert (∀ b, closed (set_pumping b q') = closed q' ∧ waitingForDrain (set_pumping b q') = waitingForDrain q'
              ∧ has_work (set_pumping b q') = has_work q' ∧ wire (set_pumping b q') = wire q'
              ∧ data (set_pumping b q') = data q' ∧ pumping (set_pumping b q') = b) as Hset by (by destruct q').
    destruct (Hset false) as (E1 & E2 & E3 & E4 & E5 & E6).
    rewrite E1, E2, E3, E4, E5, E6, core_inv_pumping. split_and!; try done; [|by destruct q].
    intros [|f] Hf; [unfold pump_bound in *; lia|]. cbn [pump_fuel].
    rewrite Hp. cbn [orb]. rewrite Hcw. rewrite (pump_while_mono _ f _ _ Hq) by lia.
    cbv zeta. rewrite no_work_again; [done|]. by rewrite E1, E2, E3. }
  assert (pump q = q') as -> by (unfold pump; by rewrite Hf).
  split_and!; [done| |done|done]. split_and!; [done|done|].
  intros Hc Hw Hk. destruct Hx as [?|[?|?]]; congruence || done.
Qed.

(** *** Every event preserves the invariant *)

Definition in_order (q : SseWriteQueue) : list DataItem := attempted (wire q) ++ data q.

Lemma chunk_bytes_nonneg c : 0 ≤ chunk_bytes c.
Proof. destruct c; apply byteLength_nonneg. Qed.

Lemma enqueueData_inv f c q :
  queue_inv q →
  queue_inv (snd (enqueueData f c q)) ∧
  in_order (snd (enqueueData f c q)) = in_order q ++ accepted_by (EvEnqueueData f c) q.
Proof.
  intros HQ. pose proof HQ as (HI & Hp & Hl). unfold in_order, accepted_by, enqueueData.
  destruct (closed q) eqn:Hc; simpl; [by rewrite app_nil_r|].
  destruct (too_large _); simpl; [by rewrite app_nil_r|].
  destruct (_ || _) eqn:Hfull; simpl; [by rewrite app_nil_r|]. bool_to_prop.
  pose proof (byteLength_nonneg f). destruct HI.
  destruct q as [d b i co p cl w s l m ls rs wi e]; simpl in *; subst.
  assert (Hcap : ∀ sz, has_capacity sz (mkQueue d (bytes_of d) i co false false w s l m ls rs wi e) = false →
    (Z.of_nat (length (d ++ [mkItem f c])) <? maxFrames opts)
    && (bytes_of d + byteLength f + i + sz <=? maxBytes opts) = false).
  { intros sz. unfold has_capacity. simpl. rewrite length_app. simpl. lia. }
  assert (Hii : w = false → i = 0) by done.
  assert (Hci : core_inv (mkQueue (d ++ [mkItem f c]) (bytes_of d + byteLength f) i co false false w s l
                            m ls rs wi e)).
  { split; simpl; try done.
    - rewrite bytes_of_app. simpl. lia.
    - rewrite length_app. simpl. lia.
    - destruct w; [|specialize (Hii eq_refl); lia].
      destruct (ci_inflight0 eq_refl) as (ch & _ & -> & _). pose proof (chunk_bytes_nonneg ch). lia.
    - intros Hw. destruct (ci_inflight0 Hw) as (ch & ? & ? & ?). exists ch. split_and!; [done|done|].
      intros ? ->. lia.
    - intros Hne. destruct (ci_listen0 Hne) as [_ [->|HF]]; [by auto|]. split; [done|]. right.
      eapply Forall_impl; [exact HF|]. intros wt. apply Hcap. }
  unfold schedulePump; simpl. rewrite orb_false_r. destruct w; simpl.
  - split; [|by rewrite app_assoc]. by split_and!.
  - split; [|by rewrite app_assoc]. split_and!; simpl; [by destruct Hci|done|lia].
Qed.

Lemma enqueueControl_inv f q :
  queue_inv q → queue_inv (snd (enqueueControl f q)) ∧ in_order (snd (enqueueControl f q)) = in_order q.
Proof.
  intros HQ. pose proof HQ as (HI & Hp & Hl). unfold enqueueControl, in_order.
  destruct (closed q) eqn:Hc; simpl; [done|].
  destruct q as [d b i co p cl w s l m ls rs wi e]; simpl in *; subst.
  unfold schedulePump; simpl. rewrite orb_false_r. destruct HI, w; simpl in *; (split; [|done]);
    (split_and!; [by split|done|simpl; (done || lia)]).
Qed.

Lemma wait_turn_inv w q :
  too_large (w_size w) = false → queue_inv q →
  queue_inv (snd (wait_turn w q)) ∧ in_order (snd (wait_turn w q)) = in_order q.
Proof.
  intros Hs HQ. pose proof HQ as (HI & Hp & Hl). unfold wait_turn.
  destruct (closed q) eqn:Hc; [done|]. destruct (has_capacity _ _) eqn:Hcap; [done|].
  destruct q as [d b i co p cl wt s l m ls rs wi e]; simpl in *; subst. split; [|done].
  split_and!; simpl; [|done|done]. destruct HI; split; simpl in *; try done.
  - rewrite <- app_assoc, (Permutation_app_comm [w] rs), app_assoc. rewrite Forall_app. split; [done|].
    by constructor.
  - intros _. split; [done|]. destruct ls as [|w' ls]; [right; by constructor|].
    destruct ci_listen0 as [_ [?|HF]]; [done|by left|]. right. apply Forall_app. split; [done|].
    by constructor.
Qed.

Lemma close_queue_inv q :
  queue_inv q → queue_inv (close q) ∧ in_order (close q) = in_order q ∧ closed (close q) = true.
Proof.
  intros (HI%close_inv & Hp & Hl).
  destruct q as [d b i co p [] w s l m ls rs wi e]; unfold close in *; simpl in *; by split_and!.
Qed.

Lemma slow_fired_inv q :
  queue_inv q → slowTimer q = true →
  queue_inv (slow_fired q) ∧ in_order (slow_fired q) = in_order q ∧ closed (slow_fired q) = true.
Proof.
  intros (HI & Hp & Hl) Hs. destruct HI.
  destruct q as [d b i co p [] w s l m ls rs wi e]; simpl in *; subst.
  { by specialize (ci_timer0 eq_refl). }
  unfold slow_fired, close; simpl. split; [|done]. split_and!; [|done|done]. split; simpl; try done.
  by rewrite app_nil_r, Permutation_app_comm.
Qed.

Lemma on_drain_inv q :
  queue_inv q → queue_inv (on_drain q) ∧ in_order (on_drain q) = in_order q.
Proof.
  intros (HI & Hp & _). unfold on_drain, in_order.
  destruct (pump_spec (emit_wake (clearSlowTimer (set_inflightBytes 0 (set_waitingForDrain false q)))))
    as (_ & HQ & Ha & _); [|by destruct q|split; [done|by destruct q]].
  destruct HI. destruct q as [d b i co p cl w s l m ls rs wi e]; simpl in *. split; simpl; try done.
  by rewrite Permutation_app_comm.
Qed.

Lemma microtask_inv n q :
  queue_inv q → let q' := pump (set_microtasks n q) in
  queue_inv q' ∧ in_order q' = in_order q.
Proof.
  intros (HI & Hp & _) q'. destruct (pump_spec (set_microtasks n q)) as (_ & HQ & Ha & _).
  - destruct q, HI; by split.
  - by destruct q.
  - split; [done|]. unfold in_order, q'. rewrite Ha. by destruct q.
Qed.

Lemma step_inv ev q :
  queue_inv q → queue_inv (step ev q) ∧ in_order (step ev q) = in_order q ++ accepted_by ev q.
Proof.
  intros HQ. destruct ev; simpl; rewrite ?app_nil_r.
  - by apply enqueueData_inv.
  - by apply enqueueControl_inv.
  - unfold waitForSpace. destruct (too_large _) eqn:E; [done|]. by apply wait_turn_inv.
  - destruct (microtasks q); [done|]. by apply microtask_inv.
  - destruct (resumed q) as [|w ws] eqn:E; [done|]. destruct HQ as (HI & Hp & Hl).
    assert (Hs := ci_sizes _ HI). rewrite E, Forall_app, Forall_cons in Hs. destruct Hs as (H1 & H2 & H3).
    destruct (wait_turn_inv w (set_resumed ws q)) as [? ?]; [done| |split; [done|by destruct q]].
    destruct q as [d b i co p cl wt s l m ls rs wi e], HI; simpl in *. split_and!; try done.
    split; simpl; try done. by rewrite Forall_app.
  - destruct HQ as (HI & Hp & Hl). destruct q as [d b i co p cl wt s l m ls rs wi e], HI; simpl in *.
    split; [|done]. split_and!; try done. rewrite Forall_app in ci_sizes0. destruct ci_sizes0.
    split; simpl; try done.
    + rewrite Forall_app. split; [by apply Forall_filter_keep|done].
    + intros Hne. destruct ci_listen0 as [? [?|?]]; [by intros ->|by auto|].
      split; [done|]. right. by apply Forall_filter_keep.
  - by apply on_drain_inv.
  - destruct (slowTimer q) eqn:E; [|done]. split; by apply slow_fired_inv.
  - split; by apply close_queue_inv.
Qed.

Lemma run_inv evs q :
  queue_inv q → queue_inv (run evs q) ∧ in_order (run evs q) = in_order q ++ accepted evs q.
Proof.
  revert q. induction evs as [|ev evs IH]; intros q HQ; simpl; [by rewrite app_nil_r|].
  destruct (step_inv ev q HQ) as [HQ' Ho]. destruct (IH _ HQ') as [? ->].
  by rewrite Ho, <- app_assoc.
Qed.

Lemma new_queue_inv : 0 ≤ maxFrames opts → 0 ≤ maxBytes opts → queue_inv new_queue.
Proof.
  intros H1 H2. split_and!; [|done|].
  - split; simpl; try done. split; [|done]. by intros i c Hi%elem_of_nil.
  - by intros _ _ [?|?].
Qed.

Lemma pump_body_wire q : wire q `prefix_of` wire (snd (pump_body q)).
Proof.
  destruct q as [d b i co p cl w s l m ls rs wi e].
  unfold pump_body, safeWrite, backpressure, armSlowTimer, close, emit_wake.
  repeat (case_match; simplify_eq; simpl in *); first [by apply prefix_app_r|by eexists|exists []; by rewrite app_nil_r].
Qed.

Lemma pump_while_wire f q q' : pump_while f q = Some q' → wire q `prefix_of` wire q'.
Proof.
  revert q. induction f as [|f IH]; intros q; simpl; [done|].
  destruct (_ || _); [by intros [= ->]|]. pose proof (pump_body_wire q).
  destruct (pump_body q) as [[] q1]; simpl in *; [|by intros [= ->]]. intros ?%IH. by etrans.
Qed.

Lemma pump_fuel_wire f q q' : pump_fuel f q = Some q' → wire q `prefix_of` wire q'.
Proof.
  revert q. induction f as [|f IH]; intros q; simpl; [done|].
  destruct (_ || _); [by intros [= ->]|].
  destruct (pump_while _ _) as [q1|] eqn:E; [|done]. apply pump_while_wire in E.
  replace (wire (set_pumping true q)) with (wire q) in E by (by destruct q).
  destruct q1; simpl in *. destruct (_ && _); [|by intros [= <-]]. intros ?%IH. by etrans.
Qed.

(** A pump that finds a control frame writes it first. *)
Lemma pump_fuel_first f s q q' :
  pump_fuel f q = Some q' → closed q = false → waitingForDrain q = false → pumping q = false →
  control q = Some s → ∃ r, (wire q ++ [(ControlChunk s, r)]) `prefix_of` wire q'.
Proof.
  destruct q as [d b i co p cl w sl l m ls rs wi e]; simpl. intros H -> -> -> ->.
  exists (write (length wi)). destruct f as [|f]; [done|]. simpl in H.
  destruct (pump_while _ _) as [q1|] eqn:E; [|done].
  assert (H1 : (wi ++ [(ControlChunk s, write (length wi))]) `prefix_of` wire (set_pumping false q1)).
  { destruct f as [|f]; [done|]. simpl in E. unfold pump_body, safeWrite in E. simpl in E.
    replace (wire (set_pumping false q1)) with (wire q1) by (by destruct q1).
    destruct (write (length wi)); simpl in E; [by apply pump_while_wire in E| |];
      injection E as <-; unfold backpressure, armSlowTimer, close; simpl; by destruct sl. }
  destruct (_ && _); [apply pump_fuel_wire in H; by etrans|]. by simplify_eq.
Qed.

(** *** Properties *)

(** C13. Memory per connection is bounded, whatever the client and the socket
    do: between any two events the byte counter is the size of the queued data
    frames, at most [maxFrames] frames are queued, and queued plus in-flight
    bytes stay within [maxBytes], the one exception being a control frame in
    flight, which is counted on top. *)
Theorem queue_memory_bounded evs :
  0 ≤ maxFrames opts → 0 ≤ maxBytes opts →
  let q := run evs new_queue in
  dataBytes q = bytes_of (data q) ∧ Z.of_nat (length (data q)) ≤ maxFrames opts ∧
  dataBytes q ≤ maxBytes opts ∧
  (dataBytes q + inflightBytes q ≤ maxBytes opts ∨
   ∃ s, last (wire q) = Some (ControlChunk s, WFalse) ∧ inflightBytes q = byteLength s).
Proof.
  intros H1 H2 q. destruct (run_inv evs new_queue (new_queue_inv H1 H2)) as [([] & _) _].
  fold q in ci_bytes0, ci_frames0, ci_cap0, ci_idle0, ci_inflight0. split_and!; try done.
  destruct (waitingForDrain q); [|left; rewrite ci_idle0 by done; lia].
  destruct ci_inflight0 as ([i|s] & Hl & Hi & Hb); [done|left; eauto|right; eauto].
Qed.

(** C14. First in, first out, nothing lost or duplicated: the data frames
    handed to the socket followed by those still queued are exactly the frames
    [enqueueData] accepted, in that order; and while the connection is open no
    write has failed, so all of the former were delivered. *)
Theorem queue_fifo evs :
  0 ≤ maxFrames opts → 0 ≤ maxBytes opts →
  let q := run evs new_queue in
  attempted (wire q) ++ data q = accepted evs new_queue ∧
  (closed q = false → delivered (wire q) = attempted (wire q)).
Proof.
  intros H1 H2 q. destruct (run_inv evs new_queue (new_queue_inv H1 H2)) as [([] & _) Ho].
  split; [exact Ho|done].
Qed.

(** The cursor that is persisted for an edge is the largest cursor among
    the frames the socket took: never that of a frame still queued. *)
Theorem written_cursor_is_delivered evs :
  0 ≤ maxFrames opts → 0 ≤ maxBytes opts →
  let q := run evs new_queue in is_max_cursor (writtenCursor q) (delivered (wire q)).
Proof.
  intros H1 H2. by destruct (run_inv evs new_queue (new_queue_inv H1 H2)) as [([] & _) _].
Qed.

(** The queue never stalls. In an open connection that is not waiting for
    the socket, pending frames always have a pump scheduled; one that waits has
    the slow-client timer armed, so it drains or is cut. A [waitForSpace] call
    that still listens is covered by one of the two: its wake-up is on the
    way. *)
Theorem queue_never_stalls evs :
  0 < maxFrames opts → 0 ≤ maxBytes opts →
  let q := run evs new_queue in
  closed q = false →
  (waitingForDrain q = true → slowTimer q = true) ∧
  (waitingForDrain q = false → has_work q ∨ listeners q ≠ [] → (0 < microtasks q)%nat).
Proof.
  intros H1 H2 q Hc.
  destruct (run_inv evs new_queue (new_queue_inv ltac:(lia) H2)) as [(HI & Hp & Hl) _].
  fold q in HI, Hp, Hl. split; [intros Hw; by rewrite <- (ci_slow _ HI)|].
  intros Hw [Hk|Hk]; [by apply Hl|]. apply Hl; [done|done|].
  destruct (ci_listen _ HI Hk) as [_ [?|HF]]; [congruence|].
  destruct (listeners q) as [|w ls] eqn:E; [done|]. apply Forall_cons in HF as [HF _].
  pose proof (ci_sizes _ HI) as Hs. rewrite E in Hs. simpl in Hs. apply Forall_cons in Hs as [Hs _].
  unfold too_large in Hs. apply orb_false_iff in Hs as [_ Hs].
  left. intros Hd. unfold has_capacity in HF. pose proof (ci_bytes _ HI) as Hb. rewrite Hd in HF, Hb.
  rewrite Hb, (ci_idle _ HI Hw) in HF. change (bytes_of []) with 0 in HF.
  change (Z.of_nat (length [])) with 0 in HF. lia.
Qed.

(** [pump] returns for every state the queue can be in: a turn per queued
    frame and a constant suffice, any larger bound gives the same result, and
    it stops only when the queue is closed, waits for the socket or is empty
    (so the call in its [finally] block is never made). *)
Theorem pump_terminates evs f :
  0 ≤ maxFrames opts → 0 ≤ maxBytes opts →
  let q := run evs new_queue in
  (pump_bound q ≤ f)%nat →
  pump_fuel f q = Some (pump q) ∧
  (closed (pump q) = true ∨ waitingForDrain (pump q) = true ∨ ¬ has_work (pump q)).
Proof.
  intros H1 H2 q Hf.
  destruct (run_inv evs new_queue (new_queue_inv H1 H2)) as [(HI & Hp & Hl) _].
  destruct (pump_spec q HI Hp) as (Hpump & _ & _ & Hx). auto.
Qed.

(** The control lane is never refused by the data caps and overtakes the
    data: on an open queue [enqueueControl] answers 'ok', and unless the socket
    is applying backpressure the next pump writes that frame before any queued
    data frame. *)
Theorem control_overtakes_data evs f :
  0 ≤ maxFrames opts → 0 ≤ maxBytes opts →
  let q := run evs new_queue in
  closed q = false → waitingForDrain q = false →
  fst (enqueueControl f q) = ok ∧
  ∃ r l, wire (pump (snd (enqueueControl f q))) = wire q ++ (ControlChunk f, r) :: l.
Proof.
  intros H1 H2 q Hc Hw.
  destruct (run_inv evs new_queue (new_queue_inv H1 H2)) as [HQ _]. fold q in HQ.
  destruct (enqueueControl_inv f q HQ) as [(HI & Hp & _) _].
  destruct (pump_spec _ HI Hp) as (Hpump & _). specialize (Hpump _ (Nat.le_refl _)).
  unfold enqueueControl in *. rewrite Hc in *. split; [done|]. simpl fst in *. simpl snd in *.
  unfold schedulePump in *. clearbody q.
  destruct q as [d b i co p cl w s l m ls rs wi e]. simpl in *. subst.
  destruct (pump_fuel_first _ f _ _ Hpump) as (r & Hpre); try done.
  exists r. destruct Hpre as [k Hk]. exists k. by rewrite Hk, <- app_assoc.
Qed.
End queue.

(** ** Wire format *)

(** [formatSseEvent]; an [event] of [''] is falsy and is left out. *)
Definition formatSseEvent (event : option jstr) (id : option jstr) (data : jstr) : jstr :=
  let out := match id with Some i => js "id: " ++ i ++ [10] | None => [] end in
  let out := match event with
             | Some (c :: e) => out ++ js "event: " ++ (c :: e) ++ [10]
             | _ => out
             end in
  out ++ js "data: " ++ data ++ [10; 10].

Definition formatSseComment (text : jstr) : jstr := js ": " ++ text ++ [10; 10].

(** ** Witnesses: a queue of two frames and ten bytes, whose socket takes the
    first write, refuses the second and takes the rest. *)

Definition small_opts : SseWriteQueueOptions := mkOptions 2 10 8.
Definition flaky (n : nat) : wres := match n with 1%nat => WFalse | _ => WTrue end.
Definition small_run : list event :=
  [EvEnqueueData (js "abcd") (Some 1); EvEnqueueData (js "efgh") (Some 2); EvEnqueueData (js "ij") (Some 3);
   EvMicrotask; EvEnqueueData (js "kl") (Some 4); EvMicrotask].

Lemma queue_memory_bounded_witness :
  let q := run small_opts flaky small_run new_queue in
  dataBytes q = 2 ∧ inflightBytes q = 4 ∧ dataBytes q ≤ maxBytes small_opts ∧
  dataBytes q = bytes_of (data q).
Proof.
  intros q.
  destruct (queue_memory_bounded small_opts flaky small_run ltac:(simpl; lia) ltac:(simpl; lia))
    as (H1 & _ & H2 & _).
  split; [reflexivity|]. split; [reflexivity|]. split; [exact H2|exact H1].
Defined.

Lemma queue_fifo_witness :
  let q := run small_opts flaky small_run new_queue in
  frame <$> attempted (wire q) ++ data q = [js "abcd"; js "efgh"; js "kl"].
Proof.
  intros q.
  destruct (queue_fifo small_opts flaky small_run ltac:(simpl; lia) ltac:(simpl; lia)) as [H _].
  unfold q. rewrite H. reflexivity.
Defined.

Lemma written_cursor_is_delivered_witness :
  let q := run small_opts flaky small_run new_queue in
  writtenCursor q = Some 2 ∧ is_max_cursor (writtenCursor q) (delivered (wire q)).
Proof.
  intros q. split; [reflexivity|].
  exact (written_cursor_is_delivered small_opts flaky small_run ltac:(simpl; lia) ltac:(simpl; lia)).
Defined.

Lemma queue_never_stalls_witness :
  let q := run small_opts flaky small_run new_queue in
  waitingForDrain q = true ∧ slowTimer q = true.
Proof.
  intros q.
  destruct (queue_never_stalls small_opts flaky small_run ltac:(simpl; lia) ltac:(simpl; lia) eq_refl) as [H _].
  split; [reflexivity|]. exact (H eq_refl).
Defined.

Lemma pump_terminates_witness :
  let q := run small_opts flaky (take 2 small_run) new_queue in
  pump_fuel flaky 6 q = Some (pump flaky q) ∧ waitingForDrain (pump flaky q) = true.
Proof.
  intros q.
  destruct (pump_terminates small_opts flaky (take 2 small_run) 6
              ltac:(simpl; lia) ltac:(simpl; lia) ltac:(vm_compute; lia)) as [H _].
  split; [exact H|reflexivity].
Defined.

Lemma control_overtakes_data_witness :
  let q := run small_opts flaky (take 2 small_run) new_queue in
  ∃ r l, wire (pump flaky (snd (enqueueControl (js "bye") q))) = wire q ++ (ControlChunk (js "bye"), r) :: l.
Proof.
  intros q.
  destruct (control_overtakes_data small_opts flaky (take 2 small_run) (js "bye")
              ltac:(simpl; lia) ltac:(simpl; lia) eq_refl eq_refl) as [_ H].
  exact H.
Defined.

End SseQueue.
