(* ===== verification/Scheduler.v ===== *)
(** * The score recompute scheduler

    [src/control-plane/src/domains/graph/recomputeScheduler.ts] as a step
    machine.  A step is a piece of code that runs without interruption: a call
    of a method, a timer that fires, or an asynchronous function that goes on
    after the promise it awaited settled.  [tasks] are those functions, by the
    [await] they are at. *)

From stdpp Require Import base list.
From Stdlib Require Import Lia.
From S2P Require Import Prelude.

Module Scheduler.

Inductive pc :=
| InLoop        (** [runLoop], first [await this.recompute] *)
| InDrain       (** [runLoop], the shutdown drain's [await this.recompute] *)
| Finishing     (** [runLoop] returned, its [finally] callback is queued *)
| InIdleDrain.  (** [stop], [await this.recompute] *)

#[global] Instance pc_eq_dec : EqDecision pc.
Proof. solve_decision. Defined.

Record RecomputeScheduler := mkSched {
  running : bool;
  dirty : bool;
  stopping : bool;
  started : bool;
  debounceTimer : bool;
  intervalTimer : bool;
  activeRun : bool;
  tasks : list pc;
  calls : nat        (** calls of [this.recompute] made so far *)
}.

Definition new_scheduler : RecomputeScheduler :=
  mkSched false false false false false false false [] 0.

Definition start (s : RecomputeScheduler) : RecomputeScheduler :=
  let '(mkSched r d _ _ db _ a t c) := s in
  mkSched r d false true db true a t c.

Definition scheduleDebounce (s : RecomputeScheduler) : RecomputeScheduler :=
  let '(mkSched r d st sd db iv a t c) := s in
  if st || db then s else mkSched r d st sd true iv a t c.

Definition markDirty (s : RecomputeScheduler) : RecomputeScheduler :=
  let '(mkSched r d st sd db iv a t c) := s in
  if st || negb sd then s
  else
    let s := mkSched r true st sd db iv a t c in
    if r then s else scheduleDebounce s.

(** [runLoop] runs up to its first [await] inside [kick]. *)
Definition kick (s : RecomputeScheduler) : RecomputeScheduler :=
  let '(mkSched r d st sd db iv a t c) := s in
  if st && negb r then s
  else if r then mkSched r true st sd db iv a t c
  else mkSched true false st sd false iv true (t ++ [InLoop]) (S c).

(** The interval's callback; it fires only while the timer is set. *)
Definition tick (s : RecomputeScheduler) : RecomputeScheduler :=
  if intervalTimer s then (if stopping s then s else kick s) else s.

Definition debounce_fired (s : RecomputeScheduler) : RecomputeScheduler :=
  if debounceTimer s then
    let '(mkSched r d st sd _ iv a t c) := s in
    let s := mkSched r d st sd false iv a t c in
    if st then s else kick s
  else s.

Definition stop (s : RecomputeScheduler) : RecomputeScheduler :=
  let '(mkSched r d _ _ _ _ a t c) := s in
  let s := mkSched r d true false false false a t c in
  if a then s
  else if d then mkSched true false true false false false a (t ++ [InIdleDrain]) (S c)
  else s.

(** The [n]-th asynchronous function goes on: its recompute resolved or
    rejected (the code does the same after both), or its [finally] runs. *)
Definition resume (n : nat) (s : RecomputeScheduler) : RecomputeScheduler :=
  let '(mkSched r d st sd db iv a t c) := s in
  match t !! n with
  | None => s
  | Some InLoop =>
      if d && negb st then mkSched r false st sd db iv a t (S c)
      else if st && d then mkSched r false st sd db iv a (<[n := InDrain]> t) (S c)
      else mkSched r d st sd db iv a (<[n := Finishing]> t) c
  | Some InDrain => mkSched r false st sd db iv a (<[n := Finishing]> t) c
  | Some Finishing => mkSched false d st sd db iv false (delete n t) c
  | Some InIdleDrain => mkSched false false st sd db iv a (delete n t) c
  end.

Inductive event := EStart | EMarkDirty | ETick | EDebounce | EStop | EResume (n : nat).

Definition step (e : event) (s : RecomputeScheduler) : RecomputeScheduler :=
  match e with
  | EStart => start s
  | EMarkDirty => markDirty s
  | ETick => tick s
  | EDebounce => debounce_fired s
  | EStop => stop s
  | EResume n => resume n s
  end.

Definition run (es : list event) (s : RecomputeScheduler) : RecomputeScheduler :=
  fold_left (λ s e, step e s) es s.

(** [start] is not called while a [stop] is still draining; the server starts
    its scheduler once. *)
Definition allowed (e : event) (s : RecomputeScheduler) : Prop :=
  match e with EStart => InIdleDrain ∉ tasks s ∧ InDrain ∉ tasks s | _ => True end.

Inductive reachable : RecomputeScheduler → Prop :=
| reach_new : reachable new_scheduler
| reach_step s e : reachable s → allowed e s → reachable (step e s).

(** Recomputes in flight. *)
Definition in_flight (s : RecomputeScheduler) : nat :=
  length (filter (λ p, p ≠ Finishing) (tasks s)).

(** ** The invariant *)

Record sched_inv (s : RecomputeScheduler) : Prop := {
  si_tasks :
    (tasks s = [] ∧ running s = false ∧ activeRun s = false) ∨
    (∃ p, tasks s = [p] ∧ p ≠ InIdleDrain ∧ running s = true ∧ activeRun s = true) ∨
    (tasks s = [InIdleDrain] ∧ running s = true ∧ activeRun s = false ∧
     stopping s = true ∧ dirty s = false);
  si_started : intervalTimer s = started s;
  si_stopping : stopping s = true → started s = false ∧ debounceTimer s = false;
  si_debounce : debounceTimer s = true → running s = false;
  si_drain : tasks s = [InDrain] → stopping s = true
}.

(** Case analysis on a state that satisfies the invariant. *)
Ltac sched_cases s H :=
  destruct s as [r d st sd db iv a t c];
  destruct H as [Ht Hiv Hst Hdb Hdr]; simpl in Ht, Hiv, Hst, Hdb, Hdr; subst;
  destruct Ht as [(-> & -> & ->)|[([] & -> & Hp & -> & ->)|(-> & -> & -> & -> & ->)]];
  try done;
  try destruct st; try (destruct Hst as [-> ->]; [done|]); try (by specialize (Hdr eq_refl)).

Lemma sched_inv_step s e : sched_inv s → allowed e s → sched_inv (step e s).
Proof.
  intros H He. sched_cases s H; destruct e as [| | | | |[|n]]; simpl in *;
    unfold tick, debounce_fired; simpl; repeat (case_match; simplify_eq; simpl in *);
    try (by destruct He as [[] ?]; apply list_elem_of_singleton);
    try (by destruct He as [? []]; apply list_elem_of_singleton); split; simpl; try done;
    first [by left|by right; right|right; left; by eexists].
Qed.

Lemma new_scheduler_inv : sched_inv new_scheduler.
Proof. split; simpl; auto; done. Qed.

Lemma reachable_inv s : reachable s → sched_inv s.
Proof. induction 1; [apply new_scheduler_inv|by apply sched_inv_step]. Qed.

(** Recomputes that may still start once [stop] was called, and turns its
    tasks still need. *)
Definition reruns_left (s : RecomputeScheduler) : nat :=
  match tasks s with [] | [InLoop] | [Finishing] => if dirty s then 1 else 0 | _ => 0 end.

Definition turns_left (s : RecomputeScheduler) : nat :=
  match tasks s with
  | [] => 0 | [InLoop] => 3 | [InDrain] => 2 | _ => 1
  end.

Definition is_resume0 (e : event) : bool := match e with EResume 0 => true | _ => false end.

Lemma stopped_step s e :
  sched_inv s → stopping s = true → e ≠ EStart →
  stopping (step e s) = true ∧ sched_inv (step e s) ∧
  (calls (step e s) + reruns_left (step e s) ≤ calls s + reruns_left s)%nat ∧
  (e ≠ EStop → turns_left (step e s) ≤ turns_left s - (if is_resume0 e then 1 else 0))%nat.
Proof.
  intros H Hstop He. assert (HI : sched_inv (step e s)) by (apply sched_inv_step; [done|by destruct e]).
  revert HI. sched_cases s H; try done; destruct e as [| | | | |[|n]]; try done; simpl;
    unfold tick, debounce_fired; simpl; repeat (case_match; simplify_eq; simpl);
    intros HI; split_and!; try done; unfold reruns_left, turns_left; simpl; repeat case_match; try done; lia.
Qed.

Lemma stopped_run es s :
  sched_inv s → stopping s = true → EStart ∉ es →
  let s' := run es s in
  stopping s' = true ∧ sched_inv s' ∧
  (calls s' + reruns_left s' ≤ calls s + reruns_left s)%nat ∧
  (EStop ∉ es → turns_left s' ≤ turns_left s - length (filter (λ e, is_resume0 e) es))%nat.
Proof.
  revert s. induction es as [|e es IH]; intros s HI Hs He; simpl; [split_and!; try done; intros; lia|].
  apply not_elem_of_cons in He as [He He'].
  destruct (stopped_step s e) as (Hs1 & HI1 & Hc & Ht); [done|done|congruence|].
  destruct (IH _ HI1 Hs1 He') as (? & ? & ? & Ht'). split_and!; [done|done|lia|].
  intros [Hne Hes]%not_elem_of_cons. specialize (Ht ltac:(congruence)). specialize (Ht' Hes).
  rewrite filter_cons. destruct (is_resume0 e) eqn:E; simpl; lia.
Qed.

(** ** Properties *)

(** C25. Single flight: as long as [start] is not called while a [stop] is
    draining, at most one recompute runs at any time, and [running] tells
    whether one does (or has just returned). *)
Theorem scheduler_single_flight s :
  reachable s → (in_flight s ≤ 1)%nat ∧ (running s = false → in_flight s = 0%nat).
Proof.
  intros [[(Ht & Hr & _)|[(p & Ht & _ & Hr & _)|(Ht & Hr & _)]] _ _ _ _]%reachable_inv;
    unfold in_flight; rewrite Ht, Hr; [simpl; auto| |simpl; split; [lia|done]].
  split; [|done]. rewrite filter_cons. case_decide; simpl; lia.
Qed.

(** Shutdown drains: after [stop], whatever still happens short of a
    [start], at most one more recompute begins; and unless [stop] is called
    again, once the pending promises have settled three times nothing is in flight and nothing is armed. *)
Theorem scheduler_stop_drains s es :
  reachable s → EStart ∉ es →
  let s' := run es (step EStop s) in
  (calls s' ≤ calls s + 1)%nat ∧
  (EStop ∉ es → (3 ≤ length (filter (λ e, is_resume0 e) es))%nat →
   tasks s' = [] ∧ running s' = false ∧ debounceTimer s' = false ∧ intervalTimer s' = false).
Proof.
  intros H%reachable_inv He s'.
  assert (HI : sched_inv (step EStop s)) by (by apply sched_inv_step).
  assert (Hstop : stopping (step EStop s) = true ∧ (turns_left (step EStop s) ≤ 3)%nat ∧
                  (calls (step EStop s) + reruns_left (step EStop s) ≤ calls s + 1)%nat).
  { sched_cases s H; simpl; repeat (case_match; simplify_eq; simpl); unfold reruns_left, turns_left;
      simpl; split_and!; done || (repeat case_match; lia). }
  destruct Hstop as (Hs & Ht & Hc).
  destruct (stopped_run es _ HI Hs He) as (Hs' & [Hx Hiv Hsto Hdb _] & Hc' & Ht'). fold s' in Hx, Hiv, Hsto, Hdb, Hc', Ht', Hs'.
  split; [lia|]. intros Hno H3. specialize (Ht' Hno). destruct (Hsto Hs') as [? ?]. assert (turns_left s' = 0%nat) as Hz by lia.
  unfold turns_left in Hz. destruct Hx as [(E & ? & ?)|[([] & E & ?)|(E & ?)]]; rewrite E in Hz; try done.
  split_and!; done || congruence.
Qed.

(** C26. Dirty work is not forgotten: in a scheduler that accepts work, the
    [dirty] flag is only cleared by a step that starts a recompute; if a
    recompute is in flight, another one starts as soon as it settles; and if
    none is, the next interval tick starts one. *)
Theorem dirty_is_recomputed s e :
  reachable s → allowed e s → dirty s = true → stopping s = false →
  (dirty (step e s) = false → calls (step e s) = S (calls s)) ∧
  (in_flight s = 1%nat → calls (step (EResume 0) s) = S (calls s)) ∧
  (started s = true → running s = false → calls (step ETick s) = S (calls s)).
Proof.
  intros H%reachable_inv He Hd Hst0.
  sched_cases s H; try done; simpl in Hd, Hst0; subst; (split; [|split; [done|]]);
    destruct e as [| | | | |[|n]]; simpl;
    unfold tick, debounce_fired; simpl; repeat (case_match; simplify_eq; simpl); try done.
Qed.

(** The debounce has a gap: there is a run in which [markDirty] is
    accepted between the end of [runLoop] and its [finally] callback, after
    which the scheduler is idle and dirty with no debounce timer set, so that
    the work waits for the next interval tick. *)
Theorem markDirty_can_miss_debounce :
  ∃ s, reachable s ∧ started s = true ∧ dirty (step EMarkDirty s) = true ∧
       let s' := step (EResume 0) (step EMarkDirty s) in
       dirty s' = true ∧ running s' = false ∧ tasks s' = [] ∧ debounceTimer s' = false.
Proof.
  exists (run [EStart; ETick; EResume 0] new_scheduler). split; [|done].
  repeat (apply (reach_step _ _); [|done || (split; apply not_elem_of_nil)]). apply reach_new.
Qed.

(** ** Witnesses *)

Definition busy_dirty : RecomputeScheduler := run [EStart; EMarkDirty; EDebounce; EMarkDirty] new_scheduler.

Lemma busy_dirty_reachable : reachable busy_dirty.
Proof.
  repeat (apply (reach_step _ _); [|done || (split; apply not_elem_of_nil)]). apply reach_new.
Defined.

Lemma scheduler_single_flight_witness : in_flight busy_dirty = 1%nat ∧ (in_flight busy_dirty ≤ 1)%nat.
Proof. split; [reflexivity|]. exact (proj1 (scheduler_single_flight busy_dirty busy_dirty_reachable)). Defined.

Lemma scheduler_stop_drains_witness :
  let s := run [EResume 0; EMarkDirty; EResume 0; EResume 0] (step EStop busy_dirty) in
  calls s = S (calls busy_dirty) ∧ tasks s = [] ∧ running s = false.
Proof.
  destruct (scheduler_stop_drains busy_dirty [EResume 0; EMarkDirty; EResume 0; EResume 0]
              busy_dirty_reachable) as [_ H].
  - repeat (apply not_elem_of_cons; split; [discriminate|]). apply not_elem_of_nil.
  - destruct H as (Ht & Hr & _).
    + repeat (apply not_elem_of_cons; split; [discriminate|]). apply not_elem_of_nil.
    + vm_compute. lia.
    + split; [reflexivity|]. split; [exact Ht|exact Hr].
Defined.

Lemma dirty_is_recomputed_witness :
  dirty busy_dirty = true ∧ calls (step (EResume 0) busy_dirty) = S (calls busy_dirty).
Proof.
  split; [reflexivity|].
  exact (proj1 (proj2 (dirty_is_recomputed busy_dirty EMarkDirty busy_dirty_reachable I eq_refl eq_refl)) eq_refl).
Defined.

End Scheduler.
