(* ===== verification/Principals.v ===== *)
(** * Principals, keys and issuers

    [src/control-plane/src/domains/principal/]: [principalRepository.ts],
    [principalService.ts] and [trustWeight.ts], over the tables of
    [control-plane/migrations/001_graph] with their constraints.  The clock
    ([now]) and [randomUUID] are arguments; section variables are [numeric32], how
    Postgres stores a number in a NUMERIC(3,2) column (in hundredths), [pg_array], the
    text the driver sends for an array, and [jsonb_in], what a JSONB column stores for
    a text, or the SQLSTATE with which it refuses it. *)

From stdpp Require Import base gmap strings numbers sorting list.
From Stdlib Require Import ZArith Lia.
From S2P Require Import Prelude Json Errors Db.

(** [principalRepository.ts] *)
Module PrincipalRepo.

Definition entity_kinds : list jstr := [js "agent"; js "issuer"; js "both"].

(** [metadata->>'legacy_did'] *)
Definition legacy_did (m : json) : option jstr :=
  match m with
  | JObj fs =>
      match lookup_field (js "legacy_did") fs with
      | JUndef | JNull => None
      | JStr s => Some s
      | v => Some (stringify v)
      end
  | _ => None
  end.

(** [SELECT * FROM principals WHERE metadata->>'legacy_did' = $1] *)
Definition by_legacy_did (did : jstr) (d : db) : option Principal :=
  head (filter (λ r, legacy_did (p_metadata r) = Some did) (map_to_list (principals d)).*2).

(** The constraints an inserted row is checked against. *)
Definition insert_principal (r : Principal) : M unit := λ d,
  if negb (bool_decide (p_entity_kind r ∈ entity_kinds)) then (Throw (EPg check_violation), d)
  else if bool_decide (is_Some (principals d !! p_id r)) then (Throw (EPg unique_violation), d)
  else if match legacy_did (p_metadata r) with
          | Some did => bool_decide (is_Some (by_legacy_did did d))
          | None => false
          end then (Throw (EPg unique_violation), d)
  else if match p_owner_tenant_id r with
          | Some t => negb (bool_decide (is_Some (tenants d !! t)))
          | None => false
          end then (Throw (EPg foreign_key_violation), d)
  else (Ok tt, set_principals (<[p_id r := r]> (principals d)) d).

Definition getPrincipal (id : jstr) : M (option Principal) :=
  reads (λ d, principals d !! id).

Definition createPrincipal (now : Z) (id entityKind : jstr) (ownerTenantId name : option jstr)
    (metadata : option json) : M (option Principal) := λ d,
  let r := mkPrincipal id entityKind name ownerTenantId (default (JObj []) metadata) now now (js "active") in
  if negb (bool_decide (entityKind ∈ entity_kinds)) then (Throw (EPg check_violation), d)
  else match principals d !! id with
       | Some old => (Ok (Some old), d)          (** ON CONFLICT (id) DO NOTHING, then getPrincipal *)
       | None => (_ ← insert_principal r; mret (Some r)) d
       end.

(** [between] is what other sessions commit between the first SELECT and the
    INSERT. *)
Definition findOrCreateByLegacyDID (now : Z) (uuid : jstr) (between : db → db) (legacyDID : jstr) :
  M Principal := λ d,
  match by_legacy_did legacyDID d with
  | Some p => (Ok p, d)
  | None =>
      let d := between d in
      let r := mkPrincipal (js "vrl:p:" ++ uuid) (js "agent") None None
                 (JObj [(js "legacy_did", JStr legacyDID)]) now now (js "active") in
      match insert_principal r d with
      | (Ok _, d') => (Ok r, d')
      | (Throw e, d') =>
          if has_sqlstate unique_violation e then
            match by_legacy_did legacyDID d' with
            | Some p => (Ok p, d')
            | None => (Throw e, d')
            end
          else (Throw e, d')
      end
  end.

Definition key_hash_taken (h : jstr) (d : db) : bool :=
  bool_decide (Exists (λ k, k_key_hash k = h) (map_to_list (principal_keys d)).*2).

Definition not_null_violation : jstr := js "23502".

Section keys.
Context (pg_array : list json → jstr) (jsonb_in : jstr → result jstr json).

(** The text the driver sends for a value: a string as it is, an array as an array
    literal, an object as JSON; null and undefined are NULL. *)
Definition pg_text (v : json) : option jstr :=
  match v with
  | JUndef | JNull => None
  | JStr s => Some s
  | JArr l => Some (pg_array l)
  | v => Some (stringify v)
  end.

(** A parameter for a JSONB column: refused texts fail before any constraint is
    checked. *)
Definition jsonb_param (v : json) : result exn (option json) :=
  match pg_text v with
  | None => Ok None
  | Some text => match jsonb_in text with Ok stored => Ok (Some stored) | Throw sqlstate => Throw (EPg sqlstate) end
  end.

Definition addKey (now : Z) (principalId keyId : jstr) (raw : list Z) (jwk : json) (keyHash : jstr) :
  M PrincipalKey := λ d,
  match jsonb_param jwk with
  | Throw e => (Throw e, d)
  | Ok None => (Throw (EPg not_null_violation), d)
  | Ok (Some stored) =>
      let k := mkPrincipalKey principalId keyId raw stored keyHash None now None None in
      if bool_decide (is_Some (principal_keys d !! (principalId, keyId))) || key_hash_taken keyHash d
      then (Throw (EPg unique_violation), d)
      else if negb (bool_decide (is_Some (principals d !! principalId)))
      then (Throw (EPg foreign_key_violation), d)
      else (Ok k, set_principal_keys (<[(principalId, keyId) := k]> (principal_keys d)) d)
  end.

End keys.

Definition keys_of (principalId : jstr) (d : db) : list PrincipalKey :=
  filter (λ k, k_principal_id k = principalId) (map_to_list (principal_keys d)).*2.

(** [ORDER BY valid_from] *)
Definition key_le (a b : PrincipalKey) : Prop := k_valid_from a ≤ k_valid_from b.
#[global] Instance key_le_dec : RelDecision key_le := λ a b, Z_le_dec _ _.

Definition listKeys (principalId : jstr) : M (list PrincipalKey) :=
  reads (λ d, merge_sort key_le (keys_of principalId d)).

Definition getKeyByHash (keyHash : jstr) : M (option PrincipalKey) :=
  reads (λ d, head (filter (λ k, k_key_hash k = keyHash) (map_to_list (principal_keys d)).*2)).

(** Not revoked and in its validity window at [iat]. *)
Definition key_active_at (iat : Z) (k : PrincipalKey) : bool :=
  bool_decide (k_revoked_at k = None) && (k_valid_from k <=? iat)
  && match k_valid_until k with None => true | Some u => iat <=? u end.

Definition getKeyByKid (principalId keyId : jstr) (iat : option Z) : M (option PrincipalKey) :=
  reads (λ d,
    match principal_keys d !! (principalId, keyId) with
    | Some k =>
        match iat with
        | Some t => if key_active_at t k then Some k else None
        | None => if bool_decide (k_revoked_at k = None) then Some k else None
        end
    | None => None
    end).

Definition getActiveKeysAt (principalId : jstr) (iat : Z) : M (list PrincipalKey) :=
  reads (λ d, merge_sort key_le (filter (λ k, key_active_at iat k) (keys_of principalId d))).

Definition getIssuer (principalId : jstr) : M (option Issuer) := reads (λ d, issuers d !! principalId).

Definition updatePrincipal (id : jstr) (entity_kind : option jstr) : M unit := λ d,
  match entity_kind with
  | None | Some [] => (Ok tt, d)
  | Some k =>
      match principals d !! id with
      | None => (Ok tt, d)
      | Some p =>
          if bool_decide (k ∈ entity_kinds) then
            (Ok tt, set_principals (<[id := mkPrincipal (p_id p) k (p_name p) (p_owner_tenant_id p)
               (p_metadata p) (p_first_seen_at p) (p_last_seen_at p) (p_status p)]> (principals d)) d)
          else (Throw (EPg check_violation), d)
      end
  end.

(** [trustWeight] is in hundredths here: the column's value. *)
Definition createIssuer (now : Z) (principalId : jstr) (trustWeight : option Z) : M unit := λ d,
  if match trustWeight with Some w => (w <? 0) || (100 <? w) | None => false end
  then (Throw (EPg check_violation), d)
  else if negb (bool_decide (is_Some (principals d !! principalId)))
  then (Throw (EPg foreign_key_violation), d)
  else
    match trustWeight, issuers d !! principalId with
    | Some w, Some i =>
        (Ok tt, set_issuers (<[principalId := mkIssuer principalId w (i_is_bootstrap i) (i_verified_at i)
                                                (i_created_at i)]> (issuers d)) d)
    | Some w, None => (Ok tt, set_issuers (<[principalId := mkIssuer principalId w false None now]> (issuers d)) d)
    | None, Some _ => (Ok tt, d)
    | None, None => (Ok tt, set_issuers (<[principalId := mkIssuer principalId 100 false None now]> (issuers d)) d)
    end.

End PrincipalRepo.

(** [principalService.ts] *)
Module PrincipalService.
Import PrincipalRepo.

Definition not_found {A} (id : jstr) : M A :=
  lift (throw_app NOT_FOUND (js "Principal " ++ id ++ js " not found")).

Definition createPrincipal (now : Z) (uuid entityKind : jstr) (ownerTenantId name : option jstr) :
  M (option Principal) :=
  PrincipalRepo.createPrincipal now (js "vrl:p:" ++ uuid) entityKind ownerTenantId name None.

Definition getPrincipal (id : jstr) : M Principal :=
  p ← PrincipalRepo.getPrincipal id;
  match p with Some p => mret p | None => not_found id end.

Definition addKey (pg_array : list json → jstr) (jsonb_in : jstr → result jstr json)
    (now : Z) (principalId keyId : jstr) (raw : list Z) (jwk : json) (keyHash : jstr) : M PrincipalKey :=
  _ ← getPrincipal principalId;
  catch (PrincipalRepo.addKey pg_array jsonb_in now principalId keyId raw jwk keyHash) (λ e,
    if has_sqlstate unique_violation e
    then lift (throw_app CONFLICT (js "Key already registered (duplicate key_id or key_hash)"))
    else throw e).

Definition listKeys (principalId : jstr) : M (list PrincipalKey) :=
  _ ← getPrincipal principalId; PrincipalRepo.listKeys principalId.

(** [trustWeight.ts]: [!Number.isFinite(w) || w < 0 || w > 1]. *)
Definition assertTrustWeightInRange (trustWeight : option number) : result exn unit :=
  match trustWeight with
  | None => Ok tt
  | Some w =>
      if negb (isFinite w) || num_ltb w (num_of_Z 0) || num_ltb (num_of_Z 1) w
      then throw_app BAD_REQUEST (js "trust_weight must be a finite number in [0,1]")
      else Ok tt
  end.

Section service.
Context (numeric32 : number → Z).

Definition createIssuer (now : Z) (principalId : jstr) (trustWeight : option number) : M unit :=
  _ ← lift (assertTrustWeightInRange trustWeight);
  p ← getPrincipal principalId;
  _ ← (if decide (p_entity_kind p = js "agent")
       then updatePrincipal principalId (Some (js "both")) else mret tt);
  PrincipalRepo.createIssuer now principalId (numeric32 <$> trustWeight).

End service.
End PrincipalService.

(** ** What the other components rely on *)

Module PrincipalInv.
Import PrincipalRepo.

(** An issuer's principal exists, is not agent-only, and its weight is in
    [0,1]; every principal has a known kind. The trust engine refuses a graph in
    which one of these fails. *)
Record issuers_ok (d : db) : Prop := {
  io_kind : ∀ p i, issuers d !! p = Some i →
    ∃ r, principals d !! p = Some r ∧ p_entity_kind r ∈ [js "issuer"; js "both"];
  io_weight : ∀ p i, issuers d !! p = Some i → 0 ≤ i_trust_weight i ≤ 100;
  io_kinds : ∀ p r, principals d !! p = Some r → p_entity_kind r ∈ entity_kinds
}.

(** The unique index on [metadata->>'legacy_did']. *)
Definition legacy_unique (d : db) : Prop :=
  ∀ p q r s did, principals d !! p = Some r → principals d !! q = Some s →
    legacy_did (p_metadata r) = Some did → legacy_did (p_metadata s) = Some did → p = q.

Lemma by_legacy_did_Some did d r :
  by_legacy_did did d = Some r →
  (∃ p, principals d !! p = Some r) ∧ legacy_did (p_metadata r) = Some did.
Proof.
  unfold by_legacy_did. intros H%head_Some_elem_of.
  apply list_elem_of_filter in H as [H1 H2]. split; [|done].
  apply list_elem_of_fmap in H2 as ([p r'] & -> & H2). exists p. by apply elem_of_map_to_list.
Qed.

Lemma by_legacy_did_None did d p r :
  by_legacy_did did d = None → principals d !! p = Some r → legacy_did (p_metadata r) ≠ Some did.
Proof.
  unfold by_legacy_did. intros H Hp Hl. apply head_None in H.
  assert (r ∈ filter (λ r, legacy_did (p_metadata r) = Some did) (map_to_list (principals d)).*2) as Hin.
  { apply list_elem_of_filter. split; [done|]. apply list_elem_of_fmap. exists (p, r).
    split; [done|]. by apply elem_of_map_to_list. }
  rewrite H in Hin. by apply elem_of_nil in Hin.
Qed.

(** An insert that succeeds satisfied every constraint. *)
Lemma insert_principal_Ok r d d' :
  insert_principal r d = (Ok tt, d') →
  d' = set_principals (<[p_id r := r]> (principals d)) d ∧ principals d !! p_id r = None ∧
  p_entity_kind r ∈ entity_kinds ∧ (∀ did, legacy_did (p_metadata r) = Some did → by_legacy_did did d = None).
Proof.
  unfold insert_principal. intros H.
  destruct (bool_decide (_ ∈ _)) eqn:E1; simpl in H; [|done].
  destruct (bool_decide (is_Some (principals d !! p_id r))) eqn:E2; [done|].
  apply bool_decide_eq_true in E1. apply bool_decide_eq_false, eq_None_not_Some in E2.
  destruct (legacy_did (p_metadata r)) as [did|].
  - destruct (bool_decide (is_Some (by_legacy_did did d))) eqn:E3; [done|].
    apply bool_decide_eq_false, eq_None_not_Some in E3.
    repeat case_match; simplify_eq; naive_solver.
  - repeat case_match; simplify_eq; naive_solver.
Qed.

Lemma insert_principal_inv r d d' :
  insert_principal r d = (Ok tt, d') → issuers_ok d → legacy_unique d → issuers_ok d' ∧ legacy_unique d'.
Proof.
  intros (-> & Hfresh & Hk & Hl)%insert_principal_Ok [H1 H2 H3] HU. split; [split|]; simpl.
  - intros p i Hi. destruct (H1 p i Hi) as (r' & Hr & ?). exists r'. split; [|done].
    rewrite lookup_insert_ne; [done|]. congruence.
  - done.
  - intros p r' [[_ <-]|[_ ?]]%lookup_insert_Some; [done|eauto].
  - intros p q r1 r2 did. simpl. rewrite !lookup_insert_Some. intros [[<- <-]|[? Hp]] [[<- <-]|[? Hq]] Hd1 Hd2.
    + done.
    + exfalso. by eapply (by_legacy_did_None did d q r2); [apply Hl|..].
    + exfalso. by eapply (by_legacy_did_None did d p r1); [apply Hl|..].
    + by eapply HU.
Qed.

(** Mapping a legacy DID is atomic. Whatever other sessions commit
    between the lookup and the insert, as long as they too respect the table's
    unique index, the call returns a stored principal that carries the DID, the
    index still holds, and a second call returns that same principal. The
    hypothesis on [randomUUID] is that the id it makes is not taken. *)
Theorem legacy_did_mapped_once now uuid between did d :
  legacy_unique (between d) → principals (between d) !! (js "vrl:p:" ++ uuid) = None →
  legacy_unique d →
  ∃ p d', findOrCreateByLegacyDID now uuid between did d = (Ok p, d') ∧
    (∃ i, principals d' !! i = Some p) ∧ legacy_did (p_metadata p) = Some did ∧
    legacy_unique d' ∧
    ∀ now' uuid' between', findOrCreateByLegacyDID now' uuid' between' did d' = (Ok p, d').
Proof.
  intros HUb Hfresh HU.
  assert (Hagain : ∀ d' p i, legacy_unique d' → principals d' !! i = Some p → legacy_did (p_metadata p) = Some did →
    ∀ now' uuid' between', findOrCreateByLegacyDID now' uuid' between' did d' = (Ok p, d')).
  { intros d' p i HU' Hp Hd now' uuid' between'. unfold findOrCreateByLegacyDID.
    destruct (by_legacy_did did d') as [q|] eqn:E.
    - apply by_legacy_did_Some in E as [[j Hj] Hq]. assert (i = j) as -> by (by eapply HU'). congruence.
    - by eapply by_legacy_did_None in E. }
  unfold findOrCreateByLegacyDID at 1. destruct (by_legacy_did did d) as [p|] eqn:E.
  { apply by_legacy_did_Some in E as [[i Hi] Hp]. exists p, d. split_and!; eauto. }
  set (r := mkPrincipal _ _ _ _ _ _ _ _).
  assert (Hk : bool_decide (p_entity_kind r ∈ entity_kinds) = true) by reflexivity.
  assert (Hd : legacy_did (p_metadata r) = Some did) by reflexivity.
  assert (Hid : principals (between d) !! p_id r = None) by exact Hfresh.
  assert (Ho : p_owner_tenant_id r = None) by reflexivity. clearbody r.
  destruct (by_legacy_did did (between d)) as [p|] eqn:Eb.
  - assert (insert_principal r (between d) = (Throw (EPg unique_violation), between d)) as ->.
    { unfold insert_principal. by rewrite Hk, Hid, Hd, Eb. }
    simpl. rewrite Eb. apply by_legacy_did_Some in Eb as [[i Hi] Hp]. exists p, (between d). split_and!; eauto.
  - assert (insert_principal r (between d) =
            (Ok tt, set_principals (<[p_id r := r]> (principals (between d))) (between d))) as Hins.
    { unfold insert_principal. by rewrite Hk, Hid, Hd, Eb, Ho. }
    rewrite Hins. eexists r, _. split; [done|].
    assert (legacy_unique (set_principals (<[p_id r := r]> (principals (between d))) (between d))) as HU'.
    { intros p q r1 r2 x. simpl. rewrite !lookup_insert_Some. intros [[<- <-]|[? Hp]] [[<- <-]|[? Hq]] Hd1 Hd2.
      - done.
      - exfalso. simplify_eq. by eapply (by_legacy_did_None did (between d) q r2).
      - exfalso. simplify_eq. by eapply (by_legacy_did_None did (between d) p r1).
      - by eapply HUb. }
    assert (principals (set_principals (<[p_id r := r]> (principals (between d))) (between d)) !! p_id r = Some r)
      by apply lookup_insert_eq.
    split_and!; eauto.
Qed.

Lemma legacy_did_mapped_once_witness :
  ∃ p d', findOrCreateByLegacyDID 1 (js "u1") (λ d, d) (js "did:x") empty_db = (Ok p, d') ∧
    ∀ now' uuid' between', findOrCreateByLegacyDID now' uuid' between' (js "did:x") d' = (Ok p, d').
Proof.
  destruct (legacy_did_mapped_once 1 (js "u1") (λ d, d) (js "did:x") empty_db) as (p & d' & H & _ & _ & _ & H').
  - intros p q r s did Hp. discriminate Hp.
  - reflexivity.
  - intros p q r s did Hp. discriminate Hp.
  - exists p, d'. split; [exact H|exact H'].
Defined.

Lemma getPrincipal_Ok id d p d' :
  PrincipalService.getPrincipal id d = (Ok p, d') → d' = d ∧ principals d !! id = Some p.
Proof.
  unfold PrincipalService.getPrincipal, PrincipalRepo.getPrincipal, reads, mbind, M_bind; simpl.
  destruct (principals d !! id); simpl; [by intros [= -> ->]|done].
Qed.

Lemma createIssuer_repo_inv now p w d d' :
  (∃ r, principals d !! p = Some r ∧ p_entity_kind r ∈ [js "issuer"; js "both"]) →
  issuers_ok d → PrincipalRepo.createIssuer now p w d = (Ok tt, d') →
  issuers_ok d' ∧ is_Some (issuers d' !! p).
Proof.
  intros Hp [H1 H2 H3]. unfold PrincipalRepo.createIssuer.
  destruct (match w with Some w => (w <? 0) || (100 <? w) | None => false end) eqn:Hw; [done|].
  destruct (negb _); [done|].
  assert (Hins : ∀ i, 0 ≤ i_trust_weight i ≤ 100 →
    issuers_ok (set_issuers (<[p := i]> (issuers d)) d) ∧ is_Some (<[p := i]> (issuers d) !! p)).
  { intros i Hi. split; [|by rewrite lookup_insert_eq]. split; simpl; [| |done].
    - intros q j [[<- _]|[_ ?]]%lookup_insert_Some; eauto.
    - intros q j [[_ <-]|[_ ?]]%lookup_insert_Some; eauto. }
  destruct w as [w|], (issuers d !! p) as [i|] eqn:Hi; intros [= <-]; simpl;
    try (apply Hins; simpl; lia). split; [done|by eexists].
Qed.

(** Registering an issuer establishes what the trust engine demands of
    it: when [createIssuer] succeeds the principal exists, is an issuer in the
    registry and its kind says so (an agent becomes 'both'), its weight is within
    [0,1], and the same still holds of every other issuer. *)
Theorem createIssuer_keeps_issuers_ok numeric32 now p w d d' :
  issuers_ok d → PrincipalService.createIssuer numeric32 now p w d = (Ok tt, d') →
  issuers_ok d' ∧ is_Some (issuers d' !! p) ∧
  (w ≠ None → PrincipalService.assertTrustWeightInRange w = Ok tt).
Proof.
  intros HI H. unfold PrincipalService.createIssuer in H. invert_M.
  subst d0. match goal with Hg : PrincipalService.getPrincipal _ _ = _ |- _ =>
    apply getPrincipal_Ok in Hg as [-> Hp] end.
  match goal with Hg : PrincipalService.assertTrustWeightInRange _ = _ |- _ => rename Hg into Ew end.
  match goal with Hg : (if decide _ then _ else _) _ = _ |- _ => rename Hg into H2 end. destruct a.
  assert (Hmid : issuers_ok d2 ∧ ∃ r, principals d2 !! p = Some r ∧ p_entity_kind r ∈ [js "issuer"; js "both"]).
  { case_decide as Hk; simpl in H2; [|].
    - unfold updatePrincipal in H2. rewrite Hp in H2. injection H2 as <- <-. destruct HI as [H1 H2 H3].
      split; [split|]; simpl.
      + intros q i Hq. destruct (decide (p = q)) as [<-|Hne].
        * eexists. rewrite lookup_insert_eq. split; [done|]. apply elem_of_cons. right. by left.
        * destruct (H1 q i Hq) as (r & ? & ?). exists r. by rewrite lookup_insert_ne.
      + done.
      + intros q r [[_ <-]|[_ ?]]%lookup_insert_Some; [|eauto]. simpl. right. right. by left.
      + eexists. rewrite lookup_insert_eq. split; [done|]. apply elem_of_cons. right. by left.
    - injection H2 as <- <-. split; [done|]. exists a0. split; [done|].
      apply (io_kinds _ HI) in Hp. apply elem_of_cons in Hp as [?|?]; done. }
  destruct Hmid as [HI2 Hr]. destruct (createIssuer_repo_inv now p _ d2 d' Hr HI2 H) as [? ?].
  split_and!; done.
Qed.

Definition one_agent : db :=
  set_principals {[js "p" := mkPrincipal (js "p") (js "agent") None None (JObj []) 0 0 (js "active")]} empty_db.

Lemma createIssuer_keeps_issuers_ok_witness :
  issuers_ok one_agent ∧ ∃ d', PrincipalService.createIssuer (λ _, 50) 1 (js "p") (Some (Fin 1 (-1))) one_agent = (Ok tt, d') ∧
    issuers_ok d'.
Proof.
  assert (HI : issuers_ok one_agent).
  { split; simpl.
    - intros p i Hp. discriminate Hp.
    - intros p i Hp. discriminate Hp.
    - intros p r Hp. cbn in Hp. apply lookup_singleton_Some in Hp as [_ <-]. by left. }
  split; [exact HI|].
  destruct (PrincipalService.createIssuer (λ _, 50) 1 (js "p") (Some (Fin 1 (-1))) one_agent) as [[[]|e] d'] eqn:E;
    [|vm_compute in E; discriminate E].
  exists d'. split; [reflexivity|]. exact (proj1 (createIssuer_keeps_issuers_ok _ _ _ _ _ _ HI E)).
Defined.

End PrincipalInv.
