(* ===== verification/EdgeStore.v ===== *)
(** * The edge's store and the snapshot it loads

    The consumer of the sync protocol, [src/internal/edgeverifier]: the store
    ([snapshot.go]), the application of events ([apply.go]), the snapshot reader
    ([cpclient.go], [validate.go]) and the questions the proxy asks the store
    ([policy.go]).  With the writers of [Snapshot] and [ScoreWriter] on the other
    side, the theorems say which snapshots of the control plane an edge accepts and
    what it then holds.

    Instants are milliseconds.  Parameters: [Unmarshal], the text decoder of
    [encoding/json], and [time_Parse], [time.Parse] with the RFC 3339 layouts.  A nil
    receiver or argument, which the program never passes, is not modelled.  Error
    texts leave out what [%q] and [%w] insert. *)

From stdpp Require Import base gmap strings numbers sorting list.
From Stdlib Require Import ZArith Lia.
From S2P Require Import Prelude Json JsText GoText JsDate Errors Db SyncLog ScoreWriter Snapshot Policy Principals.

Module EdgeStore.
Import SyncLog ScoreWriter EdgePolicy.

(** ** [snapshot.go] *)

(** [ScoreEntry] has the columns of the control plane's score rows. *)
Abbreviation ScoreEntry := EngineScore.

Record KeyEntry := mkKeyEntry {
  ke_PrincipalID : jstr; ke_KeyID : jstr; ke_PublicKeyRaw : list Z;
  ke_ValidFrom : Z; ke_ValidUntil : option Z }.

Record Snapshot := mkSnap {
  HighWaterVersion : Z;
  Scores : gmap jstr ScoreEntry;
  Keys : gmap jstr KeyEntry;
  snPolicy : option EdgePolicy.Policy }.

(** The high-water mark is kept beside the snapshot, so that a cursor does not
    copy the maps. *)
Record Store := mkStore { ptr : option Snapshot; hw : Z; lastBytes : option Z }.

Definition NewStore : Store := mkStore None 0 None.

Definition Load (s : Store) : option Snapshot := ptr s.
Definition Swap (next : Snapshot) (s : Store) : Store := mkStore (Some next) (HighWaterVersion next) (lastBytes s).
Definition NoteBytes (now : Z) (s : Store) : Store := mkStore (ptr s) (hw s) (Some now).
Definition HighWater (s : Store) : Z := hw s.

Definition advanceHighWater (v : Z) (s : Store) : Store :=
  if v <=? 0 then s else if v <=? hw s then s else mkStore (ptr s) v (lastBytes s).

Definition CloneSnapshot (src : option Snapshot) : Snapshot :=
  match src with None => mkSnap 0 ∅ ∅ None | Some s => mkSnap (HighWaterVersion s) (Scores s) (Keys s) (snPolicy s) end.

Definition SnapshotForPersist (s : Store) : Snapshot :=
  let snap := CloneSnapshot (Load s) in mkSnap (HighWater s) (Scores snap) (Keys snap) (snPolicy snap).

Definition LookupScore (principalID : jstr) (s : Store) : option ScoreEntry :=
  snap ← Load s; Scores snap !! principalID.

Definition LookupKey (keyID : jstr) (now : Z) (s : Store) : option KeyEntry :=
  snap ← Load s; e ← Keys snap !! keyID;
  if now <? ke_ValidFrom e then None
  else match ke_ValidUntil e with
       | Some u => if now <? u then Some e else None
       | None => Some e
       end.

Definition ActivePolicy (s : Store) : option EdgePolicy.Policy := snap ← Load s; snPolicy snap.

(** ** [policy.go] *)

Inductive SyncMode := ModeOK | ModeDegraded | ModeStale | ModeExpired.

Definition EvaluateMode (s : Store) (reachable : bool) (now : Z) : SyncMode :=
  let '(maxAge, failOpen) := match ActivePolicy s with
                             | Some pol => (clampAge (ep_MaxSnapshotAgeSeconds pol), ep_FailOpenExpired pol)
                             | None => (300, false)
                             end in
  let age := match lastBytes s with None => 86400000 | Some last => now - last end in
  if maxAge * 1000 <? age then if failOpen : bool then ModeExpired else ModeStale
  else if reachable then ModeOK else ModeDegraded.

Definition RequireSignaturesFromPolicy (s : Store) (flagRequire : bool) : bool :=
  if flagRequire then true
  else match ActivePolicy s with None => false | Some pol => bool_decide (ep_UnsignedAction pol = js "deny") end.

(** (allow, score, reason, blacklisted) *)
Definition AllowByScore (s : Store) (principalID : jstr) : bool * Z * jstr * bool :=
  let '(threshold, below) :=
    match ActivePolicy s with
    | Some pol => (ep_Threshold pol, if bool_decide (ep_BelowThresholdAction pol = []) then js "deny"
                                     else ep_BelowThresholdAction pol)
    | None => (50, js "deny")
    end in
  let decide_on score reason blacklisted :=
    if threshold <=? score then (true, score, reason, blacklisted)
    else if bool_decide (below = js "allow") then (true, score, reason, blacklisted)
    else (false, score, js "below-threshold", blacklisted) in
  match LookupScore principalID s with
  | None => decide_on 0 (js "unknown") false
  | Some entry =>
      if es_blacklisted entry then (false, es_score entry, js "blacklisted", true)
      else decide_on (es_score entry) (es_score_reason entry) false
  end.

(** ** [DecodePublicKeyRaw] *)

Definition or_else {A} (a b : option A) : option A := match a with Some _ => a | None => b end.

Definition DecodePublicKeyRaw (b64 : jstr) : result jstr (list Z) :=
  match or_else (StdEncoding b64) (or_else (RawStdEncoding b64) (RawURLEncoding b64)) with
  | None => Throw (js "decode public key")
  | Some raw => if bool_decide (length raw = 32%nat) then Ok raw else Throw (js "public key length")
  end.

Section edge.
Context (Unmarshal : jstr → option json) (time_Parse : jstr → option Z).

(** ** [apply.go] *)

Definition parseTime (s : jstr) : result jstr Z :=
  match s with
  | [] => Throw (js "empty time")
  | _ => match time_Parse s with Some t => Ok t | None => Throw (js "parsing time") end
  end.

Definition unmarshal (payload : jstr) : result jstr json :=
  match Unmarshal payload with Some v => go_struct v | None => Throw (js "invalid JSON") end.

(** The fields of [cpScoreWire] and of the struct of [applyScoreUpsert]. *)
Definition go_score (v : json) : result jstr ScoreEntry :=
  _ ← go_struct v;
  p ← go_string (get v "principal_id");
  k ← go_string (get v "entity_kind");
  z ← go_int (get v "score");
  b ← go_bool (get v "blacklisted");
  r ← go_string (get v "score_reason");
  Ok (mkScore p k z b r).

Definition set_scores (m : gmap jstr ScoreEntry) (s : Snapshot) : Snapshot :=
  mkSnap (HighWaterVersion s) m (Keys s) (snPolicy s).
Definition set_keys (m : gmap jstr KeyEntry) (s : Snapshot) : Snapshot :=
  mkSnap (HighWaterVersion s) (Scores s) m (snPolicy s).

Definition applyScoreUpsert (next : Snapshot) (payload : jstr) : result jstr Snapshot :=
  v ← unmarshal payload;
  p ← go_score v;
  if bool_decide (es_principal_id p = []) then Throw (js "score.upsert: missing principal_id")
  else Ok (set_scores (<[es_principal_id p := p]> (Scores next)) next).

Definition applyScoreDelete (next : Snapshot) (payload : jstr) : result jstr Snapshot :=
  v ← unmarshal payload;
  p ← go_string (get v "principal_id");
  if bool_decide (p = []) then Throw (js "score.delete: missing principal_id")
  else Ok (set_scores (delete p (Scores next)) next).

Record cpKeyWire := mkKeyWire {
  kw_PrincipalID : jstr; kw_KeyID : jstr; kw_PublicKeyRaw : jstr; kw_ValidFrom : jstr; kw_ValidUntil : option jstr }.

Definition go_key (v : json) : result jstr cpKeyWire :=
  _ ← go_struct v;
  p ← go_string (get v "principal_id");
  k ← go_string (get v "key_id");
  raw ← go_string (get v "public_key_raw");
  vf ← go_string (get v "valid_from");
  vu ← go_string_ptr (get v "valid_until");
  Ok (mkKeyWire p k raw vf vu).

(** [if p != nil && *p != "" { parseTime }] *)
Definition parse_until (vu : option jstr) : result jstr (option Z) :=
  match vu with Some (c :: s) => t ← parseTime (c :: s); Ok (Some t) | _ => Ok None end.

Definition applyKeyUpsert (next : Snapshot) (payload : jstr) : result jstr Snapshot :=
  v ← unmarshal payload;
  p ← go_key v;
  if bool_decide (kw_KeyID p = []) then Throw (js "key.upsert: missing key_id")
  else if bool_decide (kw_PrincipalID p = []) then Throw (js "key.upsert: missing principal_id")
  else if bool_decide (kw_PublicKeyRaw p = []) then Throw (js "key.upsert: missing public_key_raw")
  else
    raw ← DecodePublicKeyRaw (kw_PublicKeyRaw p);
    vf ← parseTime (kw_ValidFrom p);
    vu ← parse_until (kw_ValidUntil p);
    if match vu with Some t => t <=? vf | None => false end
    then Throw (js "key.upsert: valid_until must be after valid_from")
    else Ok (set_keys (<[kw_KeyID p := mkKeyEntry (kw_PrincipalID p) (kw_KeyID p) raw vf vu]> (Keys next)) next).

Definition applyKeyRevoke (next : Snapshot) (payload : jstr) : result jstr Snapshot :=
  v ← unmarshal payload;
  k ← go_string (get v "key_id");
  if bool_decide (k = []) then Throw (js "key.revoke: missing key_id")
  else Ok (set_keys (delete k (Keys next)) next).

Definition mutateSnapshot (next : Snapshot) (eventType payload : jstr) : result jstr Snapshot :=
  if bool_decide (eventType = js "score.upsert") then applyScoreUpsert next payload
  else if bool_decide (eventType = js "score.delete") then applyScoreDelete next payload
  else if bool_decide (eventType = js "key.upsert") then applyKeyUpsert next payload
  else if bool_decide (eventType = js "key.revoke") then applyKeyRevoke next payload
  else if bool_decide (eventType = js "policy.replace") then
    v ← unmarshal payload;
    pol ← parsePolicyPayload v;
    Ok (mkSnap (HighWaterVersion next) (Scores next) (Keys next) (Some pol))
  else Ok next.

(** The store is only replaced when the whole event could be applied. *)
Definition ApplyEvent (now syncVersion : Z) (eventType payload : jstr) (s : Store) : result jstr unit * Store :=
  if syncVersion <=? 0 then (Throw (js "invalid sync_version"), s)
  else if syncVersion <=? HighWater s then (Ok tt, s)
  else match mutateSnapshot (CloneSnapshot (Load s)) eventType payload with
       | Throw e => (Throw e, s)
       | Ok next =>
           (Ok tt, NoteBytes now (Swap (mkSnap syncVersion (Scores next) (Keys next) (snPolicy next)) s))
       end.

Definition ApplySnapshot (now : Z) (snap : Snapshot) (s : Store) : Store := NoteBytes now (Swap snap s).

Definition AdvanceCursor (now highWater : Z) (s : Store) : Store := NoteBytes now (advanceHighWater highWater s).

(** ** [cpclient.go] and [validate.go] *)

(** The [data] struct of the response. *)
Record snapshotWire := mkWire {
  w_OK : bool; w_HighWaterVersion : jstr; w_Scores : list ScoreEntry; w_Keys : list cpKeyWire; w_Policy : option json }.

Definition raw_policy (v : json) : option json := match v with JUndef | JNull => None | _ => Some v end.

Definition go_data (ok : bool) (v : json) : result jstr snapshotWire :=
  h ← go_Number (get v "highWaterVersion");
  ss ← go_slice go_score (get v "scores");
  ks ← go_slice go_key (get v "keys");
  Ok (mkWire ok h ss ks (raw_policy (get v "policy"))).

(** A document without [ok] and without [data] is read as the bare struct. *)
Definition unmarshalSnapshotWire (doc : json) : result jstr snapshotWire :=
  doc ← go_struct doc;
  ok ← go_bool (get doc "ok");
  data ← match get doc "data" with JUndef => Ok JNull | v => go_struct v end;
  wire ← go_data ok data;
  if w_OK wire || negb (bool_decide (w_HighWaterVersion wire = [])) then Ok wire else go_data true doc.

(** Both [loadWireScores] and [loadWireKeys] convert an entry, refuse an id they
    have already seen, and store it. *)
Fixpoint load_fresh {W A} (entry : W → result jstr (jstr * A)) (duplicate : jstr) (l : list W) (m : gmap jstr A) :
  result jstr (gmap jstr A) :=
  match l with
  | [] => Ok m
  | w :: l' =>
      e ← entry w;
      match m !! e.1 with
      | Some _ => Throw duplicate
      | None => load_fresh entry duplicate l' (<[e.1 := e.2]> m)
      end
  end.

Definition score_entry (s : ScoreEntry) : result jstr (jstr * ScoreEntry) :=
  if bool_decide (es_principal_id s = []) then Throw (js "snapshot: score entry missing principal_id")
  else Ok (es_principal_id s, s).

Definition loadWireScores (l : list ScoreEntry) : result jstr (gmap jstr ScoreEntry) :=
  load_fresh score_entry (js "snapshot: duplicate principal_id") l ∅.

Definition wireKeyToEntry (k : cpKeyWire) : result jstr (jstr * KeyEntry) :=
  if bool_decide (kw_KeyID k = []) then Throw (js "snapshot: key entry missing key_id")
  else
    raw ← DecodePublicKeyRaw (kw_PublicKeyRaw k);
    vf ← parseTime (kw_ValidFrom k);
    vu ← parse_until (kw_ValidUntil k);
    Ok (kw_KeyID k, mkKeyEntry (kw_PrincipalID k) (kw_KeyID k) raw vf vu).

Definition loadWireKeys (l : list cpKeyWire) : result jstr (gmap jstr KeyEntry) :=
  load_fresh wireKeyToEntry (js "snapshot: duplicate key_id") l ∅.

(** [time.Time{}.IsZero]: 0001-01-01T00:00:00Z. *)
Definition ZERO_TIME : Z := -62135596800000.

Definition valid_score (e : jstr * ScoreEntry) : bool :=
  negb (bool_decide (e.1 = [])) && negb (bool_decide (es_principal_id e.2 = [])) && bool_decide (e.1 = es_principal_id e.2).

Definition valid_key (e : jstr * KeyEntry) : bool :=
  let k := e.2 in
  negb (bool_decide (e.1 = [])) && negb (bool_decide (ke_KeyID k = [])) && negb (bool_decide (ke_PrincipalID k = []))
  && bool_decide (e.1 = ke_KeyID k) && bool_decide (length (ke_PublicKeyRaw k) = 32%nat)
  && negb (ke_ValidFrom k =? ZERO_TIME)
  && match ke_ValidUntil k with Some u => ke_ValidFrom k <? u | None => true end.

(** Maps are walked in no particular order, so the text of the error is not fixed. *)
Definition validateSnapshot (snap : Snapshot) : result jstr Snapshot :=
  if HighWaterVersion snap <? 0 then Throw (js "negative highWaterVersion")
  else if negb (forallb valid_score (map_to_list (Scores snap))) then Throw (js "invalid score entry")
  else if negb (forallb valid_key (map_to_list (Keys snap))) then Throw (js "invalid key entry")
  else match snPolicy snap with
       | None => Ok snap
       | Some p => p' ← normalizeAndValidatePolicy p; Ok (mkSnap (HighWaterVersion snap) (Scores snap) (Keys snap) (Some p'))
       end.

Definition parseSnapshotJSON (data : jstr) : result jstr Snapshot :=
  doc ← match Unmarshal data with Some v => Ok v | None => Throw (js "snapshot json") end;
  wire ← unmarshalSnapshotWire doc;
  if negb (w_OK wire) then Throw (js "snapshot: ok=false")
  else if bool_decide (w_HighWaterVersion wire = []) then Throw (js "snapshot: missing highWaterVersion")
  else match parse_int64 (w_HighWaterVersion wire) with
       | None => Throw (js "snapshot: invalid highWaterVersion")
       | Some h =>
           if h <? 0 then Throw (js "snapshot: negative highWaterVersion")
           else
             scores ← loadWireScores (w_Scores wire);
             keys ← loadWireKeys (w_Keys wire);
             policy ← match w_Policy wire with
                      | None => Ok None
                      | Some v => p ← parsePolicyPayload v; Ok (Some p)
                      end;
             validateSnapshot (mkSnap h scores keys policy)
       end.

End edge.
End EdgeStore.

(** ** The control plane's side of the wire *)
Module SnapshotWire.
Import SyncLog ScoreWriter.

(** [encode(raw, 'base64')] breaks its output into lines of 76 characters. *)
Fixpoint wrap76 (fuel : nat) (s : jstr) : jstr :=
  match fuel with
  | O => s
  | S f => if bool_decide (length s ≤ 76)%nat then s else take 76 s ++ [10] ++ wrap76 f (drop 76 s)
  end.

Definition pg_base64 (raw : list Z) : jstr := let s := base64 raw in wrap76 (length s) s.

Definition score_json (r : EngineScore) : json :=
  JObj [(js "principal_id", JStr (es_principal_id r)); (js "entity_kind", JStr (es_entity_kind r));
        (js "score", JNum (num_of_Z (es_score r))); (js "blacklisted", JBool (es_blacklisted r));
        (js "score_reason", JStr (es_score_reason r))].

(** A [Date] in a JSON document. *)
Definition date_json (t : Z) : json := JStr (toISOString t).

Definition key_json (k : Snapshot.SnapshotKey) : json :=
  JObj [(js "principal_id", JStr (Snapshot.sk_principal_id k)); (js "key_id", JStr (Snapshot.sk_key_id k));
        (js "public_key_raw", JStr (pg_base64 (Snapshot.sk_public_key_raw k)));
        (js "valid_from", date_json (Snapshot.sk_valid_from k));
        (js "valid_until", match Snapshot.sk_valid_until k with Some u => date_json u | None => JNull end)].

(** The [data] of the response; [policy: undefined] is left out. *)
Definition snapshot_data (s : Snapshot.Snapshot) : json :=
  JObj ([(js "highWaterVersion", JNum (num_of_Z (Snapshot.highWaterVersion s)));
         (js "scores", JArr (score_json <$> Snapshot.snap_scores s));
         (js "keys", JArr (key_json <$> Snapshot.snap_keys s))]
        ++ match Snapshot.snap_policy s with Some p => [(js "policy", PolicyRepo.snapshot_json p)] | None => [] end).

(** The text of [ok(res, snapshot)]. *)
Definition snapshot_text (s : Snapshot.Snapshot) : jstr := stringify (ok_body (snapshot_data s)).

End SnapshotWire.

(** ** Lemmas *)
Module EdgeInv.
Import SyncLog ScoreWriter EdgePolicy EdgeStore SnapshotWire.

(** *** Reading the wire forms *)

Lemma go_score_json r : 0 ≤ es_score r < 2 ^ 53 → go_score (score_json r) = Ok r.
Proof.
  intros Hs. unfold go_score. change (go_struct (score_json r)) with (Ok (score_json r) : result jstr json).
  change (get (score_json r) "principal_id") with (JStr (es_principal_id r)).
  change (get (score_json r) "entity_kind") with (JStr (es_entity_kind r)).
  change (get (score_json r) "score") with (JNum (num_of_Z (es_score r))).
  change (get (score_json r) "blacklisted") with (JBool (es_blacklisted r)).
  change (get (score_json r) "score_reason") with (JStr (es_score_reason r)).
  rewrite go_int_num by done. by destruct r.
Qed.

Definition key_wire (k : Snapshot.SnapshotKey) : cpKeyWire :=
  mkKeyWire (Snapshot.sk_principal_id k) (Snapshot.sk_key_id k) (pg_base64 (Snapshot.sk_public_key_raw k))
    (toISOString (Snapshot.sk_valid_from k)) (toISOString <$> Snapshot.sk_valid_until k).

Lemma go_key_json k : go_key (key_json k) = Ok (key_wire k).
Proof. destruct k as [p i raw vf [vu|]]; reflexivity. Qed.

Definition wire_of (s : Snapshot.Snapshot) (ss : list ScoreEntry) : snapshotWire :=
  mkWire true (num_to_string (num_of_Z (Snapshot.highWaterVersion s))) ss (key_wire <$> Snapshot.snap_keys s)
    (PolicyRepo.snapshot_json <$> Snapshot.snap_policy s).

Lemma go_data_snapshot s :
  go_data true (snapshot_data s) =
  (ss ← go_elems go_score (score_json <$> Snapshot.snap_scores s); Ok (wire_of s ss)).
Proof.
  assert (Hp : raw_policy (get (snapshot_data s) "policy") = PolicyRepo.snapshot_json <$> Snapshot.snap_policy s)
    by (by destruct s as [? ? ? [p|]]).
  unfold go_data. rewrite Hp.
  change (get (snapshot_data s) "highWaterVersion") with (JNum (num_of_Z (Snapshot.highWaterVersion s))).
  change (get (snapshot_data s) "scores") with (JArr (score_json <$> Snapshot.snap_scores s)).
  change (get (snapshot_data s) "keys") with (JArr (key_json <$> Snapshot.snap_keys s)).
  cbn [go_slice go_Number]. rewrite (go_elems_all go_key key_json key_wire)
    by (apply Forall_forall; intros k _; apply go_key_json).
  unfold mbind, result_bind. by destruct (go_elems go_score _).
Qed.

Lemma unmarshal_snapshot s :
  unmarshalSnapshotWire (ok_body (snapshot_data s)) =
  (ss ← go_elems go_score (score_json <$> Snapshot.snap_scores s); Ok (wire_of s ss)).
Proof.
  rewrite <- go_data_snapshot. unfold unmarshalSnapshotWire.
  change (go_struct (ok_body (snapshot_data s))) with (Ok (ok_body (snapshot_data s)) : result jstr json).
  unfold mbind, result_bind at 1. change (get (ok_body (snapshot_data s)) "data") with (snapshot_data s).
  change (go_bool (get (ok_body (snapshot_data s)) "ok")) with (Ok true : result jstr bool).
  change (match snapshot_data s with JUndef => _ | _ => _ end) with (Ok (snapshot_data s) : result jstr json).
  cbn [result_bind]. rewrite go_data_snapshot. unfold mbind, result_bind. by destruct (go_elems go_score _).
Qed.

Lemma wrap76_filter fuel s :
  filter (λ c : Z, c ≠ 10 ∧ c ≠ 13) (wrap76 fuel s) = filter (λ c : Z, c ≠ 10 ∧ c ≠ 13) s.
Proof.
  revert s. induction fuel as [|f IH]; intros s; cbn [wrap76]; [done|]. case_bool_decide; [done|].
  rewrite !filter_app, IH. change (filter _ [10]) with ([] : list Z). cbn [app].
  by rewrite <- filter_app, take_drop.
Qed.

Lemma StdEncoding_pg raw : Forall byte raw → StdEncoding (pg_base64 raw) = Some raw.
Proof.
  intros H. transitivity (StdEncoding (base64 raw)); [|by apply StdEncoding_base64].
  unfold StdEncoding, decode64, pg_base64. by rewrite wrap76_filter.
Qed.

Lemma DecodePublicKeyRaw_pg raw : Forall byte raw →
  DecodePublicKeyRaw (pg_base64 raw) =
  if bool_decide (length raw = 32%nat) then Ok raw else Throw (js "public key length").
Proof. intros H. unfold DecodePublicKeyRaw. by rewrite StdEncoding_pg. Qed.

(** *** Loading entries *)

Lemma load_fresh_Ok {W A} (entry : W → result jstr (jstr * A)) dup l m m' :
  load_fresh entry dup l m = Ok m' ↔
  ∃ es, go_elems entry l = Ok es ∧ NoDup es.*1 ∧ (∀ i, i ∈ es.*1 → m !! i = None) ∧ m' = list_to_map es ∪ m.
Proof.
  revert m m'. induction l as [|w l IH]; intros m m'; cbn [load_fresh go_elems].
  { split.
    - intros [= <-]. exists []. split_and!; [done|apply NoDup_nil_2|set_solver|simpl; by rewrite (left_id ∅ _)].
    - intros (es & [= <-] & _ & _ & ->). simpl. by rewrite (left_id ∅ _). }
  destruct (entry w) as [[i a]|x]; cbn [mbind result_bind fst snd].
  2:{ split; [done|]. by intros (es & ? & _). }
  destruct (m !! i) as [b|] eqn:Hi.
  { split; [done|]. intros (es & H & _ & Hf & _). destruct (go_elems entry l) as [es'|]; [|done].
    injection H as <-. specialize (Hf i ltac:(by left)). congruence. }
  rewrite IH. split.
  - intros (es & -> & Hnd & Hf & ->). exists ((i, a) :: es).
    assert (i ∉ es.*1) by (intros H%Hf; by rewrite lookup_insert_eq in H).
    split_and!; [done|by apply NoDup_cons_2| |].
    + intros j [->|Hj]%elem_of_cons; [done|]. specialize (Hf j Hj).
      by apply lookup_insert_None in Hf as [? _].
    + simpl. rewrite <- insert_union_r, insert_union_l; [done|]. by apply not_elem_of_list_to_map.
  - intros (es & H & Hnd & Hf & ->). destruct (go_elems entry l) as [es'|]; [|done]. injection H as <-.
    apply NoDup_cons in Hnd as [Hni Hnd]. exists es'. split_and!; [done|done| |].
    + intros j Hj. apply lookup_insert_None. split; [apply Hf; by right|]. intros <-. by apply Hni.
    + simpl. rewrite <- insert_union_r, insert_union_l; [done|]. by apply not_elem_of_list_to_map.
Qed.

Lemma go_elems_Ok {W A} (f : W → result jstr A) l es : go_elems f l = Ok es ↔ Forall2 (λ w e, f w = Ok e) l es.
Proof.
  revert es. induction l as [|w l IH]; intros es; cbn [go_elems].
  { split; [intros [= <-]; constructor|by inversion 1]. }
  destruct (f w) as [e|x] eqn:E; cbn [mbind result_bind].
  2:{ split; [done|]. inversion 1; congruence. }
  destruct (go_elems f l) as [es'|y]; cbn.
  - split; [intros [= <-]; constructor; [done|by apply IH]|]. inversion 1 as [|? e' ? l2 He Hl]; subst.
    apply IH in Hl. congruence.
  - split; [done|]. inversion 1 as [|? e' ? l2 He Hl]; subst. apply IH in Hl. congruence.
Qed.

Lemma ActivePolicy_normal p : PolicyInv.policy_valid p → normalizeAndValidatePolicy (of_row p) = Ok (of_row p).
Proof.
  intros [_ Hb Hu _ _ _ _]. unfold normalizeAndValidatePolicy, of_row. cbn [ep_MaxSnapshotAgeSeconds
    ep_BelowThresholdAction ep_UnsignedAction ep_Threshold ep_FailOpenExpired ep_NoDropDecisions ep_AllowFingerprints ep_DenyFingerprints].
  set (a := if pol_max_snapshot_age_seconds p =? 0 then 300 else _).
  assert (Ha : 60 ≤ clampAge a ≤ 1800) by (unfold clampAge; destruct (Z.ltb_spec a 60), (Z.ltb_spec 1800 a); lia).
  rewrite (proj2 (Z.eqb_neq (clampAge a) 0)) by lia.
  assert (clampAge (clampAge a) = clampAge a) as ->.
  { unfold clampAge at 1. rewrite (proj2 (Z.ltb_ge (clampAge a) 60)), (proj2 (Z.ltb_ge 1800 (clampAge a))) by lia. done. }
  rewrite (bool_decide_eq_false_2 (pol_below_threshold_action p = [])) by (intros E; rewrite E in Hb; revert Hb; by apply PolicyInv.no_empty_below).
  rewrite (bool_decide_eq_false_2 (pol_unsigned_action p = [])) by (intros E; rewrite E in Hu; revert Hu; by apply PolicyInv.no_empty_unsigned).
  by rewrite !bool_decide_eq_true_2 by done.
Qed.

(** The distinct ids an accepted snapshot has. *)
Definition key_ids (s : Snapshot.Snapshot) : list jstr := Snapshot.sk_key_id <$> Snapshot.snap_keys s.

Section reading.
Context (Unmarshal : jstr → option json) (time_Parse : jstr → option Z).

Lemma wireKeyToEntry_id w e : wireKeyToEntry time_Parse w = Ok e → e.1 = kw_KeyID w.
Proof. unfold wireKeyToEntry. case_bool_decide; [done|]. intros He. by invert_ok; subst. Qed.

Lemma accepted_ids_distinct s snap :
  Unmarshal (snapshot_text s) = Some (ok_body (snapshot_data s)) →
  parseSnapshotJSON Unmarshal time_Parse (snapshot_text s) = Ok snap → NoDup (key_ids s).
Proof.
  intros Hu. unfold parseSnapshotJSON. rewrite Hu. cbn [mbind result_bind]. rewrite unmarshal_snapshot.
  destruct (go_elems go_score _) as [ss|x]; [|done]. unfold wire_of. cbn [result_bind mbind w_OK w_HighWaterVersion w_Scores w_Keys w_Policy negb].
  case_bool_decide; [done|]. destruct (parse_int64 _) as [h|]; [|done]. destruct (h <? 0); [done|].
  destruct (loadWireScores ss) as [sc|]; [|done]. cbn [result_bind].
  destruct (loadWireKeys time_Parse _) as [ks|] eqn:Hk; [|done]. intros _.
  apply load_fresh_Ok in Hk as (es & Hes & Hnd & _ & _). apply go_elems_Ok in Hes.
  assert (es.*1 = key_ids s) as <-; [|done]. unfold key_ids.
  apply Forall2_fmap_l in Hes. revert es Hes Hnd. induction (Snapshot.snap_keys s) as [|k l IH]; intros es Hes Hnd.
  - by inversion Hes.
  - inversion Hes as [|? e ? es' He Hes']; subst. apply wireKeyToEntry_id in He. rewrite !fmap_cons in *.
    apply NoDup_cons in Hnd as [_ Hnd]. rewrite He. simpl. f_equal. by apply IH.
Qed.

(** *** Exactly which snapshots are accepted *)

(** A key the edge takes. *)
Definition key_fit (k : Snapshot.SnapshotKey) : bool :=
  negb (bool_decide (Snapshot.sk_key_id k = [])) && negb (bool_decide (Snapshot.sk_principal_id k = []))
  && bool_decide (length (Snapshot.sk_public_key_raw k) = 32%nat)
  && negb (Snapshot.sk_valid_from k =? ZERO_TIME)
  && match Snapshot.sk_valid_until k with Some u => Snapshot.sk_valid_from k <? u | None => true end.

Definition entry_of (k : Snapshot.SnapshotKey) : jstr * KeyEntry :=
  (Snapshot.sk_key_id k, mkKeyEntry (Snapshot.sk_principal_id k) (Snapshot.sk_key_id k) (Snapshot.sk_public_key_raw k)
     (Snapshot.sk_valid_from k) (Snapshot.sk_valid_until k)).

(** What the edge holds after loading [s], for a control plane in state [d]. *)
Definition edge_of (s : Snapshot.Snapshot) (d : db) : EdgeStore.Snapshot :=
  mkSnap (high_water d) (loadExistingScores d) (list_to_map (entry_of <$> Snapshot.snap_keys s))
    (of_row <$> Snapshot.snap_policy s).

(** Bytes are bytes and years have four digits. *)
Record key_sane (k : Snapshot.SnapshotKey) : Prop := {
  sane_bytes : Forall byte (Snapshot.sk_public_key_raw k);
  sane_from : iso_range (Snapshot.sk_valid_from k);
  sane_until : ∀ u, Snapshot.sk_valid_until k = Some u → iso_range u
}.

Hypothesis time_Parse_iso : ∀ t, iso_range t → time_Parse (toISOString t) = Some t.

Lemma parseTime_iso t : iso_range t → parseTime time_Parse (toISOString t) = Ok t.
Proof.
  intros Ht. unfold parseTime. pose proof (toISOString_nonempty t). destruct (toISOString t) eqn:E; [done|].
  rewrite <- E. by rewrite time_Parse_iso.
Qed.

Lemma parse_until_iso o : (∀ u, o = Some u → iso_range u) → parse_until time_Parse (toISOString <$> o) = Ok o.
Proof.
  intros Ho. destruct o as [u|]; [|done]. specialize (Ho u eq_refl). unfold parse_until.
  change (toISOString <$> Some u) with (Some (toISOString u)). pose proof (toISOString_nonempty u). destruct (toISOString u) eqn:E; [done|]. rewrite <- E. by rewrite parseTime_iso.
Qed.

Lemma wireKeyToEntry_wire k : key_sane k →
  wireKeyToEntry time_Parse (key_wire k) =
  if bool_decide (Snapshot.sk_key_id k = []) then Throw (js "snapshot: key entry missing key_id")
  else if bool_decide (length (Snapshot.sk_public_key_raw k) = 32%nat) then Ok (entry_of k)
  else Throw (js "public key length").
Proof.
  intros [Hb Hf Hu]. unfold wireKeyToEntry, key_wire. cbn [kw_KeyID kw_PublicKeyRaw kw_ValidFrom kw_ValidUntil kw_PrincipalID].
  case_bool_decide; [done|]. rewrite DecodePublicKeyRaw_pg by done. case_bool_decide; [|done].
  cbn [mbind result_bind]. rewrite parseTime_iso by done. cbn [result_bind]. by rewrite parse_until_iso.
Qed.

Lemma valid_key_entry k : valid_key (entry_of k) = key_fit k.
Proof.
  unfold valid_key, entry_of, key_fit. cbn [fst snd ke_KeyID ke_PrincipalID ke_PublicKeyRaw ke_ValidFrom ke_ValidUntil].
  rewrite (bool_decide_eq_true_2 (Snapshot.sk_key_id k = Snapshot.sk_key_id k)) by done.
  destruct (bool_decide (Snapshot.sk_key_id k = [])), (bool_decide (Snapshot.sk_principal_id k = [])); done.
Qed.

Lemma entry_ids ks : (entry_of <$> ks).*1 = Snapshot.sk_key_id <$> ks.
Proof. by rewrite <- list_fmap_compose. Qed.

Lemma forallb_map_entries ks : NoDup (Snapshot.sk_key_id <$> ks) →
  forallb valid_key (map_to_list (list_to_map (entry_of <$> ks) : gmap jstr KeyEntry)) = forallb key_fit ks.
Proof.
  intros Hnd. rewrite <- entry_ids in Hnd. apply eq_true_iff_eq. rewrite !forallb_forall. split; intros H x Hx.
  - rewrite <- valid_key_entry. apply H. apply list_elem_of_In. rewrite map_to_list_to_map by done.
    apply list_elem_of_fmap_2. by apply list_elem_of_In.
  - apply list_elem_of_In in Hx. rewrite map_to_list_to_map in Hx by done.
    apply list_elem_of_fmap in Hx as (k & -> & Hk). rewrite valid_key_entry. apply H. by apply list_elem_of_In.
Qed.

(** The keys of a snapshot are loaded exactly when they fit and their ids differ. *)
Lemma loadWireKeys_Ok ks m : Forall key_sane ks →
  loadWireKeys time_Parse (key_wire <$> ks) = Ok m →
  m = list_to_map (entry_of <$> ks) ∧ NoDup (Snapshot.sk_key_id <$> ks).
Proof.
  intros Hs Hl. apply load_fresh_Ok in Hl as (es & Hes & Hnd & _ & ->). rewrite (right_id ∅ _).
  assert (es = entry_of <$> ks) as ->; [|by rewrite entry_ids in Hnd].
  apply go_elems_Ok, Forall2_fmap_l in Hes. clear Hnd. revert es Hes. induction Hs as [|k ks Hk _ IH]; intros es Hes.
  - by inversion Hes.
  - inversion Hes as [|? e ? es' He Hes']; subst. rewrite fmap_cons. f_equal; [|by apply IH].
    change (wireKeyToEntry time_Parse (key_wire k) = Ok e) in He. rewrite wireKeyToEntry_wire in He by done. do 2 (case_bool_decide; try done). by injection He.
Qed.

Lemma key_fit_spec k : key_fit k = true → Snapshot.sk_key_id k ≠ [] ∧ length (Snapshot.sk_public_key_raw k) = 32%nat.
Proof. unfold key_fit. intros H. rewrite !andb_true_iff in H. destruct H as [[[[H1 _] H2] _] _]. by bool_to_prop. Qed.

Lemma loadWireKeys_fit ks : Forall key_sane ks → forallb key_fit ks = true → NoDup (Snapshot.sk_key_id <$> ks) →
  loadWireKeys time_Parse (key_wire <$> ks) = Ok (list_to_map (entry_of <$> ks)).
Proof.
  intros Hs Hf Hnd. apply load_fresh_Ok. exists (entry_of <$> ks).
  split_and!; [|by rewrite entry_ids|done|by rewrite (right_id ∅ _)].
  apply go_elems_all. rewrite forallb_forall in Hf. rewrite Forall_forall in *. intros k Hk.
  destruct (key_fit_spec k) as [H1 H2]; [by apply Hf, list_elem_of_In|].
  rewrite wireKeyToEntry_wire by auto. rewrite bool_decide_eq_false_2, bool_decide_eq_true_2 by done. done.
Qed.

(** The rows of the score table have ids and scores a number can hold. *)
Definition scores_sane (d : db) : Prop :=
  ∀ p r, network_scores d !! p = Some r → p ≠ [] ∧ 0 ≤ ns_score r < 2 ^ 53.

Lemma snapshot_scores_read now t d : scores_wf d → scores_sane d →
  let s := Snapshot.getSnapshot now t d in
  go_elems go_score (score_json <$> Snapshot.snap_scores s) = Ok (Snapshot.snap_scores s) ∧
  loadWireScores (Snapshot.snap_scores s) = Ok (loadExistingScores d) ∧
  forallb valid_score (map_to_list (loadExistingScores d)) = true.
Proof.
  intros Hw Hs s.
  assert (Hin : ∀ r, r ∈ Snapshot.snap_scores s → es_principal_id r ≠ [] ∧ 0 ≤ es_score r < 2 ^ 53).
  { intros r ([p row] & -> & Hr%elem_of_map_to_list)%list_elem_of_fmap. destruct (Hs _ _ Hr). simpl. by rewrite (Hw _ _ Hr). }
  split_and!.
  - rewrite <- (list_fmap_id (Snapshot.snap_scores s)) at 2. apply (go_elems_all go_score score_json id).
    apply Forall_forall. intros r Hr. apply go_score_json. by apply Hin.
  - apply load_fresh_Ok. exists ((λ r, (es_principal_id r, r)) <$> Snapshot.snap_scores s). split_and!.
    + rewrite <- (list_fmap_id (Snapshot.snap_scores s)) at 1. apply go_elems_all. apply Forall_forall. intros r Hr.
      unfold score_entry, id. rewrite bool_decide_eq_false_2 by (by apply Hin). done.
    + rewrite <- list_fmap_compose. unfold s, Snapshot.getSnapshot. cbn [Snapshot.snap_scores].
      rewrite <- list_fmap_compose. erewrite list_fmap_ext; [apply NoDup_fst_map_to_list|].
      intros i [p row] Hr. apply list_elem_of_lookup_2, elem_of_map_to_list in Hr. by rewrite <- (Hw _ _ Hr).
    + done.
    + rewrite (right_id ∅ _). symmetry. by apply Snapshot.edge_table_loads.
  - apply forallb_forall. intros [p r] Hr%list_elem_of_In%elem_of_map_to_list.
    unfold loadExistingScores in Hr. apply lookup_fmap_Some in Hr as (row & <- & Hr).
    destruct (Hs _ _ Hr). unfold valid_score. simpl. rewrite (Hw _ _ Hr).
    rewrite bool_decide_eq_false_2, bool_decide_eq_true_2 by done. done.
Qed.

(** What the edge does with the document, on the whole. *)
Lemma parseSnapshotJSON_eq now t d :
  let s := Snapshot.getSnapshot now t d in
  Unmarshal (snapshot_text s) = Some (ok_body (snapshot_data s)) →
  scores_wf d → scores_sane d → high_water d < 2 ^ 53 →
  (∀ p, Snapshot.snap_policy s = Some p → PolicyInv.policy_valid p) →
  parseSnapshotJSON Unmarshal time_Parse (snapshot_text s) =
  (keys ← loadWireKeys time_Parse (key_wire <$> Snapshot.snap_keys s);
   if forallb valid_key (map_to_list keys)
   then Ok (mkSnap (high_water d) (loadExistingScores d) keys (of_row <$> Snapshot.snap_policy s))
   else Throw (js "invalid key entry")).
Proof.
  intros s Hu Hw Hs Hh Hp. unfold parseSnapshotJSON. rewrite Hu. cbn [mbind result_bind]. rewrite unmarshal_snapshot.
  destruct (snapshot_scores_read now t d Hw Hs) as (H1 & H2 & H3). fold s in H1, H2. rewrite H1.
  unfold wire_of. cbn [result_bind mbind w_OK w_HighWaterVersion w_Scores w_Keys w_Policy negb].
  change (Snapshot.highWaterVersion s) with (high_water d).
  assert (H0 : 0 ≤ high_water d) by apply max_or_zero_nonneg.
  destruct (num_to_string_int (high_water d)) as [Hd Hv]; [lia|].
  rewrite bool_decide_eq_false_2 by (intros E; by rewrite E in Hd).
  rewrite parse_digits, Hv by (done || unfold INT64_MAX; lia). rewrite (proj2 (Z.ltb_ge _ _)) by done.
  rewrite H2. cbn [result_bind]. destruct (loadWireKeys time_Parse _) as [keys|]; [|done]. cbn [result_bind].
  unfold mbind, result_bind. destruct (Snapshot.snap_policy s) as [p|]; cbn [fmap option_fmap option_map];
    [rewrite PolicyInv.edge_reads_snapshot by auto|]; unfold validateSnapshot; cbn [HighWaterVersion Scores Keys snPolicy];
    rewrite (proj2 (Z.ltb_ge _ _)) by done; rewrite H3; cbn [negb]; destruct (forallb valid_key _); try done.
  cbn [negb]. unfold mbind, result_bind. by rewrite ActivePolicy_normal by auto.
Qed.

(** Whatever keys and policy a snapshot has: if it is accepted, its scores and its
    version are the control plane's. *)
Lemma accepted_contents now t d snap :
  let s := Snapshot.getSnapshot now t d in
  Unmarshal (snapshot_text s) = Some (ok_body (snapshot_data s)) →
  scores_wf d → scores_sane d → high_water d < 2 ^ 53 →
  parseSnapshotJSON Unmarshal time_Parse (snapshot_text s) = Ok snap →
  Scores snap = loadExistingScores d ∧ HighWaterVersion snap = high_water d.
Proof.
  intros s Hu Hw Hs Hh. unfold parseSnapshotJSON. rewrite Hu. cbn [mbind result_bind]. rewrite unmarshal_snapshot.
  destruct (snapshot_scores_read now t d Hw Hs) as (H1 & H2 & _). fold s in H1, H2. rewrite H1.
  unfold wire_of. cbn [result_bind mbind w_OK w_HighWaterVersion w_Scores w_Keys w_Policy negb].
  change (Snapshot.highWaterVersion s) with (high_water d).
  assert (H0 : 0 ≤ high_water d) by apply max_or_zero_nonneg.
  destruct (num_to_string_int (high_water d)) as [Hd Hv]; [lia|].
  rewrite bool_decide_eq_false_2 by (intros E; by rewrite E in Hd).
  rewrite parse_digits, Hv by (done || unfold INT64_MAX; lia). rewrite (proj2 (Z.ltb_ge _ _)) by done.
  rewrite H2. cbn [mbind result_bind]. destruct (loadWireKeys time_Parse _) as [keys|]; [|done]. cbn [mbind result_bind].
  intros Hok. apply bind_Ok in Hok as (pol & _ & Hok). revert Hok. unfold validateSnapshot.
  destruct (_ <? 0); [done|]. destruct (negb _); [done|]. destruct (negb _); [done|]. cbn [snPolicy].
  destruct pol as [p|]; intros Hok; [apply bind_Ok in Hok as (p' & _ & Hok)|]; by injection Hok as <-.
Qed.

End reading.
(** ** Properties *)

(** C2. An edge loads a snapshot exactly, or not at all: for a control plane whose
    scores fit a number and whose active policy is valid, the document of GET
    /v1/sync/snapshot is accepted precisely when every current key has a non-empty
    id and principal, 32 bytes and a window that is not empty, and no two current
    keys (of any principals) share an id; the edge then holds the control plane's
    score table, high-water mark, keys and active policy, and otherwise it reports
    an error and keeps what it had. *)
Theorem snapshot_loads_exactly Unmarshal time_Parse now t d :
  let s := Snapshot.getSnapshot now t d in
  (∀ x, iso_range x → time_Parse (toISOString x) = Some x) →
  Unmarshal (snapshot_text s) = Some (ok_body (snapshot_data s)) →
  scores_wf d → scores_sane d → high_water d < 2 ^ 53 → Forall key_sane (Snapshot.snap_keys s) →
  (∀ p, Snapshot.snap_policy s = Some p → PolicyInv.policy_valid p) →
  if forallb key_fit (Snapshot.snap_keys s) && bool_decide (NoDup (key_ids s))
  then parseSnapshotJSON Unmarshal time_Parse (snapshot_text s) = Ok (edge_of s d)
  else ∃ e, parseSnapshotJSON Unmarshal time_Parse (snapshot_text s) = Throw e.
Proof.
  intros s Hiso Hu Hw Hs Hh Hk Hp. pose proof (parseSnapshotJSON_eq Unmarshal time_Parse now t d Hu Hw Hs Hh Hp) as Heq.
  fold s in Heq. rewrite Heq. destruct (forallb key_fit _) eqn:Hf; [case_bool_decide as Hnd|]; cbn [andb].
  - rewrite loadWireKeys_fit by done. cbn [mbind result_bind]. by rewrite forallb_map_entries, Hf.
  - destruct (loadWireKeys time_Parse _) as [m|e] eqn:Hl; [|by exists e].
    by apply loadWireKeys_Ok in Hl as [_ Hl].
  - destruct (loadWireKeys time_Parse _) as [m|e] eqn:Hl; [|by exists e].
    apply loadWireKeys_Ok in Hl as [-> Hl]; [|done..]. cbn [mbind result_bind].
    rewrite forallb_map_entries, Hf by done. by eexists.
Qed.

Lemma current_key_listed now t d i k :
  principal_keys d !! i = Some k → Snapshot.key_current now k = true →
  Snapshot.mkSnapKey (k_principal_id k) (k_key_id k) (k_public_key_raw k) (k_valid_from k) (k_valid_until k)
    ∈ Snapshot.snap_keys (Snapshot.getSnapshot now t d).
Proof.
  intros Hk Hc. cbn [Snapshot.getSnapshot Snapshot.snap_keys]. apply list_elem_of_fmap. exists k. split; [done|].
  apply list_elem_of_filter. split; [by rewrite Hc|]. apply elem_of_values. by exists i.
Qed.

Lemma NoDup_fmap_inj_on {A B} (f : A → B) l x y : NoDup (f <$> l) → x ∈ l → y ∈ l → f x = f y → x = y.
Proof.
  intros Hnd [i Hi]%list_elem_of_lookup [j Hj]%list_elem_of_lookup Hf.
  assert (i = j) as ->; [|congruence]. eapply NoDup_lookup; [exact Hnd| |]; rewrite list_lookup_fmap.
  - by rewrite Hi.
  - rewrite Hj. simpl. by rewrite Hf.
Qed.

(** C29. One name for two keys stops every edge: the key table is unique per (principal,
    key id), so two principals may both register a key called [kid]; from then on
    no edge of any tenant can load a snapshot, neither to start nor to recover, as
    long as both keys are current. *)
Theorem shared_key_id_blocks_edges Unmarshal time_Parse arr jsonb now now1 now2 t kid p1 p2 raw1 raw2 jwk1 jwk2 h1 h2 k1 k2 d d1 d2 :
  p1 ≠ p2 →
  PrincipalRepo.addKey arr jsonb now1 p1 kid raw1 jwk1 h1 d = (Ok k1, d1) →
  PrincipalRepo.addKey arr jsonb now2 p2 kid raw2 jwk2 h2 d1 = (Ok k2, d2) →
  let s := Snapshot.getSnapshot now t d2 in
  Unmarshal (snapshot_text s) = Some (ok_body (snapshot_data s)) →
  ∃ e, parseSnapshotJSON Unmarshal time_Parse (snapshot_text s) = Throw e.
Proof.
  intros Hne H1 H2 s Hu. destruct (parseSnapshotJSON Unmarshal time_Parse (snapshot_text s)) as [snap|e] eqn:Hp; [|by exists e].
  exfalso. apply accepted_ids_distinct in Hp; [|done].
  revert H1. unfold PrincipalRepo.addKey. destruct (PrincipalRepo.jsonb_param _ _ jwk1) as [[stored1|]|]; [|done|done].
  destruct (_ || _); [done|]. destruct (negb _); [done|]. intros [= <- <-].
  revert H2. unfold PrincipalRepo.addKey. destruct (PrincipalRepo.jsonb_param _ _ jwk2) as [[stored2|]|]; [|done|done].
  destruct (_ || _); [done|]. destruct (negb _); [done|]. intros [= <- <-].
  match type of s with _ => set (d' := set_principal_keys _ _) in s end.
  assert (L1 : principal_keys d' !! (p1, kid) = Some (mkPrincipalKey p1 kid raw1 stored1 h1 None now1 None None)).
  { unfold d'. cbn [principal_keys set_principal_keys]. rewrite lookup_insert_ne by congruence. by rewrite lookup_insert_eq. }
  assert (L2 : principal_keys d' !! (p2, kid) = Some (mkPrincipalKey p2 kid raw2 stored2 h2 None now2 None None)).
  { unfold d'. cbn [principal_keys set_principal_keys]. by rewrite lookup_insert_eq. }
  pose proof (current_key_listed now t d' _ _ L1 eq_refl) as E1.
  pose proof (current_key_listed now t d' _ _ L2 eq_refl) as E2. unfold key_ids in Hp.
  pose proof (NoDup_fmap_inj_on _ _ _ _ Hp E1 E2 eq_refl) as E. cbn [k_principal_id] in E. by injection E.
Qed.

(** ** Witnesses: a control plane with one score, one policy and one key. *)

(** A decoder that knows one document. *)
Definition knows (v : json) : jstr → option json := λ text, if decide (text = stringify v) then Some v else None.

Lemma knows_it v : knows v (stringify v) = Some v.
Proof. unfold knows. by rewrite decide_True. Qed.

Definition key_of (p k : string) (raw : list Z) (hash : string) : PrincipalKey :=
  mkPrincipalKey (js p) (js k) raw JNull (js hash) None 1785578400123 None None.

Definition edge_db : db :=
  set_principal_keys {[(js "p1", js "k1") := key_of "p1" "k1" (repeat 7 32) "h1"]}
    (set_policies {[js "u1" := PolicyInv.strict_row]} example_db).

Definition edge_snap : Snapshot.Snapshot := Snapshot.getSnapshot 5 (js "t") edge_db.

Lemma snapshot_loads_exactly_witness :
  parseSnapshotJSON (knows (ok_body (snapshot_data edge_snap))) parse_iso (snapshot_text edge_snap) =
    Ok (edge_of edge_snap edge_db) ∧
  Scores (edge_of edge_snap edge_db) = {[js "p2" := example_row "p2" 40]}.
Proof.
  split; [|vm_compute; reflexivity].
  exact (snapshot_loads_exactly (knows (ok_body (snapshot_data edge_snap))) parse_iso 5 (js "t") edge_db
    parse_iso_toISOString (knows_it _) (proj2 example_db_wf)
    ltac:(intros p r H; cbn in H; apply lookup_singleton_Some in H as [<- <-]; split; [discriminate|simpl; lia])
    ltac:(vm_compute; reflexivity)
    ltac:(vm_compute; constructor; [|constructor]; constructor;
          [repeat constructor; discriminate|split; discriminate|discriminate])
    ltac:(intros p H; vm_compute in H; injection H as <-; exact PolicyInv.strict_row_valid)).
Defined.

Lemma shared_key_id_blocks_edges_witness :
  ∃ k1 k2 d1 d2,
    PrincipalRepo.addKey (λ _, []) (λ _, Ok (JObj [])) 3 (js "p1") (js "k1") (repeat 7 32) (JObj []) (js "h1") example_db = (Ok k1, d1) ∧
    PrincipalRepo.addKey (λ _, []) (λ _, Ok (JObj [])) 4 (js "p2") (js "k1") (repeat 8 32) (JObj []) (js "h2") d1 = (Ok k2, d2) ∧
    ∃ e, parseSnapshotJSON (knows (ok_body (snapshot_data (Snapshot.getSnapshot 5 (js "t") d2)))) parse_iso
           (snapshot_text (Snapshot.getSnapshot 5 (js "t") d2)) = Throw e.
Proof.
  destruct (PrincipalRepo.addKey (λ _, []) (λ _, Ok (JObj [])) 3 (js "p1") (js "k1") (repeat 7 32) (JObj []) (js "h1") example_db)
    as [[k1|e] d1] eqn:H1; [|vm_compute in H1; discriminate H1].
  destruct (PrincipalRepo.addKey (λ _, []) (λ _, Ok (JObj [])) 4 (js "p2") (js "k1") (repeat 8 32) (JObj []) (js "h2") d1)
    as [[k2|e] d2] eqn:H2; [|vm_compute in H1; injection H1 as <- <-; vm_compute in H2; discriminate H2].
  exists k1, k2, d1, d2. split; [reflexivity|]. split; [exact H2|].
  exact (shared_key_id_blocks_edges _ parse_iso (λ _, []) (λ _, Ok (JObj [])) 5 3 4 (js "t") (js "k1") (js "p1") (js "p2") (repeat 7 32) (repeat 8 32)
    (JObj []) (JObj []) (js "h1") (js "h2") k1 k2 example_db d1 d2 ltac:(discriminate) H1 H2 (knows_it _)).
Defined.

End EdgeInv.
