(* ===== verification/GraphLoader.v ===== *)
(** * The scoring graph

    [src/control-plane/src/domains/graph/observationGrouping.ts] collapses the
    split-visibility attestations of one observation into one edge;
    [attestationGraphLoader.ts] reads the graph that is sent to the trust
    engine from one REPEATABLE READ snapshot.  Weights are NUMERIC(3,2)
    columns, here integers of hundredths ([1.0] is [100]). *)

From stdpp Require Import base gmap strings sorting numbers list.
From Stdlib Require Import ZArith Lia.
From S2P Require Import Prelude Json Errors Db.

Module Grouping.

(** [GroupableAttestation], which is also the loader's [AttestationRow]. *)
Record GraphAttestation := mkGA {
  ga_id : jstr;
  ga_issuer_id : jstr;
  ga_subject_id : jstr;
  ga_trust_delta : Z;
  ga_issued_at : Z;
  ga_expires_at : option Z;
  ga_attestation_type : jstr;
  ga_observation_id : option jstr;
  ga_visibility : jstr
}.

Definition visibilityRank (v : jstr) : Z :=
  if decide (v = js "participants") then 2 else 1.

(** [row.observation_id?.trim() || '']. *)
Definition oid (row : GraphAttestation) : jstr :=
  match ga_observation_id row with Some o => trim o | None => [] end.

Definition group_key (row : GraphAttestation) : jstr :=
  ga_issuer_id row ++ [0] ++ ga_subject_id row ++ [0] ++ oid row.

(** [groups.get(key)], then [push] on that list or [groups.set(key, [row])]:
    a JavaScript [Map] keeps its keys in insertion order. *)
Fixpoint groups_add (key : jstr) (row : GraphAttestation)
    (groups : list (jstr * list GraphAttestation)) : list (jstr * list GraphAttestation) :=
  match groups with
  | [] => [(key, [row])]
  | (k, l) :: groups' =>
      if decide (k = key) then (k, l ++ [row]) :: groups' else (k, l) :: groups_add key row groups'
  end.

Definition add_row (acc : list GraphAttestation * list (jstr * list GraphAttestation))
    (row : GraphAttestation) : list GraphAttestation * list (jstr * list GraphAttestation) :=
  let '(unpaired, groups) := acc in
  match oid row with
  | [] => (unpaired ++ [row], groups)
  | _ => (unpaired, groups_add (group_key row) row groups)
  end.

(** The comparator of [list.sort]. *)
Definition compare (a b : GraphAttestation) : Z :=
  let vr := visibilityRank (ga_visibility b) - visibilityRank (ga_visibility a) in
  if vr =? 0 then ga_issued_at b - ga_issued_at a else vr.

(** [Array.prototype.sort] is stable: equal rows keep their order. *)
Fixpoint sort_insert (x : GraphAttestation) (l : list GraphAttestation) : list GraphAttestation :=
  match l with
  | [] => [x]
  | y :: l' => if compare x y <=? 0 then x :: l else y :: sort_insert x l'
  end.
Definition sort (l : list GraphAttestation) : list GraphAttestation := foldr sort_insert [] l.

Definition groupAttestationsForScoring (rows : list GraphAttestation) : list GraphAttestation :=
  let '(unpaired, groups) := fold_left add_row rows ([], []) in
  unpaired ++ omap (λ '(_, l), head (sort l)) groups.

(** ** The scoring identity of an edge and the order of preference *)

Definition edge_of (row : GraphAttestation) : jstr * jstr * jstr :=
  (ga_issuer_id row, ga_subject_id row, oid row).

Definition paired (row : GraphAttestation) : bool := bool_decide (oid row ≠ []).

(** Only the participants may see the row. *)
Definition restricted (a : GraphAttestation) : Prop := ga_visibility a = js "participants".

(** [a] goes before [b]: it is restricted and [b] is not; or both are, or neither is,
    and [a] is no older.  Nothing of the sort's code is used here. *)
Definition preferred (a b : GraphAttestation) : Prop :=
  (restricted a ∧ ¬ restricted b) ∨ ((restricted a ↔ restricted b) ∧ ga_issued_at b ≤ ga_issued_at a).

Lemma compare_preferred a b : compare a b ≤ 0 ↔ preferred a b.
Proof.
  unfold compare, preferred, restricted, visibilityRank. repeat case_decide; simpl; split; intuition lia.
Qed.

Lemma preferred_total a b : preferred a b ∨ preferred b a.
Proof.
  unfold preferred, restricted.
  destruct (decide (ga_visibility a = js "participants")), (decide (ga_visibility b = js "participants"));
    destruct (Z.le_ge_cases (ga_issued_at a) (ga_issued_at b)); tauto.
Qed.

Lemma preferred_refl a : preferred a a.
Proof. by right. Qed.

Lemma preferred_trans a b c : preferred a b → preferred b c → preferred a c.
Proof.
  unfold preferred. intros [[Ha Hb]|[Hab Ht]] [[Hb' Hc]|[Hbc Ht']].
  - tauto.
  - left. tauto.
  - left. tauto.
  - right. split; [tauto|lia].
Qed.

Lemma elem_of_sort_insert x y l : y ∈ sort_insert x l ↔ y = x ∨ y ∈ l.
Proof.
  induction l as [|z l IH]; simpl; [by rewrite elem_of_cons|].
  case_match; rewrite !elem_of_cons, ?IH; naive_solver.
Qed.

Lemma elem_of_sort y l : y ∈ sort l ↔ y ∈ l.
Proof.
  induction l as [|x l IH]; simpl; [done|]. by rewrite elem_of_sort_insert, elem_of_cons, IH.
Qed.

Lemma sort_head l : l ≠ [] → ∃ r, head (sort l) = Some r ∧ r ∈ l ∧ ∀ y, y ∈ l → preferred r y.
Proof.
  induction l as [|x l IH]; [done|]. intros _. simpl. destruct l as [|z l].
  { exists x. simpl. split_and!; [done|by left|].
    intros y ->%list_elem_of_singleton. apply preferred_refl. }
  destruct IH as (r & Hr & Hin & Hmax); [done|].
  destruct (sort (z :: l)) as [|y s] eqn:E; [done|]. simpl in Hr. injection Hr as ->.
  simpl. destruct (compare x r <=? 0) eqn:Hc; bool_to_prop; simpl.
  - exists x. split_and!; [done|by left|]. intros y [->|Hy]%elem_of_cons.
    + apply preferred_refl.
    + eapply preferred_trans; [by apply compare_preferred|]. by apply Hmax.
  - exists r. split_and!; [done|by right|]. intros y [->|Hy]%elem_of_cons; [|by apply Hmax].
    destruct (preferred_total x r) as [H|H]; [apply compare_preferred in H; lia|done].
Qed.

(** *** The key is injective on rows without NUL *)

Lemma group_key_inj r s :
  nul_free (ga_issuer_id r) → nul_free (ga_subject_id r) →
  nul_free (ga_issuer_id s) → nul_free (ga_subject_id s) →
  group_key r = group_key s ↔ edge_of r = edge_of s.
Proof.
  intros H1 H2 H3 H4. unfold group_key, edge_of. split; [|by intros [= -> -> ->]].
  intros [-> H]%app_sep_inj; [|done|done]. by apply app_sep_inj in H as [-> ->].
Qed.

(** *** What the grouping loop builds *)

Record groups_inv (done : list GraphAttestation) (un : list GraphAttestation)
    (gs : list (jstr * list GraphAttestation)) : Prop := {
  gi_unpaired : un = filter (λ r, ¬ paired r) done;
  gi_keys : NoDup gs.*1;
  gi_rows : ∀ k l, (k, l) ∈ gs → l ≠ [] ∧ ∀ r, r ∈ l ↔ r ∈ done ∧ paired r ∧ group_key r = k;
  gi_cover : ∀ r, r ∈ done → paired r → group_key r ∈ gs.*1
}.

Lemma groups_add_keys key row gs :
  (groups_add key row gs).*1 = if decide (key ∈ gs.*1) then gs.*1 else gs.*1 ++ [key].
Proof.
  induction gs as [|[k l] gs IH]; [done|]. cbn [groups_add]. rewrite fmap_cons.
  destruct (decide (k = key)) as [->|Hk].
  - rewrite fmap_cons, decide_True; [done|by left].
  - rewrite fmap_cons, IH. cbn [fst]. repeat case_decide; try done; set_solver.
Qed.

Lemma elem_of_groups_add key row gs k l :
  NoDup gs.*1 →
  (k, l) ∈ groups_add key row gs ↔
  (k ≠ key ∧ (k, l) ∈ gs) ∨
  (k = key ∧ ((∃ l0, (key, l0) ∈ gs ∧ l = l0 ++ [row]) ∨ (key ∉ gs.*1 ∧ l = [row]))).
Proof.
  induction gs as [|[k' l'] gs IH]; simpl; intros Hnd.
  { rewrite list_elem_of_singleton. set_solver. }
  apply NoDup_cons in Hnd as [Hk Hnd]. specialize (IH Hnd).
  assert (Hfst : ∀ l0, (k', l0) ∉ gs) by (intros l0 H; apply Hk; by apply (list_elem_of_fmap_2 fst) in H).
  destruct (decide (k' = key)) as [->|Hne]; rewrite !elem_of_cons, ?IH; set_solver.
Qed.

Lemma paired_oid r : paired r ↔ oid r ≠ [].
Proof. unfold paired. by rewrite bool_decide_spec. Qed.

Lemma add_row_inv done un gs row :
  groups_inv done un gs →
  let '(un', gs') := add_row (un, gs) row in groups_inv (done ++ [row]) un' gs'.
Proof.
  intros [Hu Hk Hr Hc]. pose proof (paired_oid row) as Hp. unfold add_row.
  destruct (oid row) as [|c o].
  - assert (¬ paired row) by naive_solver. split; [|done| |].
    + by rewrite Hu, filter_app, filter_cons_True.
    + intros k l Hkl. destruct (Hr k l Hkl) as [Hne Hl]. split; [done|]. intros r. rewrite Hl.
      rewrite elem_of_app, list_elem_of_singleton. naive_solver.
    + intros r [Hin| ->%list_elem_of_singleton]%elem_of_app Hpr; [by apply Hc|done].
  - assert (paired row) by naive_solver. split.
    + by rewrite Hu, filter_app, filter_cons_False, filter_nil, app_nil_r by tauto.
    + rewrite groups_add_keys. case_decide; [done|]. apply NoDup_app. split_and!; [done| |apply NoDup_singleton].
      intros x Hx ->%list_elem_of_singleton. done.
    + intros k l Hkl. apply elem_of_groups_add in Hkl as [[Hne Hkl]|[-> [(l0 & Hl0 & ->)|[Hnew ->]]]]; [..|done].
      * destruct (Hr k l Hkl) as [? Hl]. split; [done|]. intros r. rewrite Hl.
        rewrite elem_of_app, list_elem_of_singleton. naive_solver.
      * destruct (Hr _ l0 Hl0) as [? Hl]. split; [by destruct l0|]. intros r.
        rewrite !elem_of_app, !list_elem_of_singleton, Hl. naive_solver.
      * split; [done|]. intros r. rewrite elem_of_app, !list_elem_of_singleton. split; [naive_solver|].
        intros [[Hin| ->] [Hpr Heq]]; [|done]. destruct Hnew. rewrite <- Heq. by apply Hc.
    + intros r Hin Hpr. rewrite groups_add_keys.
      apply elem_of_app in Hin as [Hin| ->%list_elem_of_singleton]; case_decide; rewrite ?elem_of_app;
        try (by auto); right; by apply list_elem_of_singleton.
Qed.

Lemma grouping_loop rows :
  let '(un, gs) := fold_left add_row rows ([], []) in groups_inv rows un gs.
Proof.
  assert (H : ∀ done un gs, groups_inv done un gs →
    let '(un', gs') := fold_left add_row rows (un, gs) in groups_inv (done ++ rows) un' gs').
  { induction rows as [|row rows IH]; intros done un gs HI; cbn [fold_left]; [by rewrite app_nil_r|].
    pose proof (add_row_inv done un gs row HI) as H.
    destruct (add_row (un, gs) row) as [un1 gs1]. specialize (IH _ _ _ H).
    by rewrite <- app_assoc in IH. }
  apply (H []). split; simpl; [done|by constructor|..]; by intros ? ?%elem_of_nil || (intros ? ? ?%elem_of_nil).
Qed.

(** The representatives of a list of groups. *)
Lemma group_reps rows un gs :
  groups_inv rows un gs →
  ∀ k l, (k, l) ∈ gs → ∃ r, head (sort l) = Some r ∧ r ∈ rows ∧ paired r ∧ group_key r = k ∧
    ∀ s, s ∈ rows → paired s → group_key s = k → preferred r s.
Proof.
  intros [_ _ Hr _] k l Hkl. destruct (Hr k l Hkl) as [Hne Hl].
  destruct (sort_head l Hne) as (r & Hh & Hin & Hmax). apply Hl in Hin as (? & ? & ?).
  exists r. split_and!; try done. intros s ? ? ?. by apply Hmax, Hl.
Qed.

Lemma elem_of_grouped rows r : r ∈ groupAttestationsForScoring rows → r ∈ rows.
Proof.
  unfold groupAttestationsForScoring. pose proof (grouping_loop rows) as HI.
  destruct (fold_left add_row rows ([], [])) as [un gs]. pose proof (group_reps _ _ _ HI) as Hrep.
  destruct HI as [-> _ _ _]. intros [[_ ?]%list_elem_of_filter|([k l] & Hl & Hh)%list_elem_of_omap]%elem_of_app; [done|].
  destruct (Hrep k l Hl) as (r' & Hr' & ? & _). by simplify_eq.
Qed.

Lemma reps_keys rows un gs :
  groups_inv rows un gs → group_key <$> omap (λ '(_, l), head (sort l)) gs = gs.*1.
Proof.
  intros HI. pose proof (group_reps _ _ _ HI) as H. clear HI. revert H.
  induction gs as [|[k l] gs IH]; intros H; [done|]. simpl.
  destruct (H k l) as (r & -> & _ & _ & <- & _); [by left|]. simpl. f_equal. apply IH.
  intros k' l' Hin. apply H. by right.
Qed.

(** C21. Grouping keeps one edge per observation and the right one: the result is the
    unpaired rows as they are followed by representatives, each a row of the input;
    every paired row is represented by exactly one of them, with the same issuer,
    subject and trimmed observation id. The representative is restricted to the
    participants if any row it stands for is, and no row it stands for that is as
    restricted as it was issued later. Issuer and subject ids have no NUL character. *)
Theorem grouping_represents rows :
  Forall (λ r, nul_free (ga_issuer_id r) ∧ nul_free (ga_subject_id r)) rows →
  ∃ reps, groupAttestationsForScoring rows = filter (λ r, ¬ paired r) rows ++ reps ∧
    Forall (λ r, r ∈ rows ∧ paired r) reps ∧
    NoDup (edge_of <$> reps) ∧
    ∀ s, s ∈ rows → paired s → ∃ r, r ∈ reps ∧ edge_of r = edge_of s ∧ preferred r s.
Proof.
  intros Hnul. unfold groupAttestationsForScoring. pose proof (grouping_loop rows) as HI.
  destruct (fold_left add_row rows ([], [])) as [un gs]. pose proof (group_reps _ _ _ HI) as Hrep.
  pose proof (reps_keys _ _ _ HI) as Hkeys. destruct HI as [-> Hk Hr Hc].
  set (reps := omap (λ '(_, l), head (sort l)) gs) in *. exists reps.
  assert (Hin : ∀ r, r ∈ reps → ∃ k l, (k, l) ∈ gs ∧ head (sort l) = Some r).
  { intros r ([k l] & Hl & Hh)%list_elem_of_omap. eauto. }
  assert (HF : Forall (λ r, r ∈ rows ∧ paired r) reps).
  { apply Forall_forall. intros r (k & l & Hl & Hh)%Hin. destruct (Hrep k l Hl) as (r' & ? & ? & ? & _).
    by simplify_eq. }
  rewrite Forall_forall in Hnul, HF.
  assert (Hinj : ∀ r s, r ∈ rows → s ∈ rows → group_key r = group_key s ↔ edge_of r = edge_of s).
  { intros r s [? ?]%Hnul [? ?]%Hnul. by apply group_key_inj. }
  split_and!; [done|by apply Forall_forall| |].
  - rewrite <- Hkeys in Hk. apply NoDup_fmap_1 in Hk as Hnd.
    revert Hk Hnd HF. clear -Hinj. induction reps as [|r reps IH]; intros Hk Hnd HF; simpl; [constructor|].
    apply NoDup_cons in Hk as [Hr Hk]. apply NoDup_cons in Hnd as [_ Hnd]. constructor.
    + intros (s & Hs & Hin)%list_elem_of_fmap. apply Hr. apply list_elem_of_fmap. exists s. split; [|done].
      apply Hinj; [apply HF; by left|apply HF; by right|done].
    + apply IH; [done|done|]. intros s Hs. apply HF. by right.
  - intros s Hs Hps. pose proof (Hc s Hs Hps) as Hsk. rewrite <- Hkeys in Hsk.
    apply list_elem_of_fmap in Hsk as (r & Hrs & Hr'). exists r. split; [done|].
    destruct (Hin r Hr') as (k & l & Hl & Hh). destruct (Hrep k l Hl) as (r2 & Hr2 & ? & ? & ? & Hmax).
    simplify_eq. split; [apply Hinj; [done|done|congruence]|]. apply Hmax; [done|done|congruence].
Qed.

(** Two rows of one observation with spaces around its id, and one without. *)
Definition example_rows : list GraphAttestation :=
  [mkGA (js "a1") (js "i") (js "s") 5 10 None (js "t") (Some (js "o1 ")) (js "public");
   mkGA (js "a2") (js "i") (js "s") 7 9 None (js "t") (Some (js " o1")) (js "participants");
   mkGA (js "a3") (js "i") (js "s") 1 8 None (js "t") (Some (js "  ")) (js "public")].

Lemma grouping_represents_witness :
  ga_id <$> groupAttestationsForScoring example_rows = [js "a3"; js "a2"] ∧
  ∃ reps, groupAttestationsForScoring example_rows = filter (λ r, ¬ paired r) example_rows ++ reps ∧
    NoDup (edge_of <$> reps).
Proof.
  split; [vm_compute; reflexivity|].
  destruct (grouping_represents example_rows) as (reps & H & _ & Hnd & _).
  - repeat constructor; unfold nul_free; apply (bool_decide_unpack _); vm_compute; exact I.
  - exists reps. split; [exact H|exact Hnd].
Defined.

End Grouping.

Module GraphLoader.
Import Grouping.

Definition HALF_LIVES_MS : Z := 1800 * 24 * 60 * 60 * 1000.

Record GraphPrincipal := mkGP {
  gp_id : jstr; gp_entity_kind : jstr; gp_trust_weight : Z; gp_is_bootstrap : bool }.

Record GraphRoot := mkRoot { gr_id : jstr; gr_weight : Z }.

Record AttestationGraph := mkGraph {
  g_principals : list GraphPrincipal;
  g_roots : list GraphRoot;
  g_attestations : list GraphAttestation;
  networkScoreCount : Z
}.

Definition is_active (d : db) (p : jstr) : bool :=
  match principals d !! p with
  | Some r => bool_decide (p_status r = js "active")
  | None => false
  end.

(** [SELECT ... FROM bootstrap_issuers b JOIN issuers i ... JOIN principals p
    ... WHERE p.status = 'active' AND b.removed_from_registry_at IS NULL AND
    b.current_weight > 0] *)
Definition root_rows (d : db) : list GraphRoot :=
  omap (λ '(p, b),
    if is_active d p && bool_decide (is_Some (issuers d !! p))
       && bool_decide (b_removed_from_registry_at b = None) && (0 <? b_current_weight b)
    then Some (mkRoot p (b_current_weight b)) else None)
    (map_to_list (bootstrap_issuers d)).

(** The row's conditions: not superseded, not expired, not older than the
    half-life cutoff, both ends active. *)
Definition scorable (d : db) (evaluationTime : Z) (a : Attestation) : bool :=
  is_active d (a_issuer_id a) && is_active d (a_subject_id a)
  && bool_decide (a_superseded_by a = None)
  && match a_expires_at a with None => true | Some t => evaluationTime <? t end
  && (evaluationTime - HALF_LIVES_MS <? a_issued_at a).

Definition graph_row (i : jstr) (a : Attestation) : GraphAttestation :=
  mkGA i (a_issuer_id a) (a_subject_id a) (a_trust_delta a) (a_issued_at a) (a_expires_at a)
    (a_attestation_type a) (a_observation_id a) (a_visibility a).

Definition attestation_rows (d : db) (evaluationTime : Z) : list GraphAttestation :=
  omap (λ '(i, a), if scorable d evaluationTime a then Some (graph_row i a) else None)
    (map_to_list (attestations d)).

(** [COALESCE(i.trust_weight, 1.0)] *)
Definition issuer_weight (d : db) (p : jstr) : Z :=
  match issuers d !! p with Some i => i_trust_weight i | None => 100 end.

(** [SELECT ... FROM principals p LEFT JOIN issuers i ... WHERE p.id = ANY($1)
    AND p.status = 'active'] *)
Definition principal_rows (d : db) (ids : gset jstr) : list (jstr * jstr * Z) :=
  omap (λ '(p, r),
    if bool_decide (p ∈ ids) && bool_decide (p_status r = js "active")
    then Some (p, p_entity_kind r, issuer_weight d p)
    else None)
    (map_to_list (principals d)).

Definition loadAttestationGraphWithClient (evaluationTime : Z) : M AttestationGraph :=
  roots ← reads root_rows;
  attRows ← reads (λ d, attestation_rows d evaluationTime);
  let atts := groupAttestationsForScoring attRows in
  let neededIds : gset jstr :=
    list_to_set (gr_id <$> roots) ∪ list_to_set (ga_issuer_id <$> atts)
    ∪ list_to_set (ga_subject_id <$> atts) in
  count ← reads (λ d, Z.of_nat (size (network_scores d)));
  if decide (neededIds = ∅) then mret (mkGraph [] [] [] count)
  else
    rows ← reads (λ d, principal_rows d neededIds);
    let rootSet : gset jstr := list_to_set (gr_id <$> roots) in
    let ps := (λ '(p, kind, w),
                 let isRoot := bool_decide (p ∈ rootSet) in
                 mkGP p kind (if isRoot then 100 else w) isRoot) <$> rows in
    let activeIds : gset jstr := list_to_set (gp_id <$> ps) in
    let filteredAttestations :=
      filter (λ a, ga_issuer_id a ∈ activeIds ∧ ga_subject_id a ∈ activeIds) atts in
    let filteredRoots := filter (λ r, gr_id r ∈ activeIds) roots in
    mret (mkGraph ps filteredRoots filteredAttestations count).

Definition loadAttestationGraph (evaluationTime : Z) : M AttestationGraph :=
  withTransaction (loadAttestationGraphWithClient evaluationTime).

(** ** What the trust engine is given *)

Lemma is_active_spec d p :
  is_active d p = true ↔ ∃ r, principals d !! p = Some r ∧ p_status r = js "active".
Proof.
  unfold is_active. destruct (principals d !! p) as [r|]; [|naive_solver].
  rewrite bool_decide_eq_true. naive_solver.
Qed.

Lemma elem_of_root_rows d r :
  r ∈ root_rows d ↔ ∃ b, bootstrap_issuers d !! gr_id r = Some b ∧ gr_weight r = b_current_weight b ∧
    is_active d (gr_id r) = true ∧ is_Some (issuers d !! gr_id r) ∧
    b_removed_from_registry_at b = None ∧ 0 < b_current_weight b.
Proof.
  unfold root_rows. rewrite list_elem_of_omap. split.
  - intros ([p b] & Hb%elem_of_map_to_list & H). destruct (_ && _) eqn:E; [|done]. injection H as <-.
    rewrite !andb_true_iff, !bool_decide_eq_true in E. simpl. exists b. rewrite Z.ltb_lt in E. naive_solver.
  - destruct r as [p w]; simpl. intros (b & Hb & -> & H1 & H2 & H3 & H4). exists (p, b).
    split; [by apply elem_of_map_to_list|]. rewrite H1, !bool_decide_true by done. simpl.
    rewrite (proj2 (Z.ltb_lt _ _)) by done. done.
Qed.

Lemma elem_of_attestation_rows d t g :
  g ∈ attestation_rows d t ↔
  ∃ a, attestations d !! ga_id g = Some a ∧ scorable d t a = true ∧ g = graph_row (ga_id g) a.
Proof.
  unfold attestation_rows. rewrite list_elem_of_omap. split.
  - intros ([i a] & Ha%elem_of_map_to_list & H). destruct (scorable d t a) eqn:E; [|done].
    injection H as <-. exists a. done.
  - intros (a & Ha & Hs & Hg). exists (ga_id g, a). split; [by apply elem_of_map_to_list|].
    by rewrite Hs, <- Hg.
Qed.

Lemma scorable_active d t a :
  scorable d t a = true → is_active d (a_issuer_id a) = true ∧ is_active d (a_subject_id a) = true.
Proof. unfold scorable. rewrite !andb_true_iff. tauto. Qed.

Lemma elem_of_principal_ids d ids p :
  p ∈ (λ x, fst (fst x)) <$> principal_rows d ids ↔ p ∈ ids ∧ is_active d p = true.
Proof.
  rewrite list_elem_of_fmap, is_active_spec. unfold principal_rows. split.
  - intros ([[q k] w] & -> & ([q' r] & Hr%elem_of_map_to_list & H)%list_elem_of_omap).
    destruct (_ && _) eqn:E; simplify_eq.
    rewrite andb_true_iff, !bool_decide_eq_true in E. simpl. naive_solver.
  - intros (Hp & r & Hr & Hs). eexists (p, _, _). split; [done|]. apply list_elem_of_omap.
    exists (p, r). split; [by apply elem_of_map_to_list|]. by rewrite !bool_decide_true.
Qed.

Lemma elem_of_principal_rows d ids p k w :
  (p, k, w) ∈ principal_rows d ids →
  ∃ r, principals d !! p = Some r ∧ k = p_entity_kind r ∧ w = issuer_weight d p.
Proof.
  unfold principal_rows. intros ([q r] & Hr%elem_of_map_to_list & H)%list_elem_of_omap.
  destruct (_ && _); simplify_eq. eauto.
Qed.

Lemma omap_fst_NoDup {K A B} (f : K * A → option B) (key : B → K) (l : list (K * A)) :
  (∀ x y, f x = Some y → key y = x.1) → NoDup l.*1 → NoDup (key <$> omap f l).
Proof.
  intros Hf. induction l as [|x l IH]; intros Hnd; simpl; [constructor|].
  apply NoDup_cons in Hnd as [Hx Hnd]. destruct (f x) as [y|] eqn:E; [|by apply IH].
  simpl. constructor; [|by apply IH]. rewrite (Hf x y E).
  intros (y' & Hy & Hin)%list_elem_of_fmap. apply list_elem_of_omap in Hin as (x' & Hx' & Hf').
  apply Hx. rewrite Hy, (Hf _ _ Hf'). by apply list_elem_of_fmap_2.
Qed.

(** The roots and attestations the loader selects only name active principals. *)
Lemma grouped_ends_active d t a :
  a ∈ groupAttestationsForScoring (attestation_rows d t) →
  is_active d (ga_issuer_id a) = true ∧ is_active d (ga_subject_id a) = true.
Proof.
  intros (a' & _ & Hs & ->)%elem_of_grouped%elem_of_attestation_rows. simpl. by eapply scorable_active.
Qed.

Lemma principal_rows_NoDup d ids : NoDup ((λ x, fst (fst x)) <$> principal_rows d ids).
Proof.
  apply omap_fst_NoDup; [|apply NoDup_fst_map_to_list].
  intros [p r] y. case_match; by intros [= <-].
Qed.

Lemma root_rows_NoDup d : NoDup (gr_id <$> root_rows d).
Proof.
  apply omap_fst_NoDup; [|apply NoDup_fst_map_to_list].
  intros [p r] y. case_match; by intros [= <-].
Qed.

(** What the loader returns, branch by branch. *)
Lemma loadAttestationGraph_spec t d :
  ∃ g, loadAttestationGraph t d = (Ok g, d) ∧
    g_roots g = root_rows d ∧
    g_attestations g = groupAttestationsForScoring (attestation_rows d t) ∧
    networkScoreCount g = Z.of_nat (size (network_scores d)) ∧
    NoDup (gp_id <$> g_principals g) ∧ NoDup (gr_id <$> g_roots g) ∧
    (∀ a, a ∈ g_attestations g →
       ga_issuer_id a ∈ gp_id <$> g_principals g ∧ ga_subject_id a ∈ gp_id <$> g_principals g) ∧
    (∀ r, r ∈ g_roots g → gr_id r ∈ gp_id <$> g_principals g) ∧
    (∀ p, p ∈ g_principals g →
       is_active d (gp_id p) = true ∧
       (∃ r, principals d !! gp_id p = Some r ∧ gp_entity_kind p = p_entity_kind r) ∧
       (gp_is_bootstrap p = true ↔ gp_id p ∈ gr_id <$> g_roots g) ∧
       gp_trust_weight p = if gp_is_bootstrap p then 100 else issuer_weight d (gp_id p)).
Proof.
  pose proof (grouped_ends_active d t) as Hatt.
  assert (Hroot : ∀ r, r ∈ root_rows d → is_active d (gr_id r) = true)
    by (intros r (b & _ & _ & ? & _)%elem_of_root_rows; done).
  pose proof (root_rows_NoDup d) as Hnd.
  unfold loadAttestationGraph, withTransaction, loadAttestationGraphWithClient, mbind, M_bind, reads; simpl.
  set (atts := groupAttestationsForScoring (attestation_rows d t)) in *.
  set (roots := root_rows d) in *.
  set (ids := list_to_set (gr_id <$> roots) ∪ list_to_set (ga_issuer_id <$> atts)
              ∪ list_to_set (ga_subject_id <$> atts) : gset jstr).
  assert (Hids : (∀ r, r ∈ roots → gr_id r ∈ ids) ∧
                 (∀ a, a ∈ atts → ga_issuer_id a ∈ ids ∧ ga_subject_id a ∈ ids)).
  { unfold ids. split; intros x Hx; rewrite !elem_of_union, !elem_of_list_to_set.
    - left; left. by apply list_elem_of_fmap_2.
    - split; [left; right|right]; by apply list_elem_of_fmap_2. }
  destruct Hids as [Hr Ha]. case_decide as Hempty.
  { assert (roots = []) as -> by (destruct roots as [|r l]; [done|]; exfalso;
      specialize (Hr r ltac:(by left)); rewrite Hempty in Hr; by apply elem_of_empty in Hr).
    assert (atts = []) as -> by (destruct atts as [|a l]; [done|]; exfalso;
      destruct (Ha a ltac:(by left)) as [Hx _]; rewrite Hempty in Hx; by apply elem_of_empty in Hx).
    eexists. split; [reflexivity|]. simpl. split_and!; try done; try (by constructor);
      by intros ? ?%elem_of_nil. }
  set (mk := λ x : jstr * jstr * Z, _).
  assert (Hgp : gp_id <$> (mk <$> principal_rows d ids) = (λ x, fst (fst x)) <$> principal_rows d ids).
  { rewrite <- list_fmap_compose. apply list_fmap_ext. by intros ? [[] ]. }
  assert (Hact : ∀ p, p ∈ ids → is_active d p = true → p ∈ gp_id <$> (mk <$> principal_rows d ids)).
  { intros p ? ?. rewrite Hgp. by apply elem_of_principal_ids. }
  eexists. split; [reflexivity|]. simpl.
  rewrite (filter_all _ roots), (filter_all _ atts).
  2: { intros a Hin. rewrite !elem_of_list_to_set. destruct (Ha a Hin), (Hatt a Hin). split; by apply Hact. }
  2: { intros r Hin. rewrite elem_of_list_to_set. by apply Hact; [apply Hr|apply Hroot]. }
  split_and!; try done.
  - rewrite Hgp. apply principal_rows_NoDup.
  - intros a Hin. destruct (Ha a Hin), (Hatt a Hin). split; by apply Hact.
  - intros r Hin. by apply Hact; [apply Hr|apply Hroot].
  - intros p Hp. split.
    { apply (list_elem_of_fmap_2 gp_id) in Hp. rewrite Hgp in Hp. by apply elem_of_principal_ids in Hp as [_ ?]. }
    apply list_elem_of_fmap in Hp as ([[q k] w] & -> & Hrow). unfold mk. simpl.
    apply elem_of_principal_rows in Hrow as (r & Hr' & -> & ->).
    split; [by exists r|]. split; [|done]. split.
    + by intros Hq%bool_decide_eq_true%elem_of_list_to_set.
    + intros Hq. apply bool_decide_eq_true. by apply elem_of_list_to_set.
Qed.

(** The graph sent to the trust engine is well formed and complete.
    Loading never fails and never writes. The roots are exactly the active,
    registered bootstrap issuers of positive weight and the edges exactly the
    grouped scorable attestations (the two final filters drop nothing, since
    one snapshot is read); every endpoint and root is among the principals,
    which are active and listed once; and the principals marked as bootstrap
    are exactly the roots and carry trust weight 1.0, the others the registry's
    weight. *)
Theorem loaded_graph_wellformed t d :
  ∃ g, loadAttestationGraph t d = (Ok g, d) ∧
    g_roots g = root_rows d ∧
    g_attestations g = groupAttestationsForScoring (attestation_rows d t) ∧
    networkScoreCount g = Z.of_nat (size (network_scores d)) ∧
    NoDup (gp_id <$> g_principals g) ∧ NoDup (gr_id <$> g_roots g) ∧
    (∀ a, a ∈ g_attestations g →
       ga_issuer_id a ∈ gp_id <$> g_principals g ∧ ga_subject_id a ∈ gp_id <$> g_principals g) ∧
    (∀ r, r ∈ g_roots g → gr_id r ∈ gp_id <$> g_principals g) ∧
    (∀ p, p ∈ g_principals g →
       is_active d (gp_id p) = true ∧
       (∃ r, principals d !! gp_id p = Some r ∧ gp_entity_kind p = p_entity_kind r) ∧
       (gp_is_bootstrap p = true ↔ gp_id p ∈ gr_id <$> g_roots g) ∧
       gp_trust_weight p = if gp_is_bootstrap p then 100 else issuer_weight d (gp_id p)).
Proof. exact (loadAttestationGraph_spec t d). Qed.

End GraphLoader.
