(* ===== verification/VeriRank.v ===== *)
(** * Recomputing scores: the trust engine client and the recompute service

    [src/control-plane/src/grpc/runVeriRankClient.ts] streams the loaded graph
    to the trust engine and retries; [scoreComputationService.ts] runs loader,
    engine and writer.  The engine's own input validation
    ([src/internal/trustengine/service.go], [RunVeriRank]) is modelled too, so
    that "the engine accepts what we send" can be stated.  What the engine
    answers is a parameter. *)

From stdpp Require Import base gmap strings sorting numbers list.
From Stdlib Require Import ZArith Lia.
From S2P Require Import Prelude Json Errors Db Principals GraphLoader SyncLog ScoreWriter.

Module VeriRank.
Import Grouping GraphLoader ScoreWriter SyncLog.

(** ** The stream *)

(** [Math.floor(d.getTime() / 1000)] *)
Definition toUnix (d : Z) : Z := d / 1000.

Inductive RunChunk :=
| CHeader (evaluationTimeUnix : Z)
| CPrincipal (id entityKind : jstr) (trustWeight : Z) (isBootstrap : bool)
| CRoot (id : jstr) (weight : Z)
| CAttestation (issuerId subjectId : jstr) (trustDelta issuedAtUnix expiresAtUnix : Z)
    (attestationType observationId : jstr).

Definition mapAttestation (a : GraphAttestation) : RunChunk :=
  CAttestation (ga_issuer_id a) (ga_subject_id a) (ga_trust_delta a) (toUnix (ga_issued_at a))
    (match ga_expires_at a with Some e => toUnix e | None => 0 end)
    (ga_attestation_type a) (match ga_observation_id a with Some o => o | None => [] end).

Definition mapPrincipal (p : GraphPrincipal) : RunChunk :=
  CPrincipal (gp_id p) (gp_entity_kind p) (gp_trust_weight p) (gp_is_bootstrap p).

Definition mapRoot (r : GraphRoot) : RunChunk := CRoot (gr_id r) (gr_weight r).

(** The chunks [runVeriRank] writes, in order. *)
Definition stream_of (graph : AttestationGraph) (evaluationTime : Z) : list RunChunk :=
  CHeader (toUnix evaluationTime) :: (mapPrincipal <$> g_principals graph)
  ++ (mapRoot <$> g_roots graph) ++ (mapAttestation <$> g_attestations graph).

(** Milliseconds from now to the call's deadline. *)
Definition deadlineForGraph (graph : AttestationGraph) : Z :=
  let n := Z.of_nat (length (g_principals graph) + length (g_roots graph) + length (g_attestations graph)) in
  Z.min 600000 (60000 + n * 5).

(** [addr.split(':')[0]?.toLowerCase() ?? '']; on the letters compared with,
    lower-casing is that of ASCII. *)
Fixpoint before_colon (s : jstr) : jstr :=
  match s with
  | [] => []
  | c :: s' => if c =? 58 then [] else c :: before_colon s'
  end.
Definition lower (c : Z) : Z := if (65 <=? c) && (c <=? 90) then c + 32 else c.

Inductive credentials := Insecure | Ssl.
Definition grpcCredentialsFor (addr : jstr) : credentials :=
  let host := lower <$> before_colon addr in
  if bool_decide (host = js "localhost") || bool_decide (host = js "127.0.0.1")
     || bool_decide (host = js "::1")
  then Insecure else Ssl.

(** ** Retrying *)

(** What a failed attempt rejects with: an error with a numeric gRPC status
    code, or anything else. *)
Inductive grpc_error := GStatus (code : Z) | GOther.

Definition isRetryableGrpcError (err : grpc_error) : bool :=
  match err with
  | GOther => true
  | GStatus code =>
      (* INVALID_ARGUMENT, NOT_FOUND, ALREADY_EXISTS, PERMISSION_DENIED,
         UNAUTHENTICATED, FAILED_PRECONDITION, OUT_OF_RANGE, UNIMPLEMENTED *)
      negb (bool_decide (code ∈ [3; 5; 6; 7; 16; 9; 11; 12]))
  end.

Record RunVeriRankResult := mkRunResult { rr_rows : list EngineScore; rr_computedAtUnix : Z }.

Section retry.
Context (runVeriRank : Z → result grpc_error RunVeriRankResult).  (** by attempt *)

(** The [for] loop from [attempt] on; the second component are the
    milliseconds slept between attempts. [lastErr] is [None] for [undefined]. *)
Fixpoint retry_loop (left : nat) (retries attempt : Z) (lastErr : option grpc_error) :
  result (option grpc_error) RunVeriRankResult * list Z :=
  match left with
  | O => (Throw lastErr, [])
  | S left' =>
      if attempt <=? retries then
        match runVeriRank attempt with
        | Ok r => (Ok r, [])
        | Throw err =>
            if (retries <=? attempt) || negb (isRetryableGrpcError err) then (Throw (Some err), [])
            else let '(r, sl) := retry_loop left' retries (attempt + 1) (Some err) in
                 (r, 100 * attempt :: sl)
        end
      else (Throw lastErr, [])
  end.

Definition runVeriRankWithRetry (retries : option Z) :
  result (option grpc_error) RunVeriRankResult * list Z :=
  let retries := default 3 retries in retry_loop (Z.to_nat retries) retries 1 None.

End retry.

(** ** The engine's validation of the stream *)

Record engine_state := mkEngine {
  en_header : bool;
  en_principals : list (jstr * jstr * Z * bool);
  en_roots : list (jstr * Z);
  en_claims : list (jstr * jstr)
}.

Definition engine_recv (s : engine_state) (c : RunChunk) : result jstr engine_state :=
  match c with
  | CHeader t =>
      if en_header s then Throw (js "duplicate RunHeader")
      else if t =? 0 then Throw (js "evaluation_time_unix is required")
      else Ok (mkEngine true (en_principals s) (en_roots s) (en_claims s))
  | CAttestation i sub _ t _ _ _ =>
      if negb (en_header s) then Throw (js "header must be first chunk")
      else if bool_decide (i = []) || bool_decide (sub = []) then
        Throw (js "attestation issuer_id and subject_id are required")
      else if t =? 0 then Throw (js "attestation issued_at_unix is required")
      else Ok (mkEngine true (en_principals s) (en_roots s) (en_claims s ++ [(i, sub)]))
  | CPrincipal id kind w b =>
      if negb (en_header s) then Throw (js "header must be first chunk")
      else if bool_decide (id = []) then Throw (js "principal id is required")
      else if bool_decide (id ∈ (λ x, x.1.1.1) <$> en_principals s) then Throw (js "duplicate principal")
      else if negb (bool_decide (kind ∈ PrincipalRepo.entity_kinds)) then Throw (js "invalid entity_kind")
      else if (w <? 0) || (100 <? w) then Throw (js "trust_weight out of range")
      else Ok (mkEngine true (en_principals s ++ [(id, kind, w, b)]) (en_roots s) (en_claims s))
  | CRoot id w =>
      if negb (en_header s) then Throw (js "header must be first chunk")
      else if bool_decide (id = []) then Throw (js "root id is required")
      else if bool_decide (id ∈ (en_roots s).*1) then Throw (js "duplicate root")
      else if (w <? 0) || (100 <? w) then Throw (js "root weight out of range")
      else Ok (mkEngine true (en_principals s) (en_roots s ++ [(id, w)]) (en_claims s))
  end.

Fixpoint engine_recv_all (cs : list RunChunk) (s : engine_state) : result jstr engine_state :=
  match cs with
  | [] => Ok s
  | c :: cs' => s' ← engine_recv s c; engine_recv_all cs' s'
  end.

(** The entry of a streamed principal. *)
Definition streamed (s : engine_state) (id : jstr) : option (jstr * jstr * Z * bool) :=
  list_find (λ x, x.1.1.1 = id) (en_principals s) ≫= λ ix, Some ix.2.

Definition root_ok (s : engine_state) (r : jstr * Z) : bool :=
  match streamed s r.1 with Some (_, _, w, b) => b && (w =? 100) | None => false end.

Definition claim_ok (s : engine_state) (c : jstr * jstr) : bool :=
  match streamed s c.1, streamed s c.2 with
  | Some (_, kind, _, _), Some _ => bool_decide (kind ∈ [js "issuer"; js "both"])
  | _, _ => false
  end.

(** The server's checks after the last chunk. *)
Definition engine_accepts (cs : list RunChunk) : bool :=
  match engine_recv_all cs (mkEngine false [] [] []) with
  | Throw _ => false
  | Ok s => en_header s && forallb (root_ok s) (en_roots s) && forallb (claim_ok s) (en_claims s)
  end.

(** ** [recomputeNow] *)

Inductive recompute_status := cold_start | cleared_stale | applied.
Record RecomputeResult := mkRecompute {
  rc_status : recompute_status; rc_upserts : Z; rc_deletes : Z; rc_evaluationTime : Z }.

Section recompute.
Context (engine : AttestationGraph → Z → result exn RunVeriRankResult).

Definition recomputeNow (now evaluationTime : Z) : M RecomputeResult :=
  graph ← loadAttestationGraph evaluationTime;
  match g_roots graph with
  | [] =>
      if networkScoreCount graph =? 0 then mret (mkRecompute cold_start 0 0 evaluationTime)
      else deletes ← clearAllScores now; mret (mkRecompute cleared_stale 0 deletes evaluationTime)
  | _ =>
      result ← lift (engine graph evaluationTime);
      let computedAt := rr_computedAtUnix result * 1000 in
      applied_ ← applyScoreTable now (rr_rows result) computedAt;
      mret (mkRecompute applied applied_.1 applied_.2 evaluationTime)
  end.

End recompute.

(** ** Lemmas *)

Lemma retry_loop_spec run left retries attempt last :
  Z.of_nat left = retries - attempt + 1 → (0 < left)%nat →
  ∃ k, attempt ≤ k ≤ retries ∧
    (∀ j, attempt ≤ j < k → ∃ e, run j = Throw e ∧ isRetryableGrpcError e = true) ∧
    (retry_loop run left retries attempt last).2 = (λ j, 100 * j) <$> seqZ attempt (k - attempt) ∧
    match (retry_loop run left retries attempt last).1 with
    | Ok r => run k = Ok r
    | Throw oe => ∃ e, oe = Some e ∧ run k = Throw e ∧ (k = retries ∨ isRetryableGrpcError e = false)
    end.
Proof.
  revert attempt last. induction left as [|left IH]; intros attempt last Hl Hpos; [lia|]. simpl.
  rewrite (proj2 (Z.leb_le _ _)) by lia. destruct (run attempt) as [r|e] eqn:E.
  { exists attempt. rewrite Z.sub_diag. split_and!; [lia|lia|intros; lia|done|done]. }
  destruct ((retries <=? attempt) || negb (isRetryableGrpcError e)) eqn:Estop; simpl.
  { exists attempt. rewrite Z.sub_diag. split_and!; [lia|lia|intros; lia|done|].
    exists e. split_and!; [done|done|]. apply orb_true_iff in Estop as [H|H]; bool_to_prop; [left; lia|by right]. }
  apply orb_false_iff in Estop as [H1 H2]. bool_to_prop.
  destruct (IH (attempt + 1) (Some e)) as (k & Hk & Hj & Hs & Hr); [lia|lia|].
  destruct (retry_loop run left retries (attempt + 1) (Some e)) as [r sl]; simpl in *.
  exists k. split_and!; [lia|lia| | |done].
  - intros j Hjk. destruct (decide (j = attempt)) as [->|]; [eauto|]. apply Hj. lia.
  - rewrite Hs. rewrite (seqZ_cons attempt (k - attempt)) by lia. simpl. do 3 f_equal; lia.
Qed.

Lemma before_colon_no_colon s : 58 ∉ before_colon s.
Proof.
  induction s as [|c s IH]; simpl; [apply not_elem_of_nil|]. destruct (c =? 58) eqn:E; [apply not_elem_of_nil|].
  bool_to_prop. apply not_elem_of_cons. done.
Qed.

(** *** What the engine has seen after a part of the stream *)

Lemma recv_principals (ps : list GraphPrincipal) cs st :
  en_header st = true → NoDup (((λ x, x.1.1.1) <$> en_principals st) ++ (gp_id <$> ps)) →
  Forall (λ p, gp_id p ≠ [] ∧ gp_entity_kind p ∈ PrincipalRepo.entity_kinds ∧ 0 ≤ gp_trust_weight p ≤ 100) ps →
  engine_recv_all ((mapPrincipal <$> ps) ++ cs) st =
  engine_recv_all cs (mkEngine true
    (en_principals st ++ ((λ p, (gp_id p, gp_entity_kind p, gp_trust_weight p, gp_is_bootstrap p)) <$> ps))
    (en_roots st) (en_claims st)).
Proof.
  revert st. induction ps as [|p ps IH]; intros [h es rs cl] Hh Hnd HF; simpl in *; subst.
  { by rewrite app_nil_r. }
  apply Forall_cons in HF as [(Hid & Hk & Hw) HF].
  rewrite bool_decide_false by done.
  rewrite bool_decide_false.
  2: { rewrite NoDup_app in Hnd. destruct Hnd as (_ & Hd & _). intros Hin. apply (Hd _ Hin). by left. }
  rewrite bool_decide_true by done. simpl.
  rewrite (proj2 (Z.ltb_ge _ _)), (proj2 (Z.ltb_ge _ _)) by lia. simpl. unfold mbind, result_bind.
  rewrite IH; simpl; [|done| |done].
  - by rewrite <- app_assoc.
  - rewrite fmap_app, <- app_assoc. done.
Qed.

Lemma recv_roots (rs : list GraphRoot) cs st :
  en_header st = true → NoDup ((en_roots st).*1 ++ (gr_id <$> rs)) →
  Forall (λ r, gr_id r ≠ [] ∧ 0 ≤ gr_weight r ≤ 100) rs →
  engine_recv_all ((mapRoot <$> rs) ++ cs) st =
  engine_recv_all cs (mkEngine true (en_principals st)
    (en_roots st ++ ((λ r, (gr_id r, gr_weight r)) <$> rs)) (en_claims st)).
Proof.
  revert st. induction rs as [|r rs IH]; intros [h es rt cl] Hh Hnd HF; simpl in *; subst.
  { by rewrite app_nil_r. }
  apply Forall_cons in HF as [(Hid & Hw) HF].
  rewrite bool_decide_false by done.
  rewrite bool_decide_false.
  2: { rewrite NoDup_app in Hnd. destruct Hnd as (_ & Hd & _). intros Hin. apply (Hd _ Hin). by left. }
  rewrite (proj2 (Z.ltb_ge _ _)), (proj2 (Z.ltb_ge _ _)) by lia. simpl. unfold mbind, result_bind.
  rewrite IH; simpl; [|done| |done].
  - by rewrite <- app_assoc.
  - rewrite fmap_app, <- app_assoc. done.
Qed.

Lemma recv_attestations (l : list GraphAttestation) st :
  en_header st = true →
  Forall (λ a, ga_issuer_id a ≠ [] ∧ ga_subject_id a ≠ [] ∧ toUnix (ga_issued_at a) ≠ 0) l →
  engine_recv_all (mapAttestation <$> l) st =
  Ok (mkEngine true (en_principals st) (en_roots st)
        (en_claims st ++ ((λ a, (ga_issuer_id a, ga_subject_id a)) <$> l))).
Proof.
  revert st. induction l as [|a l IH]; intros [h es rt cl] Hh HF; simpl in *; subst.
  { by rewrite app_nil_r. }
  apply Forall_cons in HF as [(Hi & Hs & Ht) HF].
  rewrite !bool_decide_false by done. simpl.
  rewrite (proj2 (Z.eqb_neq _ _)) by done. unfold mbind, result_bind.
  rewrite IH; simpl; [|done|done]. by rewrite <- app_assoc.
Qed.

(** The entry found for a streamed principal is its own. *)
Lemma streamed_principal (ps : list GraphPrincipal) rs cl p :
  NoDup (gp_id <$> ps) → p ∈ ps →
  streamed (mkEngine true ((λ p, (gp_id p, gp_entity_kind p, gp_trust_weight p, gp_is_bootstrap p)) <$> ps) rs cl) (gp_id p)
  = Some (gp_id p, gp_entity_kind p, gp_trust_weight p, gp_is_bootstrap p).
Proof.
  unfold streamed; simpl. induction ps as [|q ps IH]; intros Hnd Hp; [by apply elem_of_nil in Hp|].
  apply NoDup_cons in Hnd as [Hq Hnd]. simpl.
  apply elem_of_cons in Hp as [->|Hp]; [by rewrite decide_True|].
  rewrite decide_False.
  2: { intros Heq. apply Hq. rewrite Heq. by apply list_elem_of_fmap_2. }
  specialize (IH Hnd Hp). destruct (list_find _ _) as [[n x]|]; simpl in *; done.
Qed.

(** What the tables guarantee about a graph: [PrincipalInv.issuers_ok], the
    foreign key of [attestations.issuer_id], non-empty ids and the CHECK on root
    weights of migration 010. *)
Record graph_db_ok (d : db) : Prop := {
  gd_issuers : PrincipalInv.issuers_ok d;
  gd_fk : ∀ i a, attestations d !! i = Some a → is_Some (issuers d !! a_issuer_id a);
  gd_ids : ∀ p r, principals d !! p = Some r → p ≠ [];
  gd_roots : ∀ p b, bootstrap_issuers d !! p = Some b → b_current_weight b ≤ 100
}.

Lemma active_id_nonempty d p : graph_db_ok d → is_active d p = true → p ≠ [].
Proof. intros Hd (r & Hr & _)%is_active_spec. by eapply gd_ids. Qed.

Lemma issuer_weight_range d p : graph_db_ok d → 0 ≤ issuer_weight d p ≤ 100.
Proof.
  intros Hd. unfold issuer_weight. destruct (issuers d !! p) eqn:E; [|lia].
  by eapply PrincipalInv.io_weight; [apply gd_issuers|].
Qed.

Lemma toUnix_nonzero d : 1000 ≤ d → toUnix d ≠ 0.
Proof. intros H. unfold toUnix. pose proof (Z.div_le_lower_bound d 1000 1). lia. Qed.

(** C22. The trust engine accepts every graph the control plane sends. If the
    tables satisfy their constraints and the evaluation time is past the
    half-life horizon, the stream built from the loaded graph passes all of the
    engine's checks: header first and only once, no duplicate principal or root,
    weights in [0,1], every endpoint and root streamed, attestation issuers of an
    issuing kind, roots flagged as bootstrap with weight 1.0. *)
Theorem engine_accepts_loaded_graph t d g :
  graph_db_ok d → HALF_LIVES_MS + 1000 ≤ t → loadAttestationGraph t d = (Ok g, d) →
  engine_accepts (stream_of g t) = true.
Proof.
  intros Hd Ht Hg. destruct (loadAttestationGraph_spec t d) as
    (g' & Hg' & Hroots & Hatts & _ & Hndp & Hndr & Hends & Hrin & Hps).
  rewrite Hg in Hg'. injection Hg' as <-.
  assert (Hrow : ∀ a, a ∈ g_attestations g → ∃ a', attestations d !! ga_id a = Some a' ∧
    scorable d t a' = true ∧ a = graph_row (ga_id a) a').
  { intros a. rewrite Hatts. by intros ?%elem_of_grouped%elem_of_attestation_rows. }
  unfold engine_accepts, stream_of. cbn [engine_recv_all engine_recv]. simpl.
  rewrite (proj2 (Z.eqb_neq _ _)) by (apply toUnix_nonzero; unfold HALF_LIVES_MS in *; lia).
  unfold mbind, result_bind.
  rewrite recv_principals; simpl; [|done|done|].
  2: { apply Forall_forall. intros p Hp. destruct (Hps p Hp) as (Ha & (r & Hr & Hk) & _ & Hw).
       split_and!; [by eapply active_id_nonempty| |..].
       - rewrite Hk. by eapply PrincipalInv.io_kinds; [apply gd_issuers|].
       - rewrite Hw. case_match; [lia|]. by apply issuer_weight_range.
       - rewrite Hw. case_match; [lia|]. by apply issuer_weight_range. }
  rewrite recv_roots; simpl; [|done|done|].
  2: { apply Forall_forall. intros r Hr. rewrite Hroots in Hr.
       apply elem_of_root_rows in Hr as (b & Hb & -> & Ha & _ & _ & Hw).
       split_and!; [by eapply active_id_nonempty|lia|by eapply gd_roots]. }
  rewrite recv_attestations; simpl; [|done|].
  2: { apply Forall_forall. intros a Ha. destruct (Hrow a Ha) as (a' & _ & Hs & ->). simpl.
       destruct (scorable_active _ _ _ Hs) as [H1 H2]. split_and!; [by eapply active_id_nonempty..|].
       unfold scorable in Hs. rewrite !andb_true_iff, Z.ltb_lt in Hs. destruct Hs as [_ Hs].
       apply toUnix_nonzero. lia. }
  apply andb_true_iff. split; apply forallb_forall.
  - intros x Hx%list_elem_of_In. apply list_elem_of_fmap in Hx as (r & -> & Hr). unfold root_ok. simpl.
    pose proof (Hrin r Hr) as Hin. apply list_elem_of_fmap in Hin as (p & Heq & Hp). rewrite Heq.
    rewrite streamed_principal by done. destruct (Hps p Hp) as (_ & _ & Hb & Hw).
    assert (gp_is_bootstrap p = true) as Hb' by (apply Hb; rewrite <- Heq; by apply list_elem_of_fmap_2).
    rewrite Hw, Hb'. done.
  - intros x Hx%list_elem_of_In. apply list_elem_of_fmap in Hx as (a & -> & Ha). unfold claim_ok. simpl.
    destruct (Hends a Ha) as [Hi Hs]. apply list_elem_of_fmap in Hi as (p & Heq & Hp).
    apply list_elem_of_fmap in Hs as (q & Heq' & Hq). rewrite Heq, Heq', !streamed_principal by done.
    apply bool_decide_eq_true. destruct (Hps p Hp) as (_ & (r & Hr & ->) & _).
    destruct (Hrow a Ha) as (a' & Ha' & _ & Hga). rewrite Hga in Heq. simpl in Heq.
    destruct (gd_fk _ Hd _ _ Ha') as [iss His].
    destruct (PrincipalInv.io_kind _ (gd_issuers _ Hd) _ _ His) as (r' & Hr' & Hk).
    rewrite Heq in Hr'. by simplify_eq.
Qed.

(** Retrying is bounded and stops for the right reason: with [retries]
    positive there is a last attempt [k] within the budget; every earlier one
    failed with a retryable error and was followed by a growing pause; the
    outcome is that of attempt [k], and if that is an error, the budget was used
    up or the error is one that retrying cannot cure. *)
Theorem retry_stops_correctly run retries :
  0 < retries →
  ∃ k, 1 ≤ k ≤ retries ∧
    (∀ j, 1 ≤ j < k → ∃ e, run j = Throw e ∧ isRetryableGrpcError e = true) ∧
    (runVeriRankWithRetry run (Some retries)).2 = (λ j, 100 * j) <$> seqZ 1 (k - 1) ∧
    match (runVeriRankWithRetry run (Some retries)).1 with
    | Ok r => run k = Ok r
    | Throw oe => ∃ e, oe = Some e ∧ run k = Throw e ∧ (k = retries ∨ isRetryableGrpcError e = false)
    end.
Proof. intros H. unfold runVeriRankWithRetry. simpl default. unfold default, from_option. apply retry_loop_spec; unfold id; lia. Qed.

Lemma retry_stops_correctly_witness :
  let run j := if j <? 2 then Throw (GStatus 14) else Throw (GStatus 3) in
  runVeriRankWithRetry run (Some 5) = (Throw (Some (GStatus 3)), [100]) ∧
  ∃ k, 1 ≤ k ≤ 5 ∧ (runVeriRankWithRetry run (Some 5)).2 = (λ j, 100 * j) <$> seqZ 1 (k - 1).
Proof.
  intros run. split; [reflexivity|].
  destruct (retry_stops_correctly run 5 ltac:(lia)) as (k & Hk & _ & Hs & _).
  exists k. split; [exact Hk|exact Hs].
Defined.

(** Plaintext is used for loopback only, and for IPv6 loopback never: the
    connection is insecure exactly when the part of the address before the first
    colon is 'localhost' (in any case) or '127.0.0.1', so the comparison with
    '::1' can never succeed. *)
Theorem insecure_only_for_loopback addr :
  (grpcCredentialsFor addr = Insecure ↔
     lower <$> before_colon addr = js "localhost" ∨ lower <$> before_colon addr = js "127.0.0.1") ∧
  lower <$> before_colon addr ≠ js "::1".
Proof.
  assert (Hno : lower <$> before_colon addr ≠ js "::1").
  { intros H. assert (58 ∈ lower <$> before_colon addr) as Hin by (rewrite H; by left).
    apply list_elem_of_fmap in Hin as (c & Hc & Hin). apply (before_colon_no_colon addr).
    unfold lower in Hc. destruct (_ && _) eqn:E; [bool_to_prop; lia|by subst]. }
  split; [|done]. unfold grpcCredentialsFor.
  rewrite (bool_decide_false (_ = js "::1")) by done. rewrite orb_false_r.
  destruct (_ || _) eqn:E.
  - apply orb_true_iff in E. rewrite !bool_decide_eq_true in E. done.
  - apply orb_false_iff in E. rewrite !bool_decide_eq_false in E. naive_solver.
Qed.

(** *** The recompute service *)

Lemma size_zero_map {A} (m : gmap jstr A) : Z.of_nat (size m) = 0 ↔ m = ∅.
Proof. rewrite <- map_size_empty_iff. lia. Qed.

Lemma recomputeNow_eq engine now t d g :
  loadAttestationGraph t d = (Ok g, d) →
  recomputeNow engine now t d =
  match g_roots g with
  | [] =>
      if networkScoreCount g =? 0 then (Ok (mkRecompute cold_start 0 0 t), d)
      else (deletes ← clearAllScores now; mret (mkRecompute cleared_stale 0 deletes t)) d
  | _ =>
      (result ← lift (engine g t);
       applied_ ← applyScoreTable now (rr_rows result) (rr_computedAtUnix result * 1000);
       mret (mkRecompute applied applied_.1 applied_.2 t)) d
  end.
Proof.
  intros Hg. unfold recomputeNow, mbind at 1, M_bind at 1. rewrite Hg.
  by destruct (g_roots g), (networkScoreCount g =? 0).
Qed.

(** A recompute does one of four things and nothing else. With no
    eligible root it is a no-op on an empty score table and otherwise empties the
    table; with roots, an engine failure changes nothing, and an engine answer
    whose rows the table can hold becomes the score table, atomically. *)
Theorem recompute_outcomes engine now t d :
  log_wf d → scores_wf d →
  match root_rows d with
  | [] =>
      (network_scores d = ∅ ∧ recomputeNow engine now t d = (Ok (mkRecompute cold_start 0 0 t), d)) ∨
      (∃ k d', recomputeNow engine now t d = (Ok (mkRecompute cleared_stale 0 k t), d') ∧
         network_scores d ≠ ∅ ∧ loadExistingScores d' = ∅ ∧ k = Z.of_nat (size (network_scores d)))
  | _ =>
      ∃ g, loadAttestationGraph t d = (Ok g, d) ∧
      match engine g t with
      | Throw e => recomputeNow engine now t d = (Throw e, d)
      | Ok r =>
          NoDup (es_principal_id <$> rr_rows r) → Forall (row_ok d) (rr_rows r) →
          ∃ u k d', recomputeNow engine now t d = (Ok (mkRecompute applied u k t), d') ∧
            loadExistingScores d' = rows_map (rr_rows r) ∧ log_wf d' ∧ scores_wf d'
      end
  end.
Proof.
  intros Hl Hs. destruct (loadAttestationGraph_spec t d) as (g & Hg & Hr & _ & Hc & _).
  rewrite (recomputeNow_eq engine now t d g Hg), Hr. destruct (root_rows d) as [|r0 rs] eqn:Er.
  - rewrite Hc. destruct (Z.of_nat (size (network_scores d)) =? 0) eqn:E; bool_to_prop.
    + left. apply size_zero_map in E. done.
    + right. destruct (applyScoreTable_spec now [] now d Hl Hs) as
        (u & k & d' & evs & H & HV & _ & Hk & _); [constructor|constructor|].
      exists k, d'. unfold clearAllScores, mbind, M_bind. rewrite H. split_and!; [done| |done|].
      * intros E'. apply E. by apply size_zero_map.
      * rewrite Hk. rewrite filter_all by (intros x _; apply not_elem_of_nil).
        rewrite length_fmap, length_map_to_list. unfold loadExistingScores. by rewrite map_size_fmap.
  - exists g. split; [done|]. unfold mbind, M_bind, lift. destruct (engine g t) as [r|e]; [|done].
    intros Hnd HF. destruct (applyScoreTable_spec now (rr_rows r) (rr_computedAtUnix r * 1000) d Hl Hs Hnd HF)
      as (u & k & d' & evs & H & HV & _ & _ & _ & _ & Hl' & Hs' & _).
    exists u, k, d'. rewrite H. split_and!; done.
Qed.

Definition one_root : db :=
  set_principals {[js "p" := mkPrincipal (js "p") (js "issuer") None None (JObj []) 0 0 (js "active")]}
   (set_issuers {[js "p" := mkIssuer (js "p") 80 true None 0]}
    (set_bootstrap_issuers {[js "p" := mkBootstrapIssuer (js "p") (js "n") 50 0 None None None None]} empty_db)).

Definition toy_engine (g : AttestationGraph) (t : Z) : result exn RunVeriRankResult :=
  Ok (mkRunResult [mkScore (js "p") (js "issuer") 50 false (js "propagated")] (toUnix t)).

Lemma recompute_outcomes_witness :
  ∃ u k d', recomputeNow toy_engine 5 4 one_root = (Ok (mkRecompute applied u k 4), d') ∧
    loadExistingScores d' = rows_map [mkScore (js "p") (js "issuer") 50 false (js "propagated")].
Proof.
  assert (Hl : log_wf one_root) by (vm_compute; reflexivity).
  assert (Hs : scores_wf one_root) by (intros p r H; discriminate H).
  pose proof (recompute_outcomes toy_engine 5 4 one_root Hl Hs) as H.
  replace (root_rows one_root) with [mkRoot (js "p") 50] in H by (vm_compute; reflexivity).
  destruct H as (g & _ & H). cbn [toy_engine] in H.
  destruct H as (u & k & d' & H & HV & _).
  - apply NoDup_singleton.
  - constructor; [|constructor]. split_and!; [by left|right; by left|by eexists].
  - exists u, k, d'. split; [exact H|exact HV].
Defined.

Lemma one_root_ok : graph_db_ok one_root.
Proof.
  split; [split|..]; cbn.
  - intros p i H. apply lookup_singleton_Some in H as [<- _]. eexists. rewrite lookup_singleton_eq.
    split; [done|by left].
  - intros p i H. apply lookup_singleton_Some in H as [_ <-]. simpl. lia.
  - intros p r H. apply lookup_singleton_Some in H as [_ <-]. right. by left.
  - intros i a H. discriminate H.
  - intros p r H. apply lookup_singleton_Some in H as [<- _]. done.
  - intros p b H. apply lookup_singleton_Some in H as [_ <-]. simpl. lia.
Qed.

Lemma engine_accepts_loaded_graph_witness :
  ∃ g, loadAttestationGraph 200000000000 one_root = (Ok g, one_root) ∧
    engine_accepts (stream_of g 200000000000) = true.
Proof.
  destruct (loadAttestationGraph 200000000000 one_root) as [[g|e] d'] eqn:E; [|vm_compute in E; discriminate E].
  assert (d' = one_root) as -> by (unfold loadAttestationGraph in E; vm_compute in E; injection E as _ <-; reflexivity).
  exists g. split; [reflexivity|].
  exact (engine_accepts_loaded_graph 200000000000 one_root g one_root_ok ltac:(unfold HALF_LIVES_MS; lia) E).
Defined.

End VeriRank.
