(* ===== verification/VeriRankStream.v ===== *)
(** * The streaming call to the trust engine

    [runVeriRank] of [src/control-plane/src/grpc/runVeriRankClient.ts]: a writer
    that streams the chunks of [VeriRank.stream_of] under backpressure, next to the
    call's callback and its 'error' handler, which settle one promise.  The gRPC
    stream is third-party code: what its [n]-th [write] answers is the section
    variable [write], and its events ('drain', 'error', 'close', the callback) may
    come in any order.  Listeners are counted, since not leaking them is what
    [waitForDrainOrFailure] is written for. *)

From stdpp Require Import base gmap strings sorting numbers list.
From Stdlib Require Import ZArith Lia.
From S2P Require Import Prelude Json Errors Db GraphLoader ScoreWriter VeriRank.

Module VeriRankStream.
Import Grouping GraphLoader ScoreWriter VeriRank.

(** ** The response message *)

(** [ScoreTable] of [src/proto/verilink/trust/v1/trust.proto]. *)
Record ScoreTable := mkScoreTable { m_rows : list EngineScore; m_computed_at_unix : Z }.

(** The object [proto-loader] makes of a message with the options of the client:
    camel case names, 64-bit integers as strings, every field present. *)
Definition row_object (r : EngineScore) : json :=
  JObj [(js "principalId", JStr (es_principal_id r)); (js "entityKind", JStr (es_entity_kind r));
        (js "score", JNum (num_of_Z (es_score r))); (js "blacklisted", JBool (es_blacklisted r));
        (js "scoreReason", JStr (es_score_reason r))].
Definition message_object (m : ScoreTable) : json :=
  JObj [(js "rows", JArr (row_object <$> m_rows m)); (js "computedAtUnix", JStr (show_Z (m_computed_at_unix m)))].

Section call.
Context (Number_ : jstr → number)   (** [Number] on a string *)
        (write : nat → option bool). (** [None]: [call.write] throws *)

Definition to_number (v : json) : number :=
  match v with
  | JNum n => n
  | JStr s => Number_ s
  | JBool b => num_of_Z (if b then 1 else 0)
  | JNull => num_of_Z 0
  | _ => NaN
  end.

(** The row mapping of the callback; [None] when the score is no integer, which
    an int32 field cannot be. *)
Definition map_row (r : json) : option EngineScore :=
  score ← num_to_Z (to_number (get r "score"));
  Some (mkScore (String_ (nullish (get r "principalId") (get r "principal_id")))
          (String_ (nullish (get r "entityKind") (get r "entity_kind"))) score
          (truthy (get r "blacklisted"))
          (String_ (nullish (get r "scoreReason") (get r "score_reason")))).

Definition response_result (evaluationTime : Z) (res : json) : option RunVeriRankResult :=
  rows ← (if truthy (get res "rows") then
            match get res "rows" with JArr l => mapM map_row l | _ => None end
          else Some []);
  at_ ← num_to_Z (to_number (nullish (nullish (get res "computedAtUnix") (get res "computed_at_unix"))
                                (JNum (num_of_Z (toUnix evaluationTime)))));
  Some (mkRunResult rows at_).

(** ** The call *)

Record call := mkCall {
  rest : list RunChunk;         (** still to be written *)
  written : list RunChunk;
  waiting : bool;               (** the writer awaits [waitForDrainOrFailure] *)
  finished : bool;              (** the writer returned *)
  call_ended : bool;            (** [call.end()] *)
  settled : bool;
  outcome : option (result grpc_error RunVeriRankResult);
  closes : nat;                 (** [client.close()] calls *)
  on_drain : nat; on_error : nat; on_close : nat   (** listeners of the call *)
}.

Definition open_call (graph : AttestationGraph) (evaluationTime : Z) : call :=
  mkCall (stream_of graph evaluationTime) [] false false false false None 0 0 1 0.

Definition settle (r : option (result grpc_error RunVeriRankResult)) (s : call) : call :=
  if settled s then s
  else mkCall (rest s) (written s) (waiting s) (finished s) (call_ended s) true r (S (closes s))
         (on_drain s) (on_error s) (on_close s).

(** [waitForDrainOrFailure]: subscribe, and the [cleanup] of its three handlers. *)
Definition subscribe (s : call) : call :=
  mkCall (rest s) (written s) true (finished s) (call_ended s) (settled s) (outcome s) (closes s)
    (S (on_drain s)) (S (on_error s)) (S (on_close s)).
Definition unsubscribe (s : call) : call :=
  mkCall (rest s) (written s) false (finished s) (call_ended s) (settled s) (outcome s) (closes s)
    (pred (on_drain s)) (pred (on_error s)) (pred (on_close s)).

Definition finish_writer (ended : bool) (s : call) : call :=
  mkCall (rest s) (written s) (waiting s) true (call_ended s || ended) (settled s) (outcome s) (closes s)
    (on_drain s) (on_error s) (on_close s).

(** The [catch] around the writer. *)
Definition writer_failed (e : grpc_error) (s : call) : call := finish_writer false (settle (Some (Throw e)) s).

Definition writeChunk (c : RunChunk) (cs : list RunChunk) (s : call) : call :=
  let sent := mkCall cs (written s ++ [c]) (waiting s) (finished s) (call_ended s) (settled s) (outcome s) (closes s)
                (on_drain s) (on_error s) (on_close s) in
  match write (length (written s)) with
  | Some true => sent
  | Some false => subscribe sent
  | None => writer_failed GOther s
  end.

Inductive cevent :=
| CWriter                                              (** the writer's next turn *)
| CDrain | CError (e : grpc_error) | CClose
| CCallback (r : result grpc_error ScoreTable).

Definition cstep (evaluationTime : Z) (ev : cevent) (s : call) : call :=
  match ev with
  | CWriter =>
      if waiting s || finished s then s
      else match rest s with
           | [] => finish_writer true s
           | c :: cs => writeChunk c cs s
           end
  | CDrain => if waiting s then unsubscribe s else s
  | CError e =>
      let s' := settle (Some (Throw e)) s in
      if waiting s' then writer_failed e (unsubscribe s') else s'
  | CClose => if waiting s then writer_failed GOther (unsubscribe s) else s
  | CCallback (Throw e) => settle (Some (Throw e)) s
  | CCallback (Ok m) => settle (Ok <$> response_result evaluationTime (message_object m)) s
  end.

Definition crun (evaluationTime : Z) (evs : list cevent) (s : call) : call :=
  fold_left (λ s ev, cstep evaluationTime ev s) evs s.

(** ** Lemmas *)

Definition count (b : bool) : nat := if b then 1 else 0.

Record call_inv (chunks : list RunChunk) (s : call) : Prop := {
  vi_chunks : written s ++ rest s = chunks;
  vi_drain : on_drain s = count (waiting s);
  vi_error : on_error s = S (count (waiting s));
  vi_close : on_close s = count (waiting s);
  vi_finished : finished s = true → waiting s = false ∧ (call_ended s = true ∨ settled s = true);
  vi_ended : call_ended s = true → rest s = [] ∧ finished s = true;
  vi_closes : closes s = count (settled s) }.

Lemma settle_inv chunks r s : call_inv chunks s → call_inv chunks (settle r s).
Proof.
  intros HI. unfold settle. destruct (settled s) eqn:E; [done|]. destruct HI. split; simpl; auto.
  - naive_solver.
  - by rewrite vi_closes0, E.
Qed.

Lemma unsubscribe_inv chunks s : call_inv chunks s → waiting s = true → call_inv chunks (unsubscribe s).
Proof.
  intros [] Hw. rewrite Hw in *. split; simpl; try done; [by rewrite vi_drain0|by rewrite vi_error0|by rewrite vi_close0|].
  naive_solver.
Qed.

Lemma writer_failed_inv chunks e s : call_inv chunks s → waiting s = false → call_inv chunks (writer_failed e s).
Proof.
  intros HI Hw. unfold writer_failed. pose proof (settle_inv chunks (Some (Throw e)) s HI) as [].
  assert (waiting (settle (Some (Throw e)) s) = false ∧ settled (settle (Some (Throw e)) s) = true) as [Hw' Hs].
  { unfold settle. destruct (settled s) eqn:E; by simpl. }
  split; simpl; rewrite ?orb_false_r; try done; naive_solver.
Qed.

Lemma cstep_inv t chunks ev s : call_inv chunks s → call_inv chunks (cstep t ev s).
Proof.
  intros HI. destruct ev as [| |e| |[m|e]]; simpl.
  - destruct (waiting s) eqn:Hw; [done|]. destruct (finished s) eqn:Hf; [done|]. simpl.
    destruct (rest s) as [|c cs] eqn:Hr.
    + destruct HI. split; simpl; rewrite ?orb_true_r; try done; auto.
    + unfold writeChunk. destruct (write _) as [[]|]; [| |by apply writer_failed_inv];
        destruct HI; rewrite Hr in *; rewrite Hw in *; split; simpl; rewrite ?Hf, ?Hw, <- ?app_assoc; try done; naive_solver.
  - destruct (waiting s) eqn:Hw; [by apply unsubscribe_inv|done].
  - pose proof (settle_inv chunks (Some (Throw e)) s HI) as HI'.
    destruct (waiting (settle (Some (Throw e)) s)) eqn:Hw; [|done].
    apply writer_failed_inv; [by apply unsubscribe_inv|done].
  - destruct (waiting s) eqn:Hw; [|done]. apply writer_failed_inv; [by apply unsubscribe_inv|done].
  - by apply settle_inv.
  - by apply settle_inv.
Qed.

(** The promise is settled once, with the first value. *)
Lemma settle_first r s :
  settled s = true → settled (settle r s) = true ∧ outcome (settle r s) = outcome s.
Proof. unfold settle. intros H. by rewrite H. Qed.

Lemma cstep_settled t ev s :
  settled s = true → settled (cstep t ev s) = true ∧ outcome (cstep t ev s) = outcome s.
Proof.
  intros Hs. destruct ev as [| |e| |[m|e]]; simpl; try (by apply settle_first);
    unfold writeChunk, writer_failed, settle; repeat (case_match; simpl); congruence || done.
Qed.

Lemma crun_settled t evs s :
  settled s = true → settled (crun t evs s) = true ∧ outcome (crun t evs s) = outcome s.
Proof.
  revert s. induction evs as [|ev evs IH]; intros s Hs; [done|]. simpl.
  destruct (cstep_settled t ev s Hs) as [H1 H2]. destruct (IH _ H1) as [? ->]. done.
Qed.

(** A value the promise resolves with was the callback's. *)
Lemma cstep_outcome t ev s r :
  outcome (cstep t ev s) = Some (Ok r) →
  outcome s = Some (Ok r) ∨ ∃ m, ev = CCallback (Ok m) ∧ response_result t (message_object m) = Some r.
Proof.
  destruct ev as [| |e| |[m|e]]; simpl; unfold writeChunk, writer_failed, settle;
    repeat (case_match; simpl); try (intros; by left); try done.
  destruct (response_result t (message_object m)) as [r'|] eqn:E; [|done]. intros [= ->]. right. by exists m.
Qed.

Lemma map_row_object r : map_row (row_object r) = Some r.
Proof. destruct r. unfold map_row. simpl. by rewrite num_to_of_Z. Qed.

Lemma response_of_message t m :
  Number_ (show_Z (m_computed_at_unix m)) = num_of_Z (m_computed_at_unix m) →
  response_result t (message_object m) = Some (mkRunResult (m_rows m) (m_computed_at_unix m)).
Proof.
  intros Hn. unfold response_result. simpl.
  assert (mapM map_row (row_object <$> m_rows m) = Some (m_rows m)) as ->.
  { apply mapM_Some_2, Forall2_fmap_l, Forall_Forall2_diag, Forall_true. intros r. apply map_row_object. }
  simpl. by rewrite Hn, num_to_of_Z.
Qed.

Lemma crun_inv graph t evs : call_inv (stream_of graph t) (crun t evs (open_call graph t)).
Proof.
  assert (H : call_inv (stream_of graph t) (open_call graph t)) by (split; simpl; done).
  revert H. generalize (open_call graph t). induction evs as [|ev evs IH]; intros s Hs; [done|]. by apply IH, cstep_inv.
Qed.

Lemma crun_outcome t evs s r :
  outcome s = None → outcome (crun t evs s) = Some (Ok r) →
  ∃ m, CCallback (Ok m) ∈ evs ∧ response_result t (message_object m) = Some r.
Proof.
  intros H0. enough (outcome (crun t evs s) = Some (Ok r) → outcome s = Some (Ok r) ∨
    ∃ m, CCallback (Ok m) ∈ evs ∧ response_result t (message_object m) = Some r) by naive_solver.
  clear H0. revert s. induction evs as [|ev evs IH]; intros s; simpl; [by left|].
  intros [[H|(m & -> & H)]%cstep_outcome|(m & Hm & H)]%IH; [by left|right; exists m; split; [by left|done]|].
  right. exists m. split; [by right|done].
Qed.

(** ** Properties *)

(** C23. The call to the engine follows its protocol, whatever order its events come
    in: the chunks written so far are an initial part of the header, principals,
    roots and attestations of the graph, and the stream is only half-closed when
    all of them were written; the client is closed exactly once, when the promise
    is settled, and the first settlement stands; no listener is leaked (the
    permanent 'error' handler, and three more exactly while the writer waits); and
    when the promise resolves, it is with the rows and the time of a response the
    engine sent. *)
Theorem engine_call_protocol graph t evs evs' :
  (∀ m, CCallback (Ok m) ∈ evs → Number_ (show_Z (m_computed_at_unix m)) = num_of_Z (m_computed_at_unix m)) →
  let s := crun t evs (open_call graph t) in
  written s ++ rest s = stream_of graph t ∧ (call_ended s = true → written s = stream_of graph t) ∧
  closes s = count (settled s) ∧
  (settled s = true → outcome (crun t (evs ++ evs') (open_call graph t)) = outcome s) ∧
  (on_drain s = count (waiting s) ∧ on_error s = S (count (waiting s)) ∧ on_close s = count (waiting s)) ∧
  (∀ r, outcome s = Some (Ok r) →
    ∃ m, CCallback (Ok m) ∈ evs ∧ r = mkRunResult (m_rows m) (m_computed_at_unix m)).
Proof.
  intros Hn s. destruct (crun_inv graph t evs) as [H1 H2 H3 H4 _ H5 H6]. fold s in H1, H2, H3, H4, H5, H6.
  split_and!; try done.
  - intros [Hr _]%H5. by rewrite <- H1, Hr, app_nil_r.
  - intros Hs. unfold crun. rewrite fold_left_app. apply (crun_settled t evs' s Hs).
  - intros r (m & Hm & Hr)%crun_outcome; [|done]. exists m. split; [done|].
    rewrite response_of_message in Hr by auto. by injection Hr as <-.
Qed.

Definition round : list cevent := [CWriter; CDrain].

(** One round writes a chunk. *)
Lemma round_spec t s :
  (∀ n, is_Some (write n)) → waiting s = false → finished s = false →
  let s' := crun t round s in
  waiting s' = false ∧
  match rest s with
  | [] => finished s' = true ∧ call_ended s' = true ∧ written s' = written s
  | c :: cs => finished s' = false ∧ rest s' = cs
  end.
Proof.
  intros Hw H1 H2. unfold crun, round. simpl. rewrite H1, H2. simpl.
  destruct (rest s) as [|c cs] eqn:Hr; simpl; [rewrite H1; simpl; by rewrite orb_true_r|].
  unfold writeChunk. destruct (Hw (length (written s))) as [[] ->]; simpl; rewrite ?H1; done.
Qed.

Lemma rounds_complete t n s :
  (∀ n, is_Some (write n)) → waiting s = false → finished s = false → (length (rest s) < n)%nat →
  let s' := crun t (concat (replicate n round)) s in call_ended s' = true ∧ finished s' = true.
Proof.
  intros Hw. revert s. induction n as [|n IH]; intros s H1 H2 Hn; [lia|].
  destruct (round_spec t s Hw H1 H2) as [Hw1 Hr].
  change (crun t (concat (replicate (S n) round)) s) with (crun t (concat (replicate n round)) (crun t round s)).
  destruct (rest s) as [|c cs]; simpl in Hn.
  - destruct Hr as (Hf & He & _). generalize dependent (crun t round s). intros s1 ? Hf He. clear -Hf He.
    assert (∀ l s2, l ⊆ round → finished s2 = true → call_ended s2 = true →
      finished (crun t l s2) = true ∧ call_ended (crun t l s2) = true) as Hk.
    { induction l as [|ev l IH]; intros s2 Hl Hf2 He2; [done|]. simpl. apply IH; [set_solver| |];
        (assert (ev ∈ round) as Hev by set_solver); unfold round in Hev; set_unfold in Hev;
        destruct Hev as [-> |[-> |[]]]; simpl; rewrite ?Hf2, ?orb_true_r; try done; by destruct (waiting s2). }
    simpl. destruct (Hk (concat (replicate n round)) s1); [|done|done|done].
    intros ev. induction n as [|n IH]; [by intros ?%elem_of_nil|]. simpl. set_solver.
  - destruct Hr as [Hf Hr]. apply IH; [done|done|]. rewrite Hr. lia.
Qed.

(** The stream gets through: if no write throws and the socket drains after each
    refused write, then one writer turn per chunk and one more send the whole
    graph and half-close the stream. *)
Theorem engine_stream_completes graph t n :
  (∀ n, is_Some (write n)) → (length (stream_of graph t) < n)%nat →
  let s := crun t (concat (replicate n round)) (open_call graph t) in
  call_ended s = true ∧ written s = stream_of graph t.
Proof.
  intros Hw Hn s. destruct (rounds_complete t n (open_call graph t) Hw eq_refl eq_refl Hn) as [He _]. fold s in He.
  split; [done|]. destruct (crun_inv graph t (concat (replicate n round))) as [H1 _ _ _ _ H5 _]. fold s in H1, H5.
  destruct (H5 He) as [Hr _]. by rewrite <- H1, Hr, app_nil_r.
Qed.

End call.

(** ** Witnesses: a stream of two chunks whose first write is refused. *)

Definition toy_Number (s : jstr) : number := num_of_Z (digits_value s).
Definition toy_write (n : nat) : option bool := Some (negb (bool_decide (n = 0%nat))).
Definition one_principal : AttestationGraph :=
  mkGraph [mkGP (js "p") (js "issuer") 100 true] [] [] 0.
Definition toy_response : ScoreTable := mkScoreTable [mkScore (js "p") (js "issuer") 100 false (js "propagated")] 1700.
Definition toy_events : list cevent := [CWriter; CDrain; CWriter; CWriter; CCallback (Ok toy_response); CError GOther].

Lemma engine_call_protocol_witness :
  let s := crun toy_Number toy_write 1700000 toy_events (open_call one_principal 1700000) in
  call_ended s = true ∧ closes s = 1%nat ∧ on_error s = 1%nat ∧
  ∃ m, CCallback (Ok m) ∈ toy_events ∧ outcome s = Some (Ok (mkRunResult (m_rows m) (m_computed_at_unix m))).
Proof.
  intros s.
  destruct (engine_call_protocol toy_Number toy_write one_principal 1700000 toy_events []) as (_ & _ & H1 & _ & (_ & H2 & _) & H3).
  - intros m Hm. unfold toy_events in Hm. repeat (apply elem_of_cons in Hm as [Hm|Hm]; [try discriminate Hm|]); [|by apply elem_of_nil in Hm].
    injection Hm as ->. vm_compute. reflexivity.
  - split; [vm_compute; reflexivity|]. split; [exact H1|]. split; [exact H2|].
    destruct (H3 (mkRunResult (m_rows toy_response) 1700)) as (m & Hm & Hr); [vm_compute; reflexivity|].
    exists m. split; [exact Hm|]. rewrite <- Hr. vm_compute. reflexivity.
Defined.

Lemma engine_stream_completes_witness :
  let s := crun toy_Number toy_write 1700000 (concat (replicate 3 round)) (open_call one_principal 1700000) in
  call_ended s = true ∧ written s = stream_of one_principal 1700000.
Proof.
  apply (engine_stream_completes toy_Number toy_write one_principal 1700000 3).
  - intros n. unfold toy_write. eauto.
  - vm_compute. lia.
Defined.

End VeriRankStream.
