(* ===== verification/SseSession.v ===== *)
(** * SSE sessions and their registry

    [src/control-plane/src/domains/sync/sseRegistry.ts] (the connections, their
    admission and shutdown), [sseSession.ts] (one connection: initial batch, then
    the poll loop) and the admission part of [src/control-plane/src/routes/sync.ts].
    The queue a session writes to is [SseQueue]; here the outcome of its [n]-th
    [enqueueIncremental] call is the section variable [enq].  The database the
    session reads at each poll is an argument of that poll. *)

From stdpp Require Import base gmap strings sorting numbers list.
From Stdlib Require Import ZArith Lia.
From S2P Require Import Prelude Json Errors Db SyncLog SseQueue.

Module SseRegistry.
Import SseQueue.

Record SseConnection := mkConn { c_id : jstr; c_queue : SseWriteQueue; c_aborted : bool }.

(** [connections] is a JavaScript Map: insertion order. *)
Record SseRegistry := mkRegistry {
  connections : list SseConnection; accepting : bool; nextId : Z }.

Definition new_registry : SseRegistry := mkRegistry [] true 1.

Definition size (r : SseRegistry) : Z := Z.of_nat (length (connections r)).

Definition stopAccepting (r : SseRegistry) : SseRegistry := mkRegistry (connections r) false (nextId r).
Definition startAccepting (r : SseRegistry) : SseRegistry := mkRegistry (connections r) true (nextId r).

Definition conn_id (n : Z) : jstr := js "sse-" ++ show_Z n.

Definition tryRegister (queue : SseWriteQueue) (r : SseRegistry) : option SseConnection * SseRegistry :=
  if accepting r then
    let conn := mkConn (conn_id (nextId r)) queue false in
    (Some conn, mkRegistry (connections r ++ [conn]) (accepting r) (nextId r + 1))
  else (None, r).

Definition unregister (id : jstr) (r : SseRegistry) : SseRegistry :=
  mkRegistry (filter (λ c, c_id c ≠ id) (connections r)) (accepting r) (nextId r).

Definition shutdown_frame : jstr := formatSseEvent (Some (js "shutdown")) None (js "{}").

(** [shutdownAll] up to its [await]: no new connection, and the shutdown frame
    goes to every connection's control lane. *)
Definition shutdown_begin (r : SseRegistry) : SseRegistry :=
  let r := stopAccepting r in
  mkRegistry
    ((λ c, mkConn (c_id c) (snd (enqueueControl shutdown_frame (c_queue c))) (c_aborted c)) <$> connections r)
    (accepting r) (nextId r).

(** [shutdownAll] after the drain wait: the second component are the
    connections as they are left. *)
Definition shutdown_end (r : SseRegistry) : SseRegistry * list SseConnection :=
  let gone := (λ c, mkConn (c_id c) (close (c_queue c)) true) <$> connections r in
  (fold_left (λ r c, unregister (c_id c) r) (connections r) r, gone).

(** ** Admission: the route's steps, with requests that interleave *)

Record admission := mkAdmission { registry : SseRegistry; admitted : nat }.

Inductive adm_step (maxConnections : Z) : admission → admission → Prop :=
| adm_check a :    (** the second check passes; the session goes on to [await] *)
    accepting (registry a) = true → size (registry a) < maxConnections →
    adm_step maxConnections a (mkAdmission (registry a) (S (admitted a)))
| adm_register a n queue :  (** ... and registers *)
    admitted a = S n →
    adm_step maxConnections a (mkAdmission (snd (tryRegister queue (registry a))) n)
| adm_leave a id :
    adm_step maxConnections a (mkAdmission (unregister id (registry a)) (admitted a)).

(** ** Lemmas *)

Lemma show_Z_inj a b : 0 ≤ a → 0 ≤ b → show_Z a = show_Z b → a = b.
Proof.
  intros Ha Hb. unfold show_Z. rewrite !(proj2 (Z.ltb_ge _ _)) by lia. intros H.
  destruct (show_nonneg_spec a Ha) as [_ <-], (show_nonneg_spec b Hb) as [_ <-]. by rewrite H.
Qed.

Lemma conn_id_inj a b : 0 ≤ a → 0 ≤ b → conn_id a = conn_id b → a = b.
Proof. intros Ha Hb H%app_inv_head. by apply show_Z_inj. Qed.

(** Ids are distinct and were all handed out below [nextId]. *)
Record registry_inv (r : SseRegistry) : Prop := {
  ri_next : 1 ≤ nextId r;
  ri_ids : NoDup (c_id <$> connections r);
  ri_old : ∀ c, c ∈ connections r → ∃ n, 1 ≤ n < nextId r ∧ c_id c = conn_id n
}.

Lemma new_registry_inv : registry_inv new_registry.
Proof. split; simpl; [lia|constructor|]. by intros c ?%elem_of_nil. Qed.

Lemma tryRegister_inv q r : registry_inv r → registry_inv (snd (tryRegister q r)).
Proof.
  intros [H1 H2 H3]. unfold tryRegister. destruct (accepting r); [|by split]. split; simpl; [lia| |].
  - rewrite fmap_app. simpl. apply NoDup_app. split_and!; [done| |apply NoDup_singleton].
    intros x (c & -> & Hc)%list_elem_of_fmap Hx%list_elem_of_singleton.
    destruct (H3 c Hc) as (n & Hn & Heq). rewrite Heq in Hx. apply conn_id_inj in Hx; lia.
  - intros c [Hc| ->%list_elem_of_singleton]%elem_of_app.
    + destruct (H3 c Hc) as (n & ? & ?). exists n. split; [lia|done].
    + exists (nextId r). split; [lia|done].
Qed.

Lemma unregister_inv id r : registry_inv r → registry_inv (unregister id r).
Proof.
  intros [H1 H2 H3]. split; simpl; [done| |].
  - by apply NoDup_fmap_filter.
  - intros c [_ ?]%list_elem_of_filter. auto.
Qed.

Lemma unregister_all cs r :
  connections (fold_left (λ r c, unregister (c_id c) r) cs r) =
  filter (λ c, c_id c ∉ c_id <$> cs) (connections r).
Proof.
  revert r. induction cs as [|c cs IH]; intros r; simpl.
  - induction (connections r) as [|x l IHl]; [done|]. rewrite filter_cons_True by apply not_elem_of_nil.
    by rewrite <- IHl.
  - rewrite IH. simpl. rewrite list_filter_filter. apply list_filter_iff. intros x.
    rewrite not_elem_of_cons. tauto.
Qed.

(** ** Properties *)

(** A registry never confuses two connections: a registered connection
    gets an id that no connection present has, and the ids stay distinct through
    any mix of registrations and removals. *)
Theorem registered_ids_fresh queue r :
  registry_inv r →
  registry_inv (snd (tryRegister queue r)) ∧ (∀ id, registry_inv (unregister id r)) ∧
  ∀ c, fst (tryRegister queue r) = Some c →
    c_id c ∉ c_id <$> connections r ∧ c ∈ connections (snd (tryRegister queue r)) ∧
    connections (unregister (c_id c) (snd (tryRegister queue r))) = connections r.
Proof.
  intros HI. pose proof (tryRegister_inv queue r HI) as HI'. split; [done|]. split; [intros; by apply unregister_inv|].
  intros c Hc. unfold tryRegister in *. destruct (accepting r); [|done]. simpl in *. injection Hc as <-. simpl.
  destruct HI' as [_ Hnd _]. simpl in Hnd. rewrite fmap_app in Hnd. apply NoDup_app in Hnd as (_ & Hd & _).
  assert (Hfresh : conn_id (nextId r) ∉ c_id <$> connections r) by (intros H; apply (Hd _ H); by left).
  split_and!; [done|apply elem_of_app; right; by apply list_elem_of_singleton|].
  rewrite filter_app, filter_cons_False, filter_nil, app_nil_r by (simpl; tauto).
  induction (connections r) as [|x l IH]; [done|]. simpl in Hfresh. apply not_elem_of_cons in Hfresh as [? ?].
  rewrite filter_cons_True by done. f_equal. apply IH; [|done].
  intros y Hy. apply Hd. by right.
Qed.

Lemma registered_ids_fresh_witness :
  registry_inv (snd (tryRegister new_queue (snd (tryRegister new_queue new_registry)))).
Proof.
  destruct (registered_ids_fresh new_queue (snd (tryRegister new_queue new_registry))) as [H _].
  - destruct (registered_ids_fresh new_queue new_registry new_registry_inv) as [H _]. exact H.
  - exact H.
Defined.

(** Shutdown is complete: after its first phase nothing is admitted and
    every open queue has the shutdown frame on its control lane; after its second
    phase the registry is empty, nothing can register, and every connection that
    was still there is aborted with its queue closed. *)
Theorem shutdown_complete r queue :
  fst (tryRegister queue (shutdown_begin r)) = None ∧
  (∀ c, c ∈ connections (shutdown_begin r) → closed (c_queue c) = true ∨ control (c_queue c) = Some shutdown_frame) ∧
  let '(r', gone) := shutdown_end (shutdown_begin r) in
  connections r' = [] ∧ fst (tryRegister queue r') = None ∧
  length gone = length (connections r) ∧
  Forall (λ c, c_aborted c = true ∧ closed (c_queue c) = true) gone.
Proof.
  split; [done|]. split.
  { intros c (c' & -> & _)%list_elem_of_fmap. simpl. unfold enqueueControl.
    destruct (closed (c_queue c')) eqn:E; [by left|right]. simpl. unfold schedulePump.
    destruct (c_queue c'); simpl in *. by destruct (_ || _). }
  unfold shutdown_end.
  assert (Hacc : ∀ cs r1, accepting (fold_left (λ r c, unregister (c_id c) r) cs r1) = accepting r1).
  { induction cs as [|c cs IH]; intros r1; [done|]. simpl. by rewrite IH. }
  split_and!.
  - rewrite unregister_all. apply filter_none. intros c Hc Hn. apply Hn. by apply list_elem_of_fmap_2.
  - unfold tryRegister. by rewrite Hacc.
  - rewrite length_fmap. simpl. by rewrite length_fmap.
  - apply Forall_fmap, Forall_forall. intros c _. simpl. split; [done|].
    unfold close. destruct (closed (c_queue c)) eqn:E; [done|]. by destruct (c_queue c).
Qed.

(** The connection limit is not enforced: the check and the registration
    are separated by an [await], and the registration does not check again, so
    requests that arrive together all pass. For any number [n] there is a run
    from an empty registry to one with [n] connections, whatever the limit is (as
    long as it admits anybody). *)
Theorem admission_limit_can_be_exceeded maxConnections n :
  0 < maxConnections →
  ∃ a, rtc (adm_step maxConnections) (mkAdmission new_registry 0) a ∧ size (registry a) = Z.of_nat n.
Proof.
  intros Hmax.
  assert (Hadmit : ∀ k, rtc (adm_step maxConnections) (mkAdmission new_registry 0) (mkAdmission new_registry k)).
  { induction k as [|k IH]; [done|]. eapply rtc_r; [exact IH|]. by apply (adm_check _ (mkAdmission new_registry k)). }
  assert (Hreg : ∀ k r, accepting r = true → ∃ r', rtc (adm_step maxConnections) (mkAdmission r k) (mkAdmission r' 0) ∧
    size r' = size r + Z.of_nat k).
  { induction k as [|k IH]; intros r Hr; [exists r; split; [done|lia]|].
    destruct (IH (snd (tryRegister new_queue r))) as (r' & Hr' & Hs); [unfold tryRegister; by rewrite Hr|].
    exists r'. split.
    - eapply rtc_l; [|exact Hr']. by apply (adm_register _ (mkAdmission r (S k)) k new_queue).
    - rewrite Hs. unfold tryRegister, size. rewrite Hr. simpl. rewrite length_app. simpl. lia. }
  destruct (Hreg n new_registry) as (r' & Hr' & Hs); [done|].
  exists (mkAdmission r' 0). split; [etrans; [apply Hadmit|exact Hr']|exact Hs].
Qed.

Lemma admission_limit_can_be_exceeded_witness :
  ∃ a, rtc (adm_step 1) (mkAdmission new_registry 0) a ∧ size (registry a) = 3.
Proof. exact (admission_limit_can_be_exceeded 1 3 ltac:(lia)). Defined.

End SseRegistry.

Module SseSession.
Import SyncLog SseQueue.

(** What [enqueueIncremental] resolves to. *)
Inductive inc_result := IOk | IOversized | IClosed.

(** A data or control frame a session handed to its queue. *)
Inductive out_frame := FEvent (e : SyncEvent) | FCursor (hw : Z) | FShutdown.

Record session := mkSession {
  lastEmittedHw : Z;
  durableEventsWritten : Z;
  aborted : bool;
  out : list out_frame;
  enq_calls : nat;       (** [enqueueIncremental] calls that reached the queue *)
  persists : nat         (** calls of [persistCursor] *)
}.

Definition eventFrame (event : SyncEvent) : jstr :=
  formatSseEvent (Some (se_event_type event)) (Some (show_Z (se_sync_version event)))
    (stringify (se_payload event)).

Definition cursorFrame (hw : Z) : jstr :=
  formatSseEvent (Some (js "cursor")) (Some (show_Z hw)) (js "{}").

Definition abort (s : session) : session :=
  mkSession (lastEmittedHw s) (durableEventsWritten s) true (out s) (enq_calls s) (persists s).

Definition persistCursor (s : session) : session :=
  mkSession (lastEmittedHw s) (durableEventsWritten s) (aborted s) (out s) (enq_calls s) (S (persists s)).

(** [finish], first call: abort, persist, unregister and clean up. *)
Definition finish (s : session) : session := persistCursor (abort s).

Section session.
Context (tenantId : option jstr) (maxInitialBatch : nat)
        (maxFrameBytes cursorPersistEveryEvents : Z) (enq : nat → inc_result).

(** An aborted signal resolves to 'closed' without touching the queue. *)
Definition enqueueIncremental (f : out_frame) (s : session) : inc_result * session :=
  if aborted s then (IClosed, s)
  else
    let r := enq (enq_calls s) in
    let out' := match r with IOk => out s ++ [f] | _ => out s end in
    (r, mkSession (lastEmittedHw s) (durableEventsWritten s) (aborted s) out' (S (enq_calls s)) (persists s)).

Definition add_durable (s : session) : session :=
  mkSession (lastEmittedHw s) (durableEventsWritten s + 1) (aborted s) (out s) (enq_calls s) (persists s).

Definition set_hw (hw : Z) (s : session) : session :=
  mkSession hw (durableEventsWritten s) (aborted s) (out s) (enq_calls s) (persists s).

(** The first loop of [runSseSession]; [None] when the session ended. *)
Fixpoint send_initial (events : list SyncEvent) (s : session) : bool * session :=
  match events with
  | [] => (true, s)
  | ev :: events' =>
      if maxFrameBytes <? byteLength (eventFrame ev) then (false, finish s)
      else match enqueueIncremental (FEvent ev) s with
           | (IOk, s) => send_initial events' (add_durable s)
           | (_, s) => (false, finish s)
           end
  end.

(** Everything before the poll loop. *)
Definition start_session (initialEvents : list SyncEvent) (initialHighWater : Z) : session :=
  match send_initial initialEvents (mkSession (-1) 0 false [] 0 0) with
  | (false, s) => s
  | (true, s) =>
      match enqueueIncremental (FCursor initialHighWater) s with
      | (IOk, s) => set_hw initialHighWater s
      | (_, s) => finish s
      end
  end.

(** The [for] loop of a poll; it breaks by aborting. *)
Fixpoint poll_events (events : list SyncEvent) (s : session) : session :=
  match events with
  | [] => s
  | ev :: events' =>
      if maxFrameBytes <? byteLength (eventFrame ev) then
        abort (mkSession (lastEmittedHw s) (durableEventsWritten s) (aborted s) (out s ++ [FShutdown])
                 (enq_calls s) (persists s))
      else match enqueueIncremental (FEvent ev) s with
           | (IOk, s) =>
               let s := add_durable s in
               let s := if cursorPersistEveryEvents <=? durableEventsWritten s
                        then persistCursor (mkSession (lastEmittedHw s) 0 (aborted s) (out s) (enq_calls s) (persists s))
                        else s in
               poll_events events' s
           | (_, s) => abort s
           end
  end.

(** What a turn of the poll loop does with the batch it read. *)
Definition poll_batch (events : list SyncEvent) (highWater : Z) (s : session) : session :=
  let s := poll_events events s in
  if lastEmittedHw s <? highWater then
    match enqueueIncremental (FCursor highWater) s with
    | (IOk, s) => set_hw highWater s
    | (_, s) => abort s
    end
  else s.

(** One turn of [while (!abort.signal.aborted)] on the database [d]. *)
Definition poll (d : db) (s : session) : session :=
  if aborted s then s
  else
    let '(events, highWater) := getPollBatchWithHighWater (lastEmittedHw s) tenantId maxInitialBatch d in
    poll_batch events highWater s.

(** The route's batch and the session, then a poll per later state. *)
Definition run_session (lastEventId : Z) (d0 : db) (ds : list db) : session :=
  let batch := getInitialBatchWithHighWater lastEventId tenantId maxInitialBatch d0 in
  fold_left (λ s d, poll d s) ds (start_session (ib_events batch) (ib_highWater batch)).

(** The durable events among the frames. *)
Definition event_of (f : out_frame) : option SyncEvent :=
  match f with FEvent e => Some e | _ => None end.

Definition emitted (s : session) : list SyncEvent :=
  omap event_of (out s).

(** ** Lemmas *)

Definition fits (e : SyncEvent) : Prop := byteLength (eventFrame e) ≤ maxFrameBytes.

Lemma emitted_app l k : omap event_of (l ++ k) = omap event_of l ++ omap event_of k.
Proof. apply omap_app. Qed.

Lemma emitted_events (l : list SyncEvent) :
  omap event_of (FEvent <$> l) = l.
Proof. induction l as [|e l IH]; [done|]. cbn. by f_equal. Qed.

(** While the queue takes every frame, the loops hand over exactly their
    events. *)
Lemma send_initial_ok events s :
  (∀ n, enq n = IOk) → aborted s = false → Forall fits events →
  ∃ s', send_initial events s = (true, s') ∧ aborted s' = false ∧ out s' = out s ++ (FEvent <$> events).
Proof.
  intros Henq. revert s. induction events as [|ev events IH]; intros s Ha HF; simpl.
  { exists s. by rewrite app_nil_r. }
  apply Forall_cons in HF as [Hf HF]. rewrite (proj2 (Z.ltb_ge _ _)) by exact Hf.
  unfold enqueueIncremental. rewrite Ha, Henq.
  destruct (IH (add_durable (mkSession (lastEmittedHw s) (durableEventsWritten s) false (out s ++ [FEvent ev])
    (S (enq_calls s)) (persists s)))) as (s' & -> & ? & Ho); [done|done|].
  exists s'. split_and!; [done|done|]. rewrite Ho. simpl. by rewrite <- app_assoc.
Qed.

Lemma poll_events_ok events s :
  (∀ n, enq n = IOk) → aborted s = false → Forall fits events →
  aborted (poll_events events s) = false ∧ lastEmittedHw (poll_events events s) = lastEmittedHw s ∧
  out (poll_events events s) = out s ++ (FEvent <$> events).
Proof.
  intros Henq. revert s. induction events as [|ev events IH]; intros s Ha HF; simpl.
  { by rewrite app_nil_r. }
  apply Forall_cons in HF as [Hf HF]. rewrite (proj2 (Z.ltb_ge _ _)) by exact Hf.
  unfold enqueueIncremental. rewrite Ha, Henq. cbv zeta.
  match goal with |- context [poll_events events ?x] => set (s1 := x) end.
  assert (aborted s1 = false ∧ lastEmittedHw s1 = lastEmittedHw s ∧ out s1 = out s ++ [FEvent ev]) as (H1 & H2 & H3)
    by (unfold s1; by destruct (_ <=? _)).
  destruct (IH s1 H1 HF) as (? & ? & Ho). split_and!; [done|congruence|].
  rewrite Ho, H3. simpl. by rewrite <- app_assoc.
Qed.

(** Whatever the queue answers, the loops hand over a prefix of their events; only
    a loop that handed over all of them leaves the session alive. *)
Lemma poll_events_prefix events s : aborted s = false →
  ∃ n sd, out (poll_events events s) = out s ++ (FEvent <$> take n events) ++ (if sd : bool then [FShutdown] else []) ∧
    lastEmittedHw (poll_events events s) = lastEmittedHw s ∧
    (aborted (poll_events events s) = false → take n events = events ∧ sd = false).
Proof.
  revert s. induction events as [|ev events IH]; intros s Ha; cbn [poll_events].
  { exists 0%nat, false. by rewrite app_nil_r. }
  destruct (maxFrameBytes <? _); [by exists 0%nat, true|]. unfold enqueueIncremental. rewrite Ha.
  destruct (enq (enq_calls s)); [|by exists 0%nat, false; cbn; rewrite app_nil_r..].
  cbv zeta. match goal with |- context [poll_events events ?x] => set (s1 := x) end.
  assert (aborted s1 = false ∧ lastEmittedHw s1 = lastEmittedHw s ∧ out s1 = out s ++ [FEvent ev]) as (H1 & H2 & H3)
    by (unfold s1; by destruct (_ <=? _)).
  destruct (IH s1 H1) as (n & sd & Ho & Hh & Hall). exists (S n), sd. rewrite Ho, H3, Hh, H2. split_and!; [|done|].
  - cbn [take]. rewrite fmap_cons, <- !app_assoc. done.
  - intros [Hn ->]%Hall. cbn [take]. by rewrite Hn.
Qed.

Lemma send_initial_prefix events s : aborted s = false →
  ∃ n, out (send_initial events s).2 = out s ++ (FEvent <$> take n events) ∧
    (if (send_initial events s).1 then take n events = events ∧ aborted (send_initial events s).2 = false
     else aborted (send_initial events s).2 = true).
Proof.
  revert s. induction events as [|ev events IH]; intros s Ha; cbn [send_initial].
  { exists 0%nat. by rewrite app_nil_r. }
  destruct (maxFrameBytes <? _); [exists 0%nat; cbn; by rewrite app_nil_r|]. unfold enqueueIncremental. rewrite Ha.
  destruct (enq (enq_calls s)); [|by exists 0%nat; cbn; rewrite app_nil_r..].
  match goal with |- context [send_initial events ?x] => set (s1 := x) end.
  destruct (IH s1 eq_refl) as (n & Ho & Hall). exists (S n). rewrite Ho. split.
  - unfold s1. cbn [out add_durable take]. by rewrite fmap_cons, <- app_assoc.
  - destruct (send_initial events s1).1; [|done]. destruct Hall as [Hn ?]. cbn [take]. by rewrite Hn.
Qed.

Lemma poll_ok d s :
  (∀ n, enq n = IOk) → aborted s = false → Forall fits (sync_events d) →
  let batch := take maxInitialBatch (getEventsSince (lastEmittedHw s) tenantId None d) in
  aborted (poll d s) = false ∧ emitted (poll d s) = emitted s ++ batch ∧
  lastEmittedHw (poll d s) = Z.max (lastEmittedHw s) (high_water d).
Proof.
  intros Henq Ha HF batch. unfold poll. rewrite Ha.
  unfold getPollBatchWithHighWater, fetchEventsAndHighWaterInSnapshot. rewrite getEventsSince_limited. fold batch.
  assert (HFb : Forall fits batch).
  { apply Forall_forall. intros e He. rewrite Forall_forall in HF. apply HF.
    apply elem_of_take in He as (i & He & _). apply list_elem_of_lookup_2 in He.
    by apply elem_of_getEventsSince in He as [? _]. }
  destruct (poll_events_ok batch s Henq Ha HFb) as (H1 & H2 & H3).
  unfold poll_batch. rewrite H2. destruct (lastEmittedHw s <? high_water d) eqn:E; bool_to_prop.
  - unfold enqueueIncremental. rewrite H1, Henq. simpl. split_and!; [done| |lia].
    unfold emitted. simpl. rewrite H3, !emitted_app, emitted_events. simpl. by rewrite app_nil_r.
  - split_and!; [done| |lia]. unfold emitted. by rewrite H3, emitted_app, emitted_events.
Qed.

(** The states of an append-only log at successive polls, each poll finding at
    most [maxInitialBatch] new visible events. *)
Fixpoint calm_run (d : db) (ds : list db) : Prop :=
  match ds with
  | [] => True
  | d' :: ds' =>
      log_wf d' ∧ sync_events d `prefix_of` sync_events d' ∧ Forall fits (sync_events d') ∧
      (length (getEventsSince (high_water d) tenantId None d') ≤ maxInitialBatch)%nat ∧ calm_run d' ds'
  end.

Fixpoint final (d : db) (ds : list db) : db :=
  match ds with [] => d | d' :: ds' => final d' ds' end.

(** New events of a longer log: above the old high-water mark. *)
Lemma selected_extension since d d' :
  log_wf d → log_wf d' → sync_events d `prefix_of` sync_events d' → since ≤ high_water d →
  filter (λ e, selected since tenantId e) (sync_events d') =
  filter (λ e, selected since tenantId e) (sync_events d) ++ getEventsSince (high_water d) tenantId None d' ∧
  high_water d ≤ high_water d'.
Proof.
  intros Hd Hd' [l Hl] Hs. rewrite (events_since_appended tenantId d d' l), Hl, filter_app by done. split.
  - f_equal. apply filter_iff_in. intros e He. unfold selected.
    pose proof (appended_above d d' l e Hd Hd' Hl He). rewrite (proj2 (Z.ltb_lt _ _)) by lia. done.
  - rewrite !high_water_wf by done. rewrite Hl, length_app. lia.
Qed.

Lemma calm_polls lastEventId d ds s :
  (∀ n, enq n = IOk) → log_wf d → calm_run d ds → lastEventId ≤ high_water d →
  aborted s = false → lastEmittedHw s = high_water d →
  emitted s = filter (λ e, selected lastEventId tenantId e) (sync_events d) →
  let s' := fold_left (λ s d, poll d s) ds s in
  aborted s' = false ∧ lastEmittedHw s' = high_water (final d ds) ∧
  emitted s' = filter (λ e, selected lastEventId tenantId e) (sync_events (final d ds)).
Proof.
  intros Henq. revert d s. induction ds as [|d' ds IH]; intros d s Hd Hrun Hle Ha Hh He; simpl; [done|].
  destruct Hrun as (Hd' & Hpre & HF & Hlim & Hrun).
  destruct (poll_ok d' s Henq Ha HF) as (Ha' & He' & Hh').
  destruct (selected_extension lastEventId d d' Hd Hd' Hpre Hle) as [Hsel Hmono].
  apply IH; try done; [lia|lia|].
  rewrite He', He, Hh, take_ge by done. by rewrite Hsel.
Qed.

Lemma final_wf d ds :
  log_wf d → calm_run d ds → log_wf (final d ds) ∧ high_water d ≤ high_water (final d ds).
Proof.
  revert d. induction ds as [|d' ds IH]; intros d Hd Hrun; simpl; [done|].
  destruct Hrun as (Hd' & Hpre & _ & _ & Hrun). destruct (IH d' Hd' Hrun) as [? ?].
  destruct (selected_extension (high_water d) d d' Hd Hd' Hpre ltac:(lia)) as [_ ?]. split; [done|lia].
Qed.

Lemma session_delivered lastEventId d0 ds :
  (∀ n, enq n = IOk) → log_wf d0 → Forall fits (sync_events d0) → calm_run d0 ds →
  lastEventId ≤ high_water d0 →
  ib_backlogExceeded (getInitialBatchWithHighWater lastEventId tenantId maxInitialBatch d0) = false →
  let s := run_session lastEventId d0 ds in
  aborted s = false ∧ lastEmittedHw s = high_water (final d0 ds) ∧
  emitted s = filter (λ e, selected lastEventId tenantId e) (sync_events (final d0 ds)).
Proof.
  intros Henq Hd HF Hrun Hle Hb. unfold run_session.
  assert (Hev : ib_events (getInitialBatchWithHighWater lastEventId tenantId maxInitialBatch d0) =
                filter (λ e, selected lastEventId tenantId e) (sync_events d0)).
  { rewrite <- getEventsSince_eq_filter by done. revert Hb.
    unfold getInitialBatchWithHighWater, fetchEventsAndHighWaterInSnapshot. rewrite getEventsSince_limited. simpl.
    intros Hb. rewrite Hb. rewrite bool_decide_eq_false, length_take in Hb. apply take_ge. lia. }
  change (ib_highWater _) with (high_water d0). rewrite Hev.
  unfold start_session.
  destruct (send_initial_ok (filter (λ e, selected lastEventId tenantId e) (sync_events d0))
              (mkSession (-1) 0 false [] 0 0)) as (s1 & -> & Ha & Ho); [done|done|by apply Forall_filter_keep|].
  unfold enqueueIncremental. rewrite Ha, Henq.
  apply calm_polls; try done. unfold emitted. simpl. rewrite Ho, emitted_app. simpl.
  by rewrite app_nil_r, emitted_events.
Qed.

(** C4. Delivery is exactly once and in order, as long as no poll finds more
    than [maxInitialBatch] new events: for a client resuming from a cursor the
    log has reached, whose backlog was not refused, the durable events handed to
    its queue are, after any number of polls, exactly the visible log rows above
    its cursor, in version order, and the session's cursor is the log's
    high-water mark. (Frames fit and the queue takes them: [enq].) *)
Theorem session_delivers_exactly_once lastEventId d0 ds :
  (∀ n, enq n = IOk) → log_wf d0 → Forall fits (sync_events d0) → calm_run d0 ds →
  lastEventId ≤ high_water d0 →
  ib_backlogExceeded (getInitialBatchWithHighWater lastEventId tenantId maxInitialBatch d0) = false →
  let s := run_session lastEventId d0 ds in
  aborted s = false ∧ lastEmittedHw s = high_water (final d0 ds) ∧
  emitted s = filter (λ e, selected lastEventId tenantId e) (sync_events (final d0 ds)).
Proof. apply session_delivered. Qed.

(** A busy poll loses events: when a poll finds more visible events than
    [maxInitialBatch], it hands over the first [maxInitialBatch] of them and moves
    the session's cursor to the global high-water mark; the rest, which is not
    empty, is below the cursor from then on, so that no later poll of any later
    state of the log can return it. *)
Theorem poll_overflow_skips_events d s :
  (∀ n, enq n = IOk) → log_wf d → Forall fits (sync_events d) → aborted s = false →
  (maxInitialBatch < length (getEventsSince (lastEmittedHw s) tenantId None d))%nat →
  let batch := getEventsSince (lastEmittedHw s) tenantId None d in
  let s' := poll d s in
  emitted s' = emitted s ++ take maxInitialBatch batch ∧ drop maxInitialBatch batch ≠ [] ∧
  ∀ e d' limit, e ∈ drop maxInitialBatch batch →
    e ∉ (getPollBatchWithHighWater (lastEmittedHw s') tenantId limit d').1.
Proof.
  intros Henq Hd HF Ha Hlen batch s'. destruct (poll_ok d s Henq Ha HF) as (_ & He & Hh).
  split; [exact He|]. split.
  { intros Hnil%(f_equal length). rewrite length_drop in Hnil. simpl in Hnil. unfold batch in *. lia. }
  intros e d' limit He' Hin. assert (Hi : e ∈ batch)
    by (rewrite <- (take_drop maxInitialBatch batch); apply elem_of_app; by right).
  apply elem_of_getEventsSince in Hi as [Hi _]. apply versions_le_high_water in Hi.
  unfold getPollBatchWithHighWater, fetchEventsAndHighWaterInSnapshot in Hin. cbn [fst] in Hin.
  rewrite getEventsSince_limited in Hin. apply elem_of_take in Hin as (j & Hj & _).
  apply list_elem_of_lookup_2, elem_of_getEventsSince in Hj as (_ & Hj & _). unfold s' in Hj. lia.
Qed.

End session.

(** ** Witnesses *)

Definition ev (n : Z) : SyncEvent := mkSyncEvent n (js "score.delete") (Some (js "p")) None (JObj []) 0.
Definition log_of (n : nat) : db := set_sync_events (ev <$> seqZ 1 (Z.of_nat n)) empty_db.

Lemma log_of_wf : log_wf (log_of 1) ∧ log_wf (log_of 3).
Proof. split; vm_compute; reflexivity. Qed.

Lemma log_of_fits : Forall (fits 100) (sync_events (log_of 1)) ∧ Forall (fits 100) (sync_events (log_of 3)).
Proof. split; repeat constructor; vm_compute; discriminate. Qed.

Lemma log_of_calm : calm_run None 2 100 (log_of 1) [log_of 3; log_of 3].
Proof.
  split; [exact (proj2 log_of_wf)|]. split; [exists [ev 2; ev 3]; vm_compute; reflexivity|].
  split; [exact (proj2 log_of_fits)|]. split; [vm_compute; lia|].
  split; [exact (proj2 log_of_wf)|]. split; [exists []; vm_compute; reflexivity|].
  split; [exact (proj2 log_of_fits)|]. split; [vm_compute; lia|exact I].
Qed.

Lemma session_delivers_exactly_once_witness :
  let s := run_session None 2 100 10 (λ _, IOk) 0 (log_of 1) [log_of 3; log_of 3] in
  aborted s = false ∧ lastEmittedHw s = 3 ∧ emitted s = [ev 1; ev 2; ev 3].
Proof.
  destruct (session_delivers_exactly_once None 2 100 10 (λ _, IOk) 0 (log_of 1) [log_of 3; log_of 3])
    as (H1 & H2 & H3).
  - reflexivity.
  - exact (proj1 log_of_wf).
  - exact (proj1 log_of_fits).
  - exact log_of_calm.
  - vm_compute. discriminate.
  - vm_compute. reflexivity.
  - split; [exact H1|]. split; [rewrite H2; vm_compute; reflexivity|]. rewrite H3. vm_compute. reflexivity.
Defined.

Definition fresh_session : session := mkSession 0 0 false [] 0 0.

Lemma poll_overflow_skips_events_witness :
  let s' := poll None 2 100 10 (λ _, IOk) (log_of 3) fresh_session in
  emitted s' = [ev 1; ev 2] ∧ lastEmittedHw s' = 3 ∧
  ∀ d' limit, ev 3 ∉ (getPollBatchWithHighWater (lastEmittedHw s') None limit d').1.
Proof.
  destruct (poll_overflow_skips_events None 2 100 10 (λ _, IOk) (log_of 3) fresh_session) as (H1 & _ & H3).
  - reflexivity.
  - exact (proj2 log_of_wf).
  - exact (proj2 log_of_fits).
  - reflexivity.
  - vm_compute. lia.
  - split; [rewrite H1; vm_compute; reflexivity|]. split; [vm_compute; reflexivity|].
    intros d' limit. apply H3.
    replace (drop 2 (getEventsSince (lastEmittedHw fresh_session) None None (log_of 3))) with [ev 3]
      by (vm_compute; reflexivity). apply list_elem_of_singleton. reflexivity.
Defined.

End SseSession.
