(* ===== verification/EdgeStream.v ===== *)
(** * The edge's event stream reader

    [src/internal/edgeverifier/sse.go]: the lines of an SSE response, the frames they
    make up and what a frame does to the edge's store.  Together with the frame
    formats of [SseQueue] and [SseSession] this is an encode/decode pair across two
    languages: reading the text a session wrote has exactly the effect of its frames.

    A body is the text received until the connection ended.  Parameters: the
    decoders of [EdgeStore], whether a snapshot path is set and its cadence, the
    time at each line and whether saving the file succeeds.  The idle watchdog,
    which only closes the body, is not modelled. *)

From stdpp Require Import base gmap strings numbers sorting list.
From Stdlib Require Import ZArith Lia.
From S2P Require Import Prelude Json JsText GoText Errors Db SyncLog ScoreWriter SseQueue Policy EdgeStore SseSession.

Module EdgeStream.
Import EdgeStore SseQueue SseSession.

Definition defaultRetryMs : Z := 5000.
Definition maxBackoffMs : Z := 30000.
Definition maxSSELineBytes : Z := 262144.
Definition maxSSEEventBytes : Z := 1048576.

(** The error a stream ends with. *)
Inductive stream_end := EndShutdown | EndEOF | EndError (msg : jstr).

(** What [readStream] changes of the runner; the snapshot file as the value it
    holds, and the number of lines seen, which indexes the parameters. *)
Record SyncRunner := mkRunner {
  r_store : Store; r_durable : Z; r_lastPersist : Z; r_file : option EdgeStore.Snapshot; r_line : nat }.

Record sseFrame := mkFrame { f_event : jstr; f_id : jstr; f_data : list jstr; f_bytes : Z }.

Definition reset : sseFrame := mkFrame [] [] [] 0.

Definition set_store (s : Store) (r : SyncRunner) : SyncRunner :=
  mkRunner s (r_durable r) (r_lastPersist r) (r_file r) (r_line r).

Definition parseRetryMs (s : jstr) : option Z :=
  match TrimSpace s with
  | [] => None
  | s' => match parse_int64 s' with
          | Some n => if n <=? 0 then None else Some (if maxBackoffMs <? n then maxBackoffMs else n)
          | None => None
          end
  end.

Definition parseID (s : jstr) : option Z :=
  match TrimSpace s with [] => None | s' => parse_int64 s' end.

Section stream.
Context (Unmarshal : jstr → option json) (time_Parse : jstr → option Z)
        (hasPath : bool) (persistEveryEvents persistEvery : Z) (clock : nat → Z) (save : nat → bool).

Definition persist (snap : EdgeStore.Snapshot) (r : SyncRunner) : SyncRunner :=
  if negb hasPath then r
  else if save (r_line r) then mkRunner (r_store r) 0 (clock (r_line r)) (Some snap) (r_line r)
  else r.

Definition maybePersist (r : SyncRunner) : SyncRunner :=
  if negb hasPath then r
  else
    let dueEvents := (0 <? persistEveryEvents) && (persistEveryEvents <=? r_durable r) in
    let dueTime := (0 <? persistEvery) && (persistEvery <=? clock (r_line r) - r_lastPersist r) in
    if negb dueEvents && negb dueTime then r else persist (SnapshotForPersist (r_store r)) r.

Definition touch (r : SyncRunner) : SyncRunner := set_store (NoteBytes (clock (r_line r)) (r_store r)) r.

(** [flush]; the frame is reset in every case. *)
Definition flush (f : sseFrame) (r : SyncRunner) : option stream_end * SyncRunner :=
  let data := join [10] (f_data f) in
  let r := touch r in
  let now := clock (r_line r) in
  match f_event f with
  | [] => (None, r)
  | name =>
      if bool_decide (name = js "shutdown") then (Some EndShutdown, r)
      else if bool_decide (name = js "cursor") then
        match parseID (f_id f) with
        | None => (None, r)
        | Some v => (None, set_store (AdvanceCursor now v (r_store r)) r)
        end
      else
        match parseID (f_id f) with
        | None => (None, r)
        | Some v =>
            if v <=? 0 then (None, r)
            else match ApplyEvent Unmarshal time_Parse now v name data (r_store r) with
                 | (Throw e, s) => (Some (EndError e), set_store s r)
                 | (Ok _, s) =>
                     (None, maybePersist (mkRunner s (r_durable r + 1) (r_lastPersist r) (r_file r) (r_line r)))
                 end
        end
  end.

(** The rest of a line that starts with [name:], without outer white space. *)
Definition field (name : string) (line : jstr) : option jstr := TrimSpace <$> strip_prefix (js name) line.

(** One line; [retryMs] is the last value the server asked for. *)
Definition dispatch (line : jstr) (f : sseFrame) (retryMs : Z) (r : SyncRunner) :
  option stream_end * (sseFrame * Z * SyncRunner) :=
  let r := touch r in
  match line with
  | [] => let '(e, r) := flush f r in (e, (reset, retryMs, r))
  | 58 :: _ => (None, (f, retryMs, r))
  | _ =>
      match strip_prefix (js "retry:") line, field "event:" line, field "id:" line, field "data:" line with
      | Some v, _, _, _ => (None, (f, default retryMs (parseRetryMs (TrimSpace v)), r))
      | None, Some v, _, _ => (None, (mkFrame v (f_id f) (f_data f) (f_bytes f), retryMs, r))
      | None, None, Some v, _ => (None, (mkFrame (f_event f) v (f_data f) (f_bytes f), retryMs, r))
      | None, None, None, Some v =>
          let next := f_bytes f + byteLength v + 1 in
          if maxSSEEventBytes <? next then (Some (EndError (js "sse event exceeds the limit")), (f, retryMs, r))
          else (None, (mkFrame (f_event f) (f_id f) (f_data f ++ [v]) next, retryMs, r))
      | None, None, None, None => (None, (f, retryMs, r))
      end
  end.

Definition next_line (r : SyncRunner) : SyncRunner :=
  mkRunner (r_store r) (r_durable r) (r_lastPersist r) (r_file r) (S (r_line r)).

Definition is_eol (c : Z) : bool := (c =? 10) || (c =? 13).

(** [readStream] on the lines of the body: all but the last ended in a line feed. *)
Fixpoint read_lines (lines : list jstr) (f : sseFrame) (retryMs : Z) (r : SyncRunner) : stream_end * (Z * SyncRunner) :=
  match lines with
  | [] => (EndEOF, (retryMs, r))
  | [last] =>
      if maxSSELineBytes <? byteLength last then (EndError (js "sse line exceeds the limit"), (retryMs, r))
      else
        let '(e, (f, retryMs, r)) :=
          match trim_right is_eol last with [] => (None, (f, retryMs, r)) | line => dispatch line f retryMs r end in
        match e with
        | Some e => (e, (retryMs, r))
        | None => let '(e, r) := flush f r in (default EndEOF e, (retryMs, r))
        end
  | line :: lines' =>
      if maxSSELineBytes <? byteLength line + 1 then (EndError (js "sse line exceeds the limit"), (retryMs, r))
      else match dispatch (trim_right is_eol line) f retryMs r with
           | (Some e, (_, retryMs, r)) => (e, (retryMs, r))
           | (None, (f, retryMs, r)) => read_lines lines' f retryMs (next_line r)
           end
  end.

Definition readStream (body : jstr) (r : SyncRunner) : stream_end * (Z * SyncRunner) :=
  read_lines (split_on 10 body) reset 0 r.

(** ** Specification: what the frames of a session do to the store *)

Definition frame_text (f : out_frame) : jstr :=
  match f with
  | FEvent e => eventFrame e
  | FCursor v => cursorFrame v
  | FShutdown => SseRegistry.shutdown_frame
  end.

(** Scores, keys, policy and cursor: all of the store but its freshness. *)
Definition contents (s : Store) : option EdgeStore.Snapshot * Z := (ptr s, hw s).

(** Whether the data line of an event, with its line feed, is short enough for
    [readSSELine]. *)
Definition line_fits (e : SyncEvent) : bool :=
  byteLength (js "data: ") + byteLength (stringify (se_payload e)) + 1 <=? maxSSELineBytes.

(** The effect of one frame; [Some] when the stream ends with it. *)
Definition deliver (now : Z) (f : out_frame) (s : Store) : option stream_end * Store :=
  match f with
  | FShutdown => (Some EndShutdown, s)
  | FCursor v => (None, AdvanceCursor now v s)
  | FEvent e =>
      if negb (line_fits e) then (Some (EndError (js "sse line exceeds the limit")), s)
      else match ApplyEvent Unmarshal time_Parse now (se_sync_version e) (se_event_type e) (stringify (se_payload e)) s with
      | (Throw m, s) => (Some (EndError m), s)
      | (Ok _, s) => (None, s)
      end
  end.

Fixpoint deliver_all (fs : list out_frame) (s : Store) : stream_end * Store :=
  match fs with
  | [] => (EndEOF, s)
  | f :: fs' => match deliver 0 f s with (Some e, s) => (e, s) | (None, s) => deliver_all fs' s end
  end.

End stream.

(** A line of the body: what a session writes between events, too. *)
Inductive sse_item := Frame (f : out_frame) | Comment (text : jstr) | Retry (ms : Z).

Definition item_text (i : sse_item) : jstr :=
  match i with
  | Frame f => frame_text f
  | Comment text => formatSseComment text
  | Retry ms => js "retry: " ++ show_Z ms ++ [10; 10]
  end.

Definition frames_of (items : list sse_item) : list out_frame :=
  omap (λ i, match i with Frame f => Some f | _ => None end) items.

(** ** Two stores that differ only in freshness *)

#[global] Instance store_equiv : Equiv Store := λ s s', contents s = contents s'.

#[global] Instance store_equivalence : Equivalence (≡@{Store}).
Proof. split; unfold equiv, store_equiv; [by intros ?|by intros ?|intros ? ? ? -> ->; done]. Qed.

#[global] Instance CloneSnapshot_proper : Proper ((≡@{Store}) ==> eq) (λ s, CloneSnapshot (Load s)).
Proof. intros s s' [= H _]. unfold Load. by rewrite H. Qed.

#[global] Instance SnapshotForPersist_proper : Proper ((≡@{Store}) ==> eq) SnapshotForPersist.
Proof. intros s s' [= H1 H2]. unfold SnapshotForPersist, Load, HighWater. by rewrite H1, H2. Qed.

#[global] Instance NoteBytes_proper now : Proper ((≡@{Store}) ==> (≡@{Store})) (NoteBytes now).
Proof. by intros s s'. Qed.

Lemma NoteBytes_equiv now s : NoteBytes now s ≡ s.
Proof. done. Qed.

Lemma AdvanceCursor_equiv now now' v s s' : s ≡ s' → AdvanceCursor now v s ≡ AdvanceCursor now' v s'.
Proof.
  intros [= H1 H2]. unfold AdvanceCursor, advanceHighWater, equiv, store_equiv, contents. rewrite H2.
  destruct (v <=? 0); simpl; [congruence|]. destruct (v <=? hw s'); simpl; congruence.
Qed.

Section reader.
Context (Unmarshal : jstr → option json) (time_Parse : jstr → option Z)
        (hasPath : bool) (persistEveryEvents persistEvery : Z) (clock : nat → Z) (save : nat → bool).

Lemma ApplyEvent_equiv now now' v ty pl s s' : s ≡ s' →
  (ApplyEvent Unmarshal time_Parse now v ty pl s).1 = (ApplyEvent Unmarshal time_Parse now' v ty pl s').1 ∧
  (ApplyEvent Unmarshal time_Parse now v ty pl s).2 ≡ (ApplyEvent Unmarshal time_Parse now' v ty pl s').2.
Proof.
  intros Hs. pose proof Hs as [= H1 H2]. unfold ApplyEvent, HighWater. rewrite H2.
  destruct (v <=? 0); [done|]. destruct (v <=? hw s'); [done|]. unfold Load. rewrite H1.
  by destruct (mutateSnapshot _ _ _ _ _).
Qed.

Lemma deliver_equiv now now' f s s' : s ≡ s' →
  (deliver Unmarshal time_Parse now f s).1 = (deliver Unmarshal time_Parse now' f s').1 ∧
  (deliver Unmarshal time_Parse now f s).2 ≡ (deliver Unmarshal time_Parse now' f s').2.
Proof.
  intros Hs. destruct f as [e|v|]; cbn [deliver]; [|split; [done|by apply AdvanceCursor_equiv]|done].
  destruct (line_fits e); cbn [negb]; [|done].
  destruct (ApplyEvent_equiv now now' (se_sync_version e) (se_event_type e) (stringify (se_payload e)) s s' Hs) as [H1 H2].
  destruct (ApplyEvent _ _ now _ _ _ s) as [[|] ?], (ApplyEvent _ _ now' _ _ _ s') as [[|] ?]; simpl in *;
    split; congruence || done.
Qed.

Lemma deliver_all_equiv fs s s' : s ≡ s' →
  (deliver_all Unmarshal time_Parse fs s).1 = (deliver_all Unmarshal time_Parse fs s').1 ∧
  (deliver_all Unmarshal time_Parse fs s).2 ≡ (deliver_all Unmarshal time_Parse fs s').2.
Proof.
  revert s s'. induction fs as [|f fs IH]; intros s s' Hs; cbn [deliver_all]; [done|].
  destruct (deliver_equiv 0 0 f s s' Hs) as [H1 H2].
  destruct (deliver _ _ 0 f s) as [[e|] s1], (deliver _ _ 0 f s') as [[e'|] s1']; simpl in *; try congruence.
  - split; [congruence|done].
  - by apply IH.
Qed.

(** ** Lines *)

Definition noeol (c : Z) : bool := negb (is_eol c).

(** Non-empty, without white space at either end. *)
Definition tight (s : jstr) : Prop :=
  ∃ c d, head s = Some c ∧ last s = Some d ∧ go_space c = false ∧ go_space d = false.

Lemma tight_compute s :
  match head s, last s with Some c, Some d => negb (go_space c) && negb (go_space d) | _, _ => false end = true → tight s.
Proof.
  destruct (head s) as [c|] eqn:Hc; [|done]. destruct (last s) as [d|] eqn:Hd; [|done].
  intros [H1%negb_true_iff H2%negb_true_iff]%andb_true_iff. by exists c, d.
Qed.

Lemma trim_right_last p s d : last s = Some d → p d = false → trim_right p s = s.
Proof.
  intros [s' ->]%last_Some Hd. unfold trim_right. rewrite reverse_snoc. cbn [drop_while]. rewrite Hd.
  by rewrite <- reverse_snoc, reverse_involutive.
Qed.

Lemma trim_right_clean s : forallb noeol s = true → trim_right is_eol s = s.
Proof.
  intros Hs. destruct (last s) as [d|] eqn:Hl.
  - apply trim_right_last with d; [done|]. rewrite forallb_forall in Hs. apply negb_true_iff, Hs.
    apply list_elem_of_In. by apply last_Some_elem_of.
  - apply last_None in Hl as ->. done.
Qed.

Lemma TrimSpace_tight s : tight s → TrimSpace s = s ∧ TrimSpace (32 :: s) = s.
Proof.
  intros (c & d & Hc & Hd & Hcs & Hds). unfold TrimSpace.
  assert (drop_while go_space s = s) as Hw by (destruct s; [done|]; injection Hc as ->; cbn; by rewrite Hcs).
  change (drop_while go_space (32 :: s)) with (drop_while go_space s). rewrite Hw. by rewrite (trim_right_last _ s d).
Qed.

Lemma strip_prefix_app p s : strip_prefix p (p ++ s) = Some s.
Proof. induction p as [|c p IH]; [done|]. cbn. by rewrite Z.eqb_refl. Qed.

Lemma noeol_not_in s : forallb noeol s = true → 10 ∉ s.
Proof. intros H Hin. rewrite forallb_forall in H. apply list_elem_of_In, H in Hin. done. Qed.

Abbreviation disp := (dispatch Unmarshal time_Parse hasPath persistEveryEvents persistEvery clock save).
Abbreviation readl := (read_lines Unmarshal time_Parse hasPath persistEveryEvents persistEvery clock save).
Abbreviation flsh := (flush Unmarshal time_Parse hasPath persistEveryEvents persistEvery clock save).

(** One complete line is dispatched. *)
Lemma read_one line rest f ret r :
  forallb noeol line = true → byteLength line < maxSSELineBytes →
  readl (split_on 10 (line ++ 10 :: rest)) f ret r =
  match disp line f ret r with
  | (Some e, (_, ret', r')) => (e, (ret', r'))
  | (None, (f', ret', r')) => readl (split_on 10 rest) f' ret' (next_line r')
  end.
Proof.
  intros Hl Hb. rewrite split_on_app by (by apply noeol_not_in).
  destruct (split_on 10 rest) as [|x xs] eqn:E.
  { exfalso. destruct rest as [|c rest]; [done|]. simpl in E. destruct (c =? 10); [done|]. by destruct (split_on 10 rest). }
  cbn [read_lines]. rewrite (proj2 (Z.ltb_ge _ _)) by lia. by rewrite trim_right_clean.
Qed.

(** A field line: the other prefixes do not match. *)
Ltac disp_solve Ht :=
  rewrite ?strip_prefix_app;
  repeat match goal with |- context [strip_prefix ?p ?l] => change (strip_prefix p l) with (None : option jstr) end;
  cbn [js app fmap option_fmap option_map]; rewrite ?Ht.

Lemma disp_event ty f ret r : tight ty →
  disp (js "event: " ++ ty) f ret r = (None, (mkFrame ty (f_id f) (f_data f) (f_bytes f), ret, touch clock r)).
Proof.
  intros [_ Ht]%TrimSpace_tight. unfold dispatch, field.
  change (js "event: " ++ ty) with (js "event:" ++ 32 :: ty). by disp_solve Ht.
Qed.

Lemma disp_id v f ret r : tight v →
  disp (js "id: " ++ v) f ret r = (None, (mkFrame (f_event f) v (f_data f) (f_bytes f), ret, touch clock r)).
Proof.
  intros [_ Ht]%TrimSpace_tight. unfold dispatch, field. change (js "id: " ++ v) with (js "id:" ++ 32 :: v). by disp_solve Ht.
Qed.

Lemma disp_data v f ret r : tight v → f_bytes f + byteLength v + 1 ≤ maxSSEEventBytes →
  disp (js "data: " ++ v) f ret r =
  (None, (mkFrame (f_event f) (f_id f) (f_data f ++ [v]) (f_bytes f + byteLength v + 1), ret, touch clock r)).
Proof.
  intros [_ Ht]%TrimSpace_tight Hb. unfold dispatch, field.
  change (js "data: " ++ v) with (js "data:" ++ 32 :: v). disp_solve Ht. by rewrite (proj2 (Z.ltb_ge _ _)).
Qed.

Lemma disp_blank f ret r : disp [] f ret r =
  ((flsh f (touch clock r)).1, (reset, ret, (flsh f (touch clock r)).2)).
Proof. unfold dispatch. by destruct (flsh f (touch clock r)). Qed.

(** ** Texts without line breaks *)

Lemma noeol_unicode c : forallb noeol (unicode_escape c) = true.
Proof.
  unfold unicode_escape. rewrite forallb_app. apply andb_true_iff. split; [done|].
  assert (H : ∀ x, noeol (hex_digit (x mod 16)) = true).
  { intros x. pose proof (Z.mod_pos_bound x 16 ltac:(lia)). unfold hex_digit, noeol, is_eol.
    destruct (Z.ltb_spec (x mod 16) 10); apply negb_true_iff, orb_false_iff; rewrite !Z.eqb_neq; lia. }
  cbn [forallb]. rewrite !H. done.
Qed.

Lemma noeol_quote s : forallb noeol (quote s) = true.
Proof.
  unfold quote. rewrite !forallb_app. cbn [forallb]. rewrite andb_true_r.
  assert (forallb noeol (quote_body s) = true) as ->; [|done].
  assert (Hu : ∀ c, is_eol c = false → noeol c = true) by (intros c Hc; unfold noeol; by rewrite Hc).
  assert (Hq : ∀ c, forallb noeol (quote_unit c) = true).
  { intros c. unfold quote_unit. repeat case_match; try done; [apply noeol_unicode|].
    cbn. rewrite andb_true_r. apply Hu. unfold is_eol. by apply orb_false_iff. }
  induction s as [|c|c d s IH IH'] using two_step_ind; [done| |].
  { cbn [quote_body]. destruct (is_high c); [apply noeol_unicode|].
    destruct (is_low c); rewrite forallb_app, ?noeol_unicode, ?Hq; done. }
  cbn [quote_body] in *. destruct (is_high c) eqn:Hh; [destruct (is_low d) eqn:Hd|destruct (is_low c)].
  - cbn [forallb]. rewrite IH, !Hu; [done| |].
    + unfold is_low in Hd. bool_to_prop. unfold is_eol. apply orb_false_iff. rewrite !Z.eqb_neq. lia.
    + unfold is_high in Hh. bool_to_prop. unfold is_eol. apply orb_false_iff. rewrite !Z.eqb_neq. lia.
  - by rewrite forallb_app, noeol_unicode.
  - by rewrite forallb_app, noeol_unicode.
  - by rewrite forallb_app, Hq.
Qed.

Lemma noeol_plain s : forallb plain s = true → forallb noeol s = true.
Proof.
  rewrite !forallb_forall. intros H c Hc%H. unfold plain in Hc. apply negb_true_iff, orb_false_iff in Hc as [Hc _].
  unfold noeol, is_eol. apply negb_true_iff, orb_false_iff. rewrite !Z.eqb_neq.
  split; intros ->; by vm_compute in Hc.
Qed.

Lemma noeol_join sep l : forallb noeol sep = true → Forall (λ s, forallb noeol s = true) l → forallb noeol (join sep l) = true.
Proof.
  intros Hsep. induction 1 as [|x [|y l] Hx HF IH]; [done|done|].
  change (join sep (x :: y :: l)) with (x ++ sep ++ join sep (y :: l)). by rewrite !forallb_app, Hx, Hsep, IH.
Qed.

(** [JSON.stringify] without indentation never prints a line break. *)
Lemma noeol_stringify v : forallb noeol (stringify v) = true.
Proof.
  induction v as [| |b|n|s|l IH|fs IH] using json_nested_ind; cbn [stringify]; [done|done|by destruct b| | | |].
  - destruct (isFinite n); [|done]. apply noeol_plain, num_to_string_plain.
  - apply noeol_quote.
  - rewrite !forallb_app. cbn [js]. rewrite noeol_join; [done|done|]. by apply Forall_map.
  - rewrite !forallb_app. rewrite noeol_join; [done|done|]. induction IH as [|[k v] fs Hv _ IHfs]; [constructor|].
    destruct v; try exact IHfs; (constructor; [|exact IHfs]);
      rewrite (forallb_app _ (quote k)), noeol_quote; exact Hv.
Qed.

Lemma tight_object fs : tight (stringify (JObj fs)).
Proof.
  exists 123, 125. split_and!; [done| |done|done]. cbn [stringify]. rewrite app_assoc. apply last_snoc.
Qed.

Lemma tight_show v : 0 ≤ v → tight (show_Z v).
Proof.
  intros Hv. destruct (show_Z_nonneg v Hv) as [Hd _].
  assert (Hall : ∀ c, c ∈ show_Z v → go_space c = false).
  { intros c Hc. apply all_digits_forallb in Hd. rewrite forallb_forall in Hd. apply list_elem_of_In, Hd in Hc.
    unfold is_digit in Hc. bool_to_prop. unfold go_space. repeat (apply orb_false_iff; split);
      try (apply andb_false_iff; rewrite !Z.leb_gt; lia); apply Z.eqb_neq; lia. }
  destruct (show_Z v) as [|c s] eqn:E; [done|]. destruct (last (c :: s)) as [d|] eqn:El; [|by apply last_None in El].
  exists c, d. split_and!; [done|done|apply Hall; by left|apply Hall; by apply last_Some_elem_of].
Qed.

Lemma byteLength_le s : byteLength s ≤ 4 * Z.of_nat (length s).
Proof.
  induction s as [|c|c d s IH IH'] using two_step_ind; [done| |]; cbn [byteLength length] in *;
    repeat case_match; lia.
Qed.

Lemma show_length v : 0 ≤ v ≤ INT64_MAX → (length (show_Z v) ≤ 64)%nat.
Proof.
  intros Hv. unfold show_Z, show_nonneg. rewrite (proj2 (Z.ltb_ge _ _)) by lia.
  assert (H : ∀ fuel n acc, (length (show_digits fuel n acc) ≤ fuel + length acc)%nat).
  { induction fuel as [|f IH]; intros n acc; [done|]. cbn [show_digits]. destruct (n <? 10); simpl; [lia|].
    etrans; [apply IH|]. simpl. lia. }
  etrans; [apply H|]. simpl. destruct (decide (v = 0)) as [->|]; [simpl; lia|].
  assert (Z.log2 v < 63) by (apply Z.log2_lt_pow2; unfold INT64_MAX in Hv; lia). pose proof (Z.log2_nonneg v). lia.
Qed.

(** ** Frames *)

(** An event of the log, of any size. *)
Record event_sound (e : SyncEvent) : Prop := {
  so_object : ∃ fs, se_payload e = JObj fs;
  so_version : 0 < se_sync_version e ≤ INT64_MAX;
  so_type : se_event_type e ∈ SyncLog.event_types
}.

Definition item_sound (i : sse_item) : Prop :=
  match i with
  | Frame (FEvent e) => event_sound e
  | Frame (FCursor v) => 0 ≤ v ≤ INT64_MAX
  | Frame FShutdown => True
  | Comment text => forallb noeol text = true ∧ byteLength text + 2 < maxSSELineBytes
  | Retry ms => 0 ≤ ms ≤ INT64_MAX
  end.

Lemma event_type_sound ty : ty ∈ SyncLog.event_types →
  tight ty ∧ forallb noeol ty = true ∧ (length ty < 32)%nat ∧ ty ≠ [] ∧ ty ≠ js "shutdown" ∧ ty ≠ js "cursor".
Proof.
  unfold SyncLog.event_types. rewrite !elem_of_cons, elem_of_nil. intros H.
  destruct_or! H; try done; subst; (split_and!; [by apply tight_compute|done|simpl; lia|done..]).
Qed.

Lemma ascii_bytes (l s : jstr) : forallb (λ c, negb (is_high c) && (c <? 128)) l = true →
  byteLength (l ++ s) = Z.of_nat (length l) + byteLength s.
Proof.
  induction l as [|c l IH]; [done|]. cbn [forallb]. intros [[Hc Hc']%andb_true_iff Hl]%andb_true_iff.
  apply negb_true_iff in Hc. change ((c :: l) ++ s) with (c :: (l ++ s)). cbn [byteLength]. rewrite Hc, Hc', IH by done.
  simpl length. lia.
Qed.

Lemma maybePersist_store r :
  r_store (maybePersist hasPath persistEveryEvents persistEvery clock save r) = r_store r.
Proof. unfold maybePersist, persist. by repeat case_match. Qed.

Lemma parseID_show v : 0 ≤ v ≤ INT64_MAX → parseID (show_Z v) = Some v.
Proof.
  intros Hv. unfold parseID. destruct (TrimSpace_tight _ (tight_show v ltac:(lia))) as [-> _].
  pose proof (parse_int64_show v Hv). by destruct (show_Z v).
Qed.

Lemma show_line (p : string) v : 0 ≤ v ≤ INT64_MAX → (length (js p) < 100)%nat →
  forallb (λ c, negb (is_high c) && (c <? 128)) (js p) = true → forallb noeol (js p) = true →
  forallb noeol (js p ++ show_Z v) = true ∧ byteLength (js p ++ show_Z v) < maxSSELineBytes.
Proof.
  intros Hv Hl Ha Hn. rewrite forallb_app, Hn, (noeol_plain _ (show_Z_plain v)), ascii_bytes by done.
  pose proof (byteLength_le (show_Z v)). pose proof (show_length v Hv). unfold maxSSELineBytes. split; [done|lia].
Qed.

(** Side conditions of a literal line. *)
Ltac literal := first [done | by apply tight_compute | vm_compute; reflexivity | vm_compute; discriminate].

Definition frame_fits (f : out_frame) : bool := match f with FEvent e => line_fits e | _ => true end.

(** What flushing a complete frame does. *)
Lemma flush_frame (f : out_frame) n r : item_sound (Frame f) → f ≠ FShutdown → frame_fits f = true →
  let fr := match f with
            | FEvent e => mkFrame (se_event_type e) (show_Z (se_sync_version e)) [stringify (se_payload e)] n
            | FCursor v => mkFrame (js "cursor") (show_Z v) [js "{}"] n
            | FShutdown => reset
            end in
  (flsh fr r).1 = (deliver Unmarshal time_Parse 0 f (r_store r)).1 ∧
  r_store (flsh fr r).2 ≡ (deliver Unmarshal time_Parse 0 f (r_store r)).2.
Proof.
  intros Hs Hne Hfit. destruct f as [e|v|]; [| |done]; cbn [item_sound frame_fits] in *; unfold flush;
    cbn [f_event f_id f_data join deliver]; rewrite ?Hfit; cbn [negb].
  - destruct Hs as [_ Hv Hty]. destruct (event_type_sound _ Hty) as (_ & _ & _ & H0 & H1 & H2).
    destruct (se_event_type e) as [|c ty]; [done|].
    rewrite (bool_decide_eq_false_2 _ H1), (bool_decide_eq_false_2 _ H2), parseID_show by lia.
    rewrite (proj2 (Z.leb_gt _ _)) by lia.
    destruct (ApplyEvent_equiv (clock (r_line (touch clock r))) 0 (se_sync_version e) (c :: ty) (stringify (se_payload e))
      (r_store (touch clock r)) (r_store r) (NoteBytes_equiv _ _)) as [E1 E2].
    destruct (ApplyEvent _ _ (clock _) _ _ _ _) as [[|] s1], (ApplyEvent _ _ 0 _ _ _ _) as [[|] s2]; cbn [fst snd] in *;
      try congruence; (split; [congruence|]); [by rewrite maybePersist_store|done].
  - rewrite parseID_show by done. cbn. split; [done|]. by apply AdvanceCursor_equiv.
Qed.

(** The text of an event frame, line by line. *)
Lemma event_text e rest : se_event_type e ≠ [] →
  eventFrame e ++ rest = (js "id: " ++ show_Z (se_sync_version e)) ++ 10 :: (js "event: " ++ se_event_type e) ++ 10 ::
    (js "data: " ++ stringify (se_payload e)) ++ 10 :: [] ++ 10 :: rest.
Proof. intros H0. unfold eventFrame, formatSseEvent. destruct (se_event_type e); [done|]. by rewrite <- !app_assoc. Qed.

(** The first two lines of an event frame. *)
Lemma read_event_head e tail ret r :
  0 < se_sync_version e ≤ INT64_MAX → se_event_type e ∈ SyncLog.event_types →
  ∃ r', r_store r' ≡ r_store r ∧
    readl (split_on 10 ((js "id: " ++ show_Z (se_sync_version e)) ++ 10 :: (js "event: " ++ se_event_type e) ++ 10 :: tail))
      reset ret r =
    readl (split_on 10 tail) (mkFrame (se_event_type e) (show_Z (se_sync_version e)) [] 0) ret r'.
Proof.
  intros Hv Hty. destruct (event_type_sound _ Hty) as (Ht & Hn & Hlen & H0 & _).
  destruct (show_line "id: " (se_sync_version e)) as [Ha Hb]; [lia|simpl; lia|done|done|].
  rewrite read_one, disp_id by (done || apply tight_show; lia).
  rewrite read_one, disp_event; [|done|by rewrite forallb_app, Hn|rewrite ascii_bytes by done; simpl length;
    pose proof (byteLength_le (se_event_type e)); unfold maxSSELineBytes; lia].
  eexists. split; [|reflexivity]. done.
Qed.

(** An event whose data line is too long ends the stream before it is applied. *)
Lemma read_large e rest ret r :
  0 < se_sync_version e ≤ INT64_MAX → se_event_type e ∈ SyncLog.event_types → line_fits e = false →
  ∃ ret' r', r_store r' ≡ r_store r ∧
    readl (split_on 10 (eventFrame e ++ rest)) reset ret r = (EndError (js "sse line exceeds the limit"), (ret', r')).
Proof.
  intros Hv Hty Hbig. destruct (event_type_sound _ Hty) as (_ & _ & _ & H0 & _). rewrite event_text by done.
  destruct (read_event_head e ((js "data: " ++ stringify (se_payload e)) ++ 10 :: [] ++ 10 :: rest) ret r Hv Hty)
    as (r' & Hr & ->).
  exists ret, r'. split; [done|].
  rewrite split_on_app by (apply noeol_not_in; by rewrite forallb_app, noeol_stringify).
  change (split_on 10 ([] ++ 10 :: rest)) with ([] :: split_on 10 rest). cbn [read_lines].
  apply Z.leb_gt in Hbig. change (byteLength (js "data: ")) with 6 in Hbig.
  rewrite ascii_bytes by done. rewrite (proj2 (Z.ltb_lt _ _)) by (simpl length; lia). done.
Qed.

(** Reading one item, with anything after it. *)
Lemma read_event e rest ret r : event_sound e →
  ∃ ret' r', r_store r' ≡ (deliver Unmarshal time_Parse 0 (FEvent e) (r_store r)).2 ∧
    readl (split_on 10 (eventFrame e ++ rest)) reset ret r =
    match (deliver Unmarshal time_Parse 0 (FEvent e) (r_store r)).1 with
    | Some en => (en, (ret', r'))
    | None => readl (split_on 10 rest) reset ret' r'
    end.
Proof.
  intros Hs. pose proof Hs as [[fs Hfs] Hv Hty]. destruct (line_fits e) eqn:Hfit.
  2:{ cbn [deliver]. rewrite Hfit. by apply read_large. }
  destruct (event_type_sound _ Hty) as (_ & _ & _ & H0 & _). rewrite event_text by done.
  destruct (read_event_head e ((js "data: " ++ stringify (se_payload e)) ++ 10 :: [] ++ 10 :: rest) ret r Hv Hty)
    as (r0 & Hr0 & ->).
  pose proof Hfit as Hsize%Z.leb_le. change (byteLength (js "data: ")) with 6 in Hsize.
  rewrite read_one, disp_data; [|rewrite Hfs; apply tight_object|cbn [f_bytes]; unfold maxSSELineBytes, maxSSEEventBytes in *; lia|
    rewrite forallb_app, noeol_stringify; done|rewrite ascii_bytes by done; simpl length; lia].
  rewrite (read_one []), disp_blank by done.
  match goal with |- context [flsh ?f0 ?r0] => set (fr := f0); set (r1 := r0) end.
  destruct (flush_frame (FEvent e) (0 + byteLength (stringify (se_payload e)) + 1) r1 Hs ltac:(done) Hfit) as [E1 E2].
  change (mkFrame _ _ _ _) with fr in E1, E2.
  destruct (deliver_equiv 0 0 (FEvent e) (r_store r1) (r_store r) Hr0) as [E3 E4].
  rewrite E3 in E1. rewrite E4 in E2. rewrite E1.
  destruct ((deliver Unmarshal time_Parse 0 (FEvent e) (r_store r)).1) as [en|].
  - eexists ret, _. split; [exact E2|done].
  - exists ret, (next_line (flsh fr r1).2). done.
Qed.

Lemma read_frame (f : out_frame) rest ret r : item_sound (Frame f) →
  ∃ ret' r', r_store r' ≡ (deliver Unmarshal time_Parse 0 f (r_store r)).2 ∧
    readl (split_on 10 (frame_text f ++ rest)) reset ret r =
    match (deliver Unmarshal time_Parse 0 f (r_store r)).1 with
    | Some e => (e, (ret', r'))
    | None => readl (split_on 10 rest) reset ret' r'
    end.
Proof.
  intros Hs. destruct f as [e|v|]; cbn [frame_text]; [by apply read_event| |].
  - assert (cursorFrame v ++ rest = (js "id: " ++ show_Z v) ++ 10 :: (js "event: " ++ js "cursor") ++ 10 ::
      (js "data: " ++ js "{}") ++ 10 :: [] ++ 10 :: rest) as ->.
    { change (cursorFrame v) with (((js "id: " ++ show_Z v ++ [10]) ++ js "event: " ++ js "cursor" ++ [10])
        ++ js "data: " ++ js "{}" ++ [10; 10]). by rewrite <- !app_assoc. }
    cbn [item_sound] in Hs. destruct (show_line "id: " v) as [Ha Hb]; [lia|simpl; lia|done|done|].
    rewrite read_one, disp_id by (done || apply tight_show; lia).
    rewrite read_one, disp_event by literal.
    rewrite read_one, disp_data by literal.
    rewrite (read_one []), disp_blank by done.
    match goal with |- context [flsh ?f0 ?r0] => set (fr := f0); set (r1 := r0) end.
    destruct (flush_frame (FCursor v) (f_bytes fr) r1 Hs ltac:(done) eq_refl) as [E1 E2].
    change (mkFrame _ _ _ _) with fr in E1, E2.
    destruct (deliver_equiv 0 0 (FCursor v) (r_store r1) (r_store r) ltac:(done)) as [E3 E4].
    rewrite E3 in E1. rewrite E4 in E2. rewrite E1. exists ret, (next_line (flsh fr r1).2). done.
  - assert (SseRegistry.shutdown_frame ++ rest = (js "event: " ++ js "shutdown") ++ 10 ::
      (js "data: " ++ js "{}") ++ 10 :: [] ++ 10 :: rest) as -> by done.
    rewrite read_one, disp_event by literal. rewrite read_one, disp_data by literal.
    rewrite (read_one []), disp_blank by done.
    match goal with |- context [flsh ?f0 ?r0] => set (fr := f0); set (r1 := r0) end.
    exists ret, (flsh fr r1).2. done.
Qed.

Lemma read_comment text rest ret r : forallb noeol text = true → byteLength text + 2 < maxSSELineBytes →
  ∃ r', r_store r' ≡ r_store r ∧
    readl (split_on 10 (formatSseComment text ++ rest)) reset ret r = readl (split_on 10 rest) reset ret r'.
Proof.
  intros Hn Hb. assert (formatSseComment text ++ rest = (js ": " ++ text) ++ 10 :: [] ++ 10 :: rest) as ->
    by (unfold formatSseComment; by rewrite <- !app_assoc).
  rewrite read_one; [|by rewrite forallb_app, Hn|rewrite ascii_bytes by done; simpl length; lia].
  assert (disp (js ": " ++ text) reset ret r = (None, (reset, ret, touch clock r))) as -> by done.
  rewrite (read_one []), disp_blank by done.
  by exists (next_line (flsh reset (touch clock (next_line (touch clock r)))).2).
Qed.

Lemma read_retry ms rest ret r : 0 ≤ ms ≤ INT64_MAX →
  ∃ ret' r', r_store r' ≡ r_store r ∧
    readl (split_on 10 (item_text (Retry ms) ++ rest)) reset ret r = readl (split_on 10 rest) reset ret' r'.
Proof.
  intros Hm. assert (item_text (Retry ms) ++ rest = (js "retry: " ++ show_Z ms) ++ 10 :: [] ++ 10 :: rest) as ->
    by (cbn [item_text]; by rewrite <- !app_assoc).
  destruct (show_line "retry: " ms) as [Ha Hb]; [lia|simpl; lia|done|done|]. rewrite read_one by done.
  assert (∃ ret', disp (js "retry: " ++ show_Z ms) reset ret r = (None, (reset, ret', touch clock r))) as [ret' ->].
  { unfold dispatch. change (js "retry: " ++ show_Z ms) with (js "retry:" ++ 32 :: show_Z ms).
    rewrite strip_prefix_app. cbn [js app]. by eexists. }
  rewrite (read_one []), disp_blank by done.
  by exists ret', (next_line (flsh reset (touch clock (next_line (touch clock r)))).2).
Qed.

Lemma read_items items ret r : Forall item_sound items →
  let '(e, (_, r')) := readl (split_on 10 (concat (item_text <$> items))) reset ret r in
  e = (deliver_all Unmarshal time_Parse (frames_of items) (r_store r)).1 ∧
  r_store r' ≡ (deliver_all Unmarshal time_Parse (frames_of items) (r_store r)).2.
Proof.
  intros HF. revert ret r. induction HF as [|i items Hi _ IH]; intros ret r; [done|].
  rewrite fmap_cons. cbn [concat]. destruct i as [f|text|ms].
  - destruct (read_frame f (concat (item_text <$> items)) ret r Hi) as (ret' & r' & Hr & Heq).
    cbn [item_text]. rewrite Heq. change (frames_of (Frame f :: items)) with (f :: frames_of items). cbn [deliver_all].
    destruct (deliver Unmarshal time_Parse 0 f (r_store r)) as [[e|] s1]; [done|]. cbn [fst snd] in *.
    specialize (IH ret' r'). destruct (readl _ _ _ _) as [e [ret2 r2]].
    destruct (deliver_all_equiv (frames_of items) (r_store r') s1 Hr) as [E1 E2]. rewrite <- E1, <- E2. exact IH.
  - destruct Hi as [Hn Hb]. destruct (read_comment text (concat (item_text <$> items)) ret r Hn Hb) as (r' & Hr & Heq).
    cbn [item_text]. rewrite Heq. change (frames_of (Comment text :: items)) with (frames_of items).
    specialize (IH ret r'). destruct (readl _ _ _ _) as [e [ret2 r2]].
    destruct (deliver_all_equiv (frames_of items) (r_store r') (r_store r) Hr) as [E1 E2]. rewrite <- E1, <- E2. exact IH.
  - destruct (read_retry ms (concat (item_text <$> items)) ret r Hi) as (ret' & r' & Hr & Heq).
    rewrite Heq. change (frames_of (Retry ms :: items)) with (frames_of items).
    specialize (IH ret' r'). destruct (readl _ _ _ _) as [e [ret2 r2]].
    destruct (deliver_all_equiv (frames_of items) (r_store r') (r_store r) Hr) as [E1 E2]. rewrite <- E1, <- E2. exact IH.
Qed.

(** ** Properties *)

(** C3. The two languages agree on the stream: reading the text of any sequence of
    frames a session can write (events of any size, cursors, shutdown), with
    heartbeats and retry hints anywhere between them, ends the way the frames say and
    leaves the store as if each event and cursor had been applied directly, in order,
    up to the first frame that ends the stream: a shutdown, an event the edge cannot
    apply, or an event whose data line exceeds the edge's limit. *)
Theorem stream_text_roundtrip items r : Forall item_sound items →
  let '(e, (_, r')) :=
    readStream Unmarshal time_Parse hasPath persistEveryEvents persistEvery clock save (concat (item_text <$> items)) r in
  e = (deliver_all Unmarshal time_Parse (frames_of items) (r_store r)).1 ∧
  r_store r' ≡ (deliver_all Unmarshal time_Parse (frames_of items) (r_store r)).2.
Proof. intros HF. by apply read_items. Qed.

(** A large event stops an edge for good: the control plane sends an event frame of
    up to a mebibyte, the edge refuses a line of more than 256 KiB.  An event in
    between ends the stream with an error before it is applied: the store and its
    cursor stay as they were, so the next connection starts with the same event. *)
Theorem large_event_blocks_stream e rest r :
  0 < se_sync_version e ≤ INT64_MAX → se_event_type e ∈ SyncLog.event_types →
  maxSSELineBytes ≤ byteLength (stringify (se_payload e)) + 6 →
  let '(en, (_, r')) :=
    readStream Unmarshal time_Parse hasPath persistEveryEvents persistEvery clock save (eventFrame e ++ rest) r in
  en = EndError (js "sse line exceeds the limit") ∧ r_store r' ≡ r_store r.
Proof.
  intros Hv Hty Hbig. assert (Hf : line_fits e = false) by (apply Z.leb_gt; change (byteLength (js "data: ")) with 6; lia).
  unfold readStream. by destruct (read_large e rest 0 r Hv Hty Hf) as (ret' & r' & Hr & ->).
Qed.

End reader.

(** ** Witnesses *)

Definition sample_items : list sse_item :=
  [Retry 5000; Frame (FEvent (mkSyncEvent 2 (js "score.delete") (Some (js "p")) None (ScoreWriter.delete_payload (js "p")) 0));
   Comment (js "ping"); Frame (FCursor 3)].

Definition sample_runner : SyncRunner :=
  mkRunner (mkStore (Some (mkSnap 1 {[js "p" := ScoreWriter.mkScore (js "p") (js "agent") 60 false (js "propagated")]} ∅ None)) 1 None)
    0 0 None 0.

Lemma stream_text_roundtrip_witness :
  let out := readStream (EdgeInv.knows (ScoreWriter.delete_payload (js "p"))) (λ _, None) false 100 60000 (λ _, 9) (λ _, true)
    (concat (item_text <$> sample_items)) sample_runner in
  out.1 = EndEOF ∧ contents (r_store out.2.2) = (Some (mkSnap 2 ∅ ∅ None), 3).
Proof.
  pose proof (stream_text_roundtrip (EdgeInv.knows (ScoreWriter.delete_payload (js "p"))) (λ _, None) false 100 60000 (λ _, 9)
    (λ _, true) sample_items sample_runner) as H.
  destruct (readStream _ _ _ _ _ _ _ _ _) as [e [ret r']] eqn:E. cbn [fst snd].
  destruct H as [H1 H2].
  { repeat apply Forall_cons_2; [| | | |apply Forall_nil_2].
    - split; vm_compute; discriminate.
    - split; [by eexists|split; [reflexivity|discriminate]|apply SyncLog.score_delete_type].
    - split; vm_compute; reflexivity.
    - split; vm_compute; discriminate. }
  split; [rewrite H1; vm_compute; reflexivity|]. unfold equiv, store_equiv in H2. rewrite H2. vm_compute. reflexivity.
Defined.

(** A policy whose only fingerprint has [n] letters. *)
Definition long_payload (n : nat) : json := JObj [(js "f", JStr (repeat 97 n))].
Definition long_event (n : nat) : SyncEvent := mkSyncEvent 7 (js "policy.replace") None (Some (js "t")) (long_payload n) 0.

Lemma quote_letters n : quote_body (repeat 97 n) = repeat 97 n.
Proof. induction n as [|n IH]; [done|]. cbn [repeat quote_body]. by rewrite IH. Qed.

Lemma long_text n : stringify (long_payload n) = [123; 34; 102; 34; 58; 34] ++ repeat 97 n ++ [34; 125].
Proof.
  change (stringify (long_payload n)) with ([123] ++ ([34; 102; 34] ++ [58] ++ quote (repeat 97 n)) ++ [125]).
  unfold quote. rewrite quote_letters. by rewrite <- !app_assoc.
Qed.

Lemma long_payload_bytes n : byteLength (stringify (long_payload n)) = Z.of_nat n + 8.
Proof.
  rewrite long_text, ascii_bytes by done. rewrite ascii_bytes by (by induction n). rewrite repeat_length. simpl. lia.
Qed.

Lemma letters_bytes n s : byteLength (repeat 97 n ++ s) = Z.of_nat n + byteLength s.
Proof. rewrite ascii_bytes by (by induction n). by rewrite repeat_length. Qed.

Lemma long_event_bytes n : byteLength (eventFrame (long_event n)) = Z.of_nat n + 44.
Proof.
  assert (eventFrame (long_event n) =
    (js "id: 7" ++ [10] ++ js "event: policy.replace" ++ [10] ++ js "data: " ++ [123; 34; 102; 34; 58; 34])
    ++ repeat 97 n ++ [34; 125; 10; 10]) as ->.
  { change (eventFrame (long_event n)) with
      ((js "id: 7" ++ [10] ++ js "event: policy.replace" ++ [10]) ++ js "data: " ++ stringify (long_payload n) ++ [10; 10]).
    rewrite long_text. by rewrite <- !app_assoc. }
  rewrite ascii_bytes, letters_bytes by reflexivity. change (byteLength [34; 125; 10; 10]) with 4. simpl length. lia.
Qed.

Lemma large_event_blocks_stream_witness :
  let e := long_event (Z.to_nat 300000) in
  byteLength (eventFrame e) ≤ 1048576 ∧
  (readStream (λ _, None) (λ _, None) false 100 60000 (λ _, 9) (λ _, true) (eventFrame e ++ []) sample_runner).1 =
    EndError (js "sse line exceeds the limit").
Proof.
  assert (Hn : Z.of_nat (Z.to_nat 300000) = 300000) by (apply Z2Nat.id; discriminate).
  revert Hn. generalize (Z.to_nat 300000). intros n Hn. cbv zeta. split; [rewrite long_event_bytes; lia|].
  pose proof (large_event_blocks_stream (λ _, None) (λ _, None) false 100 60000 (λ _, 9) (λ _, true)
    (long_event n) [] sample_runner) as H.
  destruct (readStream _ _ _ _ _ _ _ _ _) as [en [ret r']]. cbn [fst].
  apply H; [split; [reflexivity|discriminate]|apply SyncLog.policy_replace_type|].
  change (se_payload (long_event n)) with (long_payload n).
  rewrite long_payload_bytes, Hn. discriminate.
Defined.

End EdgeStream.
