(* ===== verification/Replication.v ===== *)
(** * Edge replicas of the control plane

    The whole sync protocol, end to end: the control plane's log and snapshots on one
    side, the edge's store, its snapshot file and the stream between them on the
    other.  What the edge relies on is the interface [SyncSource]; the machine of
    Section [machine] interleaves changes of the control plane with everything an edge
    can go through (bootstrap, connect, polls of its session, delivery frame by frame,
    lost connections, refetched snapshots, saves, crashes and restarts from the file),
    and is proved correct against the interface alone.  Its sessions run
    [start_session] and [poll_batch] of [SseSession], batch limit, frame limit and
    write queue included, and its edge reads frames as [EdgeStream.deliver] does,
    line limit included.  [cp_source] is the interface's
    implementation by the control plane's operations.

    The specification: whatever happened before, unless a poll overflowed, the events
    above an edge's cursor turn the edge's score table into the control plane's.
    Hence an edge that is not behind has exactly the control plane's table. *)

From stdpp Require Import base gmap strings numbers sorting list relations.
From Stdlib Require Import ZArith Lia.
From S2P Require Import Prelude Json JsText GoText JsonParse JsDate Errors Db SyncLog ScoreWriter Snapshot Policy EdgeStore SseSession EdgeStream.

Module Replication.
Import SyncLog ScoreWriter EdgeStore SseSession EdgeStream.

(** ** The interface *)

Section interface.
Context (Unmarshal : jstr → option json) (time_Parse : jstr → option Z).

(** The edge can apply the event, and does to its scores what [edge_apply] says. *)
Definition readable (e : SyncEvent) : Prop := ∀ snap, ∃ snap',
  mutateSnapshot Unmarshal time_Parse snap (se_event_type e) (stringify (se_payload e)) = Ok snap' ∧
  Scores snap' = edge_apply (Scores snap) e.

(** What a control plane in state [s] promises to an edge: a score table, a version,
    the events above a version, the snapshots it may hand out, and how it evolves. *)
Class SyncSource (C : Type) := {
  src_ok : C → Prop;
  src_step : relation C;
  src_table : C → gmap jstr EngineScore;
  src_version : C → Z;
  src_since : Z → C → list SyncEvent;
  src_snapshot : C → EdgeStore.Snapshot → Prop;

  src_step_ok s s' : src_ok s → src_step s s' → src_ok s';
  src_version_nonneg s : src_ok s → 0 ≤ src_version s;
  src_version_mono s s' : src_ok s → src_step s s' → src_version s ≤ src_version s';
  (** the log only grows *)
  src_since_grows s s' v : src_ok s → src_step s s' → v ≤ src_version s →
    src_since v s' = src_since v s ++ src_since (src_version s) s';
  (** the new events describe the change of the table *)
  src_since_table s s' : src_ok s → src_step s s' →
    replay (src_since (src_version s) s') (src_table s) = src_table s';
  src_since_none s : src_ok s → src_since (src_version s) s = [];
  (** events come in the order of their versions, without gaps *)
  src_since_next s v e l : src_ok s → src_since v s = e :: l →
    v < se_sync_version e ≤ src_version s ∧ src_since (se_sync_version e) s = l;
  src_since_readable s v : src_ok s → Forall readable (src_since v s);
  (** a snapshot is the table and the version of one state *)
  src_snapshot_exact s snap : src_ok s → src_snapshot s snap →
    Scores snap = src_table s ∧ HighWaterVersion snap = src_version s
}.

(** ** The machine *)

Section machine.
Context {C : Type} `{SyncSource C}.
Context (maxInitialBatch : nat) (maxFrameBytes cursorPersistEveryEvents : Z).

(** A connection: the frames on their way, the session at the other end, and
    whether a poll of it found more than [maxInitialBatch] events. *)
Record link := mkLink { l_wire : list out_frame; l_session : session; l_gap : bool }.

(** [n_gap] is a history variable: the store took a frame of a connection some
    poll of which overflowed, so that events may be missing below its cursor.  A
    fetched snapshot clears it; a saved snapshot keeps it.  [n_reply] is a snapshot
    response on its way. *)
Record net := mkNet {
  n_src : C;
  n_store : Store;
  n_gap : bool;
  n_file : option (EdgeStore.Snapshot * bool);
  n_reply : option EdgeStore.Snapshot;
  n_conn : option link
}.

(** More events above [pos] than a batch holds. *)
Definition overflows (pos : Z) (s : C) : bool := bool_decide (maxInitialBatch < length (src_since pos s))%nat.

(** The session the route starts for an edge at [cursor] when its backlog is not
    refused, and one poll of a session.  [enq] is what the write queue answers. *)
Definition open_session (enq : nat → inc_result) (cursor : Z) (s : C) : session :=
  start_session maxFrameBytes enq (src_since cursor s) (src_version s).

Definition poll_source (enq : nat → inc_result) (s : C) (ss : session) : session :=
  poll_batch maxFrameBytes cursorPersistEveryEvents enq (take maxInitialBatch (src_since (lastEmittedHw ss) s))
    (src_version s) ss.

(** The frames a session handed over between two of its states. *)
Definition sent (ss ss' : session) : list out_frame := drop (length (out ss)) (out ss').

Inductive nstep : net → net → Prop :=
| n_control s s' st g fl rp c : src_step s s' → nstep (mkNet s st g fl rp c) (mkNet s' st g fl rp c)
| n_bootstrap_file now s st g snap g' rp c : (* [Bootstrap] from the snapshot file, after a restart *)
    nstep (mkNet s st g (Some (snap, g')) rp c) (mkNet s (ApplySnapshot now snap st) g' (Some (snap, g')) rp None)
| n_request s st g fl rp c snap : src_snapshot s snap → (* [FetchSnapshot], answered *)
    nstep (mkNet s st g fl rp c) (mkNet s st g fl (Some snap) c)
| n_fetch now s st g fl snap c : (* [Bootstrap], or [recoverSnapshot] after 429 and 410 *)
    nstep (mkNet s st g fl (Some snap) c) (mkNet s (ApplySnapshot now snap st) false fl None None)
| n_connect enq s st g fl rp snap : (* Last-Event-ID is the store's high-water mark; a larger backlog is refused *)
    ptr st = Some snap → overflows (HighWater st) s = false →
    let ss := open_session enq (HighWater st) s in
    nstep (mkNet s st g fl rp None) (mkNet s st g fl rp (Some (mkLink (out ss) ss false)))
| n_poll enq s st g fl rp q ss cg : aborted ss = false →
    let ss' := poll_source enq s ss in
    nstep (mkNet s st g fl rp (Some (mkLink q ss cg)))
          (mkNet s st g fl rp (Some (mkLink (q ++ sent ss ss') ss' (cg || overflows (lastEmittedHw ss) s))))
| n_abort s st g fl rp q ss cg : (* shutdown, a slow client, a closed socket *)
    nstep (mkNet s st g fl rp (Some (mkLink q ss cg))) (mkNet s st g fl rp (Some (mkLink q (abort ss) cg)))
| n_shutdown s st g fl rp q1 q2 ss cg : (* the control lane goes ahead of queued data *)
    nstep (mkNet s st g fl rp (Some (mkLink (q1 ++ q2) ss cg)))
          (mkNet s st g fl rp (Some (mkLink (q1 ++ FShutdown :: q2) ss cg)))
| n_overtake s st g fl rp q1 q2 q3 ss cg :
    nstep (mkNet s st g fl rp (Some (mkLink (q1 ++ q2 ++ FShutdown :: q3) ss cg)))
          (mkNet s st g fl rp (Some (mkLink (q1 ++ FShutdown :: q2 ++ q3) ss cg)))
| n_deliver now s st g fl rp f q ss cg st' : deliver Unmarshal time_Parse now f st = (None, st') →
    nstep (mkNet s st g fl rp (Some (mkLink (f :: q) ss cg))) (mkNet s st' (g || cg) fl rp (Some (mkLink q ss cg)))
| n_end now s st g fl rp f q ss cg e st' : deliver Unmarshal time_Parse now f st = (Some e, st') →
    nstep (mkNet s st g fl rp (Some (mkLink (f :: q) ss cg))) (mkNet s st' g fl rp None)
| n_cut s st g fl rp c : nstep (mkNet s st g fl rp c) (mkNet s st g fl None None)
| n_persist s st g fl rp c snap : ptr st = Some snap →
    nstep (mkNet s st g fl rp c) (mkNet s st g (Some (SnapshotForPersist st, g)) rp c)
| n_crash s st g fl rp c : nstep (mkNet s st g fl rp c) (mkNet s NewStore false fl None None).

(** A table [tbl] at cursor [c] is a replica: what it misses leads to the truth. *)
Definition replica (s : C) (tbl : gmap jstr EngineScore) (c : Z) : Prop :=
  0 ≤ c ≤ src_version s ∧ replay (src_since c s) tbl = src_table s.

(** The frames [q] lead, in order and without a gap, from cursor [c] to [pos]. *)
Fixpoint leads (s : C) (c : Z) (q : list out_frame) (pos : Z) : Prop :=
  match q with
  | [] => c = pos
  | FEvent e :: q' =>
      readable e ∧ c < se_sync_version e ≤ src_version s ∧
      src_since c s = e :: src_since (se_sync_version e) s ∧ leads s (se_sync_version e) q' pos
  | FCursor v :: q' => c ≤ v ≤ src_version s ∧ src_since c s = src_since v s ∧ leads s v q' pos
  | FShutdown :: q' => leads s c q' pos
  end.

(** What is on its way, and what the session will send next, continue the store. *)
Definition link_inv (s : C) (c : Z) (l : link) : Prop := ∃ pos,
  pos ≤ src_version s ∧ leads s c (l_wire l) pos ∧ (aborted (l_session l) = false → pos = lastEmittedHw (l_session l)).

Record net_inv (x : net) : Prop := {
  ni_ok : src_ok (n_src x);
  ni_store : ∀ snap, n_gap x = false → ptr (n_store x) = Some snap → replica (n_src x) (Scores snap) (hw (n_store x));
  ni_file : ∀ snap, n_file x = Some (snap, false) → replica (n_src x) (Scores snap) (HighWaterVersion snap);
  ni_reply : ∀ snap, n_reply x = Some snap → replica (n_src x) (Scores snap) (HighWaterVersion snap);
  ni_link : ∀ l, n_conn x = Some l → n_gap x = false → l_gap l = false →
    is_Some (ptr (n_store x)) ∧ link_inv (n_src x) (hw (n_store x)) l
}.

(** An edge before its first bootstrap. *)
Definition fresh (s : C) : net := mkNet s NewStore false None None None.

(** ** Lemmas *)

Lemma replica_step s s' tbl c : src_ok s → src_step s s' → replica s tbl c → replica s' tbl c.
Proof.
  intros Hok Hst [Hc Hr]. pose proof (src_version_mono s s' Hok Hst). split; [lia|].
  rewrite (src_since_grows s s') by (done || lia). by rewrite replay_app, Hr, src_since_table.
Qed.

Lemma leads_step s s' c q pos : src_ok s → src_step s s' → c ≤ src_version s → leads s c q pos → leads s' c q pos.
Proof.
  intros Hok Hst. pose proof (src_version_mono s s' Hok Hst) as Hm. revert c.
  induction q as [|[e|v|] q IH]; intros c Hc; cbn [leads]; [done| | |by apply IH].
  - intros (Hr & Hv & Hs & Hl). split_and!; [done|lia|lia| |apply IH; [lia|done]].
    rewrite (src_since_grows s s' c), (src_since_grows s s' (se_sync_version e)), Hs by (done || lia). done.
  - intros (Hv & Hs & Hl). split_and!; [lia|lia| |apply IH; [lia|done]].
    by rewrite (src_since_grows s s' c), (src_since_grows s s' v), Hs by (done || lia).
Qed.

Lemma leads_app s c q p q' p' : leads s c q p → leads s p q' p' → leads s c (q ++ q') p'.
Proof.
  revert c. induction q as [|[e|v|] q IH]; intros c; cbn [leads app]; [by intros ->|naive_solver..].
Qed.

(** A shutdown frame may stand anywhere. *)
Lemma leads_shutdown s c q1 q2 pos : leads s c (q1 ++ FShutdown :: q2) pos ↔ leads s c (q1 ++ q2) pos.
Proof. revert c. induction q1 as [|[e|v|] q1 IH]; intros c; cbn [leads app]; [done| | |by apply IH]; by rewrite IH. Qed.

(** The first [n] events above a cursor. *)
Lemma leads_events s pos n : src_ok s → pos ≤ src_version s →
  ∃ p, p ≤ src_version s ∧ leads s pos (FEvent <$> take n (src_since pos s)) p ∧ src_since p s = drop n (src_since pos s).
Proof.
  intros Hok. revert pos. induction n as [|n IH]; intros pos Hp; [by exists pos|].
  destruct (src_since pos s) as [|e l] eqn:El; [by exists pos|].
  destruct (src_since_next s pos e l Hok El) as [Hv Hn]. destruct (IH (se_sync_version e)) as (p & Hpv & Hl & Hd); [lia|].
  rewrite Hn in Hl, Hd. exists p. cbn [take drop fmap list_fmap leads]. rewrite El, Hn. split_and!; try done; try lia.
  pose proof (src_since_readable s pos Hok) as HF. rewrite El in HF. by apply Forall_cons in HF as [? _].
Qed.

(** The frames of a session's batch, when it is the whole of what is above [pos]. *)
Lemma leads_batch s pos n (sd : bool) : src_ok s → pos ≤ src_version s →
  ∃ p, p ≤ src_version s ∧ leads s pos ((FEvent <$> take n (src_since pos s)) ++ (if sd then [FShutdown] else [])) p ∧
    src_since p s = drop n (src_since pos s).
Proof.
  intros Hok Hp. destruct (leads_events s pos n Hok Hp) as (p & Hv & Hl & Hd). exists p. split_and!; [done| |done].
  destruct sd; [|by rewrite app_nil_r]. apply leads_shutdown. by rewrite app_nil_r.
Qed.

Lemma leads_cursor s c q p : src_ok s → p ≤ src_version s → leads s c q p → src_since p s = [] →
  leads s c (q ++ [FCursor (src_version s)]) (src_version s).
Proof.
  intros Hok Hp Hl Hn. apply (leads_app _ _ _ p); [done|]. cbn [leads]. rewrite Hn, src_since_none by done.
  split_and!; [lia|lia|done..].
Qed.

Lemma overflows_take pos s : overflows pos s = false → take maxInitialBatch (src_since pos s) = src_since pos s.
Proof. unfold overflows. rewrite bool_decide_eq_false. intros ?. apply take_ge. lia. Qed.

Lemma open_session_inv enq cursor s : src_ok s → cursor ≤ src_version s →
  link_inv s cursor (mkLink (out (open_session enq cursor s)) (open_session enq cursor s) false).
Proof.
  intros Hok Hc. unfold open_session, start_session, link_inv. cbn [l_wire l_session].
  destruct (send_initial_prefix maxFrameBytes enq (src_since cursor s) (mkSession (-1) 0 false [] 0 0) eq_refl) as (n & Ho & Hall).
  destruct (send_initial _ _ _ _) as [ok s1]. cbn [fst snd out app] in Ho, Hall.
  destruct (leads_events s cursor n Hok Hc) as (p & Hp & Hl & Hd). rewrite <- Ho in Hl.
  destruct ok; [|exists p; rewrite Hall; done]. destruct Hall as [Hn Ha].
  assert (Hnone : src_since p s = []) by (rewrite Hd; apply drop_ge; rewrite <- Hn; rewrite length_take; lia).
  unfold enqueueIncremental. rewrite Ha. destruct (enq (enq_calls s1)); [|by exists p..].
  exists (src_version s). split; [done|]. split; [by eapply leads_cursor|done].
Qed.

Lemma poll_inv enq s ss q c cg cg' : src_ok s → aborted ss = false → overflows (lastEmittedHw ss) s = false →
  link_inv s c (mkLink q ss cg) →
  link_inv s c (mkLink (q ++ sent ss (poll_source enq s ss)) (poll_source enq s ss) cg').
Proof.
  intros Hok Ha Hov (pos & Hp & Hl & Heq). cbn [l_wire l_session] in *. rewrite (Heq Ha) in Hp, Hl. clear Heq.
  unfold poll_source, poll_batch, sent, link_inv. cbn [l_wire l_session]. rewrite overflows_take by done.
  destruct (poll_events_prefix maxFrameBytes cursorPersistEveryEvents enq (src_since (lastEmittedHw ss) s) ss Ha)
    as (n & sd & Ho & Hh & Hall).
  set (s1 := poll_events _ _ _ _ _) in *. rewrite Hh.
  destruct (leads_batch s (lastEmittedHw ss) n sd Hok Hp) as (p & Hpv & Hlb & Hd).
  pose proof (leads_app _ _ _ _ _ _ Hl Hlb) as Hq.
  assert (Hdrop : ∀ tl, drop (length (out ss)) (out s1 ++ tl) =
    ((FEvent <$> take n (src_since (lastEmittedHw ss) s)) ++ (if sd then [FShutdown] else [])) ++ tl)
    by (intros tl; rewrite Ho, <- app_assoc; apply drop_app_length).
  assert (Hend : ∀ s2, out s2 = out s1 → (aborted s2 = false → p = lastEmittedHw s2) → ∃ pos', pos' ≤ src_version s ∧
    leads s c (q ++ drop (length (out ss)) (out s2)) pos' ∧ (aborted s2 = false → pos' = lastEmittedHw s2)).
  { intros s2 Hs2 Ha2. exists p. rewrite Hs2, <- (app_nil_r (out s1)), Hdrop, app_nil_r. done. }
  destruct (aborted s1) eqn:Ha1.
  { destruct (_ <? _); [|apply Hend; [done|congruence]]. unfold enqueueIncremental. rewrite Ha1. by apply Hend. }
  destruct (Hall eq_refl) as [Hn ->].
  assert (Hnone : src_since p s = []) by (rewrite Hd; apply drop_ge; rewrite <- Hn; rewrite length_take; lia).
  destruct (Z.ltb_spec (lastEmittedHw ss) (src_version s)) as [Hlt|Hge].
  - unfold enqueueIncremental. rewrite Ha1. destruct (enq (enq_calls s1)); [|by apply Hend..].
    exists (src_version s). cbn [out set_hw]. rewrite Hdrop, app_assoc.
    split; [done|]. split; [by eapply leads_cursor|done].
  - apply Hend; [done|]. intros _. rewrite Hh. replace (lastEmittedHw ss) with (src_version s) in Hlb by lia.
    rewrite src_since_none in Hlb by done. rewrite take_nil in Hlb. cbn in Hlb. lia.
Qed.

(** Applying a frame that leads on. *)
Lemma deliver_leads now s st snap f q pos :
  src_ok s → ptr st = Some snap → replica s (Scores snap) (hw st) → leads s (hw st) (f :: q) pos →
  f ≠ FShutdown → frame_fits f = true →
  ∃ st' snap', deliver Unmarshal time_Parse now f st = (None, st') ∧ ptr st' = Some snap' ∧
    replica s (Scores snap') (hw st') ∧ leads s (hw st') q pos.
Proof.
  intros Hok Hp [Hc Hr] Hl Hne Hfit. destruct f as [e|v|]; [| |done]; cbn [leads frame_fits] in *.
  - destruct Hl as (He & Hv & Hs & Hl). cbn [deliver]. rewrite Hfit. cbn [negb]. unfold ApplyEvent, HighWater, Load.
    rewrite (proj2 (Z.leb_gt (se_sync_version e) 0)), (proj2 (Z.leb_gt (se_sync_version e) (hw st))) by lia.
    rewrite Hp. cbn [CloneSnapshot]. destruct (He (mkSnap (HighWaterVersion snap) (Scores snap) (Keys snap) (snPolicy snap)))
      as (snap' & -> & Hsc). cbn [Scores] in Hsc.
    eexists _, _. split; [done|]. split; [done|]. cbn [NoteBytes Swap hw HighWaterVersion Scores]. split; [|done].
    split; [lia|]. rewrite Hsc. rewrite Hs in Hr. exact Hr.
  - destruct Hl as (Hv & Hs & Hl). cbn [deliver].
    assert (Ha : ∃ lb, AdvanceCursor now v st = mkStore (ptr st) v lb).
    { unfold AdvanceCursor, advanceHighWater. destruct (Z.leb_spec v 0), (Z.leb_spec v (hw st)); cbn;
        (exists (Some now); unfold NoteBytes; cbn [ptr hw]; f_equal; lia). }
    destruct Ha as [lb ->]. eexists _, snap. split; [done|]. split; [done|]. cbn [hw]. split; [|done].
    split; [lia|]. by rewrite <- Hs.
Qed.

(** A delivered frame was no shutdown and fitted; one that ended the stream left
    the store alone. *)
Lemma deliver_None now f st st' : deliver Unmarshal time_Parse now f st = (None, st') →
  f ≠ FShutdown ∧ frame_fits f = true.
Proof. destruct f as [e|v|]; cbn [deliver frame_fits]; [|done|done]. by destruct (line_fits e). Qed.

Lemma deliver_Some now f st e st' : deliver Unmarshal time_Parse now f st = (Some e, st') → st' = st.
Proof.
  destruct f as [ev|v|]; cbn [deliver]; [|done|by intros [= _ <-]].
  destruct (line_fits ev); cbn [negb]; [|by intros [= _ <-]]. unfold ApplyEvent.
  destruct (_ <=? 0); [by intros [= _ <-]|]. destruct (_ <=? _); [done|]. destruct (mutateSnapshot _ _ _ _ _); [done|].
  by intros [= _ <-].
Qed.

Lemma link_inv_step s s' c l : src_ok s → src_step s s' → c ≤ src_version s → link_inv s c l → link_inv s' c l.
Proof.
  intros Hok Hst Hc (pos & Hp & Hl & Ha). pose proof (src_version_mono s s' Hok Hst). exists pos.
  split_and!; [lia|by eapply leads_step|done].
Qed.

(** Delivering a frame keeps the store a replica and the link its continuation. *)
Lemma deliver_inv now s st f q ss cg st' : src_ok s →
  (∀ snap, ptr st = Some snap → replica s (Scores snap) (hw st)) →
  is_Some (ptr st) → link_inv s (hw st) (mkLink (f :: q) ss cg) →
  deliver Unmarshal time_Parse now f st = (None, st') →
  (∀ snap, ptr st' = Some snap → replica s (Scores snap) (hw st')) ∧
  is_Some (ptr st') ∧ link_inv s (hw st') (mkLink q ss cg).
Proof.
  intros Hok Hst [snap Hp] (pos & Hv & Hl & Ha) Hd. destruct (deliver_None _ _ _ _ Hd) as [Hne Hfit].
  destruct (deliver_leads now s st snap f q pos) as (st2 & snap' & Hd' & Hp' & Hr' & Hl'); [by auto..|].
  rewrite Hd in Hd'. injection Hd' as <-. split_and!; [|by eexists|by exists pos].
  intros ? Hs. rewrite Hp' in Hs. by injection Hs as <-.
Qed.

Lemma nstep_inv x y : nstep x y → net_inv x → net_inv y.
Proof.
  intros Hst [Hok Hstore Hfile Hrep Hlink].
  inversion Hst as [s s' st g fl rp c Hs|now s st g snap g' rp c|s st g fl rp c snap Hs|now s st g fl snap c
    |enq s st g fl rp snap Hp Hov ss|enq s st g fl rp q ss cg Ha ss'|s st g fl rp q ss cg|s st g fl rp q1 q2 ss cg
    |s st g fl rp q1 q2 q3 ss cg|now s st g fl rp f q ss cg st' Hd|now s st g fl rp f q ss cg e st' Hd|s st g fl rp c
    |s st g fl rp c snap Hp|s st g fl rp c]; subst x y;
    cbn [n_src n_store n_gap n_file n_reply n_conn] in *; split; cbn [n_src n_store n_gap n_file n_reply n_conn]; try done.
  - by eapply src_step_ok.
  - intros. eapply replica_step; eauto.
  - intros. eapply replica_step; eauto.
  - intros. eapply replica_step; eauto.
  - intros l Hl Hg Hc. destruct (Hlink l Hl Hg Hc) as [[snap Hp] ?]. split; [by eexists|].
    eapply link_inv_step; eauto. by destruct (Hstore snap Hg Hp) as [[_ ?] _].
  - intros snap' -> [= <-]. by apply Hfile.
  - intros snap' [= <-]. destruct (src_snapshot_exact s snap Hok Hs) as [-> ->].
    split; [pose proof (src_version_nonneg s Hok); lia|]. by rewrite src_since_none.
  - intros snap' _ [= <-]. by apply Hrep.
  - intros l [= <-] Hg _. split; [by eexists|]. apply open_session_inv; [done|]. by destruct (Hstore snap Hg Hp) as [[_ ?] _].
  - intros l [= <-] Hg [Hc Ho]%orb_false_iff. destruct (Hlink _ eq_refl Hg Hc) as [? ?]. split; [done|]. by eapply poll_inv.
  - intros l [= <-] Hg Hc. destruct (Hlink _ eq_refl Hg Hc) as [? (pos & ? & ? & _)]. split; [done|]. by exists pos.
  - intros l [= <-] Hg Hc. destruct (Hlink _ eq_refl Hg Hc) as [? (pos & ? & ? & ?)]. split; [done|]. exists pos.
    split_and!; [done|by apply leads_shutdown|done].
  - intros l [= <-] Hg Hc. destruct (Hlink _ eq_refl Hg Hc) as [? (pos & ? & Hl & ?)]. split; [done|]. exists pos.
    split_and!; [done| |done]. cbn [l_wire] in *. rewrite app_assoc in Hl. rewrite leads_shutdown in *. by rewrite app_assoc.
  - intros snap [Hg Hc]%orb_false_iff. destruct (Hlink _ eq_refl Hg Hc) as [? ?].
    destruct (deliver_inv now s st f q ss cg st' Hok) as (? & _); auto.
  - intros l [= <-] [Hg Hc]%orb_false_iff _. destruct (Hlink _ eq_refl Hg Hc) as [? ?].
    destruct (deliver_inv now s st f q ss cg st' Hok) as (_ & ? & ?); auto.
  - intros snap. rewrite (deliver_Some _ _ _ _ _ Hd). auto.
  - intros snap' [= <- ->]. unfold SnapshotForPersist, Load. rewrite Hp. cbn. by apply Hstore.
Qed.

Lemma net_reachable_inv s x : src_ok s → rtc nstep (fresh s) x → net_inv x.
Proof.
  intros Hok Hr. assert (H0 : net_inv (fresh s)) by (split; cbn; done).
  induction Hr as [|x y z Hxy _ IH]; [done|]. by apply IH, (nstep_inv x).
Qed.

(** Delivering everything that is on its way. *)
Lemma deliver_all_leads s st snap q pos :
  src_ok s → ptr st = Some snap → replica s (Scores snap) (hw st) → leads s (hw st) q pos →
  Forall (λ f, f ≠ FShutdown ∧ frame_fits f = true) q →
  ∃ st' snap', deliver_all Unmarshal time_Parse q st = (EndEOF, st') ∧ ptr st' = Some snap' ∧ hw st' = pos ∧
    replica s (Scores snap') pos.
Proof.
  intros Hok Hp Hr Hl HF. revert st snap Hp Hr Hl. induction HF as [|f q [Hf Hfit] _ IH]; intros st snap Hp Hr Hl; cbn [deliver_all].
  - cbn [leads] in Hl. exists st, snap. rewrite <- Hl. done.
  - destruct (deliver_leads 0 s st snap f q pos Hok Hp Hr Hl Hf Hfit) as (st' & snap' & -> & Hp' & Hr' & Hl').
    by apply (IH st' snap').
Qed.

Lemma caught_up s tbl c : replica s tbl c → src_since c s = [] → tbl = src_table s.
Proof. intros [_ Hr] Hn. by rewrite Hn in Hr. Qed.

(** A poll whose batch is complete and fits, through a queue that takes every frame. *)
Lemma poll_sends s ss : (∀ e, e ∈ src_since (lastEmittedHw ss) s → fits maxFrameBytes e) → aborted ss = false →
  overflows (lastEmittedHw ss) s = false → lastEmittedHw ss ≤ src_version s →
  let ss' := poll_source (λ _, IOk) s ss in
  aborted ss' = false ∧ lastEmittedHw ss' = src_version s ∧
  ∃ tl, sent ss ss' = (FEvent <$> src_since (lastEmittedHw ss) s) ++ tl ∧ tl ⊆ [FCursor (src_version s)].
Proof.
  intros HF%Forall_forall Ha Hov Hle. cbv zeta. unfold poll_source, poll_batch, sent. rewrite overflows_take by done.
  destruct (poll_events_ok maxFrameBytes cursorPersistEveryEvents (λ _, IOk) (src_since (lastEmittedHw ss) s) ss
    ltac:(done) Ha HF) as (H1 & H2 & H3).
  rewrite H2. destruct (Z.ltb_spec (lastEmittedHw ss) (src_version s)).
  - unfold enqueueIncremental. rewrite H1. cbn. split_and!; [done|done|]. exists [FCursor (src_version s)].
    rewrite H3, <- app_assoc. by rewrite drop_app_length.
  - split_and!; [done|lia|]. exists []. rewrite app_nil_r, H3, drop_app_length. split; [done|]. intros f. by rewrite elem_of_nil.
Qed.

Lemma net_inv_converges x : net_inv x → n_gap x = false →
  (∀ snap, ptr (n_store x) = Some snap → src_since (hw (n_store x)) (n_src x) = [] → Scores snap = src_table (n_src x)) ∧
  (∀ l, n_conn x = Some l → l_gap l = false → aborted (l_session l) = false →
     let pending := src_since (lastEmittedHw (l_session l)) (n_src x) in
     let ss' := poll_source (λ _, IOk) (n_src x) (l_session l) in
     (length pending ≤ maxInitialBatch)%nat → (∀ e, e ∈ pending → fits maxFrameBytes e ∧ line_fits e = true) →
     (∀ f, f ∈ l_wire l → f ≠ FShutdown ∧ frame_fits f = true) →
     ∃ st' snap',
     deliver_all Unmarshal time_Parse (l_wire l ++ sent (l_session l) ss') (n_store x) = (EndEOF, st') ∧
     ptr st' = Some snap' ∧ Scores snap' = src_table (n_src x) ∧ hw st' = src_version (n_src x)).
Proof.
  intros [Hok Hstore _ _ Hlink] Hg. split; [intros snap Hp; apply caught_up; by apply Hstore|].
  intros [q ss cg] Hl Hc Ha pending ss' Hlen Hfits Hwire. cbn [l_wire l_session l_gap] in *.
  destruct (Hlink _ Hl Hg Hc) as [[snap Hp] Hinv].
  assert (Hov : overflows (lastEmittedHw ss) (n_src x) = false) by (apply bool_decide_eq_false; unfold pending in Hlen; lia).
  pose proof (poll_inv (λ _, IOk) (n_src x) ss q _ cg cg Hok Ha Hov Hinv) as (pos & Hpos & Hlead & Heq).
  destruct Hinv as (p & Hpv & _ & Hpeq). cbn [l_wire l_session] in *. rewrite (Hpeq Ha) in Hpv.
  destruct (poll_sends (n_src x) ss (λ e He, proj1 (Hfits e He)) Ha Hov Hpv) as (Ha' & Hh' & tl & Hsent & Htl).
  fold ss' in Ha', Hh', Hsent, Hlead, Heq. rewrite (Heq Ha'), Hh' in Hlead.
  destruct (deliver_all_leads (n_src x) (n_store x) snap (q ++ sent ss ss') (src_version (n_src x)))
    as (st' & snap' & Hd & Hp' & Hh & Hr); [done|done|by apply Hstore|done| |].
  { apply Forall_app. split; [by apply Forall_forall|]. rewrite Hsent. apply Forall_app. split.
    - apply Forall_fmap, Forall_forall. intros e He. split; [done|]. by apply Hfits.
    - apply Forall_forall. intros f Hf%Htl%list_elem_of_singleton. by subst f. }
  exists st', snap'. split_and!; [done|done| |done]. eapply caught_up; [exact Hr|]. by apply src_since_none.
Qed.

End machine.
End interface.

(** ** The control plane as a source *)

Section control_plane.
Context (Unmarshal : jstr → option json) (time_Parse : jstr → option Z) (numeric43 : number → Z) (tenant : jstr).

(** The decoder reads what [JSON.stringify] prints, as [json_parse] does. *)
Hypothesis Unmarshal_text : ∀ v, clean v = true → Unmarshal (stringify v) = Some v.

Abbreviation rdbl := (readable Unmarshal time_Parse).
Abbreviation since v d := (getEventsSince v (Some tenant) None d).

(** A row of the engine: an id, a score a number can hold, and text. *)
Definition row_fit (r : EngineScore) : Prop :=
  es_principal_id r ≠ [] ∧ 0 ≤ es_score r < 2 ^ 53 ∧ clean (upsert_payload r) = true.

Definition scores_fit (d : db) : Prop :=
  ∀ p r, network_scores d !! p = Some r → p ≠ [] ∧ 0 ≤ ns_score r < 2 ^ 53 ∧ units p = true.

Record cp_ok (d : db) : Prop := {
  cp_log : log_wf d;
  cp_wf : scores_wf d;
  cp_fit : scores_fit d;
  cp_readable : Forall rdbl (sync_events d);
  cp_bound : high_water d < 2 ^ 53
}.

(** What can happen between two looks at the log: a score table is written, a policy
    is replaced, for this tenant or another, or something else is changed.  Version
    numbers stay below 2^53, where JavaScript's integers end. *)
Inductive cp_step : relation db :=
| cp_scores now rows at_ d : Forall row_fit rows → high_water (applyScoreTable now rows at_ d).2 < 2 ^ 53 →
    cp_step d (applyScoreTable now rows at_ d).2
| cp_policy now uuid t u d :
    (∀ r v, (PolicyRepo.replaceActivePolicy numeric43 now uuid t u d).1 = Ok (r, v) →
            clean (PolicyRepo.replace_payload t r) = true) →
    high_water (PolicyRepo.replaceActivePolicy numeric43 now uuid t u d).2 < 2 ^ 53 →
    cp_step d (PolicyRepo.replaceActivePolicy numeric43 now uuid t u d).2
| cp_other d d' : sync_events d' = sync_events d → network_scores d' = network_scores d → cp_step d d'.

(** A response of GET /v1/sync/snapshot that the edge accepts. *)
Definition cp_snapshot (d : db) (snap : EdgeStore.Snapshot) : Prop := ∃ now,
  let s := Snapshot.getSnapshot now tenant d in
  Unmarshal (SnapshotWire.snapshot_text s) = Some (ok_body (SnapshotWire.snapshot_data s)) ∧
  parseSnapshotJSON Unmarshal time_Parse (SnapshotWire.snapshot_text s) = Ok snap.

(** *** Events are readable *)

Lemma upsert_readable v p row now : row_fit row →
  rdbl (mkSyncEvent v (js "score.upsert") p None (upsert_payload row) now).
Proof.
  intros (Hid & Hs & Hc) snap. unfold mutateSnapshot. cbn [se_event_type se_payload].
  rewrite bool_decide_eq_true_2 by done. unfold applyScoreUpsert, unmarshal. rewrite Unmarshal_text by done.
  change (go_struct (upsert_payload row)) with (Ok (upsert_payload row) : result jstr json). cbn [mbind result_bind].
  change (upsert_payload row) with (SnapshotWire.score_json row). rewrite EdgeInv.go_score_json by done. cbn [mbind result_bind].
  rewrite bool_decide_eq_false_2 by done. eexists. split; [done|]. cbn [set_scores Scores].
  change (SnapshotWire.score_json row) with (upsert_payload row). by rewrite edge_apply_upsert.
Qed.

Lemma delete_readable v q p now : p ≠ [] → units p = true →
  rdbl (mkSyncEvent v (js "score.delete") q None (delete_payload p) now).
Proof.
  intros Hp Hu snap. unfold mutateSnapshot. cbn [se_event_type se_payload].
  rewrite (bool_decide_eq_false_2 (js "score.delete" = js "score.upsert")), bool_decide_eq_true_2 by done.
  unfold applyScoreDelete, unmarshal. rewrite Unmarshal_text by (cbn; by rewrite Hu).
  change (go_struct (delete_payload p)) with (Ok (delete_payload p) : result jstr json). cbn [mbind result_bind].
  change (get (delete_payload p) "principal_id") with (JStr p). cbn [go_string mbind result_bind].
  rewrite bool_decide_eq_false_2 by done. eexists. split; [done|]. cbn [set_scores Scores]. by rewrite edge_apply_delete.
Qed.

Lemma policy_readable v t' t r now : clean (PolicyRepo.replace_payload t r) = true →
  rdbl (mkSyncEvent v (js "policy.replace") None t' (PolicyRepo.replace_payload t r) now).
Proof.
  intros Hc snap. unfold mutateSnapshot. cbn [se_event_type se_payload].
  rewrite !(bool_decide_eq_false_2 (js "policy.replace" = _)), bool_decide_eq_true_2 by done.
  unfold unmarshal. rewrite Unmarshal_text by done.
  change (go_struct (PolicyRepo.replace_payload t r)) with (Ok (PolicyRepo.replace_payload t r) : result jstr json).
  cbn [mbind result_bind]. rewrite PolicyInv.edge_reads_event. cbn [mbind result_bind]. by eexists.
Qed.

(** *** Each step extends the log by events that describe it *)

Record extends (d d' : db) : Prop := {
  ex_log : log_wf d';
  ex_wf : scores_wf d';
  ex_fit : scores_fit d';
  ex_events : ∃ evs, sync_events d' = sync_events d ++ evs ∧ Forall rdbl evs ∧
    replay (filter (λ e, visible (Some tenant) e) evs) (loadExistingScores d) = loadExistingScores d'
}.

Lemma extends_of_tracks d d' : tracks d d' → scores_fit d' → Forall rdbl (sync_events d') → extends d d'.
Proof.
  intros [Hl Hw _ (evs & He & Hr & Hn)] Hf HF. split; try done. exists evs. split; [done|].
  rewrite He, Forall_app in HF. destruct HF as [_ HF]. split; [done|]. rewrite filter_all; [done|].
  intros e Hin. rewrite Forall_forall in Hn. rewrite Is_true_true. apply visible_iff. auto.
Qed.

(** The loops of the writer keep scores fit and events readable. *)
Definition writer_inv (d : db) : Prop := scores_fit d ∧ Forall rdbl (sync_events d).

Lemma put_row_inv now at_ row d : row_fit row → writer_inv d → writer_inv (put_row now at_ row d).
Proof.
  intros Hr [Hf HF]. split; cbn.
  - pose proof Hr as (Hid & Hs & Hc). cbn in Hc. apply andb_true_iff in Hc as [Hu _].
    intros p r. simpl. intros [[<- <-]|[_ H]]%lookup_insert_Some; [done|by apply Hf].
  - apply Forall_app. split; [done|]. apply Forall_singleton. by apply upsert_readable.
Qed.

Lemma drop_row_inv now p d : p ≠ [] → units p = true → writer_inv d → writer_inv (drop_row now p d).
Proof.
  intros Hp Hu [Hf HF]. split; cbn.
  - intros q r. simpl. intros [_ H]%lookup_delete_Some. by apply Hf.
  - apply Forall_app. split; [done|]. apply Forall_singleton. by apply delete_readable.
Qed.

Lemma applyScoreTable_inv now rows at_ d : Forall row_fit rows → writer_inv d →
  writer_inv (applyScoreTable now rows at_ d).2.
Proof.
  intros Hrows Hd. destruct (applyScoreTable now rows at_ d) as [[[u k]|e] d'] eqn:E; simpl.
  2:{ by apply withTransaction_throw in E as ->. }
  apply applyScoreTable_Ok in E as (d1 & H1 & H2). rewrite Forall_forall in Hrows.
  eapply (for_fold_invariant (λ _ d, writer_inv d)); [|eapply (for_fold_invariant (λ _ d, writer_inv d)); [|exact Hd|exact H1]|exact H2].
  - intros n x p n' x' Hp Hx Hdel. rewrite delete_row_eq in Hdel. case_bool_decide; injection Hdel as <- <-; [done|].
    apply elem_of_keys in Hp as [r Hr]. unfold loadExistingScores in Hr. apply lookup_fmap_Some in Hr as (row & _ & Hr).
    destruct Hd as [Hf _]. destruct (Hf _ _ Hr) as (? & _ & ?). by apply drop_row_inv.
  - intros n x row n' x' Hrow Hx Hap%apply_row_Ok. destruct (is_changed _ row).
    + destruct Hap as (_ & -> & _). apply put_row_inv; auto.
    + by destruct Hap as [_ ->].
Qed.

Lemma policy_extends now uuid t u d :
  cp_ok d → (∀ r v, (PolicyRepo.replaceActivePolicy numeric43 now uuid t u d).1 = Ok (r, v) →
            clean (PolicyRepo.replace_payload t r) = true) →
  extends d (PolicyRepo.replaceActivePolicy numeric43 now uuid t u d).2.
Proof.
  intros [Hl Hw Hf HF _] Hc.
  destruct (PolicyRepo.replaceActivePolicy numeric43 now uuid t u d) as [[[r v]|e] d'] eqn:E; cbn [fst snd] in *.
  2:{ apply withTransaction_throw in E as ->. split; try done. exists []. by rewrite app_nil_r. }
  specialize (Hc r v eq_refl). apply PolicyInv.replaceActivePolicy_Ok in E as (d1 & Hput & Hv & _ & ->).
  assert (Hd1 : sync_events d1 = sync_events d ∧ network_scores d1 = network_scores d).
  { revert Hput. unfold PolicyRepo.put_policy. repeat case_match; try done; by intros [= _ <-]. }
  destruct Hd1 as [He Hn]. set (ev := mkSyncEvent v _ _ _ _ _).
  assert (Hload : ∀ x, loadExistingScores (set_sync_events x d1) = loadExistingScores d)
    by (intros x; unfold loadExistingScores; cbn; by rewrite Hn).
  split.
  - eapply (log_wf_append d); [done|cbn; by rewrite He|]. change (v = high_water d + 1). rewrite Hv. unfold high_water, versions. by rewrite He.
  - intros p x. cbn. rewrite Hn. apply Hw.
  - intros p x. cbn. rewrite Hn. apply Hf.
  - exists [ev]. split; [cbn; by rewrite He|]. split; [apply Forall_singleton; by apply policy_readable|].
    rewrite Hload, filter_cons, filter_nil. by case_decide.
Qed.

Lemma cp_step_extends d d' : cp_ok d → cp_step d d' → extends d d' ∧ high_water d' < 2 ^ 53.
Proof.
  intros Hok Hst. destruct Hst as [now rows at_ d Hr Hb|now uuid t u d Hc Hb|d d' He Hn].
  - split; [|done]. destruct Hok as [Hl Hw Hf HF _].
    destruct (applyScoreTable_inv now rows at_ d Hr (conj Hf HF)) as [Hf' HF'].
    apply extends_of_tracks; [|done|done]. by apply applyScoreTable_tracks.
  - split; [|done]. by apply policy_extends.
  - destruct Hok as [Hl Hw Hf HF Hb]. unfold high_water, versions. rewrite He. split; [|exact Hb].
    assert (Hload : loadExistingScores d' = loadExistingScores d) by (unfold loadExistingScores; by rewrite Hn).
    split; [unfold log_wf, versions in *; by rewrite He|unfold scores_wf; by rewrite Hn|unfold scores_fit; by rewrite Hn|].
    exists []. by rewrite He, app_nil_r, Hload.
Qed.

(** *** The laws of the interface *)

Lemma cp_step_ok d d' : cp_ok d → cp_step d d' → cp_ok d'.
Proof.
  intros Hok Hst. destruct (cp_step_extends d d' Hok Hst) as [[Hl Hw Hf (evs & He & HF & _)] Hb].
  split; try done. rewrite He. apply Forall_app. by split; [apply cp_readable|].
Qed.

Lemma cp_grows d d' : cp_ok d → cp_step d d' →
  high_water d ≤ high_water d' ∧ ∀ v, v ≤ high_water d → since v d' = since v d ++ since (high_water d) d'.
Proof.
  intros Hok Hst. destruct (cp_step_extends d d' Hok Hst) as [[Hl _ _ (evs & He & _)] _].
  pose proof (cp_log d Hok) as Hd. assert (Hpre : sync_events d `prefix_of` sync_events d') by (by exists evs).
  split; [by destruct (selected_extension (Some tenant) 0 d d' Hd Hl Hpre (max_or_zero_nonneg _))|].
  intros v Hv. rewrite !(getEventsSince_eq_filter v) by done.
  by destruct (selected_extension (Some tenant) v d d' Hd Hl Hpre Hv).
Qed.

Lemma cp_describes d d' : cp_ok d → cp_step d d' →
  replay (since (high_water d) d') (loadExistingScores d) = loadExistingScores d'.
Proof.
  intros Hok Hst. destruct (cp_step_extends d d' Hok Hst) as [[Hl _ _ (evs & He & _ & Hr)] _].
  by rewrite (events_since_appended _ d d' evs) by (by auto using cp_log).
Qed.

Lemma since_none d : cp_ok d → since (high_water d) d = [].
Proof.
  intros Hok. rewrite (events_since_appended _ d d []) by (by rewrite ?app_nil_r; auto using cp_log). done.
Qed.

Lemma since_next v d e l : cp_ok d → since v d = e :: l →
  v < se_sync_version e ≤ high_water d ∧ since (se_sync_version e) d = l.
Proof.
  intros Hok Hs. pose proof (cp_log d Hok) as Hl.
  assert (Hin : e ∈ since v d) by (rewrite Hs; by left). apply elem_of_getEventsSince in Hin as (Hin & Hv & _).
  split; [split; [done|by apply versions_le_high_water]|].
  assert (Hlt : StronglySorted Z.lt (se_sync_version <$> since v d)).
  { rewrite getEventsSince_eq_filter by done. apply sorted_versions_lt.
    - by apply NoDup_fmap_filter, versions_NoDup.
    - by apply StronglySorted_filter', log_sorted. }
  rewrite Hs in Hlt. cbn [fmap list_fmap] in Hlt. apply StronglySorted_inv in Hlt as [_ Hall]. rewrite Forall_fmap, Forall_forall in Hall.
  assert (Hsel : since (se_sync_version e) d = filter (λ x, se_sync_version e < se_sync_version x) (since v d)).
  { rewrite !getEventsSince_eq_filter by done. rewrite list_filter_filter. apply filter_iff_in.
    intros x _. unfold selected. rewrite !Is_true_true, !andb_true_iff, !Z.ltb_lt. naive_solver lia. }
  rewrite Hsel, Hs, filter_cons, decide_False by lia. apply filter_all. intros x Hx. by apply Hall.
Qed.

Lemma since_readable v d : cp_ok d → Forall rdbl (since v d).
Proof.
  intros Hok. apply Forall_forall. intros e (He & _)%elem_of_getEventsSince.
  pose proof (cp_readable d Hok) as HF. rewrite Forall_forall in HF. auto.
Qed.

Lemma snapshot_exact d snap : cp_ok d → cp_snapshot d snap →
  Scores snap = loadExistingScores d ∧ HighWaterVersion snap = high_water d.
Proof.
  intros Hok (now & Hu & Hp). destruct Hok as [_ Hw Hf _ Hb].
  assert (Hsane : EdgeInv.scores_sane d) by (intros p r Hr; by destruct (Hf p r Hr) as (? & ? & _)).
  by eapply EdgeInv.accepted_contents.
Qed.

#[global] Instance cp_source : SyncSource Unmarshal time_Parse db := {
  src_ok := cp_ok;
  src_step := cp_step;
  src_table := loadExistingScores;
  src_version := high_water;
  src_since := λ v d, since v d;
  src_snapshot := cp_snapshot;
  src_step_ok := cp_step_ok;
  src_version_nonneg := λ d _, max_or_zero_nonneg _;
  src_version_mono := λ d d' Hok Hst, proj1 (cp_grows d d' Hok Hst);
  src_since_grows := λ d d' v Hok Hst, proj2 (cp_grows d d' Hok Hst) v;
  src_since_table := cp_describes;
  src_since_none := since_none;
  src_since_next := λ d v e l, since_next v d e l;
  src_since_readable := λ d v, since_readable v d;
  src_snapshot_exact := snapshot_exact
}.

End control_plane.

(** ** The machine's sessions are the control plane's *)

Lemma cp_admission Unmarshal time_Parse numeric43 t Hu mb mf enq cursor d :
  let I := cp_source Unmarshal time_Parse numeric43 t Hu in
  let b := getInitialBatchWithHighWater cursor (Some t) mb d in
  ib_backlogExceeded b = overflows Unmarshal time_Parse (H := I) mb cursor d ∧
  (ib_backlogExceeded b = false →
   open_session Unmarshal time_Parse (H := I) mf enq cursor d = start_session mf enq (ib_events b) (ib_highWater b)).
Proof.
  cbv zeta. unfold overflows, open_session, getInitialBatchWithHighWater, fetchEventsAndHighWaterInSnapshot.
  rewrite getEventsSince_limited. cbn [src_since src_version cp_source ib_backlogExceeded ib_events ib_highWater].
  rewrite length_take. split; [apply bool_decide_ext; lia|].
  intros Hb. rewrite Hb. apply bool_decide_eq_false in Hb. by rewrite take_ge by lia.
Qed.

Lemma cp_poll Unmarshal time_Parse numeric43 t Hu mb mf every enq d ss : aborted ss = false →
  poll_source Unmarshal time_Parse (H := cp_source Unmarshal time_Parse numeric43 t Hu) mb mf every enq d ss =
  poll (Some t) mb mf every enq d ss.
Proof.
  intros Ha. unfold poll_source, poll. rewrite Ha. unfold getPollBatchWithHighWater, fetchEventsAndHighWaterInSnapshot.
  by rewrite getEventsSince_limited.
Qed.

(** ** Properties *)

(** C1. Edges converge to the control plane. From a well-formed database, take any
    interleaving of the control plane's work with snapshot requests, connections, polls
    (with any answers of the write queue), shutdowns, deliveries, lost connections, saves, crashes and restarts of an edge. Let
    the edge's store have no gap: since its last snapshot it took no frame of a
    connection with a poll that found more than [maxInitialBatch] events, which loses
    events. Then (1) if no event visible to the tenant is above the edge's cursor, its
    score table is the control plane's; (2) if it is connected to a live session without
    such a poll, no shutdown is on its way, the events above the session's position fit
    one batch, the frame limit and, like those on their way, the edge's line limit, and
    the write queue takes them, then delivering what is on its way and the next poll
    makes its table the control plane's and its cursor the high-water mark. Assumed:
    the edge decodes what [JSON.stringify] wrote. *)
Theorem edge_replica_converges Unmarshal time_Parse numeric43 t mb mf every d x
    (Hu : ∀ v, clean v = true → Unmarshal (stringify v) = Some v) :
  cp_ok Unmarshal time_Parse d →
  rtc (nstep Unmarshal time_Parse mb mf every (H := cp_source Unmarshal time_Parse numeric43 t Hu)) (fresh d) x →
  n_gap x = false →
  (∀ snap, ptr (n_store x) = Some snap → getEventsSince (hw (n_store x)) (Some t) None (n_src x) = [] →
     Scores snap = loadExistingScores (n_src x)) ∧
  (∀ l, n_conn x = Some l → l_gap l = false → aborted (l_session l) = false →
     let pending := getEventsSince (lastEmittedHw (l_session l)) (Some t) None (n_src x) in
     let ss' := poll (Some t) mb mf every (λ _, IOk) (n_src x) (l_session l) in
     (length pending ≤ mb)%nat → (∀ e, e ∈ pending → fits mf e ∧ line_fits e = true) →
     (∀ f, f ∈ l_wire l → f ≠ FShutdown ∧ frame_fits f = true) →
     ∃ st' snap',
     deliver_all Unmarshal time_Parse (l_wire l ++ drop (length (out (l_session l))) (out ss')) (n_store x) = (EndEOF, st') ∧
     ptr st' = Some snap' ∧ Scores snap' = loadExistingScores (n_src x) ∧ hw st' = high_water (n_src x)).
Proof.
  intros Hok Hr Hg. pose (I := cp_source Unmarshal time_Parse numeric43 t Hu).
  destruct (net_inv_converges Unmarshal time_Parse (H := I) mb mf every x
    (net_reachable_inv Unmarshal time_Parse (H := I) mb mf every d x Hok Hr) Hg) as [H1 H2].
  split; [exact H1|]. intros l Hl Hc Ha. pose proof (H2 l Hl Hc Ha) as H3. cbv zeta in H3 |- *.
  unfold I in H3. rewrite cp_poll in H3 by done. exact H3.
Qed.

(** ** Witness: an edge bootstraps, connects, the scores change, and a poll is on
    its way.  The batch holds two events, which is what a change of table sends. *)

Definition loaded : EdgeStore.Snapshot :=
  mkSnap 1 {[js "p2" := example_row "p2" 40]} ∅ None.

Lemma loaded_snapshot : cp_snapshot json_parse parse_iso (js "t") example_db loaded.
Proof. exists 5. cbv zeta. split; [apply json_parse_stringify|]; vm_compute; reflexivity. Qed.

Definition rescored : db := (applyScoreTable 9 [example_row "p1" 70] 8 example_db).2.

Lemma example_cp_ok : cp_ok json_parse parse_iso example_db.
Proof.
  split; [exact (proj1 example_db_wf)|exact (proj2 example_db_wf)| | |vm_compute; reflexivity].
  - intros p r H. cbn in H. apply lookup_singleton_Some in H as [<- <-]. split; [done|]. split; [simpl; lia|done].
  - apply Forall_singleton. apply upsert_readable; [apply json_parse_stringify|].
    split; [done|]. split; [simpl; lia|vm_compute; reflexivity].
Qed.

(** The session the edge's connection starts: nothing but the cursor frame. *)
Definition example_session : session := start_session 1000 (λ _, IOk) [] 1.

Lemma edge_replica_converges_witness :
  ∃ st' snap',
    deliver_all json_parse parse_iso
      ([FCursor 1] ++ drop 1 (out (poll (Some (js "t")) 2 1000 10 (λ _, IOk) rescored example_session)))
      (ApplySnapshot 6 loaded NewStore) = (EndEOF, st') ∧
    ptr st' = Some snap' ∧ Scores snap' = {[js "p1" := example_row "p1" 70]} ∧ hw st' = 3.
Proof.
  pose (I := cp_source json_parse parse_iso PolicyInv.round_thousandths (js "t") json_parse_stringify).
  assert (Hr : rtc (nstep json_parse parse_iso 2 1000 10 (H := I)) (fresh example_db)
                 (mkNet rescored (ApplySnapshot 6 loaded NewStore) false None None
                    (Some (mkLink [FCursor 1] example_session false)))).
  { eapply rtc_l; [apply (n_request _ _ _ _ _ _ _ _ _ _ _ loaded); exact loaded_snapshot|].
    eapply rtc_l; [apply (n_fetch _ _ _ _ _ 6)|].
    eapply rtc_l; [apply (n_connect _ _ _ _ _ (λ _, IOk) _ _ _ _ _ loaded); [reflexivity|vm_compute; reflexivity]|].
    eapply rtc_l; [apply n_control; apply (cp_scores PolicyInv.round_thousandths 9 [example_row "p1" 70] 8 example_db)|].
    - apply Forall_singleton. split; [done|]. split; [simpl; lia|vm_compute; reflexivity].
    - vm_compute. reflexivity.
    - apply rtc_refl. }
  destruct (edge_replica_converges json_parse parse_iso PolicyInv.round_thousandths (js "t") 2 1000 10 example_db
    _ json_parse_stringify example_cp_ok Hr eq_refl) as [_ H].
  destruct (H _ eq_refl eq_refl eq_refl) as (st' & snap' & H1 & H2 & H3 & H4); cbn [n_src n_store] in *.
  - vm_compute. lia.
  - intros e He. split; [apply Z.leb_le|]; revert e He; apply Forall_forall;
      repeat (apply Forall_cons_2 || apply Forall_nil_2); vm_compute; reflexivity.
  - intros f ->%list_elem_of_singleton. done.
  - exists st', snap'. split; [exact H1|]. split; [exact H2|]. split; [rewrite H3; vm_compute; reflexivity|].
    rewrite H4. vm_compute. reflexivity.
Defined.

End Replication.
