(* ===== verification/SseLifecycle.v ===== *)
(** * The life of an SSE connection

    [src/control-plane/src/domains/sync/sseSession.ts] as an event-driven
    process: what [SseSession] treats as a run to completion is here one resumable
    computation next to the handlers that run between its [await]s (the request's
    'close', the two interval timers, the shutdown of the registry, the socket's
    events), on the real write queue of [SseQueue].  The registry is seen from one
    connection: whether it accepts, and whether this connection is in it.

    [pc] is the [await] at which [runSseSession] is suspended.  A promise that
    settles is an event; an event that cannot happen in a state leaves it as it is.
    A call suspended in [waitForSpace] may be woken at any time, since it tests the
    queue again; that it is woken is [queue_never_stalls]. *)

From stdpp Require Import base gmap strings sorting numbers list.
From Stdlib Require Import ZArith Lia.
From S2P Require Import Prelude Json Errors Db SyncLog SseQueue SseSession.

Module SseLifecycle.
Import SseQueue SseSession.

Inductive point :=
| Resolving                                              (** [await resolveEdgeNodeForApiKey] *)
| InitialEvent (ev : SyncEvent) (rest : list SyncEvent)  (** no space for [ev] *)
| InitialCursor
| Sleeping
| Fetching                                               (** [await getPollBatchWithHighWater] *)
| PollEvent (ev : SyncEvent) (rest : list SyncEvent) (highWater : Z)
| PollPersist (rest : list SyncEvent) (highWater : Z)    (** [await persistCursor()] in the loop *)
| PollCursor (highWater : Z)
| Finishing                                              (** [await persistCursor()] of its own [finish] *)
| Done.

Record life := mkLife {
  pc : point;
  queue : SseWriteQueue;
  aborted : bool;              (** [abort.signal.aborted] *)
  cleaned : bool;
  heartbeatTimer : bool;
  persistTimer : bool;
  edgeNodeId : option jstr;
  lastEmittedHw : Z;
  durableEventsWritten : Z;
  accepting : bool;            (** the registry's flag *)
  registered : bool;           (** the connection is in the registry *)
  listening : bool;            (** the request's 'close' has its handler *)
  closing : bool;              (** the handler's [finish] awaits [persistCursor] *)
  pings : nat;                 (** heartbeats that wait for space *)
  upserts : list Z             (** cursors given to [upsertSyncCursor] *)
}.

Definition set_pc v '(mkLife _ q a c h p e l d ac r li cl pi u) := mkLife v q a c h p e l d ac r li cl pi u.
Definition set_queue v '(mkLife pc _ a c h p e l d ac r li cl pi u) := mkLife pc v a c h p e l d ac r li cl pi u.
Definition abort '(mkLife pc q _ c h p e l d ac r li cl pi u) := mkLife pc q true c h p e l d ac r li cl pi u.
Definition set_cleaned '(mkLife pc q a _ h p e l d ac r li cl pi u) := mkLife pc q a true h p e l d ac r li cl pi u.
Definition set_timers v '(mkLife pc q a c _ _ e l d ac r li cl pi u) := mkLife pc q a c v v e l d ac r li cl pi u.
Definition set_edgeNodeId v '(mkLife pc q a c h p _ l d ac r li cl pi u) := mkLife pc q a c h p v l d ac r li cl pi u.
Definition set_lastEmittedHw v '(mkLife pc q a c h p e _ d ac r li cl pi u) := mkLife pc q a c h p e v d ac r li cl pi u.
Definition set_durable v '(mkLife pc q a c h p e l _ ac r li cl pi u) := mkLife pc q a c h p e l v ac r li cl pi u.
Definition stop_accepting '(mkLife pc q a c h p e l d _ r li cl pi u) := mkLife pc q a c h p e l d false r li cl pi u.
Definition set_registered v '(mkLife pc q a c h p e l d ac _ li cl pi u) := mkLife pc q a c h p e l d ac v li cl pi u.
Definition listen '(mkLife pc q a c h p e l d ac r _ cl pi u) := mkLife pc q a c h p e l d ac r true cl pi u.
Definition set_closing v '(mkLife pc q a c h p e l d ac r li _ pi u) := mkLife pc q a c h p e l d ac r li v pi u.
Definition set_pings v '(mkLife pc q a c h p e l d ac r li cl _ u) := mkLife pc q a c h p e l d ac r li cl v u.
Definition set_upserts v '(mkLife pc q a c h p e l d ac r li cl pi _) := mkLife pc q a c h p e l d ac r li cl pi v.

(** A session that has not run yet. *)
Definition fresh (accepting : bool) : life :=
  mkLife Resolving new_queue false false false false None (-1) 0 accepting false false false 0 [].

Lemma fold_max_choice cs m : m ≤ fold_left Z.max cs m ∧ (fold_left Z.max cs m = m ∨ fold_left Z.max cs m ∈ cs).
Proof.
  revert m. induction cs as [|c cs IH]; intros m; simpl; [split; [lia|auto]|].
  destruct (IH (Z.max m c)) as [H1 [H2|H2]]; (split; [lia|]); [|right; by right].
  destruct (Z.max_spec m c) as [[? E]|[? E]]; rewrite E in *; [right; rewrite H2; by left|by left].
Qed.

Section life.
Context (opts : SseWriteQueueOptions) (write : nat → wres)
        (tenantId apiKeyId : option jstr) (cursorPersistEveryEvents : Z)
        (initialEvents : list SyncEvent) (initialHighWater : Z).

Definition truthy_str (s : option jstr) : bool := match s with Some (_ :: _) => true | _ => false end.

(** [persistCursor] up to its [await]. *)
Definition persistCursor (s : life) : life :=
  if truthy_str tenantId && truthy_str (edgeNodeId s) then
    match writtenCursor (queue s) with
    | Some written => set_upserts (upserts s ++ [written]) s
    | None => s
    end
  else s.

Definition cleanup (s : life) : life := set_queue (close (queue s)) (set_timers false s).

(** [res.end()], and the return of [runSseSession]. *)
Definition end_response (s : life) : life := set_pc Done (set_queue (set_ended true (queue s)) s).

(** The two halves of [finish]. *)
Definition finish_begin (s : life) : life := persistCursor (abort (set_cleaned s)).
Definition finish_end (s : life) : life := cleanup (set_registered false s).

(** [await finish()] in the session, on the way to [res.end()]. *)
Definition finish_main (s : life) : life :=
  if cleaned s then end_response s else set_pc Finishing (finish_begin s).

(** [enqueueIncremental] from the top of its loop; [None]: it awaits space.  (A
    frame answered 'full' is within the size limits, and 'full' is the negation of
    the test of [waitForSpace], which therefore waits.) *)
Definition try_send (f : jstr) (c : option Z) (s : life) : option inc_result * life :=
  if aborted s then (Some IClosed, s)
  else
    let '(r, q) := enqueueData opts f c (queue s) in
    let s := set_queue q s in
    match r with
    | ok => (Some IOk, s)
    | oversized => (Some IOversized, s)
    | closed_ => (Some IClosed, s)
    | full => (None, s)
    end.

(** [while (!abort.signal.aborted) { await sleep(...)], or the [finally]. *)
Definition loop_head (s : life) : life := if aborted s then finish_main s else set_pc Sleeping s.

Definition start_loop (s : life) : life :=
  loop_head (set_timers true (set_lastEmittedHw initialHighWater s)).

Definition initial_cursor (s : life) : life :=
  match try_send (cursorFrame initialHighWater) (Some initialHighWater) s with
  | (Some IOk, s) => start_loop s
  | (Some _, s) => finish_main s
  | (None, s) => set_pc InitialCursor s
  end.

Definition event_oversized (ev : SyncEvent) : bool := maxFrameBytes opts <? byteLength (eventFrame ev).

(** The loop over the initial events. *)
Fixpoint initial_events (events : list SyncEvent) (s : life) : life :=
  match events with
  | [] => initial_cursor s
  | ev :: rest =>
      if event_oversized ev then finish_main s
      else match try_send (eventFrame ev) (Some (se_sync_version ev)) s with
           | (Some IOk, s) => initial_events rest (set_durable (durableEventsWritten s + 1) s)
           | (Some _, s) => finish_main s
           | (None, s) => set_pc (InitialEvent ev rest) s
           end
  end.

(** From [tryRegister] on.  A refused session ends its response. *)
Definition register_session (s : life) : life :=
  if accepting s then initial_events initialEvents (listen (set_registered true s))
  else end_response (cleanup s).

(** The session up to its first [await]. *)
Definition start (accepting : bool) : life :=
  if truthy_str tenantId && truthy_str apiKeyId then fresh accepting else register_session (fresh accepting).

Definition poll_cursor (highWater : Z) (s : life) : life :=
  if lastEmittedHw s <? highWater then
    match try_send (cursorFrame highWater) (Some highWater) s with
    | (Some IOk, s) => loop_head (set_lastEmittedHw highWater s)
    | (Some _, s) => finish_main (abort s)
    | (None, s) => set_pc (PollCursor highWater) s
    end
  else loop_head s.

(** The loop over the events of a poll; [break] goes on to the cursor frame. *)
Fixpoint poll_events (events : list SyncEvent) (highWater : Z) (s : life) : life :=
  match events with
  | [] => poll_cursor highWater s
  | ev :: rest =>
      if event_oversized ev then
        poll_cursor highWater (abort (set_queue (snd (enqueueControl SseRegistry.shutdown_frame (queue s))) s))
      else match try_send (eventFrame ev) (Some (se_sync_version ev)) s with
           | (Some IOk, s) =>
               let s := set_durable (durableEventsWritten s + 1) s in
               if cursorPersistEveryEvents <=? durableEventsWritten s
               then set_pc (PollPersist rest highWater) (persistCursor (set_durable 0 s))
               else poll_events rest highWater s
           | (Some _, s) => poll_cursor highWater (abort s)
           | (None, s) => set_pc (PollEvent ev rest highWater) s
           end
  end.

(** ** Events *)

Inductive levent :=
| LResolved (r : option jstr)                      (** [None]: it threw *)
| LAwake                                           (** the awaited promise of the session settles *)
| LSleepDone                                       (** the timer of [sleep] fires; an abort cleared it *)
| LFetched (r : option (list SyncEvent * Z))       (** [None]: the query threw *)
| LRequestClose | LClosePersisted
| LHeartbeat | LPing | LPersistTick
| LMicrotask | LDrain | LSlowTimer | LResponseClose
| LShutdown | LShutdownEnd.

Definition send_ping (s : life) : life :=
  match try_send (formatSseComment (js "ping")) None s with
  | (None, s) => set_pings (S (pings s)) s
  | (Some _, s) => s
  end.

(** The session goes on after an [await] that needs no value. *)
Definition awake (s : life) : life :=
  match pc s with
  | InitialEvent ev rest => initial_events (ev :: rest) s
  | InitialCursor => initial_cursor s
  | Sleeping => if aborted s then finish_main s else s
  | PollEvent ev rest hw => poll_events (ev :: rest) hw s
  | PollPersist rest hw => poll_events rest hw s
  | PollCursor hw => poll_cursor hw s
  | Finishing => end_response (finish_end s)
  | Resolving | Fetching | Done => s
  end.

Definition lstep (e : levent) (s : life) : life :=
  match e with
  | LResolved r =>
      match pc s with
      | Resolving => register_session (match r with Some id => set_edgeNodeId (Some id) s | None => s end)
      | _ => s
      end
  | LAwake => awake s
  | LSleepDone => match pc s with Sleeping => if aborted s then s else set_pc Fetching s | _ => s end
  | LFetched r =>
      match pc s, r with
      | Fetching, Some (events, hw) => poll_events events hw s
      | Fetching, None => finish_main s
      | _, _ => s
      end
  | LRequestClose => if listening s && negb (cleaned s) then set_closing true (finish_begin s) else s
  | LClosePersisted => if closing s then finish_end (set_closing false s) else s
  | LHeartbeat => if heartbeatTimer s then send_ping s else s
  | LPing => match pings s with O => s | S n => send_ping (set_pings n s) end
  | LPersistTick => if persistTimer s then persistCursor s else s
  | LMicrotask => set_queue (step opts write EvMicrotask (queue s)) s
  | LDrain => set_queue (step opts write EvDrain (queue s)) s
  | LSlowTimer => set_queue (step opts write EvSlowTimer (queue s)) s
  | LResponseClose => set_queue (step opts write EvClose (queue s)) s
  | LShutdown =>
      let s := stop_accepting s in
      if registered s then set_queue (snd (enqueueControl SseRegistry.shutdown_frame (queue s))) s else s
  | LShutdownEnd =>
      if negb (accepting s) && registered s
      then set_registered false (cleanup (set_queue (close (queue s)) (abort s))) else s
  end.

Definition lrun (es : list levent) (s : life) : life := fold_left (λ s e, lstep e s) es s.

(** ** What an operation of the queue never undoes *)

Record queue_le (q q' : SseWriteQueue) : Prop := {
  ql_closed : closed q = true → closed q' = true;
  ql_ended : ended q = true → ended q' = true;
  ql_wire : wire q `prefix_of` wire q' }.

#[local] Instance queue_le_refl : Reflexive queue_le.
Proof. by split. Qed.

#[local] Instance queue_le_trans : Transitive queue_le.
Proof. intros q1 q2 q3 [] []. split; auto. by etrans. Qed.

Lemma pump_body_ended q : ended (snd (pump_body write q)) = ended q.
Proof.
  destruct q as [d b i co p cl w s l m ls rs wi e].
  unfold pump_body, safeWrite, backpressure, armSlowTimer, close, emit_wake.
  repeat (case_match; simplify_eq; simpl in *); done.
Qed.

Lemma pump_while_ended f q q' : pump_while write f q = Some q' → ended q' = ended q.
Proof.
  revert q. induction f as [|f IH]; intros q; simpl; [done|].
  destruct (_ || _); [by intros [= ->]|]. pose proof (pump_body_ended q).
  destruct (pump_body write q) as [[] q1]; simpl in *; [|by intros [= ->]]. intros ?%IH. congruence.
Qed.

Lemma pump_fuel_ended f q q' : pump_fuel write f q = Some q' → ended q' = ended q.
Proof.
  revert q. induction f as [|f IH]; intros q; simpl; [done|].
  destruct (_ || _); [by intros [= ->]|].
  destruct (pump_while _ _ _) as [q1|] eqn:E; [|done]. apply pump_while_ended in E.
  replace (ended (set_pumping true q)) with (ended q) in E by (by destruct q).
  destruct q1; simpl in *. destruct (_ && _); [|by intros [= <-]]. intros ?%IH. simpl in *. congruence.
Qed.

Lemma pump_le q : queue_le q (pump write q).
Proof.
  unfold pump.
  assert (Hcl : closed q = true → closed (default q (pump_fuel write (pump_bound q) q)) = true).
  { intros Hc. unfold pump_bound. rewrite Nat.add_comm. simpl. rewrite Hc, orb_true_r. done. }
  destruct (pump_fuel write (pump_bound q) q) as [q'|] eqn:E; simpl in *; [|done].
  split; [done|by rewrite (pump_fuel_ended _ _ _ E)|by apply pump_fuel_wire in E].
Qed.

(** Operations that leave these fields alone. *)
Lemma same_le q q' : closed q' = closed q → ended q' = ended q → wire q' = wire q → queue_le q q'.
Proof. intros H1 H2 H3. split; [by rewrite H1|by rewrite H2|by rewrite H3]. Qed.

Lemma close_le q : queue_le q (close q) ∧ closed (close q) = true.
Proof. unfold close. destruct q as [d b i co p [] w s l m ls rs wi e]; simpl; repeat split; done. Qed.

Lemma enqueueData_le f c q : queue_le q (snd (enqueueData opts f c q)).
Proof.
  unfold enqueueData, schedulePump. destruct q as [d b i co p cl w s l m ls rs wi e]; simpl.
  repeat (case_match; simpl); by apply same_le.
Qed.

Lemma enqueueControl_le f q : queue_le q (snd (enqueueControl f q)).
Proof.
  unfold enqueueControl, schedulePump. destruct q as [d b i co p cl w s l m ls rs wi e]; simpl.
  repeat (case_match; simpl); by apply same_le.
Qed.

Lemma socket_le e q : e ∈ [EvMicrotask; EvDrain; EvSlowTimer; EvClose] → queue_le q (step opts write e q).
Proof.
  intros He. set_unfold in He. destruct He as [-> |[-> |[-> |[-> |[]]]]]; simpl.
  - destruct (microtasks q) as [|n]; [done|]. etrans; [|apply pump_le]. by destruct q; apply same_le.
  - unfold on_drain. etrans; [|apply pump_le]. by destruct q; apply same_le.
  - destruct (slowTimer q); [|done]. unfold slow_fired. etrans; [|].
    + etrans; [|apply (proj1 (close_le (set_slowTimer false q)))]. by destruct q; apply same_le.
    + destruct (close _); by split.
  - apply close_le.
Qed.

(** ** Invariants *)

(** What the session has persisted went out on the socket. *)
Definition upserts_delivered (s : life) : Prop :=
  ∀ c, c ∈ upserts s → ∃ i, i ∈ delivered (wire (queue s)) ∧ cursor i = Some c.

Definition released (s : life) : Prop :=
  registered s = false ∧ heartbeatTimer s = false ∧ persistTimer s = false ∧ closed (queue s) = true.

(** While [runSseSession] runs between two [await]s, after the registration. *)
Record run_inv (s : life) : Prop := {
  ri_listening : listening s = true;
  ri_queue : queue_inv opts (queue s);
  ri_gone : registered s = false → aborted s = true ∧ released s;
  ri_cleaned : cleaned s = true → aborted s = true;
  ri_closing : closing s = true → cleaned s = true;
  ri_finished : cleaned s = true → closing s = false → registered s = false;
  ri_upserts : upserts_delivered s }.

(** Between two events. *)
Record life_inv (s : life) : Prop := {
  li_queue : queue_inv opts (queue s);
  li_before : listening s = false →
    registered s = false ∧ heartbeatTimer s = false ∧ persistTimer s = false ∧
    cleaned s = false ∧ closing s = false ∧ (pc s = Resolving ∨ pc s = Done ∧ closed (queue s) = true);
  li_gone : listening s = true → registered s = false → aborted s = true ∧ released s;
  li_cleaned : cleaned s = true → aborted s = true;
  li_closing : closing s = true → cleaned s = true;
  li_finishing : pc s = Finishing → cleaned s = true ∧ closing s = false;
  li_finished : cleaned s = true → closing s = false → pc s ≠ Finishing → registered s = false;
  li_done : pc s = Done → ended (queue s) = true ∧ (listening s = true → cleaned s = true);
  li_resolving : pc s = Resolving → listening s = false;
  li_upserts : upserts_delivered s }.

(** Field by field, for a state and its invariant. *)
Ltac by_field s := destruct s; unfold released, upserts_delivered in *; simpl in *;
  split; unfold released, upserts_delivered; simpl; try done; try solve [intuition (first [congruence|auto])].

Lemma upserts_mono q s : upserts_delivered s → queue_le (queue s) q → upserts_delivered (set_queue q s).
Proof.
  intros Hu [_ _ [l Hl]] c Hc. destruct (Hu c) as (i & Hi & ?); [by destruct s|]. exists i. split; [|done].
  destruct s; simpl in *. rewrite Hl, delivered_app. apply elem_of_app. by left.
Qed.

Lemma persistCursor_spec s :
  queue_inv opts (queue s) → upserts_delivered s →
  ∃ u, persistCursor s = set_upserts u s ∧ upserts_delivered (set_upserts u s).
Proof.
  intros (HI & _) Hu. unfold persistCursor.
  assert (Hs : s = set_upserts (upserts s) s) by (by destruct s).
  destruct (_ && _); [|exists (upserts s); by rewrite <- Hs].
  destruct (writtenCursor (queue s)) as [w|] eqn:Ew; [|exists (upserts s); by rewrite <- Hs].
  eexists. split; [done|]. intros c. destruct s; simpl in *. intros [Hc|Hc]%elem_of_app; [by apply Hu|].
  apply list_elem_of_singleton in Hc as ->.
  destruct HI. apply ci_cursor0. done.
Qed.

Lemma run_inv_queue q s : run_inv s → queue_inv opts q → queue_le (queue s) q → run_inv (set_queue q s).
Proof.
  intros [] Hq Hle. pose proof (upserts_mono q s ri_upserts0 Hle) as Hu. destruct Hle.
  by_field s.
Qed.

Lemma life_inv_queue q s : life_inv s → queue_inv opts q → queue_le (queue s) q → life_inv (set_queue q s).
Proof.
  intros [] Hq Hle. pose proof (upserts_mono q s li_upserts0 Hle) as Hu. destruct Hle.
  by_field s.
Qed.

Lemma run_inv_abort s : run_inv s → run_inv (abort s).
Proof. intros []. by_field s. Qed.

Lemma run_inv_counters hw n s : run_inv s → run_inv (set_lastEmittedHw hw (set_durable n s)).
Proof. intros []. by_field s. Qed.

Lemma run_inv_pc p s :
  run_inv s → p ≠ Resolving → p ≠ Finishing → p ≠ Done → life_inv (set_pc p s).
Proof. intros []. by_field s. Qed.

Lemma finish_main_inv s : run_inv s → life_inv (finish_main s).
Proof.
  intros HR. unfold finish_main. destruct (cleaned s) eqn:Hc.
  - unfold end_response. destruct HR.
    destruct s; unfold released, upserts_delivered in *; simpl in *.
    assert (HQ : queue_inv opts (set_ended true queue0)).
    { destruct ri_queue0 as ([] & ? & ?). destruct queue0. simpl in *. split_and!; [by split|done|done]. }
    assert (closed (set_ended true queue0) = closed queue0 ∧ wire (set_ended true queue0) = wire queue0
            ∧ ended (set_ended true queue0) = true) as (Hcl & Hw & He) by (by destruct queue0).
    split; unfold released, upserts_delivered; simpl; rewrite ?Hcl, ?Hw, ?He; try done; intuition (first [congruence|auto]).
  - unfold finish_begin.
    destruct (persistCursor_spec (abort (set_cleaned s))) as (u & -> & Hu); [by destruct s, HR|by destruct s, HR|].
    destruct HR. by_field s. intros _. split; [done|]. destruct closing0; [by rewrite ri_closing0 in Hc|done].
Qed.

Lemma try_send_inv f c s :
  run_inv s → run_inv (snd (try_send f c s)) ∧
  (fst (try_send f c s) = Some IOk → aborted (snd (try_send f c s)) = false) ∧
  (aborted s = true → try_send f c s = (Some IClosed, s)).
Proof.
  intros HR. unfold try_send. destruct (aborted s) eqn:Ha; [done|].
  pose proof (enqueueData_le f c (queue s)) as Hle.
  destruct (enqueueData_inv opts f c (queue s)) as [Hq _]; [by destruct HR|].
  destruct (enqueueData opts f c (queue s)) as [r q] eqn:E; simpl in *.
  pose proof (run_inv_queue q s HR Hq Hle).
  assert (aborted (set_queue q s) = false) by (by destruct s). by destruct r.
Qed.

Lemma loop_head_inv s : run_inv s → life_inv (loop_head s).
Proof. intros HR. unfold loop_head. destruct (aborted s); [by apply finish_main_inv|by apply run_inv_pc]. Qed.

Lemma initial_cursor_inv s : run_inv s → life_inv (initial_cursor s).
Proof.
  intros HR. unfold initial_cursor, start_loop.
  destruct (try_send_inv (cursorFrame initialHighWater) (Some initialHighWater) s HR) as (HR' & Ha & _).
  destruct (try_send _ _ s) as [[[]|] s1]; simpl in *; [|by apply finish_main_inv..|by apply run_inv_pc].
  apply loop_head_inv. specialize (Ha eq_refl). destruct HR'. by_field s1.
Qed.

Lemma initial_events_inv events s : run_inv s → life_inv (initial_events events s).
Proof.
  revert s. induction events as [|ev rest IH]; intros s HR; simpl; [by apply initial_cursor_inv|].
  destruct (event_oversized ev); [by apply finish_main_inv|].
  destruct (try_send_inv (eventFrame ev) (Some (se_sync_version ev)) s HR) as (HR' & _ & _).
  destruct (try_send _ _ s) as [[[]|] s1]; simpl in *; [|by apply finish_main_inv..|by apply run_inv_pc].
  apply IH. pose proof (run_inv_counters (lastEmittedHw s1) (durableEventsWritten s1 + 1) s1 HR'). by destruct s1.
Qed.

Lemma poll_cursor_inv hw s : run_inv s → life_inv (poll_cursor hw s).
Proof.
  intros HR. unfold poll_cursor. destruct (_ <? _); [|by apply loop_head_inv].
  destruct (try_send_inv (cursorFrame hw) (Some hw) s HR) as (HR' & _ & _).
  destruct (try_send _ _ s) as [[[]|] s1]; simpl in *;
    [|by apply finish_main_inv, run_inv_abort..|by apply run_inv_pc].
  apply loop_head_inv. pose proof (run_inv_counters hw (durableEventsWritten s1) s1 HR'). by destruct s1.
Qed.

Lemma run_inv_persist s : run_inv s → run_inv (persistCursor s).
Proof.
  intros HR. destruct (persistCursor_spec s) as (u & -> & Hu); [by destruct HR..|].
  destruct HR. by_field s.
Qed.

Lemma poll_events_inv events hw s : run_inv s → life_inv (poll_events events hw s).
Proof.
  revert s. induction events as [|ev rest IH]; intros s HR; simpl; [by apply poll_cursor_inv|].
  destruct (event_oversized ev).
  { apply poll_cursor_inv, run_inv_abort, run_inv_queue; [done| |apply enqueueControl_le].
    apply enqueueControl_inv. by destruct HR. }
  destruct (try_send_inv (eventFrame ev) (Some (se_sync_version ev)) s HR) as (HR' & _ & _).
  destruct (try_send _ _ s) as [[[]|] s1]; simpl in *;
    [|by apply poll_cursor_inv, run_inv_abort..|by apply run_inv_pc].
  assert (Hd : ∀ n, run_inv (set_durable n s1)).
  { intros n. pose proof (run_inv_counters (lastEmittedHw s1) n s1 HR'). by destruct s1. }
  destruct (_ <=? _); [|apply IH, Hd].
  replace (set_durable 0 (set_durable (durableEventsWritten s1 + 1) s1)) with (set_durable 0 s1) by (by destruct s1).
  by apply run_inv_pc; [apply run_inv_persist|..].
Qed.

(** An event that resumes the session finds the invariant of running code. *)
Lemma life_run s : life_inv s → listening s = true → pc s ≠ Finishing → run_inv s.
Proof. intros [] Hl Hf. split; auto. Qed.

Lemma ended_inv q : queue_inv opts q → queue_inv opts (set_ended true q).
Proof. intros ([] & ? & ?). destruct q; simpl in *. split_and!; [by split|done|done]. Qed.

Lemma ended_fields q : closed (set_ended true q) = closed q ∧ wire (set_ended true q) = wire q ∧ ended (set_ended true q) = true.
Proof. by destruct q. Qed.

Lemma register_inv s : life_inv s → pc s = Resolving → life_inv (register_session s).
Proof.
  intros HI Hpc. pose proof (li_resolving _ HI Hpc) as Hl. destruct (li_before _ HI Hl) as (? & ? & ? & ? & ? & _).
  unfold register_session. destruct (accepting s) eqn:Ha.
  - apply initial_events_inv. destruct HI. by_field s.
  - unfold end_response, cleanup. destruct (close_le (queue s)) as [Hle Hc].
    destruct (close_queue_inv opts (queue s) (li_queue _ HI)) as [HQ _].
    destruct HI. destruct s; unfold released, upserts_delivered in *; simpl in *.
    destruct (ended_fields (close queue0)) as (E1 & E2 & E3).
    split; unfold released, upserts_delivered; simpl; rewrite ?E1, ?E2, ?E3; try done; try solve [intuition (first [congruence|auto])].
    + by apply ended_inv.
    + intros c Hc'. destruct (li_upserts0 c Hc') as (i & Hi & ?). exists i. split; [|done].
      destruct Hle as [_ _ [l Hl']]. rewrite Hl', delivered_app. apply elem_of_app. by left.
Qed.

(** After [finish_end] the connection is gone. *)
Lemma finish_end_inv s :
  life_inv s → listening s = true → cleaned s = true →
  life_inv (set_pc (match pc s with Finishing => Sleeping | p => p end) (finish_end (set_closing false s))) ∧
  released (finish_end (set_closing false s)).
Proof.
  intros HI Hl Hcl. unfold finish_end, cleanup. destruct (close_le (queue s)) as [Hle Hc].
  destruct (close_queue_inv opts (queue s) (li_queue _ HI)) as [HQ _].
  pose proof (upserts_mono (close (queue s)) s (li_upserts _ HI) Hle) as Hu. destruct Hle.
  destruct HI. destruct s; unfold released, upserts_delivered in *; simpl in *. split; [|done].
  split; unfold released, upserts_delivered; simpl; try done; destruct pc0; simpl; try done; intuition (first [congruence|auto]).
Qed.

Lemma send_ping_inv s : life_inv s → life_inv (send_ping s).
Proof.
  intros HI. unfold send_ping, try_send. destruct (aborted s); [done|].
  pose proof (enqueueData_le (formatSseComment (js "ping")) None (queue s)) as Hle.
  destruct (enqueueData_inv opts (formatSseComment (js "ping")) None (queue s) (li_queue _ HI)) as [Hq _].
  destruct (enqueueData _ _ _ _) as [r q]; simpl in *.
  destruct (life_inv_queue q s HI Hq Hle). destruct r; simpl; try done. by_field s.
Qed.

Lemma awake_inv s : life_inv s → life_inv (awake s).
Proof.
  intros HI. unfold awake.
  assert (HR : pc s ≠ Resolving → pc s ≠ Finishing → pc s ≠ Done → run_inv s).
  { intros H1 H2 H3. apply life_run; [done| |done]. destruct (listening s) eqn:E; [done|].
    destruct (li_before _ HI E) as (_ & _ & _ & _ & _ & [?|[? _]]); done. }
  destruct (pc s) eqn:Hpc; try done; try specialize (HR ltac:(done) ltac:(done) ltac:(done)).
  - by apply initial_events_inv.
  - by apply initial_cursor_inv.
  - destruct (aborted s); [by apply finish_main_inv|done].
  - by apply poll_events_inv.
  - by apply poll_events_inv.
  - by apply poll_cursor_inv.
  - destruct (li_finishing _ HI Hpc) as [Hcl Hclo].
    assert (Hl : listening s = true).
    { destruct (listening s) eqn:E; [done|]. destruct (li_before _ HI E) as (_ & _ & _ & ? & _). congruence. }
    destruct (finish_end_inv s HI Hl Hcl) as [HI' Hre].
    replace (set_closing false s) with s in HI', Hre by (destruct s; simpl in *; by subst).
    rewrite Hpc in HI'. set (s' := finish_end s) in *.
    assert (Hl' : listening s' = true ∧ cleaned s' = true ∧ closing s' = false)
      by (unfold s', finish_end, cleanup; by destruct s).
    unfold end_response. destruct HI' as [Q]. destruct (ended_fields (queue s')) as (E1 & E2 & E3).
    pose proof (ended_inv (queue s')) as HE. clearbody s'.
    destruct s'; unfold released, upserts_delivered in *; simpl in *.
    split; unfold released, upserts_delivered; simpl; rewrite ?E1, ?E2, ?E3; try done; intuition (first [congruence|auto]).
Qed.

Lemma lstep_inv e s : life_inv s → life_inv (lstep e s).
Proof.
  intros HI. pose proof (awake_inv s HI) as Haw.
  assert (Hfetch : pc s = Fetching → run_inv s).
  { intros Hp. apply life_run; [done| |by rewrite Hp]. destruct (listening s) eqn:E; [done|].
    destruct (li_before _ HI E) as (_ & _ & _ & _ & _ & [?|[? _]]); congruence. }
  assert (Hsock : ∀ ev, ev ∈ [EvMicrotask; EvDrain; EvSlowTimer; EvClose] → life_inv (set_queue (step opts write ev (queue s)) s)).
  { intros ev Hev. apply life_inv_queue; [done| |by apply socket_le]. apply step_inv. by destruct HI. }
  destruct e; simpl; try done.
  - destruct (pc s) eqn:Hpc; try done. destruct r as [id|]; [|by apply register_inv].
    apply register_inv; [|by destruct s]. destruct HI. by_field s.
  - destruct (pc s) eqn:Hpc; try done. destruct (aborted s); [done|]. destruct HI. by_field s.
  - destruct (pc s) eqn:Hpc; try done. destruct r as [[events hw]|]; [apply poll_events_inv|apply finish_main_inv]; auto.
  - destruct (listening s) eqn:Hl, (cleaned s) eqn:Hc; simpl; try done. unfold finish_begin.
    destruct (persistCursor_spec (abort (set_cleaned s))) as (u & -> & Hu); [by destruct s, HI..|].
    destruct HI. by_field s.
  - destruct (closing s) eqn:Hclo; [|done]. pose proof (li_closing _ HI Hclo) as Hcl.
    destruct (listening s) eqn:Hl; [|by destruct (li_before _ HI Hl) as (_ & _ & _ & ? & _); congruence].
    destruct (finish_end_inv s HI Hl Hcl) as [HI' _].
    replace (match pc s with Finishing => Sleeping | p => p end) with (pc (finish_end (set_closing false s))) in HI'.
    + by destruct (finish_end (set_closing false s)).
    + replace (pc (finish_end (set_closing false s))) with (pc s) by (unfold finish_end, cleanup; by destruct s).
      destruct (pc s) eqn:Hp; try done. destruct (li_finishing _ HI Hp). congruence.
  - destruct (heartbeatTimer s); [by apply send_ping_inv|done].
  - destruct (pings s) as [|n]; [done|]. apply send_ping_inv. destruct HI. by_field s.
  - destruct (persistTimer s); [|done]. destruct (persistCursor_spec s) as (u & -> & Hu); [by destruct HI..|].
    destruct HI. by_field s.
  - apply (Hsock EvMicrotask). set_solver.
  - apply (Hsock EvDrain). set_solver.
  - apply (Hsock EvSlowTimer). set_solver.
  - apply (Hsock EvClose). set_solver.
  - assert (HI' : life_inv (stop_accepting s)) by (destruct HI; by_field s).
    destruct (registered (stop_accepting s)); [|done].
    apply life_inv_queue; [done| |apply enqueueControl_le]. apply enqueueControl_inv. by destruct HI'.
  - destruct (accepting s), (registered s) eqn:Hr; simpl; try done.
    assert (Hl : listening s = true).
    { destruct (listening s) eqn:E; [done|]. destruct (li_before _ HI E) as (? & _). congruence. }
    destruct (close_le (queue s)) as [Hle Hc].
    destruct (close_queue_inv opts (queue s) (li_queue _ HI)) as [HQ _].
    pose proof (upserts_mono (close (queue s)) s (li_upserts _ HI) Hle) as Hu. destruct Hle.
    assert (Hcc : close (close (queue s)) = close (queue s)) by (unfold close at 1; by rewrite Hc).
    unfold cleanup. destruct HI, s; unfold released, upserts_delivered in *; simpl in *. rewrite Hcc.
    split; unfold released, upserts_delivered; simpl; try done; intuition (first [congruence|auto]).
Qed.

Lemma fresh_inv acc : 0 ≤ maxFrames opts → 0 ≤ maxBytes opts → life_inv (fresh acc).
Proof.
  intros H1 H2. split; unfold released, upserts_delivered; simpl; try done; [by apply new_queue_inv|auto 10|].
  by intros c ?%elem_of_nil.
Qed.

Lemma lrun_inv acc es : 0 ≤ maxFrames opts → 0 ≤ maxBytes opts → life_inv (lrun es (start acc)).
Proof.
  intros H1 H2. assert (HI : life_inv (start acc)).
  { unfold start. destruct (_ && _); [|apply register_inv; [|done]]; by apply fresh_inv. }
  revert HI. generalize (start acc). induction es as [|e es IH]; intros s HI; [done|]. by apply IH, lstep_inv.
Qed.

(** ** Progress after an abort *)

(** Turns the session still has to take. *)
Definition rank (p : point) : nat :=
  match p with Done => 0 | Finishing => 1 | _ => 2 end.

(** The event settles the promise the session awaits. *)
Definition settles (e : levent) (s : life) : bool :=
  match e, pc s with
  | LResolved _, Resolving | LFetched _, Fetching => true
  | LSleepDone, Sleeping => negb (aborted s)
  | LAwake, (Resolving | Fetching | Done) => false
  | LAwake, Sleeping => aborted s
  | LAwake, _ => true
  | _, _ => false
  end.

Fixpoint turns (es : list levent) (s : life) : nat :=
  match es with
  | [] => 0
  | e :: es' => (if settles e s then 1 else 0) + turns es' (lstep e s)
  end.

Lemma persistCursor_pc s : pc (persistCursor s) = pc s ∧ aborted (persistCursor s) = aborted s.
Proof. unfold persistCursor. repeat case_match; by destruct s. Qed.

(** Code that runs with the signal aborted goes to its end. *)
Definition leaving (s : life) : Prop := aborted s = true ∧ (rank (pc s) ≤ 1)%nat.

Lemma finish_main_leaving s : aborted s = true → leaving (finish_main s).
Proof.
  intros Ha. unfold finish_main, finish_begin, leaving. destruct (cleaned s); [destruct s; simpl in *; auto|].
  destruct (persistCursor_pc (abort (set_cleaned s))) as [_ E]. destruct (persistCursor _). simpl in *.
  split; [|lia]. rewrite E. by destruct s.
Qed.

Lemma try_send_aborted f c s : aborted s = true → try_send f c s = (Some IClosed, s).
Proof. unfold try_send. by intros ->. Qed.

Lemma initial_events_leaving events s : aborted s = true → leaving (initial_events events s).
Proof.
  intros Ha. destruct events as [|ev rest]; simpl.
  - unfold initial_cursor. rewrite try_send_aborted by done. by apply finish_main_leaving.
  - destruct (event_oversized ev); [by apply finish_main_leaving|].
    rewrite try_send_aborted by done. by apply finish_main_leaving.
Qed.

Lemma poll_cursor_leaving hw s : aborted s = true → leaving (poll_cursor hw s).
Proof.
  intros Ha. unfold poll_cursor, loop_head. rewrite Ha, try_send_aborted by done.
  destruct (_ <? _); apply finish_main_leaving; [by destruct s|done].
Qed.

Lemma poll_events_leaving events hw s : aborted s = true → leaving (poll_events events hw s).
Proof.
  intros Ha. destruct events as [|ev rest]; simpl; [by apply poll_cursor_leaving|].
  destruct (event_oversized ev); [by apply poll_cursor_leaving; destruct s|].
  rewrite try_send_aborted by done. apply poll_cursor_leaving. by destruct s.
Qed.

Lemma lstep_aborted e s :
  aborted s = true →
  aborted (lstep e s) = true ∧
  (if settles e s then rank (pc (lstep e s)) < rank (pc s) else pc (lstep e s) = pc s)%nat.
Proof.
  intros Ha.
  assert (Hlv : ∀ s', leaving s' → (2 ≤ rank (pc s))%nat → aborted s' = true ∧ (rank (pc s') < rank (pc s))%nat)
    by (unfold leaving; intros ? []; split; [done|lia]).
  assert (Hping : ∀ s1, aborted s1 = true → send_ping s1 = s1) by (intros; unfold send_ping; by rewrite try_send_aborted).
  assert (Hsame : ∀ s', aborted s' = true → pc s' = pc s → aborted s' = true ∧ pc s' = pc s) by done.
  unfold settles. destruct e; simpl.
  - destruct (pc s) eqn:E; try (apply Hsame; done). apply Hlv; [|simpl; lia]. unfold register_session.
    destruct (accepting _); [apply initial_events_leaving; by destruct r, s|].
    unfold leaving, end_response, cleanup. destruct r, s; simpl in *; auto.
  - unfold awake. destruct (pc s) eqn:E; try (apply Hsame; done); rewrite ?Ha; try (apply Hlv; [|simpl; lia]).
    + by apply initial_events_leaving.
    + by apply (initial_events_leaving []).
    + by apply finish_main_leaving.
    + by apply poll_events_leaving.
    + by apply poll_events_leaving.
    + by apply poll_cursor_leaving.
    + unfold end_response, finish_end, cleanup. destruct s; simpl in *. split; [done|lia].
  - destruct (pc s) eqn:E; try (apply Hsame; done). rewrite Ha. by apply Hsame.
  - destruct (pc s) eqn:E; try (apply Hsame; done).
    apply Hlv; [|simpl; lia]. destruct r as [[events hw]|]; [by apply poll_events_leaving|by apply finish_main_leaving].
  - destruct (_ && _); apply Hsame; try done; unfold finish_begin;
      destruct (persistCursor_pc (abort (set_cleaned s))) as [E1 E2];
      destruct (persistCursor _); simpl in *; by destruct s.
  - destruct (closing s); apply Hsame; try done; unfold finish_end, cleanup; by destruct s.
  - destruct (heartbeatTimer s); rewrite ?Hping by done; by apply Hsame.
  - destruct (pings s); rewrite ?Hping by (by destruct s); apply Hsame; by destruct s.
  - destruct (persistTimer s); apply Hsame; try done; destruct (persistCursor_pc s); congruence.
  - apply Hsame; by destruct s.
  - apply Hsame; by destruct s.
  - apply Hsame; by destruct s.
  - apply Hsame; by destruct s.
  - destruct (registered _); apply Hsame; by destruct s.
  - destruct (_ && _); apply Hsame; try done; unfold cleanup; by destruct s.
Qed.

Lemma lrun_aborted es s :
  aborted s = true →
  (rank (pc (lrun es s)) + turns es s ≤ rank (pc s))%nat ∧ (turns es s = 0%nat → pc (lrun es s) = pc s).
Proof.
  revert s. induction es as [|e es IH]; intros s Ha; cbn [turns]; [split; [simpl; lia|done]|].
  destruct (lstep_aborted e s Ha) as [Ha' Hr]. destruct (IH _ Ha') as [Hr' Hp']. change (lrun (e :: es) s) with (lrun es (lstep e s)).
  destruct (settles e s); [split; [lia|done]|]. rewrite Hr in Hr'. split; [exact Hr'|]. intros Ht. by rewrite Hp'.
Qed.

(** ** Properties *)

(** C7. Nothing of a connection outlives it. Whatever happens between the awaits of
    the session (the client leaves, the socket stalls or closes, a query fails, a
    timer fires, the server shuts down, in any order and number), in every state
    the two interval timers run only while the connection is registered; and once
    the session has returned, and the 'close' handler if it had started, the
    connection is out of the registry, both timers are cleared, the queue is
    closed and the response has ended. *)
Theorem session_releases_connection acc es :
  0 ≤ maxFrames opts → 0 ≤ maxBytes opts →
  let s := lrun es (start acc) in
  (heartbeatTimer s = true ∨ persistTimer s = true → registered s = true) ∧
  (pc s = Done → ended (queue s) = true ∧ (closing s = false → released s)).
Proof.
  intros H1 H2 s. pose proof (lrun_inv acc es H1 H2) as HI. fold s in HI. split.
  - intros Ht. destruct (registered s) eqn:Hr; [done|]. exfalso.
    destruct (listening s) eqn:Hl.
    + destruct (li_gone _ HI Hl Hr) as (_ & _ & ? & ? & _). destruct Ht; congruence.
    + destruct (li_before _ HI Hl) as (_ & ? & ? & _). destruct Ht; congruence.
  - intros Hd. destruct (li_done _ HI Hd) as [He Hc]. split; [done|]. intros Hclo.
    destruct (listening s) eqn:Hl.
    + apply (li_gone _ HI Hl). apply (li_finished _ HI (Hc eq_refl) Hclo). by rewrite Hd.
    + destruct (li_before _ HI Hl) as (? & ? & ? & _ & _ & [?|[_ ?]]); [congruence|done].
Qed.

(** C8. An aborted session ends without another poll. Once the signal is aborted (by
    a client that left, a frame that could not be sent or a shutdown), however many
    other events come, its timers firing included: the session starts no query
    (if it ever awaits one, it is the query it awaited at the abort, still
    unanswered), and it has returned after two settled promises of its own, the one
    it was awaiting and the final [persistCursor]. *)
Theorem aborted_session_ends es s :
  aborted s = true →
  (pc (lrun es s) = Fetching → pc s = Fetching ∧ turns es s = 0%nat) ∧
  ((2 ≤ turns es s)%nat → pc (lrun es s) = Done).
Proof.
  intros Ha. destruct (lrun_aborted es s Ha) as [Hr Hp]. assert (rank (pc s) ≤ 2)%nat by (destruct (pc s); simpl; lia).
  split.
  - intros Hf. rewrite Hf in Hr. simpl in Hr. assert (H0 : turns es s = 0%nat) by lia.
    split; [|done]. rewrite <- Hf. symmetry. auto.
  - intros Ht. destruct (pc (lrun es s)); simpl in *; done || lia.
Qed.

(** C6. The cursor an edge is credited with was sent to it. However a session runs,
    every cursor it writes to [sync_cursors] is that of a frame its socket took, so
    the stored cursor afterwards is the one stored before or that of a delivered
    frame: the lag reported for an edge never counts a frame that is still queued
    or was dropped. *)
Theorem persisted_cursor_was_delivered acc es now t e d sc :
  0 ≤ maxFrames opts → 0 ≤ maxBytes opts →
  sync_cursors d !! (t, e) = Some sc → en_tenant_id <$> edge_nodes d !! e = Some t →
  let s := lrun es (start acc) in
  ∃ sc', sync_cursors (fold_left (λ d c, SyncLog.upsertSyncCursor now t e c d) (upserts s) d) !! (t, e) = Some sc' ∧
    sc_last_cursor sc ≤ sc_last_cursor sc' ∧
    (sc_last_cursor sc' = sc_last_cursor sc ∨
     ∃ i, i ∈ delivered (wire (queue s)) ∧ cursor i = Some (sc_last_cursor sc')).
Proof.
  intros H1 H2 Hsc Hen s. pose proof (li_upserts _ (lrun_inv acc es H1 H2)) as Hu. fold s in Hu.
  destruct (SyncLog.cursor_upserts_monotone now t e (upserts s) d sc Hsc Hen) as (sc' & H & Hmax).
  exists sc'. split; [done|]. rewrite Hmax.
  destruct (fold_max_choice (upserts s) (sc_last_cursor sc)) as [Hle [Heq|Hin]]; [by auto|].
  split; [done|]. right. by apply Hu.
Qed.

(** A client cut for being slow keeps its slot. When the slow-client timer fires,
    the queue is closed and the response ended, but the session is not told: as
    long as polls find nothing new and the socket does not close, it goes on
    sleeping, polling and pinging, and stays registered. Only a poll that has
    something to send notices, and leaves. *)
Theorem slow_client_keeps_slot n hw ev s :
  pc s = Sleeping → aborted s = false → registered s = true → cleaned s = false →
  slowTimer (queue s) = true → lastEmittedHw s < hw →
  let cut := lstep LSlowTimer s in
  closed (queue cut) = true ∧ ended (queue cut) = true ∧
  lrun (concat (replicate n [LSleepDone; LFetched (Some ([], lastEmittedHw s)); LHeartbeat])) cut = cut ∧
  registered cut = true ∧ aborted cut = false ∧
  let s' := lrun [LSleepDone; LFetched (Some ([ev], hw))] cut in
  pc s' = Finishing ∧ aborted s' = true.
Proof.
  intros Hpc Ha Hr Hcl Hs Hhw cut.
  assert (Hcut : closed (queue cut) = true ∧ ended (queue cut) = true).
  { unfold cut, lstep, step. rewrite Hs. unfold slow_fired.
    destruct (close_le (set_slowTimer false (queue s))) as [_ Hc], (ended_fields (close (set_slowTimer false (queue s)))) as (E1 & _ & E3).
    destruct s; simpl in *. by rewrite E1, E3, Hc. }
  destruct Hcut as [Hc He].
  assert (Hf : pc cut = Sleeping ∧ aborted cut = false ∧ registered cut = true ∧ cleaned cut = false ∧ lastEmittedHw cut = lastEmittedHw s)
    by (unfold cut; destruct s; simpl in *; auto).
  clearbody cut. destruct Hf as (Hp & Ha' & Hr' & Hcl' & Hl).
  assert (Hsend : ∀ f c s1, queue s1 = queue cut → aborted s1 = false → try_send f c s1 = (Some IClosed, s1)).
  { intros f c s1 E1 E2. unfold try_send, enqueueData. rewrite E1, E2, Hc, <- E1. by destruct s1. }
  split_and!; try done.
  - set (idle := [LSleepDone; LFetched (Some ([], lastEmittedHw s)); LHeartbeat]).
    assert (Hidle : lrun idle cut = cut).
    { unfold lrun, idle. simpl. rewrite Hp. unfold poll_cursor, loop_head, send_ping.
      destruct cut; simpl in *. subst. simpl. rewrite Z.ltb_irrefl. simpl.
      destruct heartbeatTimer0; [by rewrite Hsend|done]. }
    induction n as [|n IH]; [done|]. change (lrun (concat (replicate n idle)) (lrun idle cut) = cut). by rewrite Hidle.
  - unfold lrun. simpl. rewrite Hp, Ha'.
    assert (Hfin : ∀ s1, cleaned s1 = false → pc (finish_main s1) = Finishing ∧ aborted (finish_main s1) = true).
    { intros s1 E. unfold finish_main, finish_begin. rewrite E.
      destruct (persistCursor_pc (abort (set_cleaned s1))) as [_ E2]. destruct (persistCursor _); simpl in *.
      rewrite E2. by destruct s1. }
    assert (Hpoll : ∀ s1, cleaned s1 = false → aborted s1 = true → lastEmittedHw s1 < hw →
              pc (poll_cursor hw s1) = Finishing ∧ aborted (poll_cursor hw s1) = true).
    { intros s1 E1 E2 E3. unfold poll_cursor. rewrite (proj2 (Z.ltb_lt _ _)) by done. rewrite try_send_aborted by done.
      apply Hfin. by destruct s1. }
    replace (pc (set_pc Fetching cut)) with Fetching by (by destruct cut). simpl.
    destruct (event_oversized ev).
    + apply Hpoll; destruct cut; simpl in *; lia || done.
    + rewrite Hsend by (by destruct cut). apply Hpoll; destruct cut; simpl in *; lia || done.
Qed.

End life.

(** ** Witnesses: a session with two events, whose socket stalls at the second
    write; the client leaves, or stays without reading. *)

Definition demo_opts : SseWriteQueueOptions := mkOptions 10 1000 500.
Definition demo_event (v : Z) : SyncEvent := mkSyncEvent v (js "score.update") None None (JObj []) 0.
Definition demo_start : life :=
  start demo_opts (Some (js "t")) (Some (js "k")) [demo_event 1; demo_event 2] 2 true.
Definition demo_run (es : list levent) : life :=
  lrun demo_opts flaky (Some (js "t")) 100 [demo_event 1; demo_event 2] 2 es demo_start.
Definition demo_open : list levent := [LResolved (Some (js "edge")); LMicrotask].
Definition demo_leave : list levent :=
  demo_open ++ [LPersistTick; LRequestClose; LDrain; LAwake; LClosePersisted].

Lemma session_releases_connection_witness :
  let s := demo_run demo_leave in
  pc s = Done ∧ closing s = false ∧ registered (demo_run demo_open) = true ∧ released s.
Proof.
  intros s.
  destruct (session_releases_connection demo_opts flaky (Some (js "t")) (Some (js "k")) 100
              [demo_event 1; demo_event 2] 2 true demo_leave ltac:(simpl; lia) ltac:(simpl; lia)) as [_ H].
  split; [vm_compute; reflexivity|]. split; [vm_compute; reflexivity|]. split; [vm_compute; reflexivity|].
  apply H; vm_compute; reflexivity.
Defined.

Lemma aborted_session_ends_witness :
  let s := demo_run (demo_open ++ [LShutdown; LShutdownEnd]) in
  let es := [LSleepDone; LDrain; LAwake; LHeartbeat; LAwake] in
  pc s = Sleeping ∧ aborted s = true ∧
  pc (lrun demo_opts flaky (Some (js "t")) 100 [demo_event 1; demo_event 2] 2 [LSleepDone] s) ≠ Fetching ∧
  pc (lrun demo_opts flaky (Some (js "t")) 100 [demo_event 1; demo_event 2] 2 es s) = Done.
Proof.
  intros s es. split; [vm_compute; reflexivity|]. assert (Ha : aborted s = true) by (vm_compute; reflexivity).
  split; [exact Ha|]. split.
  - intros Hf. destruct (aborted_session_ends demo_opts flaky (Some (js "t")) 100 [demo_event 1; demo_event 2] 2
      [LSleepDone] s Ha) as [H _]. destruct (H Hf) as [Hp _]. vm_compute in Hp. discriminate.
  - destruct (aborted_session_ends demo_opts flaky (Some (js "t")) 100 [demo_event 1; demo_event 2] 2 es s Ha) as [_ H].
    apply H. vm_compute. lia.
Defined.

Lemma persisted_cursor_was_delivered_witness :
  let d := set_sync_cursors {[(js "t", js "edge") := mkSyncCursor 0 None]}
    (set_edge_nodes {[js "edge" := mkEdgeNode (js "edge") (js "t") (js "n") None (js "online") None 0]} empty_db) in
  let s := demo_run demo_leave in
  upserts s = [2; 2] ∧
  ∃ sc', sync_cursors (fold_left (λ d c, SyncLog.upsertSyncCursor 5 (js "t") (js "edge") c d) (upserts s) d) !! (js "t", js "edge") = Some sc' ∧
    (sc_last_cursor sc' = 0 ∨ ∃ i, i ∈ delivered (wire (queue s)) ∧ cursor i = Some (sc_last_cursor sc')).
Proof.
  intros d s. split; [vm_compute; reflexivity|].
  destruct (persisted_cursor_was_delivered demo_opts flaky (Some (js "t")) (Some (js "k")) 100
              [demo_event 1; demo_event 2] 2 true demo_leave 5 (js "t") (js "edge") d (mkSyncCursor 0 None)
              ltac:(simpl; lia) ltac:(simpl; lia) eq_refl eq_refl) as (sc' & H1 & _ & H2).
  exists sc'. exact (conj H1 H2).
Defined.

Lemma slow_client_keeps_slot_witness :
  let s := demo_run demo_open in
  let cut := lstep demo_opts flaky (Some (js "t")) 100 [demo_event 1; demo_event 2] 2 LSlowTimer s in
  slowTimer (queue s) = true ∧ closed (queue cut) = true ∧ registered cut = true ∧ aborted cut = false.
Proof.
  intros s cut. split; [vm_compute; reflexivity|].
  destruct (slow_client_keeps_slot demo_opts flaky (Some (js "t")) 100 [demo_event 1; demo_event 2] 2 10 3 (demo_event 3) s)
    as (H1 & _ & _ & H2 & H3 & _); [vm_compute; reflexivity..|].
  exact (conj H1 (conj H2 H3)).
Defined.

End SseLifecycle.
