(* ===== verification/Canonicalize.v ===== *)
(** * RFC 8785 canonical JSON

    [src/control-plane/src/domains/attestation/canonicalize.ts].  The reference
    definition is the one of the RFC: [JSON.stringify] of the value with the
    properties of every object sorted by UTF-16 code units ([sort_json], with an order
    of its own, [units_le]), with strings that contain lone surrogates refused.
    SHA-256 is a parameter. *)

From stdpp Require Import base strings sorting numbers list.
From Stdlib Require Import ZArith Lia.
From S2P Require Import Prelude Json Errors.

Module Canonicalize.

(** The loop of [canonicalizeString]. *)
Fixpoint check_surrogates (s : jstr) : result exn unit :=
  match s with
  | [] => Ok tt
  | c :: s' =>
      if is_high c then
        match s' with
        | d :: s'' =>
            if (d <? 0xdc00) || (0xdfff <? d)
            then Throw (EError (js "JCS: lone high surrogate in string (RFC 8785 violation)"))
            else check_surrogates s''
        | [] => Throw (EError (js "JCS: lone high surrogate in string (RFC 8785 violation)"))
        end
      else if is_low c then Throw (EError (js "JCS: lone low surrogate in string (RFC 8785 violation)"))
      else check_surrogates s'
  end.

Definition canonicalizeString (s : jstr) : result exn jstr :=
  _ ← check_surrogates s; Ok (quote s).

Definition canonicalizeNumber (n : number) : jstr :=
  if negb (isFinite n) then js "null" else num_to_string n.

(** The comparator on keys: the first differing code unit, else the length. *)
Fixpoint compareKeys (a b : jstr) : Z :=
  match a, b with
  | x :: a', y :: b' => if x =? y then compareKeys a' b' else x - y
  | _, _ => Z.of_nat (length a) - Z.of_nat (length b)
  end.

Definition entry_le {A} (a b : jstr * A) : bool := compareKeys a.1 b.1 <=? 0.

(** [array.map(f)] when [f] may throw. *)
Fixpoint sequence {A} (l : list (result exn A)) : result exn (list A) :=
  match l with
  | [] => Ok []
  | r :: l' => x ← r; xs ← sequence l'; Ok (x :: xs)
  end.

Fixpoint canonicalizeValue (v : json) : result exn jstr :=
  match v with
  | JNull | JUndef => Ok (js "null")
  | JBool b => Ok (if b then js "true" else js "false")
  | JNum n => Ok (canonicalizeNumber n)
  | JStr s => canonicalizeString s
  | JArr l =>
      items ← sequence (map canonicalizeValue l);
      Ok (js "[" ++ join (js ",") items ++ js "]")
  | JObj fs =>
      let entries := (fix go fs := match fs with
                      | [] => []
                      | (k, JUndef) :: fs' => go fs'
                      | (k, v) :: fs' => (k, canonicalizeValue v) :: go fs'
                      end) fs in
      pairs ← sequence ((λ '(k, r), ks ← canonicalizeString k; vs ← r; Ok (ks ++ js ":" ++ vs))
                          <$> sort_by entry_le entries);
      Ok (js "{" ++ join (js ",") pairs ++ js "}")
  end.

Definition canonicalize (obj : json) : result exn jstr := canonicalizeValue obj.

Definition computeFactsHash (sha256hex : jstr → jstr) (facts : json) : result exn jstr :=
  s ← canonicalize facts; Ok (sha256hex s).

(** ** The reference *)

(** The RFC's order on names: code units compared as numbers at the first place where
    they differ, a prefix before its extensions. *)
Fixpoint units_le (a b : jstr) : bool :=
  match a, b with
  | [], _ => true
  | _ :: _, [] => false
  | x :: a', y :: b' => (x <? y) || ((x =? y) && units_le a' b')
  end.

Definition key_le {A} (a b : jstr * A) : bool := units_le a.1 b.1.

Fixpoint sort_json (v : json) : json :=
  match v with
  | JArr l => JArr (map sort_json l)
  | JObj fs =>
      JObj (sort_by key_le ((fix go fs := match fs with
                               | [] => []
                               | (k, JUndef) :: fs' => go fs'
                               | (k, v) :: fs' => (k, sort_json v) :: go fs'
                               end) fs))
  | v => v
  end.

(** What [sort_json] is for: every object lists its properties in the RFC's order, all
    of them defined. *)
Fixpoint ordered (v : json) : Prop :=
  match v with
  | JArr l => (fix go l := match l with [] => True | x :: l' => ordered x ∧ go l' end) l
  | JObj fs =>
      StronglySorted (λ x y, units_le x.1 y.1 = true) fs ∧
      (fix go fs := match fs with [] => True | (_, x) :: fs' => x ≠ JUndef ∧ ordered x ∧ go fs' end) fs
  | _ => True
  end.

(** No object has a name twice, as in every JavaScript value. *)
Fixpoint names_distinct (v : json) : Prop :=
  match v with
  | JArr l => (fix go l := match l with [] => True | x :: l' => names_distinct x ∧ go l' end) l
  | JObj fs =>
      NoDup fs.*1 ∧ (fix go fs := match fs with [] => True | (_, x) :: fs' => names_distinct x ∧ go fs' end) fs
  | _ => True
  end.

(** A string of whole code points. *)
Fixpoint wf_string (s : jstr) : bool :=
  match s with
  | [] => true
  | c :: s' =>
      if is_high c then match s' with d :: s'' => is_low d && wf_string s'' | [] => false end
      else negb (is_low c) && wf_string s'
  end.

(** Every string and every key of a defined property is well formed. *)
Fixpoint wf_json (v : json) : bool :=
  match v with
  | JStr s => wf_string s
  | JArr l => forallb wf_json l
  | JObj fs => (fix go fs := match fs with
                | [] => true
                | (k, JUndef) :: fs' => go fs'
                | (k, v) :: fs' => wf_string k && wf_json v && go fs'
                end) fs
  | _ => true
  end.

(** Values that differ in the order of properties, or in undefined ones. *)
Inductive same_value : json → json → Prop :=
| sv_refl v : same_value v v
| sv_trans u v w : same_value u v → same_value v w → same_value u w
| sv_perm fs fs' : NoDup fs.*1 → fs ≡ₚ fs' → same_value (JObj fs) (JObj fs')
| sv_undef fs k fs' : same_value (JObj (fs ++ (k, JUndef) :: fs')) (JObj (fs ++ fs'))
| sv_field fs k v v' fs' : same_value v v' →
    same_value (JObj (fs ++ (k, v) :: fs')) (JObj (fs ++ (k, v') :: fs'))
| sv_elem l v v' l' : same_value v v' → same_value (JArr (l ++ v :: l')) (JArr (l ++ v' :: l')).

(** ** Lemmas *)

(** The defined properties of an object, and a function on their values. *)
Definition is_undef (v : json) : bool := match v with JUndef => true | _ => false end.
Definition defined (fs : list (jstr * json)) : list (jstr * json) := filter (λ kv, is_undef kv.2 = false) fs.

Lemma defined_cons k v fs : defined ((k, v) :: fs) = if is_undef v then defined fs else (k, v) :: defined fs.
Proof. unfold defined. rewrite filter_cons. by destruct v. Qed.

Lemma canonicalizeValue_obj fs :
  canonicalizeValue (JObj fs) =
  (pairs ← sequence ((λ '(k, r), ks ← canonicalizeString k; vs ← r; Ok (ks ++ js ":" ++ vs))
     <$> sort_by entry_le ((λ kv, (kv.1, canonicalizeValue kv.2)) <$> defined fs));
   Ok (js "{" ++ join (js ",") pairs ++ js "}")).
Proof.
  cbn [canonicalizeValue]. match goal with |- context [sort_by entry_le ?x] => assert (x = (λ kv, (kv.1, canonicalizeValue kv.2)) <$> defined fs) as -> end; [|done].
  induction fs as [|[k v] fs IH]; [done|]. rewrite defined_cons, IH. by destruct v.
Qed.

Lemma sort_json_obj fs :
  sort_json (JObj fs) = JObj (sort_by key_le ((λ kv, (kv.1, sort_json kv.2)) <$> defined fs)).
Proof.
  cbn [sort_json]. do 2 f_equal.
  induction fs as [|[k v] fs IH]; [done|]. rewrite defined_cons, IH. by destruct v.
Qed.

Lemma wf_json_obj fs : wf_json (JObj fs) = forallb (λ kv, wf_string kv.1 && wf_json kv.2) (defined fs).
Proof.
  cbn [wf_json]. induction fs as [|[k v] fs IH]; [done|]. rewrite defined_cons, IH. by destruct v.
Qed.

(** On an object whose values are all defined, the printer prints each. *)
Lemma stringify_obj fs :
  Forall (λ kv, is_undef kv.2 = false) fs →
  stringify (JObj fs) = js "{" ++ join (js ",") ((λ kv, quote kv.1 ++ js ":" ++ stringify kv.2) <$> fs) ++ js "}".
Proof.
  intros HF. cbn [stringify]. do 3 f_equal. induction HF as [|[k v] fs Hv HF IH]; [done|].
  rewrite fmap_cons, <- IH. by destruct v.
Qed.

Lemma check_surrogates_spec s :
  if wf_string s then check_surrogates s = Ok tt else ∃ e, check_surrogates s = Throw e.
Proof.
  revert s. fix IH 1. intros [|c s]; [done|]. cbn [wf_string check_surrogates].
  destruct (is_high c).
  - destruct s as [|d s]; [eauto|]. unfold is_low.
    destruct (d <? 0xdc00) eqn:E1, (0xdfff <? d) eqn:E2; bool_to_prop; simpl.
    + lia.
    + rewrite (proj2 (Z.leb_gt _ _)) by lia. simpl. eauto.
    + rewrite (proj2 (Z.leb_gt d _)) by lia. rewrite andb_false_r. simpl. eauto.
    + rewrite !(proj2 (Z.leb_le _ _)) by lia. simpl. apply IH.
  - destruct (is_low c); simpl; [eauto|apply IH].
Qed.

Lemma canonicalizeString_spec s :
  if wf_string s then canonicalizeString s = Ok (quote s) else ∃ e, canonicalizeString s = Throw e.
Proof.
  unfold canonicalizeString. pose proof (check_surrogates_spec s) as H.
  destruct (wf_string s); [by rewrite H|]. destruct H as [e ->]. by exists e.
Qed.

(** Mapping a throwing function over a list. *)
Lemma sequence_spec {A B} (f : A → result exn B) (g : A → B) (ok : A → bool) l :
  Forall (λ x, if ok x then f x = Ok (g x) else ∃ e, f x = Throw e) l →
  if forallb ok l then sequence (f <$> l) = Ok (g <$> l) else ∃ e, sequence (f <$> l) = Throw e.
Proof.
  induction 1 as [|x l Hx HF IH]; [done|]. cbn [forallb]. rewrite !fmap_cons. cbn [sequence].
  destruct (ok x); simpl; [|destruct Hx as [e ->]; by exists e]. rewrite Hx.
  destruct (forallb ok l); [by rewrite IH|]. destruct IH as [e ->]. by exists e.
Qed.

Lemma sort_json_undef v : is_undef (sort_json v) = is_undef v.
Proof. by destruct v. Qed.

Lemma forallb_perm {A} (f : A → bool) l k : l ≡ₚ k → forallb f l = forallb f k.
Proof.
  induction 1 as [|x l k _ IH|x y l|l k m _ IH1 _ IH2]; simpl; [done|by rewrite IH| |congruence].
  by destruct (f x), (f y).
Qed.

Lemma Forall_defined (P : jstr * json → Prop) fs :
  Forall P fs → Forall (λ kv, P kv ∧ is_undef kv.2 = false) (defined fs).
Proof.
  rewrite !Forall_forall. intros HF kv [Hu Hin]%list_elem_of_filter. auto.
Qed.

(** The comparator decides the RFC's order. *)
Lemma compareKeys_units a b : (compareKeys a b <=? 0) = units_le a b.
Proof.
  revert b. induction a as [|x a IH]; intros [|y b]; cbn [compareKeys units_le length]; [done|apply Z.leb_le; lia|apply Z.leb_gt; lia|].
  destruct (Z.eqb_spec x y) as [->|Hne]; [by rewrite IH, Z.ltb_irrefl|]. rewrite orb_false_r.
  destruct (Z.ltb_spec x y); [apply Z.leb_le; lia|apply Z.leb_gt; lia].
Qed.

Lemma sort_entries {A} (l : list (jstr * A)) : sort_by entry_le l = sort_by key_le l.
Proof.
  pose proof (sort_by_fmap key_le entry_le id l) as H. rewrite !list_fmap_id in H. apply H.
  intros x y. apply compareKeys_units.
Qed.

(** The whole behaviour of [canonicalizeValue]. *)
Lemma canonicalizeValue_spec v :
  if wf_json v then canonicalizeValue v = Ok (stringify (sort_json v)) else ∃ e, canonicalizeValue v = Throw e.
Proof.
  induction v as [| |b|n|s|l HF|fs HF] using json_nested_ind; try done.
  - simpl. unfold canonicalizeNumber. by destruct (isFinite n).
  - apply canonicalizeString_spec.
  - apply (sequence_spec canonicalizeValue (λ v, stringify (sort_json v)) wf_json) in HF.
    change (wf_json (JArr l)) with (forallb wf_json l).
    change (canonicalizeValue (JArr l)) with
      (items ← sequence (canonicalizeValue <$> l); Ok (js "[" ++ join (js ",") items ++ js "]")).
    destruct (forallb wf_json l); [|destruct HF as [e ->]; by exists e]. rewrite HF.
    unfold mbind, result_bind. f_equal. change (stringify (sort_json (JArr l))) with
      (js "[" ++ join (js ",") (stringify <$> (sort_json <$> l)) ++ js "]"). by rewrite <- list_fmap_compose.
  - rewrite canonicalizeValue_obj, wf_json_obj, sort_json_obj, sort_entries.
    rewrite !(sort_by_fmap key_le) by done.
    rewrite <- (forallb_perm _ _ _ (sort_by_Permutation key_le (defined fs))).
    assert (HD : Forall (λ kv, (if wf_json kv.2 then canonicalizeValue kv.2 = Ok (stringify (sort_json kv.2))
              else ∃ e, canonicalizeValue kv.2 = Throw e) ∧ is_undef kv.2 = false) (sort_by key_le (defined fs))).
    { rewrite sort_by_Permutation. by apply (Forall_defined _ fs). }
    revert HD. generalize (sort_by key_le (defined fs)) as es. intros es HD.
    rewrite <- list_fmap_compose. rewrite stringify_obj.
    2: { apply Forall_fmap. eapply Forall_impl; [exact HD|]. intros kv [_ H]. simpl. by rewrite sort_json_undef. }
    rewrite <- list_fmap_compose.
    assert (HS := sequence_spec
      ((λ '(k, r), ks ← canonicalizeString k; vs ← r; Ok (ks ++ js ":" ++ vs)) ∘ (λ kv, (kv.1, canonicalizeValue kv.2)))
      ((λ kv, quote kv.1 ++ js ":" ++ stringify kv.2) ∘ (λ kv, (kv.1, sort_json kv.2)))
      (λ kv, wf_string kv.1 && wf_json kv.2) es).
    destruct (forallb _ es); [rewrite HS; [done|]|destruct HS as [e ->]; [|by exists e]].
    all: eapply Forall_impl; [exact HD|]; intros [k v] [Hv _]; simpl in *;
      pose proof (canonicalizeString_spec k) as Hk; destruct (wf_string k); simpl;
      [rewrite Hk; simpl; destruct (wf_json v); [by rewrite Hv|destruct Hv as [e ->]; by exists e]
      |destruct Hk as [e ->]; by exists e].
Qed.

(** *** The key order is a total order *)

Lemma units_le_total a b : units_le a b = true ∨ units_le b a = true.
Proof.
  revert b. induction a as [|x a IH]; intros [|y b]; cbn [units_le]; auto.
  destruct (Z.ltb_spec x y), (Z.ltb_spec y x); auto. replace y with x by lia. rewrite Z.eqb_refl. apply IH.
Qed.

Lemma units_le_antisym a b : units_le a b = true → units_le b a = true → a = b.
Proof.
  revert b. induction a as [|x a IH]; intros [|y b]; cbn [units_le]; try done.
  rewrite !orb_true_iff, !andb_true_iff, !Z.ltb_lt, !Z.eqb_eq. intros [?|[-> H1]] [?|[Hy H2]]; try lia. f_equal. by apply IH.
Qed.

Lemma units_le_trans a b c : units_le a b = true → units_le b c = true → units_le a c = true.
Proof.
  revert b c. induction a as [|x a IH]; intros [|y b] [|z c]; cbn [units_le]; try done.
  rewrite !orb_true_iff, !andb_true_iff, !Z.ltb_lt, !Z.eqb_eq. intros [?|[-> H1]] [?|[-> H2]]; [left; lia|left; lia|left; lia|].
  right. eauto.
Qed.

Lemma key_le_total {A} (x y : jstr * A) : key_le x y = true ∨ key_le y x = true.
Proof. apply units_le_total. Qed.

Lemma key_le_trans {A} (x y z : jstr * A) : key_le x y = true → key_le y z = true → key_le x z = true.
Proof. apply units_le_trans. Qed.

Lemma NoDup_keys_inj {A} (l : list (jstr * A)) x y : NoDup l.*1 → x ∈ l → y ∈ l → x.1 = y.1 → x = y.
Proof.
  intros Hnd [i Hi]%list_elem_of_lookup [j Hj]%list_elem_of_lookup Heq.
  assert (i = j) as ->; [|congruence].
  eapply (NoDup_lookup l.*1); [done|by rewrite list_lookup_fmap, Hi|]. rewrite list_lookup_fmap, Hj. simpl. by rewrite Heq.
Qed.

(** Sorting forgets the order of a list with distinct keys. *)
Lemma sort_entries_perm {A} (l k : list (jstr * A)) :
  NoDup l.*1 → l ≡ₚ k → sort_by key_le l = sort_by key_le k.
Proof.
  intros Hnd Hp. eapply (StronglySorted_unique_strong (λ x y, key_le x y = true)).
  - intros x y Hx Hy H1 H2. rewrite sort_by_Permutation in Hx. rewrite sort_by_Permutation, <- Hp in Hy.
    apply (NoDup_keys_inj l); try done. by apply units_le_antisym.
  - apply sort_by_sorted; [apply key_le_total|apply key_le_trans].
  - apply sort_by_sorted; [apply key_le_total|apply key_le_trans].
  - by rewrite !sort_by_Permutation.
Qed.

Lemma defined_app fs fs' : defined (fs ++ fs') = defined fs ++ defined fs'.
Proof. apply filter_app. Qed.

Lemma same_value_undef v v' : same_value v v' → is_undef v = is_undef v'.
Proof. induction 1; done || congruence. Qed.

Lemma same_value_normal v v' : same_value v v' → sort_json v = sort_json v' ∧ wf_json v = wf_json v'.
Proof.
  induction 1 as [v|u v w _ [IH1 IH2] _ [IH3 IH4]|fs fs' Hnd Hp|fs k fs'|fs k v v' fs' Hv [IH1 IH2]|l v v' l' _ [IH1 IH2]].
  - done.
  - split; congruence.
  - rewrite !sort_json_obj, !wf_json_obj. assert (Hd : defined fs ≡ₚ defined fs') by (by apply filter_Permutation).
    split; [|by apply forallb_perm]. f_equal. apply sort_entries_perm; [|by apply fmap_Permutation].
    rewrite <- list_fmap_compose. by apply (NoDup_fmap_filter fst).
  - rewrite !sort_json_obj, !wf_json_obj, !defined_app, defined_cons. done.
  - rewrite !sort_json_obj, !wf_json_obj, !defined_app, !defined_cons, (same_value_undef _ _ Hv).
    destruct (is_undef v'); [done|]. rewrite !fmap_app, !forallb_app. simpl. by rewrite IH1, IH2.
  - simpl. rewrite !map_app, !forallb_app. simpl. by rewrite IH1, IH2.
Qed.

(** *** The reference is what its name says *)

Lemma ordered_arr l : ordered (JArr l) ↔ Forall ordered l.
Proof. cbn [ordered]. induction l as [|x l IH]; [by split|]. by rewrite Forall_cons, IH. Qed.

Lemma ordered_obj fs : ordered (JObj fs) ↔
  StronglySorted (λ x y, units_le x.1 y.1 = true) fs ∧ Forall (λ kv, kv.2 ≠ JUndef ∧ ordered kv.2) fs.
Proof.
  cbn [ordered]. apply and_iff_compat_l. induction fs as [|[k x] fs IH]; [by split|]. rewrite Forall_cons, IH. simpl. tauto.
Qed.

Lemma names_distinct_arr l : names_distinct (JArr l) ↔ Forall names_distinct l.
Proof. cbn [names_distinct]. induction l as [|x l IH]; [by split|]. by rewrite Forall_cons, IH. Qed.

Lemma names_distinct_obj fs : names_distinct (JObj fs) ↔ NoDup fs.*1 ∧ Forall (λ kv, names_distinct kv.2) fs.
Proof.
  cbn [names_distinct]. apply and_iff_compat_l. induction fs as [|[k x] fs IH]; [by split|]. by rewrite Forall_cons, IH.
Qed.

Lemma sort_json_ordered v : ordered (sort_json v).
Proof.
  induction v as [| |b|n|s|l HF|fs HF] using json_nested_ind; try done.
  - change (sort_json (JArr l)) with (JArr (sort_json <$> l)). by rewrite ordered_arr, Forall_fmap.
  - rewrite sort_json_obj, ordered_obj. split; [apply (sort_by_sorted key_le); [apply key_le_total|apply key_le_trans]|].
    rewrite sort_by_Permutation, Forall_fmap. eapply Forall_impl; [by apply Forall_defined|].
    intros [k x] [Hx Hu]. simpl in *. split; [|done]. intros He. pose proof (sort_json_undef x) as H. rewrite He in H.
    by rewrite Hu in H.
Qed.

Lemma same_elems (f : json → json) l p : Forall (λ v, same_value v (f v)) l → same_value (JArr (p ++ l)) (JArr (p ++ (f <$> l))).
Proof.
  intros HF. revert p. induction HF as [|v l Hv _ IH]; intros p; [apply sv_refl|].
  eapply sv_trans; [by apply (sv_elem p v (f v) l)|]. specialize (IH (p ++ [f v])). by rewrite <- !app_assoc in IH.
Qed.

Lemma same_fields (f : json → json) fs p : Forall (λ kv, same_value kv.2 (f kv.2)) fs →
  same_value (JObj (p ++ fs)) (JObj (p ++ ((λ kv, (kv.1, f kv.2)) <$> fs))).
Proof.
  intros HF. revert p. induction HF as [|[k v] fs Hv _ IH]; intros p; [apply sv_refl|].
  eapply sv_trans; [by apply (sv_field p k v (f v) fs)|]. specialize (IH (p ++ [(k, f v)])). by rewrite <- !app_assoc in IH.
Qed.

Lemma same_defined fs p : same_value (JObj (p ++ fs)) (JObj (p ++ defined fs)).
Proof.
  revert p. induction fs as [|[k v] fs IH]; intros p; [apply sv_refl|]. rewrite defined_cons.
  destruct (is_undef v) eqn:Hu.
  - destruct v; try done. eapply sv_trans; [apply sv_undef|apply IH].
  - specialize (IH (p ++ [(k, v)])). by rewrite <- !app_assoc in IH.
Qed.

Lemma sort_json_same v : names_distinct v → same_value v (sort_json v).
Proof.
  induction v as [| |b|n|s|l HF|fs HF] using json_nested_ind; intros Hv; try apply sv_refl.
  - apply names_distinct_arr in Hv. apply (same_elems sort_json l []). rewrite Forall_forall in *. auto.
  - apply names_distinct_obj in Hv as [Hnd Hv]. rewrite sort_json_obj. eapply sv_trans; [apply (same_defined fs [])|].
    eapply sv_trans; [apply (same_fields sort_json (defined fs) [])|].
    { eapply Forall_impl; [apply (Forall_defined (λ kv, names_distinct kv.2 ∧ (names_distinct kv.2 → same_value kv.2 (sort_json kv.2)))), Forall_and; by split|].
      simpl. tauto. }
    apply sv_perm; [|by rewrite sort_by_Permutation]. rewrite app_nil_l, <- list_fmap_compose. by apply (NoDup_fmap_filter fst).
Qed.

(** ** Properties *)

(** C15. [canonicalize] is the RFC's canonical form: on a value whose strings
    and keys are whole code points it returns what [JSON.stringify] prints for
    the value with all properties sorted and undefined ones removed; on any other
    value it throws.  Sorted means: in every object, at any depth, the names ascend
    in the order of their UTF-16 code units ([units_le]); and the sorted value is the
    given one up to the order of properties and undefined properties, if no object
    has a name twice. *)
Theorem canonicalize_is_jcs v :
  if wf_json v
  then canonicalize v = Ok (stringify (sort_json v)) ∧ ordered (sort_json v) ∧
       (names_distinct v → same_value v (sort_json v))
  else ∃ e, canonicalize v = Throw e.
Proof.
  pose proof (canonicalizeValue_spec v) as H. destruct (wf_json v); [|exact H].
  split; [exact H|]. split; [apply sort_json_ordered|apply sort_json_same].
Qed.

(** The facts hash identifies content, not layout: values that differ
    only in the order of properties or in undefined properties, at any depth,
    have the same canonical form (or are both refused) and so the same hash. *)
Theorem facts_hash_ignores_layout sha256hex v v' :
  same_value v v' → wf_json v = true →
  canonicalize v = canonicalize v' ∧ computeFactsHash sha256hex v = computeFactsHash sha256hex v'.
Proof.
  intros [Hs Hw]%same_value_normal Hv.
  pose proof (canonicalizeValue_spec v) as H. pose proof (canonicalizeValue_spec v') as H'.
  rewrite <- Hw, <- Hs, Hv in H'. rewrite Hv in H.
  assert (canonicalize v = canonicalize v') as Heq by (unfold canonicalize; congruence).
  split; [done|]. unfold computeFactsHash. by rewrite Heq.
Qed.

Lemma canonicalize_is_jcs_witness :
  let v := JObj [(js "b", JNull); (js "aa", JUndef); (js "a", JObj [(js "y", JNull); (js "x", JBool true)])] in
  canonicalize v = Ok (js "{" ++ quote (js "a") ++ js ":{" ++ quote (js "x") ++ js ":true," ++ quote (js "y")
                       ++ js ":null}," ++ quote (js "b") ++ js ":null}") ∧
  same_value v (JObj [(js "a", JObj [(js "x", JBool true); (js "y", JNull)]); (js "b", JNull)]).
Proof.
  intros v. destruct (canonicalize_is_jcs v) as (H1 & _ & H3). split; [rewrite H1; vm_compute; reflexivity|].
  apply H3. split; [apply (bool_decide_unpack _); vm_compute; exact I|].
  split; [exact I|]. split; [exact I|]. split; [|exact I].
  split; [apply (bool_decide_unpack _); vm_compute; exact I|]. split; [exact I|]. split; exact I.
Defined.

Lemma facts_hash_ignores_layout_witness :
  let v := JObj [(js "b", JArr [JObj [(js "y", JNull); (js "x", JBool true)]]); (js "a", JUndef)] in
  let v' := JObj [(js "b", JArr [JObj [(js "x", JBool true); (js "y", JNull)]])] in
  wf_json v = true ∧ computeFactsHash id v = computeFactsHash id v'.
Proof.
  intros v v'. split; [reflexivity|].
  refine (proj2 (facts_hash_ignores_layout id v v' _ eq_refl)).
  eapply sv_trans; [exact (sv_undef [(js "b", JArr [JObj [(js "y", JNull); (js "x", JBool true)]])] (js "a") [])|].
  apply (sv_field [] (js "b") _ _ []). apply (sv_elem [] _ _ []). apply sv_perm.
  - apply (bool_decide_unpack _). vm_compute. exact I.
  - apply perm_swap.
Defined.

End Canonicalize.
