(* ===== verification/SchemaValidator.v ===== *)
(** * Attestation fact schemas

    [src/control-plane/src/domains/attestation/schemaValidator.ts] and
    [legacyConfig.ts].  The environment (the v0 allowlist string, the parsed
    cutoff date) and the clock are arguments.  [conforms] is the declarative
    schema the imperative checks implement. *)

From stdpp Require Import base strings numbers list.
From Stdlib Require Import ZArith Lia.
From S2P Require Import Prelude Json Errors.

(** [legacyConfig.ts] *)
Module LegacyConfig.

(** [s.split(',')] *)
Fixpoint split_comma (cur : jstr) (s : jstr) : list jstr :=
  match s with
  | [] => [cur]
  | c :: s' => if c =? 44 then cur :: split_comma [] s' else split_comma (cur ++ [c]) s'
  end.

(** [BEHAVIORAL_V0_ALLOWLIST], trimmed entries that are not empty. *)
Definition getV0Allowlist (env : option jstr) : list jstr :=
  filter (λ s, s ≠ []) (trim <$> split_comma [] (default [] env)).

Definition isV0AllowedForIssuer (env : option jstr) (issuerId : jstr) : bool :=
  let allowlist := getV0Allowlist env in
  if bool_decide (length allowlist = 0%nat) then false else bool_decide (issuerId ∈ allowlist).

(** [cutoff] is [BEHAVIORAL_V0_CUTOFF] after [new Date(...).getTime()]: [None]
    when the variable is unset or empty, [Some None] when it is no date. *)
Definition isV0CutoffPassed (cutoff : option (option Z)) (now : Z) : bool :=
  match cutoff with
  | None | Some None => true
  | Some (Some t) => t <? now
  end.

End LegacyConfig.

Module SchemaValidator.
Import LegacyConfig.

Inductive schema_error := SchemaValidationError (msg : jstr) | SchemaValidationExpiredError (msg : jstr).
Abbreviation check := (result schema_error unit).

Definition fail (msg : jstr) : check := Throw (SchemaValidationError msg).

Definition SUPPORTED_TYPES : list jstr :=
  [js "behavioral"; js "transaction_summary"; js "kyb"; js "security_audit"; js "negative_incident"].
Definition SUPPORTED_VERSIONS : list jstr := [js "0"; js "1"].
Definition MAX_FACTS_BYTES : Z := 8192.
Definition MAX_DEPTH : Z := 4.
Definition MAX_DATA_BYTES : Z := 4096.

Definition typeof (v : json) : jstr :=
  match v with
  | JUndef => js "undefined"
  | JBool _ => js "boolean"
  | JNum _ => js "number"
  | JStr _ => js "string"
  | JNull | JArr _ | JObj _ => js "object"
  end.

(** [v && typeof v === 'object'] *)
Definition is_object (v : json) : bool := match v with JArr _ | JObj _ => true | _ => false end.

(** [for (const x of l) f(x)] for a check. *)
Fixpoint check_all {A} (l : list A) (f : A → check) : check :=
  match l with
  | [] => Ok tt
  | x :: l' => _ ← f x; check_all l' f
  end.

Fixpoint checkSizeAndDepth (facts : json) (depth : Z) : check :=
  let bytes := byteLength (stringify facts) in
  if MAX_FACTS_BYTES <? bytes then
    fail (js "facts exceed 8192 byte limit (" ++ show_Z bytes ++ js " bytes)")
  else if MAX_DEPTH <? depth then fail (js "facts exceed max depth 4")
  else match facts with
       | JArr l =>
           (fix go l := match l with
            | [] => Ok tt
            | v :: l' => _ ← (if is_object v then checkSizeAndDepth v (depth + 1) else Ok tt); go l'
            end) l
       | JObj fs =>
           (fix go fs := match fs with
            | [] => Ok tt
            | (_, v) :: fs' => _ ← (if is_object v then checkSizeAndDepth v (depth + 1) else Ok tt); go fs'
            end) fs
       | _ => Ok tt
       end.

Abbreviation fields := (list (jstr * json)).

Definition requireFields (facts : fields) (required : list jstr) (type : jstr) : check :=
  check_all required (λ field,
    if is_nullish (lookup_field field facts)
    then fail (type ++ js "@1 missing or null required field: " ++ field) else Ok tt).

Definition requireString (facts : fields) (field type : jstr) : check :=
  match lookup_field field facts with
  | JUndef | JNull => fail (type ++ js "@1." ++ field ++ js " is required and must be a non-null string")
  | JStr _ => Ok tt
  | v => fail (type ++ js "@1." ++ field ++ js " must be a string, got " ++ typeof v)
  end.

Definition requireNumber (facts : fields) (field type : jstr) : check :=
  match lookup_field field facts with
  | JUndef | JNull => fail (type ++ js "@1." ++ field ++ js " is required and must be a non-null number")
  | JNum _ => Ok tt
  | v => fail (type ++ js "@1." ++ field ++ js " must be a number, got " ++ typeof v)
  end.

Definition rejectExtraProperties (facts : fields) (allowed : list jstr) (type : jstr) : check :=
  check_all facts.*1 (λ key,
    if bool_decide (key ∈ allowed) then Ok tt
    else fail (type ++ js "@1: unknown property " ++ [34] ++ key ++ [34] ++ js " (additionalProperties: false)")).

Definition TS_FIELDS : list jstr :=
  [js "start"; js "end"; js "success_count"; js "failure_count"; js "dispute_count"].
Definition validateTransactionSummary (facts : fields) : check :=
  let t := js "transaction_summary" in
  _ ← requireFields facts TS_FIELDS t;
  _ ← requireString facts (js "start") t;
  _ ← requireString facts (js "end") t;
  _ ← requireNumber facts (js "success_count") t;
  _ ← requireNumber facts (js "failure_count") t;
  _ ← requireNumber facts (js "dispute_count") t;
  rejectExtraProperties facts TS_FIELDS t.

(** The common shape of the all-string schemas. *)
Definition validate_strings (FIELDS : list jstr) (t : jstr) (facts : fields) : check :=
  _ ← requireFields facts FIELDS t;
  _ ← check_all FIELDS (λ f, requireString facts f t);
  rejectExtraProperties facts FIELDS t.

Definition KYB_FIELDS : list jstr :=
  [js "status"; js "verifier"; js "jurisdiction"; js "verification_timestamp"; js "expiry_timestamp"].
Definition validateKyb : fields → check := validate_strings KYB_FIELDS (js "kyb").

Definition AUDIT_FIELDS : list jstr :=
  [js "standard"; js "result"; js "auditor"; js "report_digest"; js "audit_timestamp"].
Definition validateSecurityAudit : fields → check := validate_strings AUDIT_FIELDS (js "security_audit").

Definition INCIDENT_FIELDS : list jstr :=
  [js "category"; js "severity"; js "occurrence_timestamp"; js "evidence_digest"].
Definition validateNegativeIncident : fields → check := validate_strings INCIDENT_FIELDS (js "negative_incident").

(** The body of the entries loop of [validateBehavioralV1]. *)
Definition behavioral_entry (kv : jstr * json) : check :=
  let '(key, value) := kv in
  if decide (key = js "observation_ts") then Ok tt
  else match value with
       | JObj _ =>
           if decide (key = js "data") then
             let dataBytes := byteLength (stringify value) in
             if MAX_DATA_BYTES <? dataBytes then
               fail (js "behavioral@1.data exceeds 4096 byte limit (" ++ show_Z dataBytes ++ js " bytes)")
             else Ok tt
           else fail (js "behavioral@1." ++ key ++ js " must be a primitive or a " ++ [34] ++ js "data" ++ [34] ++
                      js " object, got object")
       | JStr _ | JNum _ | JBool _ => Ok tt
       | v => fail (js "behavioral@1." ++ key ++ js " must be a primitive or a " ++ [34] ++ js "data" ++ [34] ++
                    js " object, got " ++ typeof v)
       end.

Definition validateBehavioralV1 (facts : fields) : check :=
  if bool_decide (length facts = 0%nat) then fail (js "behavioral@1: facts must contain at least one key")
  else
    _ ← requireString facts (js "observation_ts") (js "behavioral");
    check_all facts behavioral_entry.

Definition validateSchema (allowlist : option jstr) (cutoff : option (option Z)) (now : Z)
    (type schemaVersion : jstr) (facts : json) (issuerId : option jstr) : check :=
  if negb (bool_decide (type ∈ SUPPORTED_TYPES)) then fail (js "Unknown attestation type: " ++ type)
  else if negb (bool_decide (schemaVersion ∈ SUPPORTED_VERSIONS)) then
    fail (js "Unknown schema version: " ++ schemaVersion)
  else match facts with
  | JObj fs =>
      _ ← checkSizeAndDepth facts 0;
      if decide (schemaVersion = js "0") then
        if negb (bool_decide (type = js "behavioral")) then
          fail (js "schema_version 0 is only allowed for behavioral, got " ++ type)
        else if match issuerId with
                | Some (c :: i) => negb (isV0AllowedForIssuer allowlist (c :: i))
                | _ => true
                end then
          fail (js "behavioral@0 is only allowed for allowlisted legacy issuers")
        else if isV0CutoffPassed cutoff now then
          Throw (SchemaValidationExpiredError (js "behavioral@0 is no longer accepted (cutoff passed)"))
        else Ok tt
      else if decide (type = js "behavioral") then validateBehavioralV1 fs
      else if decide (type = js "transaction_summary") then validateTransactionSummary fs
      else if decide (type = js "kyb") then validateKyb fs
      else if decide (type = js "security_audit") then validateSecurityAudit fs
      else if decide (type = js "negative_incident") then validateNegativeIncident fs
      else fail (js "Unsupported attestation type: " ++ type)
  | _ => fail (js "facts must be an object")
  end.

(** ** The declarative schemas *)

Definition is_string (v : json) : Prop := ∃ s, v = JStr s.
Definition is_number (v : json) : Prop := ∃ n, v = JNum n.

(** Exactly the named properties, each of its type. *)
Definition exactly (facts : fields) (types : list (jstr * (json → Prop))) : Prop :=
  (∀ k, k ∈ facts.*1 → k ∈ types.*1) ∧ Forall (λ '(k, P), P (lookup_field k facts)) types.

Definition strings (ks : list jstr) : list (jstr * (json → Prop)) := (λ k, (k, is_string)) <$> ks.

Definition behavioral_value (k : jstr) (v : json) : Prop :=
  k = js "observation_ts" ∨ (∃ s, v = JStr s) ∨ (∃ n, v = JNum n) ∨ (∃ b, v = JBool b) ∨
  (k = js "data" ∧ (∃ fs, v = JObj fs) ∧ byteLength (stringify v) ≤ MAX_DATA_BYTES).

Definition conforms (type : jstr) (facts : fields) : Prop :=
  (type = js "behavioral" ∧ is_string (lookup_field (js "observation_ts") facts) ∧
     Forall (λ '(k, v), behavioral_value k v) facts) ∨
  (type = js "transaction_summary" ∧
     exactly facts [(js "start", is_string); (js "end", is_string); (js "success_count", is_number);
                    (js "failure_count", is_number); (js "dispute_count", is_number)]) ∨
  (type = js "kyb" ∧ exactly facts (strings KYB_FIELDS)) ∨
  (type = js "security_audit" ∧ exactly facts (strings AUDIT_FIELDS)) ∨
  (type = js "negative_incident" ∧ exactly facts (strings INCIDENT_FIELDS)).

(** Nesting depth of containers: 0 for a scalar. *)
Fixpoint depth_of (v : json) : Z :=
  match v with
  | JArr l => 1 + foldr Z.max 0 (map depth_of l)
  | JObj fs => 1 + (fix go fs := match fs with [] => 0 | (_, v) :: fs' => Z.max (depth_of v) (go fs') end) fs
  | _ => 0
  end.

(** ** Lemmas *)

Lemma check_all_Ok {A} (l : list A) f : check_all l f = Ok tt ↔ Forall (λ x, f x = Ok tt) l.
Proof.
  induction l as [|x l IH]; simpl; [split; [constructor|done]|]. rewrite Forall_cons, <- IH, bind_Ok.
  split; [by intros ([] & ? & ?)|intros [? ?]; by exists tt].
Qed.

Lemma requireString_Ok facts f t : requireString facts f t = Ok tt ↔ is_string (lookup_field f facts).
Proof. unfold requireString, is_string, fail. destruct (lookup_field f facts); split; naive_solver. Qed.

Lemma requireNumber_Ok facts f t : requireNumber facts f t = Ok tt ↔ is_number (lookup_field f facts).
Proof. unfold requireNumber, is_number, fail. destruct (lookup_field f facts); split; naive_solver. Qed.

Lemma requireFields_Ok facts fs t :
  requireFields facts fs t = Ok tt ↔ Forall (λ f, is_nullish (lookup_field f facts) = false) fs.
Proof.
  unfold requireFields. rewrite check_all_Ok. apply Forall_iff. intros f. unfold fail.
  destruct (is_nullish _); split; done.
Qed.

Lemma rejectExtra_Ok facts allowed t :
  rejectExtraProperties facts allowed t = Ok tt ↔ ∀ k, k ∈ facts.*1 → k ∈ allowed.
Proof.
  unfold rejectExtraProperties. rewrite check_all_Ok, Forall_forall. split; intros H k Hk; specialize (H k Hk).
  - case_bool_decide; done.
  - by rewrite bool_decide_eq_true_2.
Qed.

Lemma is_string_not_nullish v : is_string v → is_nullish v = false.
Proof. by intros [s ->]. Qed.
Lemma is_number_not_nullish v : is_number v → is_nullish v = false.
Proof. by intros [s ->]. Qed.

Lemma bind_unit_Ok (m k : check) : (m ≫= λ _, k) = Ok tt ↔ m = Ok tt ∧ k = Ok tt.
Proof. rewrite bind_Ok. split; [by intros ([] & ? & ?)|intros [? ?]; by exists tt]. Qed.

Lemma validate_strings_Ok FIELDS t facts :
  validate_strings FIELDS t facts = Ok tt ↔ exactly facts (strings FIELDS).
Proof.
  unfold validate_strings, exactly, strings.
  rewrite !bind_unit_Ok, requireFields_Ok, check_all_Ok, rejectExtra_Ok, Forall_fmap, <- list_fmap_compose.
  assert ((fst ∘ λ k : jstr, (k, is_string)) <$> FIELDS = FIELDS) as -> by (apply list_fmap_id).
  assert (Hs : Forall (λ x, requireString facts x t = Ok tt) FIELDS ↔ Forall (λ k, is_string (lookup_field k facts)) FIELDS)
    by (apply Forall_iff; intros; apply requireString_Ok).
  rewrite Hs. unfold compose. split; [tauto|]. intros [H1 H2]. split_and!; try done.
  eapply Forall_impl; [exact H2|]. intros f. apply is_string_not_nullish.
Qed.

Lemma validateTransactionSummary_Ok facts :
  validateTransactionSummary facts = Ok tt ↔
  exactly facts [(js "start", is_string); (js "end", is_string); (js "success_count", is_number);
                 (js "failure_count", is_number); (js "dispute_count", is_number)].
Proof.
  unfold validateTransactionSummary, exactly.
  rewrite !bind_unit_Ok, requireFields_Ok, !requireString_Ok, !requireNumber_Ok, rejectExtra_Ok.
  unfold TS_FIELDS. rewrite !Forall_cons, !Forall_nil. cbn [fmap list_fmap fst].
  split; [tauto|]. intros (H & H1 & H2 & H3 & H4 & H5 & _).
  split_and!; auto using is_string_not_nullish, is_number_not_nullish.
Qed.

Lemma behavioral_entry_Ok k v : behavioral_entry (k, v) = Ok tt ↔ behavioral_value k v.
Proof.
  unfold behavioral_entry, behavioral_value, fail.
  case_decide; [by split; auto|]. destruct v; try (split; naive_solver).
  case_decide.
  - destruct (_ <? _) eqn:E; bool_to_prop; split; try done; [|naive_solver].
    intros [?|[[? ?]|[[? ?]|[[? ?]|(? & _ & ?)]]]]; try done; lia.
  - split; [done|]. intros [?|[[? ?]|[[? ?]|[[? ?]|(? & _ & ?)]]]]; done.
Qed.

Lemma validateBehavioralV1_Ok facts :
  validateBehavioralV1 facts = Ok tt ↔
  is_string (lookup_field (js "observation_ts") facts) ∧ Forall (λ '(k, v), behavioral_value k v) facts.
Proof.
  unfold validateBehavioralV1. case_bool_decide as Hl.
  { destruct facts; [|done]. split; [done|]. by intros [[s Hs] _]. }
  rewrite bind_unit_Ok, requireString_Ok, check_all_Ok.
  assert (Forall (λ x, behavioral_entry x = Ok tt) facts ↔ Forall (λ '(k, v), behavioral_value k v) facts) as ->; [|done].
  apply Forall_iff. intros [k v]. apply behavioral_entry_Ok.
Qed.

Lemma checkSize_sound v d :
  checkSizeAndDepth v d = Ok tt → byteLength (stringify v) ≤ MAX_FACTS_BYTES ∧ d ≤ MAX_DEPTH ∧ d + depth_of v ≤ MAX_DEPTH + 1.
Proof.
  revert d. induction v as [| |b|n|s|l HF|fs HF] using json_nested_ind; intros d;
    cbn [checkSizeAndDepth]; destruct (MAX_FACTS_BYTES <? _) eqn:E1; try done;
    destruct (MAX_DEPTH <? d) eqn:E2; try done; bool_to_prop;
    try (intros _; simpl depth_of; lia).
  - intros H. split; [done|]. split; [done|]. cbn [depth_of].
    assert (d + foldr Z.max 0 (map depth_of l) ≤ MAX_DEPTH); [|lia].
    clear E1. induction HF as [|x l Hx HF IH]; simpl; [lia|].
    apply bind_Ok in H as ([] & H1 & H2). specialize (IH H2).
    destruct (is_object x) eqn:Ex; [apply Hx in H1; lia|]. destruct x; simpl; done || lia.
  - intros H. split; [done|]. split; [done|]. cbn [depth_of].
    match goal with |- d + (1 + ?x) ≤ _ => assert (d + x ≤ MAX_DEPTH); [|lia] end.
    clear E1. induction HF as [|[k x] fs Hx HF IH]; [lia|]. simpl in Hx.
    apply bind_Ok in H as ([] & H1 & H2). specialize (IH H2).
    destruct (is_object x) eqn:Ex; [apply Hx in H1; lia|]. destruct x; simpl in *; done || lia.
Qed.

Lemma checkSize_error v d e : checkSizeAndDepth v d = Throw e → ∃ m, e = SchemaValidationError m.
Proof.
  revert d. induction v as [| |b|n|s|l HF|fs HF] using json_nested_ind; intros d;
    cbn [checkSizeAndDepth]; destruct (MAX_FACTS_BYTES <? _); try (intros [= <-]; eauto; done);
    destruct (MAX_DEPTH <? d); try (intros [= <-]; eauto; done); try done.
  - induction HF as [|x l Hx HF IH]; [done|].
    destruct (is_object x); [|exact IH].
    destruct (checkSizeAndDepth x (d + 1)) as [[]|e'] eqn:E; [exact IH|]. intros [= ->]. by eapply Hx.
  - induction HF as [|[k x] fs Hx HF IH]; [done|]. simpl in Hx.
    destruct (is_object x); [|exact IH].
    destruct (checkSizeAndDepth x (d + 1)) as [[]|e'] eqn:E; [exact IH|]. intros [= ->]. by eapply Hx.
Qed.

(** ** Properties *)

(** C16. Version 1 facts are accepted exactly when they conform: the
    imperative checks accept an object if and only if it passes the size and
    depth check and satisfies the declarative schema of its type (for the four
    structured types exactly the required properties with their types, for
    behavioral reports a timestamp and primitives or a bounded [data] object);
    whatever is accepted is at most 8192 bytes and five containers deep. *)
Theorem schema_v1_accepts_iff_conforms al cu now ty fs iss :
  (validateSchema al cu now ty (js "1") (JObj fs) iss = Ok tt ↔
     checkSizeAndDepth (JObj fs) 0 = Ok tt ∧ conforms ty fs) ∧
  (checkSizeAndDepth (JObj fs) 0 = Ok tt →
     byteLength (stringify (JObj fs)) ≤ MAX_FACTS_BYTES ∧ depth_of (JObj fs) ≤ 5).
Proof.
  split.
  2: { intros (H1 & _ & H2)%checkSize_sound. unfold MAX_DEPTH in H2. split; [done|lia]. }
  unfold validateSchema, conforms.
  rewrite (bool_decide_eq_true_2 (js "1" ∈ SUPPORTED_VERSIONS)) by (right; by left).
  rewrite (decide_False (P := js "1" = js "0")) by done. cbn [negb].
  case_bool_decide as Hty; cbn [negb].
  - rewrite bind_unit_Ok. unfold SUPPORTED_TYPES in Hty.
    rewrite !elem_of_cons, elem_of_nil in Hty.
    destruct Hty as [->|[->|[->|[->|[->|[]]]]]].
    + rewrite decide_True by done. rewrite validateBehavioralV1_Ok. naive_solver.
    + rewrite decide_False, decide_True by done. rewrite validateTransactionSummary_Ok. naive_solver.
    + rewrite !decide_False, decide_True by done. unfold validateKyb. rewrite validate_strings_Ok. naive_solver.
    + rewrite !decide_False, decide_True by done. unfold validateSecurityAudit. rewrite validate_strings_Ok. naive_solver.
    + rewrite !decide_False, decide_True by done. unfold validateNegativeIncident. rewrite validate_strings_Ok. naive_solver.
  - split; [done|]. intros [_ H]. exfalso. apply Hty. unfold SUPPORTED_TYPES. rewrite !elem_of_cons. naive_solver.
Qed.

(** The legacy door is narrow: schema version 0 passes only for
    behavioral reports of an issuer on the allowlist, only while a valid cutoff
    date lies in the future, and only within the size limits; when the cutoff is
    what fails, the error is the distinguished 'expired' one. *)
Theorem schema_v0_only_for_legacy al cu now ty fs iss :
  (validateSchema al cu now ty (js "0") (JObj fs) iss = Ok tt ↔
     ty = js "behavioral" ∧ checkSizeAndDepth (JObj fs) 0 = Ok tt ∧
     (∃ i t, iss = Some i ∧ i ≠ [] ∧ i ∈ getV0Allowlist al ∧ cu = Some (Some t) ∧ now ≤ t)) ∧
  ∀ m, validateSchema al cu now ty (js "0") (JObj fs) iss = Throw (SchemaValidationExpiredError m) →
       isV0CutoffPassed cu now = true ∧ ∃ i, iss = Some i ∧ i ∈ getV0Allowlist al.
Proof.
  assert (Hallow : ∀ i, isV0AllowedForIssuer al i = true ↔ i ∈ getV0Allowlist al).
  { intros i. unfold isV0AllowedForIssuer. case_bool_decide as Hl; [|apply bool_decide_eq_true].
    destruct (getV0Allowlist al); [|done]. by rewrite elem_of_nil. }
  assert (Hcut : isV0CutoffPassed cu now = false ↔ ∃ t, cu = Some (Some t) ∧ now ≤ t).
  { destruct cu as [[t|]|]; simpl; [rewrite Z.ltb_ge|..]; naive_solver. }
  unfold validateSchema.
  rewrite (bool_decide_eq_true_2 (js "0" ∈ SUPPORTED_VERSIONS)) by (by left).
  rewrite (decide_True (P := js "0" = js "0")) by done. cbn [negb].
  destruct (bool_decide (ty ∈ SUPPORTED_TYPES)) eqn:Hty; cbn [negb]; bool_to_prop.
  2: { split; [|done]. split; [done|]. intros (-> & _). exfalso. apply Hty. by left. }
  destruct (checkSizeAndDepth (JObj fs) 0) as [[]|e] eqn:Hc; unfold mbind, result_bind.
  2: { split; [naive_solver|]. intros m [= ->]. by apply checkSize_error in Hc as [? [=]]. }
  destruct (bool_decide (ty = js "behavioral")) eqn:Hb; cbn [negb]; bool_to_prop; [|unfold fail; naive_solver].
  destruct iss as [[|c i]|]; [unfold fail; naive_solver| |unfold fail; naive_solver].
  destruct (isV0AllowedForIssuer al (c :: i)) eqn:Ha; cbn [negb].
  - apply Hallow in Ha. destruct (isV0CutoffPassed cu now) eqn:Hp.
    + split; [|naive_solver]. split; [done|]. intros (_ & _ & i' & t & [= <-] & _ & _ & Ht).
      exfalso. assert (true = false) by (apply Hcut; eauto). done.
    + split; [|done]. split; [|done]. intros _. destruct (proj1 Hcut eq_refl) as (t & ? & ?).
      split_and!; [done|done|]. exists (c :: i), t. done.
  - split; [|done]. split; [done|]. intros (_ & _ & i' & t & [= <-] & _ & Hin & _).
    apply Hallow in Hin. congruence.
Qed.

End SchemaValidator.
