(* ===== verification/Attestations.v ===== *)
(** * Attestation ingest

    [src/control-plane/src/grpc/trustEngineClient.ts] (in-process verification of
    the signed token), [domains/attestation/jws.ts] (pre-parsing),
    [attestationRepository.ts] and [attestationService.ts].

    The record [env] holds what the code takes from its surroundings: the clock,
    the environment variables of [LegacyConfig], generated ids, and the library
    functions that are not modelled further: SHA-256, Ed25519 verification,
    base64url and JSON decoding of a token segment, the numeric value of a string
    and of [new Date(x * 1000)]. *)

From stdpp Require Import base gmap strings numbers sorting list.
From Stdlib Require Import ZArith Lia.
From S2P Require Import Prelude Json Errors Db Principals Canonicalize SchemaValidator.

Record env := mkEnv {
  e_now : Z;                                   (** [Date.now()] *)
  e_allowlist : option jstr;                   (** [BEHAVIORAL_V0_ALLOWLIST] *)
  e_cutoff : option (option Z);                (** [BEHAVIORAL_V0_CUTOFF], as a date *)
  e_uuid : jstr;                               (** id of a new principal *)
  e_row_id : jstr;                             (** id of a new attestation row *)
  e_sha256hex : jstr → jstr;
  e_decode : jstr → option json;               (** [JSON.parse(Buffer.from(x, 'base64url').toString('utf8'))] *)
  e_parse : jstr → option json;                (** [JSON.parse(x)] *)
  e_decode_bytes : jstr → list Z;              (** [Buffer.from(x, 'base64')] *)
  e_verify : list Z → jstr → list Z → bool;    (** Ed25519: raw key, signed input, signature *)
  e_string_to_number : jstr → number;          (** [Number(s)] of a string *)
  e_date : number → option Z                   (** [new Date(x * 1000)]; [None] for Invalid Date *)
}.

(** ** Coercions *)
Module Coerce.

(** [Number(v)] *)
Definition Number_ (e : env) (v : json) : number :=
  match v with
  | JUndef => NaN
  | JNull => num_of_Z 0
  | JBool b => num_of_Z (if b then 1 else 0)
  | JNum n => n
  | JStr s => e_string_to_number e s
  | JArr _ => e_string_to_number e (String_ v)
  | JObj _ => NaN
  end.

End Coerce.

(** ** [trustEngineClient.ts] *)
Module Verifier.
Import Coerce.

Record KeyCandidate := mkCandidate { kc_keyId : jstr; kc_publicKeyRaw : list Z }.

Record VerifyPayload := mkVP {
  vp_attestationType : jstr;
  vp_facts : json;                (** the value [factsJson] parses to *)
  vp_trustLevelDelta : number;
  vp_trustLevelDeltaProvided : bool;
  vp_issuedAtUnix : number;
  vp_expiresAtUnix : number;
  vp_jti : jstr;
  vp_schemaVersion : jstr;
  vp_visibility : jstr;
  vp_visibilityProvided : bool;
  vp_observationId : jstr
}.

Inductive VerifyResult :=
| Valid (verifiedKeyId issuerId subjectId : jstr) (payload : VerifyPayload)
| Invalid (error : jstr).

(** [token.split('.')] *)
Fixpoint split_dot (cur s : jstr) : list jstr :=
  match s with
  | [] => [cur]
  | c :: s' => if c =? 46 then cur :: split_dot [] s' else split_dot (cur ++ [c]) s'
  end.

Definition toPayload (e : env) (p : json) : result exn VerifyPayload :=
  let vli := match get p "vli" with JObj fs => JObj fs | JArr l => JArr l | _ => p end in
  let explicitVersion := nullish (get vli "schema_version") (get vli "schemaVersion") in
  let schemaVersion := if is_nullish explicitVersion then [] else String_ explicitVersion in
  let rawDelta := nullish (get vli "trust_level_delta") (get vli "trustLevelDelta") in
  let trustLevelDelta := if is_nullish rawDelta then None else Some (Number_ e rawDelta) in
  if match trustLevelDelta with Some n => isNaN n | None => false end
  then Throw (EError (js "trust_level_delta is not a valid number"))
  else
    let rawVisibility := if is_nullish (get vli "visibility") then None else Some (String_ (get vli "visibility")) in
    facts ← match nullish (get vli "facts") (JObj []) with
            | JStr s => match e_parse e s with
                        | Some v => Ok v
                        | None => Throw (EError (js "facts string is not valid JSON"))
                        end
            | JObj fs => Ok (JObj fs)
            | JArr l => Ok (JArr l)
            | _ => Ok (JObj [])
            end;
    Ok (mkVP (String_ (nullish (nullish (get vli "type") (get vli "attestation_type")) (JStr [])))
             facts (default (num_of_Z 0) trustLevelDelta) (bool_decide (is_Some trustLevelDelta))
             (Number_ e (nullish (get p "iat") (JNum (num_of_Z 0))))
             (Number_ e (nullish (get p "exp") (JNum (num_of_Z 0))))
             (String_ (nullish (get p "jti") (JStr [])))
             schemaVersion (default (js "participants") rawVisibility) (bool_decide (is_Some rawVisibility))
             (String_ (nullish (nullish (get vli "observation_id") (get vli "observationId")) (JStr [])))).

(** The loop over the candidate keys; [ed25519PublicKey] only fails on a key
    that is not 32 bytes. *)
Fixpoint try_keys (e : env) (signedInput : jstr) (signature : list Z) (payload : json)
    (issuerId subjectId : jstr) (ks : list KeyCandidate) : result exn VerifyResult :=
  match ks with
  | [] => Ok (Invalid (js "no candidate key verified the token"))
  | c :: ks' =>
      if negb (bool_decide (length (kc_publicKeyRaw c) = 32%nat))
         || negb (e_verify e (kc_publicKeyRaw c) signedInput signature)
      then try_keys e signedInput signature payload issuerId subjectId ks'
      else
        vp ← toPayload e payload;
        let now := num_of_Z (e_now e / 1000) in
        if num_ltb (num_of_Z 0) (vp_expiresAtUnix vp) && negb (num_ltb now (vp_expiresAtUnix vp))
        then Ok (Invalid (js "token expired at " ++ num_to_string (vp_expiresAtUnix vp)))
        else Ok (Valid (kc_keyId c) issuerId subjectId vp)
  end.

Definition verifyAttestation (e : env) (jwsToken : jstr) (candidateKeys : list KeyCandidate) :
  result exn VerifyResult :=
  if bool_decide (jwsToken = []) then Ok (Invalid (js "jws_token is required"))
  else if bool_decide (length candidateKeys = 0%nat) then Ok (Invalid (js "no candidate keys provided"))
  else match split_dot [] jwsToken with
  | [headerB64; payloadB64; signatureB64] =>
      match e_decode e headerB64, e_decode e payloadB64 with
      | Some header, Some payload =>
          if is_nullish header then Throw (EError (js "TypeError")) else
          let alg := String_ (nullish (get header "alg") (JStr [])) in
          if negb (bool_decide (alg = js "EdDSA")) && negb (bool_decide (alg = js "Ed25519"))
          then Ok (Invalid (js "unsupported alg: " ++ alg))
          else if is_nullish payload then Throw (EError (js "TypeError"))
          else
            let issuerId := String_ (nullish (get payload "iss") (JStr [])) in
            let subjectId := String_ (nullish (get payload "sub") (JStr [])) in
            if bool_decide (issuerId = []) then Ok (Invalid (js "JWS missing iss claim"))
            else if bool_decide (subjectId = []) then Ok (Invalid (js "JWS missing sub claim"))
            else try_keys e (headerB64 ++ [46] ++ payloadB64) (e_decode_bytes e signatureB64) payload
                   issuerId subjectId candidateKeys
      | _, _ => Ok (Invalid (js "malformed JWS"))
      end
  | _ => Ok (Invalid (js "malformed JWS: invalid JWS: expected 3 compact parts"))
  end.

End Verifier.

(** ** [jws.ts] *)
Module Jws.
Import Coerce Verifier.

(** [/^[A-Za-z0-9_-]*$/] *)
Definition base64url_char (c : Z) : bool :=
  ((65 <=? c) && (c <=? 90)) || ((97 <=? c) && (c <=? 122)) || is_digit c || (c =? 95) || (c =? 45).

Definition preParseJWS (e : env) (token : jstr) : result jstr (json * json) :=
  match split_dot [] token with
  | [h; p; _] =>
      if negb (forallb base64url_char h) || negb (forallb base64url_char p)
      then Throw (js "jws: invalid base64url encoding")
      else match e_decode e h, e_decode e p with
      | Some header, Some payload =>
          if negb (SchemaValidator.is_object header) then Throw (js "jws: header must be an object")
          else if negb (SchemaValidator.is_object payload) then Throw (js "jws: payload must be an object")
          else match get header "alg" with
               | JStr (_ :: _) => Ok (header, payload)
               | _ => Throw (js "jws: header.alg is required")
               end
      | _, _ => Throw (js "jws: invalid JSON in header or payload")
      end
  | _ => Throw (js "jws: expected 3 compact serialization parts")
  end.

End Jws.

(** ** [attestationRepository.ts] *)
Module AttestationRepo.

(** The constraints of the table (migrations 002 and 016). An INTEGER column
    refuses a number that is not an integer (22P02), a timestamp column an
    invalid date (22007). *)
Definition invalid_text : jstr := js "22P02".
Definition invalid_datetime : jstr := js "22007".

Record NewAttestation := mkNew {
  na_issuerId : jstr; na_subjectId : jstr; na_jwsToken : jstr; na_tokenDigest : jstr;
  na_payload : json; na_facts : json; na_factsHash : jstr; na_visibility : jstr;
  na_trustDelta : number; na_attestationType : jstr; na_schemaVersion : jstr;
  na_jti : option jstr; na_observationId : option jstr;
  na_issuedAt : option Z;            (** [None]: Invalid Date *)
  na_expiresAt : option (option Z);  (** [None]: absent *)
  na_verifiedKeyId : jstr; na_bootstrapOrigin : bool
}.

Definition findByTokenDigest (digest : jstr) (d : db) : option Attestation :=
  head (filter (λ a, a_token_digest a = digest) (map_to_list (attestations d)).*2).

Definition findById (id : jstr) (d : db) : option Attestation := attestations d !! id.

Definition findObservationPeer (issuerId subjectId observationId : jstr) (d : db) : option Attestation :=
  head (filter (λ a, a_issuer_id a = issuerId ∧ a_subject_id a = subjectId ∧
                     a_observation_id a = Some observationId) (map_to_list (attestations d)).*2).

Definition truthy_str (o : option jstr) : option jstr := match o with Some [] => None | _ => o end.

Definition sign_ok (ty : jstr) (delta : Z) : bool :=
  if decide (ty = js "negative_incident") then delta <? 0 else 0 <=? delta.

Definition createAttestation (now : Z) (id : jstr) (a : NewAttestation) : M Attestation := λ d,
  match num_to_Z (na_trustDelta a), na_issuedAt a, na_expiresAt a with
  | None, _, _ => (Throw (EPg invalid_text), d)
  | _, None, _ | _, _, Some None => (Throw (EPg invalid_datetime), d)
  | Some delta, Some issued, exp =>
      if negb (bool_decide (na_visibility a ∈ [js "participants"; js "public"]))
         || (delta <? -100) || (100 <? delta) || negb (sign_ok (na_attestationType a) delta)
      then (Throw (EPg check_violation), d)
      else if bool_decide (is_Some (attestations d !! id))
              || bool_decide (is_Some (findByTokenDigest (na_tokenDigest a) d))
      then (Throw (EPg unique_violation), d)
      else if negb (bool_decide (is_Some (issuers d !! na_issuerId a)))
              || negb (bool_decide (is_Some (principals d !! na_subjectId a)))
              || negb (bool_decide (is_Some (principal_keys d !! (na_issuerId a, na_verifiedKeyId a))))
      then (Throw (EPg foreign_key_violation), d)
      else
        let row := mkAttestation id (na_issuerId a) (na_subjectId a) (na_jwsToken a) (na_tokenDigest a)
          (na_payload a) (na_facts a) (na_factsHash a) (na_visibility a) delta (na_attestationType a)
          (na_schemaVersion a) (truthy_str (na_jti a)) (truthy_str (na_observationId a)) issued
          (default None exp) None true (na_verifiedKeyId a) now (na_bootstrapOrigin a) in
        (Ok row, set_attestations (<[id := row]> (attestations d)) d)
  end.

End AttestationRepo.

(** ** [attestationService.ts] *)
Module AttestationService.
Import Coerce Verifier Jws AttestationRepo PrincipalRepo SchemaValidator LegacyConfig.

Definition bad_request {A} (msg : jstr) : result exn A := throw_app BAD_REQUEST msg.

(** [/^[0-9a-f]{8}-[0-9a-f]{4}-[0-9a-f]{4}-[0-9a-f]{4}-[0-9a-f]{12}$/i] *)
Definition hex_char (c : Z) : bool :=
  is_digit c || ((97 <=? c) && (c <=? 102)) || ((65 <=? c) && (c <=? 70)).
Definition is_uuid (s : jstr) : bool :=
  bool_decide (length s = 36%nat) &&
  forallb (λ '(i, c), if bool_decide (i ∈ [8; 13; 18; 23]%nat) then c =? 45 else hex_char c) (imap pair s).

Definition vrl_prefix : jstr := js "vrl:p:".
Definition has_prefix (p s : jstr) : bool := bool_decide (take (length p) s = p).

(** Steps 1 and 2 of the claims: what the token says before it is verified. *)
Definition pre_parse (e : env) (jwsToken : jstr) : result exn (json * json * option jstr * option Z) :=
  match preParseJWS e jwsToken with
  | Throw msg => bad_request (js "malformed JWS: " ++ msg)
  | Ok (header, payload) =>
      let iss := get payload "iss" in
      let kid := if truthy (get header "kid") then Some (String_ (get header "kid")) else None in
      if negb (truthy iss) then bad_request (js "JWS missing iss claim")
      else if negb (truthy (get payload "iat")) then bad_request (js "JWS missing iat claim")
      else Ok (header, payload, kid, e_date e (Number_ e (get payload "iat")))
  end.

(** Step 3: the candidate keys, valid at [iat]. A query with an invalid date
    fails. *)
Definition candidate_keys (issuerId : jstr) (kid : option jstr) (iat : option Z) : M (list PrincipalKey) :=
  match iat with
  | None => throw (EPg invalid_datetime)
  | Some t =>
      match kid with
      | Some k =>
          key ← getKeyByKid issuerId k (Some t);
          match key with
          | Some key => mret [key]
          | None => lift (bad_request (js "unknown key id: " ++ k ++ js " for issuer " ++ issuerId))
          end
      | None => getActiveKeysAt issuerId t
      end
  end.

(** Steps 5 to 8: checks on the verified payload. Returns the schema version,
    whether this is the legacy path, and the facts hash. *)
Definition check_payload (e : env) (kid : option jstr) (issuer : jstr) (vp : VerifyPayload) :
  result exn (jstr * bool * jstr) :=
  let allow := isV0AllowedForIssuer (e_allowlist e) issuer in
  version ← match vp_schemaVersion vp with
            | [] => if allow then Ok (js "0")
                    else bad_request (js "schema_version is required for native issuers")
            | v => Ok v
            end;
  let isLegacy := allow && bool_decide (version = js "0") in
  _ ← guard_or (bool_decide (is_Some kid) || isLegacy)
        (EApp (app_error BAD_REQUEST (js "kid is required for native v1 attestations")));
  _ ← guard_or (isLegacy || vp_trustLevelDeltaProvided vp)
        (EApp (app_error BAD_REQUEST (js "trust_level_delta is required for native v1 attestations")));
  _ ← guard_or (isLegacy || vp_visibilityProvided vp)
        (EApp (app_error BAD_REQUEST (js "visibility is required for native v1 attestations")));
  _ ← match validateSchema (e_allowlist e) (e_cutoff e) (e_now e) (vp_attestationType vp) version
              (vp_facts vp) (Some issuer) with
      | Ok _ => Ok tt
      | Throw (SchemaValidationExpiredError m) => throw_app UNPROCESSABLE (js "schema validation failed: " ++ m)
      | Throw (SchemaValidationError m) => bad_request (js "schema validation failed: " ++ m)
      end;
  let delta := vp_trustLevelDelta vp in
  _ ← guard_or (negb (num_ltb delta (num_of_Z (-100))) && negb (num_ltb (num_of_Z 100) delta))
        (EApp (app_error BAD_REQUEST (js "trust_delta must be between -100 and 100")));
  let isNegative := bool_decide (vp_attestationType vp = js "negative_incident") in
  _ ← guard_or (negb isNegative || num_ltb delta (num_of_Z 0))
        (EApp (app_error BAD_REQUEST (js "negative_incident must have negative trust_delta")));
  _ ← guard_or (isNegative || negb (num_ltb delta (num_of_Z 0)))
        (EApp (app_error BAD_REQUEST (js "non-negative_incident must have non-negative trust_delta")));
  let visibility := vp_visibility vp in
  _ ← guard_or (bool_decide (visibility = js "participants") || bool_decide (visibility = js "public"))
        (EApp (app_error BAD_REQUEST (js "visibility must be 'participants' or 'public', got '" ++ visibility ++ js "'")));
  factsHash ← match Canonicalize.computeFactsHash (e_sha256hex e) (vp_facts vp) with
              | Ok h => Ok h
              | Throw _ => bad_request (js "facts_hash computation failed")
              end;
  Ok (version, isLegacy, factsHash).

(** Step 9: the subject's principal id. *)
Definition resolve_subject (e : env) (isLegacy : bool) (verifiedSubjectId : jstr) : M jstr :=
  if isLegacy && negb (has_prefix vrl_prefix verifiedSubjectId) then
    p ← findOrCreateByLegacyDID (e_now e) (e_uuid e) (λ d, d) verifiedSubjectId;
    mret (p_id p)
  else if negb (has_prefix vrl_prefix verifiedSubjectId) then
    lift (bad_request (js "native v1 subject must be vrl:p:<uuid>, got: " ++ verifiedSubjectId))
  else if negb (is_uuid (drop (length vrl_prefix) verifiedSubjectId)) then
    lift (bad_request (js "native v1 subject has invalid UUID: " ++ verifiedSubjectId))
  else
    subject ← getPrincipal verifiedSubjectId;
    _ ← match subject with
        | Some p => mret (Some p)
        | None => createPrincipal (e_now e) verifiedSubjectId (js "agent") None None None
        end;
    mret verifiedSubjectId.

(** [peer.trust_delta !== vp.trustLevelDelta] *)
Definition same_delta (z : Z) (n : number) : bool := bool_decide (num_to_Z n = Some z).

(** The pairing check inside the transaction. *)
Definition check_peer (peer : option Attestation) (vp : VerifyPayload) : result exn unit :=
  match peer with
  | None => Ok tt
  | Some p =>
      if negb (bool_decide (a_attestation_type p = vp_attestationType vp))
      then bad_request (js "observation_id pairing mismatch: attestation_type " ++ vp_attestationType vp ++
                        js " conflicts with existing " ++ a_attestation_type p)
      else if negb (same_delta (a_trust_delta p) (vp_trustLevelDelta vp))
      then bad_request (js "observation_id pairing mismatch: trust_delta " ++ num_to_string (vp_trustLevelDelta vp) ++
                        js " conflicts with existing " ++ show_Z (a_trust_delta p))
      else Ok tt
  end.

Definition non_empty (s : jstr) : option jstr := match s with [] => None | _ => Some s end.

Definition duplicate : exn := EApp (app_error CONFLICT (js "attestation already submitted (duplicate token)")).

Definition new_row (e : env) (jwsToken version factsHash keyId issuer subject : jstr) (vp : VerifyPayload) :
  NewAttestation :=
  mkNew issuer subject jwsToken (e_sha256hex e jwsToken)
    (JObj [(js "type", JStr (vp_attestationType vp)); (js "facts", vp_facts vp);
           (js "trust_level_delta", JNum (vp_trustLevelDelta vp)); (js "schema_version", JStr version);
           (js "visibility", JStr (vp_visibility vp)); (js "observation_id", JStr (vp_observationId vp))])
    (vp_facts vp) factsHash (vp_visibility vp) (vp_trustLevelDelta vp) (vp_attestationType vp) version
    (non_empty (vp_jti vp)) (non_empty (vp_observationId vp)) (e_date e (vp_issuedAtUnix vp))
    (if num_ltb (num_of_Z 0) (vp_expiresAtUnix vp) then Some (e_date e (vp_expiresAtUnix vp)) else None)
    keyId false.

(** The transaction of step 10. *)
Definition store (e : env) (jwsToken version factsHash keyId issuer subject : jstr) (vp : VerifyPayload) :
  M Attestation :=
  withTransaction (
    existing ← reads (findByTokenDigest (e_sha256hex e jwsToken));
    _ ← match existing with Some _ => throw duplicate | None => mret tt end;
    _ ← match vp_observationId vp with
        | [] => mret tt
        | o => peer ← reads (findObservationPeer issuer subject o); lift (check_peer peer vp)
        end;
    createAttestation (e_now e) (e_row_id e) (new_row e jwsToken version factsHash keyId issuer subject vp)).

(** [submitAttestation]: the stored row, and whether the score recompute was
    scheduled ([markDirty]). *)
Definition submitAttestation (e : env) (jwsToken : jstr) : M (Attestation * bool) :=
  pre ← lift (pre_parse e jwsToken);
  let '(header, payload, kid, iat) := pre in
  let issuerId := String_ (get payload "iss") in
  issuer ← getPrincipal issuerId;
  _ ← match issuer with
      | None => lift (bad_request (js "unknown issuer: " ++ issuerId)) | Some _ => mret tt end;
  issuerRecord ← getIssuer issuerId;
  _ ← match issuerRecord with
      | None => lift (bad_request (js "principal " ++ issuerId ++ js " is not an issuer")) | Some _ => mret tt end;
  candidateKeys ← candidate_keys issuerId kid iat;
  _ ← match candidateKeys with
      | [] => lift (bad_request (js "no active keys found for issuer " ++ issuerId ++ js " at iat"))
      | _ => mret tt end;
  verifyResult ← lift (verifyAttestation e jwsToken
                         ((λ k, mkCandidate (k_key_id k) (k_public_key_raw k)) <$> candidateKeys));
  match verifyResult with
  | Invalid err => lift (bad_request (js "signature verification failed: " ++ err))
  | Valid keyId verifiedIssuerId verifiedSubjectId vp =>
      checked ← lift (check_payload e kid verifiedIssuerId vp);
      let '(version, isLegacy, factsHash) := checked in
      subjectId ← resolve_subject e isLegacy verifiedSubjectId;
      catch
        (row ← store e jwsToken version factsHash keyId verifiedIssuerId subjectId vp; mret (row, true))
        (λ err, match err with
                | EApp _ => throw err
                | _ => if has_sqlstate unique_violation err then throw duplicate else throw err
                end)
  end.

Definition getAttestation (id : jstr) : M Attestation :=
  att ← reads (findById id);
  match att with
  | None => lift (throw_app NOT_FOUND (js "Attestation " ++ id ++ js " not found"))
  | Some a => mret a
  end.

(** ** Lemmas *)

Lemma try_keys_Valid e si sg p i s ks k i' s' vp :
  try_keys e si sg p i s ks = Ok (Valid k i' s' vp) →
  i' = i ∧ s' = s ∧ toPayload e p = Ok vp ∧
  ∃ c, c ∈ ks ∧ kc_keyId c = k ∧ length (kc_publicKeyRaw c) = 32%nat ∧ e_verify e (kc_publicKeyRaw c) si sg = true.
Proof.
  induction ks as [|c ks IH]; simpl; [done|]. destruct (_ || _) eqn:E.
  - intros (? & ? & ? & c' & ? & ?)%IH. split_and!; try done. exists c'. split; [by right|done].
  - intros (vp' & Hvp & H)%bind_Ok. apply orb_false_iff in E as [E1 E2]. bool_to_prop.
    destruct (_ && _); [done|]. simplify_eq. split_and!; try done. exists c. split_and!; try done. by left.
Qed.

(** What a successful verification has established. *)
Lemma verifyAttestation_Valid e tok ks k i s vp :
  verifyAttestation e tok ks = Ok (Valid k i s vp) →
  ∃ h p sg header payload, split_dot [] tok = [h; p; sg] ∧ e_decode e h = Some header ∧
    e_decode e p = Some payload ∧ toPayload e payload = Ok vp ∧
    i = String_ (nullish (get payload "iss") (JStr [])) ∧
    ∃ c, c ∈ ks ∧ kc_keyId c = k ∧ length (kc_publicKeyRaw c) = 32%nat ∧
         e_verify e (kc_publicKeyRaw c) (h ++ [46] ++ p) (e_decode_bytes e sg) = true.
Proof.
  unfold verifyAttestation. case_bool_decide; [done|]. case_bool_decide; [done|].
  destruct (split_dot [] tok) as [|h [|p [|sg [|]]]]; try done.
  destruct (e_decode e h) as [header|] eqn:Eh; [|done]. destruct (e_decode e p) as [payload|] eqn:Ep; [|done].
  destruct (is_nullish header); [done|]. destruct (_ && _); [done|]. destruct (is_nullish payload); [done|].
  case_bool_decide; [done|]. case_bool_decide; [done|].
  intros (-> & -> & ? & ?)%try_keys_Valid. by exists h, p, sg, header, payload.
Qed.

Lemma findByTokenDigest_None dg d i a :
  findByTokenDigest dg d = None → attestations d !! i = Some a → a_token_digest a ≠ dg.
Proof.
  intros H%head_None Ha Heq. assert (a ∈ filter (λ a, a_token_digest a = dg) (map_to_list (attestations d)).*2) as Hin.
  { apply list_elem_of_filter. split; [done|]. apply list_elem_of_fmap. exists (i, a). split; [done|].
    by apply elem_of_map_to_list. }
  rewrite H in Hin. by apply elem_of_nil in Hin.
Qed.

(** A row that was stored satisfies the table's constraints. *)
Lemma createAttestation_Ok now id a d row d' :
  createAttestation now id a d = (Ok row, d') →
  d' = set_attestations (<[id := row]> (attestations d)) d ∧ attestations d !! id = None ∧
  findByTokenDigest (na_tokenDigest a) d = None ∧
  a_issuer_id row = na_issuerId a ∧ a_subject_id row = na_subjectId a ∧ a_token_digest row = na_tokenDigest a ∧
  a_facts row = na_facts a ∧ a_facts_hash row = na_factsHash a ∧ a_attestation_type row = na_attestationType a ∧
  a_schema_version row = na_schemaVersion a ∧ a_verified_key_id row = na_verifiedKeyId a ∧
  a_observation_id row = truthy_str (na_observationId a) ∧ num_to_Z (na_trustDelta a) = Some (a_trust_delta row) ∧
  -100 ≤ a_trust_delta row ≤ 100 ∧ sign_ok (a_attestation_type row) (a_trust_delta row) = true ∧
  a_visibility row ∈ [js "participants"; js "public"].
Proof.
  unfold createAttestation. destruct (num_to_Z (na_trustDelta a)) as [delta|]; [|done].
  destruct (na_issuedAt a) as [issued|]; [|done].
  destruct (na_expiresAt a) as [[x|]|]; [|done|];
    (destruct (_ || negb (sign_ok _ _)) eqn:E1; [done|]);
    (destruct (_ || bool_decide (is_Some (findByTokenDigest _ _))) eqn:E2; [done|]);
    (destruct (_ || negb (bool_decide (is_Some (principal_keys d !! _)))) eqn:E3; [done|]);
    intros [= <- <-]; simpl;
    rewrite !orb_false_iff, !negb_false_iff, !Z.ltb_ge, !bool_decide_eq_true in E1;
    rewrite !orb_false_iff, !bool_decide_eq_false, <- !eq_None_not_Some in E2;
    destruct E1 as [[[? ?] ?] ?], E2 as [? ?]; split_and!; done || lia.
Qed.

Lemma truthy_nullish v : truthy v = true → nullish v (JStr []) = v.
Proof. by destruct v. Qed.

Lemma pre_parse_Ok e tok header payload kid iat :
  pre_parse e tok = Ok (header, payload, kid, iat) →
  (∃ h p sg, split_dot [] tok = [h; p; sg] ∧ e_decode e p = Some payload) ∧ truthy (get payload "iss") = true ∧
  iat = e_date e (Number_ e (get payload "iat")).
Proof.
  unfold pre_parse, preParseJWS. destruct (split_dot [] tok) as [|h [|p [|sg [|]]]]; try done.
  destruct (_ || _); [done|].
  destruct (e_decode e h) as [hd|]; [|done]. destruct (e_decode e p) as [pl|] eqn:Ep; [|done].
  destruct (negb (is_object hd)); [done|]. destruct (negb (is_object pl)); [done|].
  destruct (get hd "alg") as [| | | |[|]| |]; try done.
  destruct (truthy (get pl "iss")) eqn:Ei; [|done]. destruct (truthy (get pl "iat")); [|done]. simpl.
  intros [= <- <- <- <-]. split; [by exists h, p, sg|done].
Qed.

(** The keys a row of [principal_keys] sits under are its own. *)
Definition keys_wf (d : db) : Prop :=
  ∀ p k r, principal_keys d !! (p, k) = Some r → k_principal_id r = p ∧ k_key_id r = k.

Lemma candidate_keys_Ok issuer kid iat d ks d' :
  keys_wf d → candidate_keys issuer kid iat d = (Ok ks, d') →
  d' = d ∧ ∃ t, iat = Some t ∧
    Forall (λ k, k_principal_id k = issuer ∧ principal_keys d !! (issuer, k_key_id k) = Some k ∧ key_active_at t k = true) ks.
Proof.
  intros Hwf. unfold candidate_keys. destruct iat as [t|]; [|done]. destruct kid as [kid|].
  - unfold mbind, M_bind, getKeyByKid, reads.
    destruct (principal_keys d !! (issuer, kid)) as [k|] eqn:Ek; [|done].
    destruct (key_active_at t k) eqn:Ea; [|done]. intros [= <- <-]. split; [done|]. exists t. split; [done|].
    destruct (Hwf _ _ _ Ek) as [? Hk]. constructor; [|done]. by rewrite Hk.
  - intros [= <- <-]. split; [done|]. exists t. split; [done|].
    rewrite merge_sort_Permutation. apply Forall_forall. intros k [Ha [Hp Hk]%list_elem_of_filter]%list_elem_of_filter.
    apply list_elem_of_fmap in Hk as ([[p kid] k'] & -> & Hk%elem_of_map_to_list). simpl in *.
    destruct (Hwf _ _ _ Hk) as [? ?]. split_and!; [done|congruence|by apply Is_true_true].
Qed.

Lemma check_payload_Ok e kid issuer vp version legacy h :
  check_payload e kid issuer vp = Ok (version, legacy, h) →
  validateSchema (e_allowlist e) (e_cutoff e) (e_now e) (vp_attestationType vp) version (vp_facts vp) (Some issuer) = Ok tt ∧
  Canonicalize.computeFactsHash (e_sha256hex e) (vp_facts vp) = Ok h.
Proof.
  unfold check_payload. intros H. invert_ok. simplify_eq.
  destruct (validateSchema _ _ _ _ _ _ _) as [[]|[]] eqn:E; try done.
  destruct (Canonicalize.computeFactsHash _ _) eqn:E2; by simplify_eq.
Qed.

(** What resolving the subject may write. *)
Lemma insert_principal_frame r d : attestations (insert_principal r d).2 = attestations d.
Proof. unfold insert_principal. repeat (case_match; try done). Qed.

Lemma createPrincipal_frame now id k o n m d : attestations (createPrincipal now id k o n m d).2 = attestations d.
Proof.
  unfold createPrincipal. case_match; [done|]. case_match; [done|]. unfold mbind, M_bind.
  pose proof (insert_principal_frame (mkPrincipal id k n o (default (JObj []) m) now now (js "active")) d) as HF.
  by destruct (insert_principal _ d) as [[]].
Qed.

Lemma findOrCreate_frame now u did d :
  attestations (findOrCreateByLegacyDID now u (λ d, d) did d).2 = attestations d.
Proof.
  unfold findOrCreateByLegacyDID. case_match; [done|].
  match goal with |- context [insert_principal ?r d] => pose proof (insert_principal_frame r d) as HF end.
  destruct (insert_principal _ d) as [[]]; simpl in *; repeat case_match; done.
Qed.

Lemma resolve_subject_frame e legacy s d : attestations (resolve_subject e legacy s d).2 = attestations d.
Proof.
  unfold resolve_subject, mbind, M_bind. destruct (legacy && _).
  - pose proof (findOrCreate_frame (e_now e) (e_uuid e) s d).
    by destruct (findOrCreateByLegacyDID _ _ _ _ d) as [[]].
  - do 2 (case_match; [done|]). simpl. destruct (principals d !! s); [done|].
    pose proof (createPrincipal_frame (e_now e) s (js "agent") None None None d).
    by destruct (createPrincipal _ _ _ _ _ _ d) as [[]].
Qed.

Lemma store_Ok e tok version h k i s vp d row d' :
  store e tok version h k i s vp d = (Ok row, d') →
  createAttestation (e_now e) (e_row_id e) (new_row e tok version h k i s vp) d = (Ok row, d') ∧
  findByTokenDigest (e_sha256hex e tok) d = None ∧
  (vp_observationId vp ≠ [] → check_peer (findObservationPeer i s (vp_observationId vp) d) vp = Ok tt).
Proof.
  unfold store. rewrite withTransaction_Ok. intros H. unfold mbind, M_bind, reads in H.
  destruct (findByTokenDigest (e_sha256hex e tok) d) eqn:E; [unfold throw in H; done|].
  unfold mret, M_ret in H. destruct (vp_observationId vp) as [|c o]; [by split_and!|].
  unfold lift in H. destruct (check_peer _ vp) as [[]|] eqn:Ep; [|done]. by split_and!.
Qed.

(** *** What a successful submission went through *)

Record accepted (e : env) (tok : jstr) (d : db) (row : Attestation) (d' : db) : Prop := {
  ac_mid : ∃ d1, attestations d1 = attestations d ∧
           d' = set_attestations (<[e_row_id e := row]> (attestations d1)) d1;
  ac_fresh : attestations d !! e_row_id e = None ∧
             (∀ i a, attestations d !! i = Some a → a_token_digest a ≠ a_token_digest row);
  ac_digest : a_token_digest row = e_sha256hex e tok;
  ac_issuer : is_Some (issuers d !! a_issuer_id row);
  ac_key : ∃ key iat h p sg payload,
    principal_keys d !! (a_issuer_id row, a_verified_key_id row) = Some key ∧ key_active_at iat key = true ∧
    split_dot [] tok = [h; p; sg] ∧ e_decode e p = Some payload ∧
    e_date e (Number_ e (get payload "iat")) = Some iat ∧ a_issuer_id row = String_ (get payload "iss") ∧
    e_verify e (k_public_key_raw key) (h ++ [46] ++ p) (e_decode_bytes e sg) = true;
  ac_schema : validateSchema (e_allowlist e) (e_cutoff e) (e_now e) (a_attestation_type row) (a_schema_version row)
                (a_facts row) (Some (a_issuer_id row)) = Ok tt;
  ac_hash : Canonicalize.computeFactsHash (e_sha256hex e) (a_facts row) = Ok (a_facts_hash row);
  ac_delta : -100 ≤ a_trust_delta row ≤ 100 ∧ sign_ok (a_attestation_type row) (a_trust_delta row) = true;
  ac_visibility : a_visibility row ∈ [js "participants"; js "public"];
  ac_pair : ∀ o i a, a_observation_id row = Some o → attestations d !! i = Some a →
    a_issuer_id a = a_issuer_id row → a_subject_id a = a_subject_id row → a_observation_id a = Some o →
    ∃ i' a', attestations d !! i' = Some a' ∧ a_issuer_id a' = a_issuer_id row ∧
      a_subject_id a' = a_subject_id row ∧ a_observation_id a' = Some o ∧
      a_attestation_type a' = a_attestation_type row ∧ a_trust_delta a' = a_trust_delta row
}.

Lemma check_peer_Ok i s o d vp row :
  check_peer (findObservationPeer i s o d) vp = Ok tt →
  num_to_Z (vp_trustLevelDelta vp) = Some (a_trust_delta row) → a_attestation_type row = vp_attestationType vp →
  ∀ j a, attestations d !! j = Some a → a_issuer_id a = i → a_subject_id a = s → a_observation_id a = Some o →
  ∃ j' a', attestations d !! j' = Some a' ∧ a_issuer_id a' = i ∧ a_subject_id a' = s ∧
    a_observation_id a' = Some o ∧ a_attestation_type a' = a_attestation_type row ∧ a_trust_delta a' = a_trust_delta row.
Proof.
  intros Hc Hd Ht j a Hj Hi Hs Ho. destruct (findObservationPeer i s o d) as [p|] eqn:E.
  - unfold check_peer in Hc. destruct (negb (bool_decide _)) eqn:E1; [done|].
    destruct (negb (same_delta _ _)) eqn:E2; [done|]. unfold same_delta in E2. bool_to_prop.
    apply head_Some_elem_of, list_elem_of_filter in E as [(? & ? & ?) Hin].
    apply list_elem_of_fmap in Hin as ([j' p'] & -> & Hin%elem_of_map_to_list). simpl in *.
    exists j', p'. split_and!; congruence.
  - exfalso. apply head_None in E.
    assert (a ∈ filter (λ a, a_issuer_id a = i ∧ a_subject_id a = s ∧ a_observation_id a = Some o)
                  (map_to_list (attestations d)).*2) as Hin.
    { apply list_elem_of_filter. split; [done|]. apply list_elem_of_fmap. exists (j, a). split; [done|].
      by apply elem_of_map_to_list. }
    rewrite E in Hin. by apply elem_of_nil in Hin.
Qed.

Lemma catch_Ok {A} (m : M A) h d a d' :
  catch m h d = (Ok a, d') → m d = (Ok a, d') ∨ ∃ e d1, m d = (Throw e, d1) ∧ h e d1 = (Ok a, d').
Proof. unfold catch. destruct (m d) as [[a1|e1] d1]; [by left|]. right. eauto. Qed.

Lemma submitAttestation_accepted e tok d row b d' :
  keys_wf d → submitAttestation e tok d = (Ok (row, b), d') → b = true ∧ accepted e tok d row d'.
Proof.
  intros Hwf H. unfold submitAttestation in H.
  apply M_bind_Ok in H as ([[[header payload] kid] iat] & d0 & Hpre & H). injection Hpre as Hpre <-.
  apply pre_parse_Ok in Hpre as ((h & p & sg & Hsplit & Hdec) & Htruthy & Hiat).
  set (iss := String_ (get payload "iss")) in *.
  apply M_bind_Ok in H as (issuer & d1 & Hp & H). injection Hp as <- <-.
  destruct (principals d !! iss); [|done]. apply M_bind_Ok in H as ([] & d1 & [= <-] & H).
  apply M_bind_Ok in H as (rec & d1 & Hi & H). injection Hi as <- <-.
  destruct (issuers d !! iss) eqn:Hiss; [|done]. apply M_bind_Ok in H as ([] & d1 & [= <-] & H).
  apply M_bind_Ok in H as (ks & d1 & Hks & H). apply candidate_keys_Ok in Hks as (-> & t & -> & Hkeys); [|done].
  destruct ks as [|k0 ks]; [done|]. apply M_bind_Ok in H as ([] & d1 & [= <-] & H).
  apply M_bind_Ok in H as ([kid' vi vs vp|] & d1 & Hv & H); [|done]. injection Hv as Hv <-.
  apply verifyAttestation_Valid in Hv as (h' & p' & sg' & header' & payload' & Hsplit' & _ & Hdec' & _ & Hvi & c & Hc & <- & Hlen & Hver).
  rewrite Hsplit in Hsplit'. injection Hsplit' as <- <- <-. rewrite Hdec in Hdec'. injection Hdec' as <-.
  rewrite truthy_nullish in Hvi by done. fold iss in Hvi. subst vi.
  apply M_bind_Ok in H as ([[version legacy] fh] & d1 & Hchk & H). injection Hchk as Hchk <-.
  apply check_payload_Ok in Hchk as [Hschema Hhash].
  apply M_bind_Ok in H as (subj & d2 & Hsub & H).
  pose proof (resolve_subject_frame e legacy vs d) as Hframe. rewrite Hsub in Hframe. simpl in Hframe.
  apply catch_Ok in H as [H|(err & d3 & _ & Hh)].
  2: { exfalso. destruct err; unfold throw in Hh; [done|destruct (has_sqlstate _ _); done|done]. }
  apply M_bind_Ok in H as (row' & d3 & Hst & H). injection H as <- <- <-. split; [done|].
  apply store_Ok in Hst as (Hcr & Hdup & Hpeer).
  apply createAttestation_Ok in Hcr as (-> & Hid & _ & Ei & Es & Ed & Ef & Eh & Et & Ev & Ek & Eo & Edl & Hrange & Hsign & Hvis).
  change (c ∈ (λ k, mkCandidate (k_key_id k) (k_public_key_raw k)) <$> (k0 :: ks)) in Hc.
  apply list_elem_of_fmap in Hc as (key & -> & Hkey). simpl in *.
  rewrite Forall_forall in Hkeys. destruct (Hkeys key Hkey) as (_ & Hkl & Hact).
  assert (Hfresh : ∀ j a, attestations d !! j = Some a → a_token_digest a ≠ e_sha256hex e tok).
  { intros j a. rewrite <- Hframe. by apply findByTokenDigest_None. }
  split; rewrite ?Ei, ?Es, ?Ed, ?Ef, ?Eh, ?Et, ?Ev, ?Ek, ?Eo; try done.
  - exists d2. done.
  - split; [by rewrite <- Hframe|done].
  - exists key, t, h, p, sg, payload. split_and!; done.
  - split; [done|]. by rewrite <- Et.
  - intros o j a Hoo Hj Hai Has Hao. rewrite <- Hframe in Hj |- *.
    destruct (vp_observationId vp) as [|oc ot] eqn:Evo; [done|]. simpl in Hoo. injection Hoo as <-.
    rewrite <- Et. eapply (check_peer_Ok iss subj (oc :: ot) d2 vp row'); eauto.
Qed.

(** ** Properties *)

(** C11. Only verified, valid attestations are stored. When a submission
    succeeds, exactly one row was added; it was signed, over this token's signing
    input, by a key that is registered to the row's issuer and was active at the
    token's issue time; the issuer is registered; the facts satisfy the schema of
    the row's type and version and the hash is the canonical one; the trust delta
    is within [-100,100] with the sign its type demands; the visibility is a known
    one; no earlier row has the same token digest; and the score recompute was
    scheduled. *)
Theorem stored_attestations_are_verified e tok d row b d' :
  keys_wf d → submitAttestation e tok d = (Ok (row, b), d') → b = true ∧ accepted e tok d row d'.
Proof. apply submitAttestation_accepted. Qed.

(** The pairing invariant: attestations of one observation agree on type and
    delta. *)
Definition paired_ok (d : db) : Prop :=
  ∀ i j a b o, attestations d !! i = Some a → attestations d !! j = Some b →
    a_issuer_id a = a_issuer_id b → a_subject_id a = a_subject_id b →
    a_observation_id a = Some o → a_observation_id b = Some o →
    a_attestation_type a = a_attestation_type b ∧ a_trust_delta a = a_trust_delta b.

(** Split-visibility pairs stay consistent: if all stored attestations of
    an observation (same issuer, subject and observation id) agree on type and
    trust delta, they still do after any successful submission. *)
Theorem submission_keeps_pairs_consistent e tok d row b d' :
  keys_wf d → paired_ok d → submitAttestation e tok d = (Ok (row, b), d') → paired_ok d'.
Proof.
  intros Hwf HP [_ []]%submitAttestation_accepted; [|done]. destruct ac_mid0 as (d1 & Heq & ->).
  assert (Hrow : ∀ i a o, attestations d !! i = Some a → a_issuer_id a = a_issuer_id row →
    a_subject_id a = a_subject_id row → a_observation_id a = Some o → a_observation_id row = Some o →
    a_attestation_type a = a_attestation_type row ∧ a_trust_delta a = a_trust_delta row).
  { intros i a o Hi H1 H2 H3 H4.
    destruct (ac_pair0 o i a H4 Hi H1 H2 H3) as (i' & a' & Hi' & H1' & H2' & H3' & <- & <-).
    apply (HP i i' a a' o); congruence. }
  intros i j a c o. simpl. rewrite Heq, !lookup_insert_Some.
  intros [[<- <-]|[_ Ha]] [[<- <-]|[_ Hc]] H1 H2 H3 H4.
  - done.
  - destruct (Hrow j c o) as [-> ->]; done.
  - by apply (Hrow i a o).
  - by apply (HP i j a c o).
Qed.

(** *** Failures *)

(** Code that does not write attestations, and code that does not when it
    throws. *)
Definition keeps {A} (m : M A) : Prop := ∀ d, attestations (m d).2 = attestations d.
Definition keeps_on_throw {A} (m : M A) : Prop :=
  ∀ d e d', m d = (Throw e, d') → attestations d' = attestations d.

Lemma keeps_throw {A} (m : M A) : keeps m → keeps_on_throw m.
Proof. intros H d e d' E. specialize (H d). by rewrite E in H. Qed.

Lemma keeps_bind_throw {A B} (m : M A) (k : A → M B) :
  keeps m → (∀ a, keeps_on_throw (k a)) → keeps_on_throw (m ≫= k).
Proof.
  intros Hm Hk d e d'. unfold mbind, M_bind. specialize (Hm d). destruct (m d) as [[a|e1] d1]; simpl in Hm.
  - intros H%Hk. congruence.
  - intros [= <- <-]. done.
Qed.

Lemma keeps_read {A} (f : db → A) : keeps (reads f).
Proof. done. Qed.
Lemma keeps_lift {A} (r : result exn A) : keeps (lift r).
Proof. done. Qed.

Lemma candidate_keys_keeps issuer kid iat : keeps (candidate_keys issuer kid iat).
Proof.
  intros d. unfold candidate_keys. destruct iat as [t|]; [|done]. destruct kid; [|done].
  unfold mbind, M_bind, getKeyByKid, reads. by repeat (case_match; simplify_eq; try done).
Qed.

Lemma transaction_keeps_on_throw {A} (m : M A) : keeps_on_throw (withTransaction m).
Proof. intros d e d' ->%withTransaction_throw. done. Qed.

(** C24. A refused submission stores nothing: whatever the reason (malformed
    token, unknown issuer or key, bad signature, schema or range violation,
    duplicate, database error), the attestations are what they were. *)
Theorem refused_submission_stores_nothing e tok d err d' :
  submitAttestation e tok d = (Throw err, d') → attestations d' = attestations d.
Proof.
  revert d err d'. change (keeps_on_throw (submitAttestation e tok)). unfold submitAttestation.
  apply keeps_bind_throw; [apply keeps_lift|]. intros [[[h p] kid] iat].
  apply keeps_bind_throw; [apply keeps_read|]. intros issuer.
  apply keeps_bind_throw; [by destruct issuer|]. intros _.
  apply keeps_bind_throw; [apply keeps_read|]. intros rec.
  apply keeps_bind_throw; [by destruct rec|]. intros _.
  apply keeps_bind_throw; [apply candidate_keys_keeps|]. intros ks.
  apply keeps_bind_throw; [by destruct ks|]. intros _.
  apply keeps_bind_throw; [apply keeps_lift|]. intros [k i s vp|]; [|by apply keeps_throw, keeps_lift].
  apply keeps_bind_throw; [apply keeps_lift|]. intros [[v l] fh].
  apply keeps_bind_throw; [intros d; apply resolve_subject_frame|]. intros subj d er d1.
  unfold catch, mbind, M_bind.
  destruct (store e tok v fh k i subj vp d) as [[row|e1] d2] eqn:E; [done|].
  apply transaction_keeps_on_throw in E. rewrite <- E.
  destruct e1; unfold throw; repeat case_match; by intros [= <- <-].
Qed.

(** ** Witnesses: a token of three one-letter segments *)

Definition sample_payload : json :=
  JObj [(js "iss", JStr (js "vrl:p:i")); (js "sub", JStr (js "vrl:p:00000000-0000-4000-8000-000000000002"));
        (js "iat", JNum (num_of_Z 100));
        (js "vli", JObj [(js "type", JStr (js "behavioral"));
                         (js "facts", JObj [(js "observation_ts", JStr (js "now"))]);
                         (js "trust_level_delta", JNum (num_of_Z 10)); (js "schema_version", JStr (js "1"));
                         (js "visibility", JStr (js "public"))])].

Definition sample_env : env :=
  mkEnv 200000 None None (js "u") (js "row1") (λ s, js "h" ++ s)
    (λ s, if decide (s = js "H") then Some (JObj [(js "alg", JStr (js "EdDSA")); (js "kid", JStr (js "k1"))])
          else if decide (s = js "P") then Some sample_payload else None)
    (λ _, None) (λ s, s) (λ k input sg, bool_decide (sg = js "S")) (λ _, NaN)
    (λ n, (λ z, z * 1000) <$> num_to_Z n).

Definition sample_ingest_db : db :=
  set_principals {[js "vrl:p:i" := mkPrincipal (js "vrl:p:i") (js "issuer") None None (JObj []) 0 0 (js "active")]}
   (set_issuers {[js "vrl:p:i" := mkIssuer (js "vrl:p:i") 100 false None 0]}
    (set_principal_keys
      {[(js "vrl:p:i", js "k1") :=
          mkPrincipalKey (js "vrl:p:i") (js "k1") (repeat 7 32) JNull (js "kh") None 0 None None]} empty_db)).

Lemma sample_keys_wf : keys_wf sample_ingest_db.
Proof. intros p k r H. cbn in H. apply lookup_singleton_Some in H as [[= <- <-] <-]. done. Qed.

Lemma stored_attestations_are_verified_witness :
  ∃ row d', submitAttestation sample_env (js "H.P.S") sample_ingest_db = (Ok (row, true), d') ∧
    accepted sample_env (js "H.P.S") sample_ingest_db row d'.
Proof.
  destruct (submitAttestation sample_env (js "H.P.S") sample_ingest_db) as [[[row b]|err] d'] eqn:E;
    [|vm_compute in E; discriminate E].
  destruct (stored_attestations_are_verified _ _ _ _ _ _ sample_keys_wf E) as [-> H].
  exists row, d'. split; [reflexivity|exact H].
Defined.

Lemma submission_keeps_pairs_consistent_witness :
  ∃ row d', submitAttestation sample_env (js "H.P.S") sample_ingest_db = (Ok (row, true), d') ∧ paired_ok d'.
Proof.
  destruct (submitAttestation sample_env (js "H.P.S") sample_ingest_db) as [[[row b]|err] d'] eqn:E;
    [|vm_compute in E; discriminate E].
  assert (b = true) as -> by (vm_compute in E; injection E as _ <- _; reflexivity).
  exists row, d'. split; [reflexivity|].
  refine (submission_keeps_pairs_consistent _ _ _ _ _ _ sample_keys_wf _ E).
  intros i j a c o Hi. discriminate Hi.
Defined.

Lemma refused_submission_stores_nothing_witness :
  ∃ err d', submitAttestation sample_env (js "H.P.X") sample_ingest_db = (Throw err, d') ∧
    attestations d' = attestations sample_ingest_db.
Proof.
  destruct (submitAttestation sample_env (js "H.P.X") sample_ingest_db) as [[rb|err] d'] eqn:E;
    [vm_compute in E; discriminate E|].
  exists err, d'. split; [reflexivity|]. exact (refused_submission_stores_nothing _ _ _ _ _ E).
Defined.

End AttestationService.
