(* ===== verification/Tokens.v ===== *)
(** * Attestation tokens, as the control plane's own signers build them

    [signSeedAttestation] ([domains/bootstrap/seedAttestations.ts]) and
    [signAttestationToken] ([testutil/seedData.ts]) build a token with jose's
    [SignJWT]: a protected header and a claims set, in the order of the builder's
    calls.  What jose does with them is not modelled; [carries] states what a token
    is to the reader of [Attestations]: three parts that decode to the header and
    the claims, with a signature that verifies.

    [claims_accepted] is the counterpart of the ingest's safety theorem: a token
    that carries well-formed native claims of a registered issuer is accepted, and
    the stored row is what the claims say. *)

From stdpp Require Import base gmap strings list.
From Stdlib Require Import ZArith Lia.
From S2P Require Import Prelude Json JsText Errors Db Principals SchemaValidator Canonicalize Attestations.

Module Tokens.
Import Coerce Verifier Jws AttestationRepo AttestationService PrincipalRepo SchemaValidator LegacyConfig.

(** [setProtectedHeader({ alg: 'EdDSA', kid })] *)
Definition protected_header (kid : jstr) : json := JObj [(js "alg", JStr (js "EdDSA")); (js "kid", JStr kid)].

(** The [vli] claim. *)
Record vli := mkVli { v_type : jstr; v_facts : json; v_trust_level_delta : Z; v_visibility : jstr }.

Definition vli_json (v : vli) : json :=
  JObj [(js "type", JStr (v_type v)); (js "facts", v_facts v);
        (js "trust_level_delta", JNum (num_of_Z (v_trust_level_delta v)));
        (js "schema_version", JStr (js "1")); (js "visibility", JStr (v_visibility v))].

(** [new SignJWT({ vli }).setIssuer(...).setSubject(...).setIssuedAt(...)
    .setJti(...)], then [.setExpirationTime(...)] where there is one. *)
Record claims := mkClaims {
  c_vli : vli; c_iss : jstr; c_sub : jstr; c_iat : Z; c_jti : jstr; c_exp : option Z }.

Definition claims_json (c : claims) : json :=
  JObj ([(js "vli", vli_json (c_vli c)); (js "iss", JStr (c_iss c)); (js "sub", JStr (c_sub c));
         (js "iat", JNum (num_of_Z (c_iat c))); (js "jti", JStr (c_jti c))]
        ++ match c_exp c with Some t => [(js "exp", JNum (num_of_Z t))] | None => [] end).

(** ** What a token is to its reader *)

Record carries (e : env) (raw : list Z) (header payload : json) (tok : jstr) : Prop := {
  ca_parts : ∃ h p s, split_dot [] tok = [h; p; s] ∧
    forallb base64url_char h = true ∧ forallb base64url_char p = true ∧
    e_decode e h = Some header ∧ e_decode e p = Some payload ∧
    e_verify e raw (h ++ [46] ++ p) (e_decode_bytes e s) = true
}.

(** The claims a native issuer may make: the conditions of the schema, of the
    value ranges and of the clock. *)
Record native (e : env) (c : claims) : Prop := {
  na_fields : ∃ fs, v_facts (c_vli c) = JObj fs;
  na_schema : validateSchema (e_allowlist e) (e_cutoff e) (e_now e) (v_type (c_vli c)) (js "1")
                (v_facts (c_vli c)) (Some (c_iss c)) = Ok tt;
  na_hash : ∃ h, Canonicalize.computeFactsHash (e_sha256hex e) (v_facts (c_vli c)) = Ok h;
  na_range : -100 ≤ v_trust_level_delta (c_vli c) ≤ 100 ∧
             sign_ok (v_type (c_vli c)) (v_trust_level_delta (c_vli c)) = true;
  na_vis : v_visibility (c_vli c) ∈ [js "participants"; js "public"];
  na_iss : c_iss c ≠ [];
  na_sub : ∃ u, c_sub c = vrl_prefix ++ u ∧ is_uuid u = true;
  na_iat : c_iat c ≠ 0;
  na_exp : match c_exp c with Some t => e_now e / 1000 < t | None => True end;
  na_date : e_date e (num_of_Z (c_iat c)) = Some (c_iat c * 1000) ∧
            ∀ t, c_exp c = Some t → e_date e (num_of_Z t) = Some (t * 1000)
}.

(** The payload the verifier extracts from the claims. *)
Definition payload_of (c : claims) : VerifyPayload :=
  mkVP (v_type (c_vli c)) (v_facts (c_vli c)) (num_of_Z (v_trust_level_delta (c_vli c))) true
    (num_of_Z (c_iat c)) (num_of_Z (default 0 (c_exp c))) (c_jti c) (js "1") (v_visibility (c_vli c)) true [].

Definition row_of (e : env) (c : claims) (tok kid factsHash : jstr) : Attestation :=
  mkAttestation (e_row_id e) (c_iss c) (c_sub c) tok (e_sha256hex e tok)
    (na_payload (new_row e tok (js "1") factsHash kid (c_iss c) (c_sub c) (payload_of c)))
    (v_facts (c_vli c)) factsHash (v_visibility (c_vli c)) (v_trust_level_delta (c_vli c)) (v_type (c_vli c))
    (js "1") (non_empty (c_jti c)) None (c_iat c * 1000)
    (match c_exp c with Some t => if 0 <? t then Some (t * 1000) else None | None => None end)
    None true kid (e_now e) false.

(** ** Lemmas *)

Lemma num_of_Z_nonzero z : z ≠ 0 → truthy (JNum (num_of_Z z)) = true.
Proof.
  intros Hz. unfold truthy. apply negb_true_iff, orb_false_iff. split.
  - unfold num_of_Z, mk_fin. destruct z; [done|destruct (strip_pos _ _); done..].
  - apply bool_decide_eq_false. intros Heq. pose proof (num_to_of_Z z) as H. rewrite Heq in H. by injection H as <-.
Qed.

Lemma isNaN_of_Z z : isNaN (num_of_Z z) = false.
Proof. unfold num_of_Z, mk_fin. destruct z; [done|destruct (strip_pos _ _); done..]. Qed.

Lemma claims_exp c : nullish (get (claims_json c) "exp") (JNum (num_of_Z 0)) = JNum (num_of_Z (default 0 (c_exp c))).
Proof. unfold claims_json. destruct (c_exp c); reflexivity. Qed.

Lemma toPayload_claims e c : (∃ fs, v_facts (c_vli c) = JObj fs) → toPayload e (claims_json c) = Ok (payload_of c).
Proof.
  intros [fs Hf]. destruct c as [[ty fa delta vis] iss sub iat jti ex]. cbn [c_vli v_facts] in Hf. subst fa.
  unfold toPayload. rewrite claims_exp. cbn [c_exp].
  assert (Hn : isNaN (num_of_Z delta) = false) by apply isNaN_of_Z.
  unfold payload_of. cbn [c_vli v_type v_facts v_trust_level_delta v_visibility c_iat c_exp c_jti].
  unfold claims_json, vli_json. cbn [c_vli v_type v_facts v_trust_level_delta v_visibility c_iat c_exp c_jti c_iss c_sub].
  revert Hn. generalize (num_of_Z delta), (num_of_Z iat), (num_of_Z (default 0 ex)). intros n1 n2 n3 Hn.
  cbv -[isNaN]. by rewrite Hn.
Qed.

(** Each step of the ingest on a token that carries the claims. *)
Section accepted.
Context (e : env) (c : claims) (tok kid : jstr) (key : PrincipalKey) (factsHash : jstr).
Hypothesis Hnat : native e c.
Hypothesis Hkid : kid ≠ [].
Hypothesis Hcar : carries e (k_public_key_raw key) (protected_header kid) (claims_json c) tok.
Hypothesis Hlen : length (k_public_key_raw key) = 32%nat.
Hypothesis Hid : k_key_id key = kid.
Hypothesis Hhash : Canonicalize.computeFactsHash (e_sha256hex e) (v_facts (c_vli c)) = Ok factsHash.

Lemma pre_parse_claims :
  pre_parse e tok = Ok (protected_header kid, claims_json c, Some kid, Some (c_iat c * 1000)).
Proof using Hnat Hkid Hcar.
  destruct Hcar as [(h & p & s & Hs & Hh & Hp & Dh & Dp & _)].
  unfold pre_parse, preParseJWS. rewrite Hs, Hh, Hp, Dh, Dp. cbn [negb orb].
  change (is_object (protected_header kid)) with true. change (is_object (claims_json c)) with true. cbn [negb].
  change (match get (protected_header kid) "alg" with JStr (_ :: _) => Ok _ | _ => _ end)
    with (Ok (protected_header kid, claims_json c) : result jstr (json * json)). cbv iota beta.
  change (get (protected_header kid) "kid") with (JStr kid).
  change (get (claims_json c) "iss") with (JStr (c_iss c)).
  change (get (claims_json c) "iat") with (JNum (num_of_Z (c_iat c))).
  rewrite (num_of_Z_nonzero _ (na_iat _ _ Hnat)). cbn [truthy Number_ negb].
  rewrite !bool_decide_eq_false_2 by (done || apply (na_iss _ _ Hnat)). cbn [negb js string_rec].
  by rewrite (proj1 (na_date _ _ Hnat)).
Qed.

Lemma verify_claims :
  verifyAttestation e tok [mkCandidate (k_key_id key) (k_public_key_raw key)]
  = Ok (Valid kid (c_iss c) (c_sub c) (payload_of c)).
Proof using Hnat Hcar Hlen Hid.
  destruct Hcar as [(h & p & s & Hs & Hh & Hp & Dh & Dp & Hv)].
  unfold verifyAttestation. rewrite bool_decide_eq_false_2 by (intros ->; discriminate Hs).
  rewrite bool_decide_eq_false_2 by done. rewrite Hs, Dh, Dp.
  change (String_ (nullish (get (protected_header kid) "alg") (JStr []))) with (js "EdDSA").
  change (String_ (nullish (get (claims_json c) "iss") (JStr []))) with (c_iss c).
  change (String_ (nullish (get (claims_json c) "sub") (JStr []))) with (c_sub c).
  change (is_nullish (protected_header kid)) with false. change (is_nullish (claims_json c)) with false.
  rewrite bool_decide_eq_true_2 by done. cbn [negb andb].
  rewrite bool_decide_eq_false_2 by apply (na_iss _ _ Hnat).
  rewrite bool_decide_eq_false_2 by (destruct (na_sub _ _ Hnat) as (u & -> & _); done).
  cbn [try_keys kc_publicKeyRaw kc_keyId]. rewrite Hlen, Hv, bool_decide_eq_true_2 by done. cbn [negb orb].
  rewrite toPayload_claims by apply (na_fields _ _ Hnat). cbn [mbind result_bind payload_of vp_expiresAtUnix].
  rewrite !num_ltb_int, Hid. pose proof (na_exp _ _ Hnat) as He. destruct (c_exp c) as [t|]; [|done].
  change (default 0 (Some t)) with t. rewrite (proj2 (Z.ltb_lt (e_now e / 1000) t)) by done. by rewrite andb_false_r.
Qed.

Lemma check_claims : check_payload e (Some kid) (c_iss c) (payload_of c) = Ok (js "1", false, factsHash).
Proof using Hnat Hhash.
  unfold check_payload, payload_of. cbn [vp_schemaVersion vp_trustLevelDeltaProvided vp_visibilityProvided
    vp_attestationType vp_facts vp_trustLevelDelta vp_visibility].
  change (match js "1" with [] => _ | v => Ok v end) with (Ok (js "1") : result exn jstr). cbn [mbind result_bind].
  rewrite (bool_decide_eq_false_2 (js "1" = js "0")) by done. rewrite andb_false_r. cbn [orb guard_or mbind result_bind].
  change (bool_decide (is_Some (Some kid))) with true. cbn [orb guard_or mbind result_bind].
  rewrite (na_schema _ _ Hnat), Hhash, !num_ltb_int. destruct (na_range _ _ Hnat) as [Hr Hs]. cbn [mbind result_bind].
  rewrite (proj2 (Z.ltb_ge _ _) (proj1 Hr)), (proj2 (Z.ltb_ge _ _) (proj2 Hr)). cbn [negb andb guard_or mbind result_bind].
  unfold sign_ok in Hs. pose proof (na_vis _ _ Hnat) as Hv. rewrite !elem_of_cons in Hv.
  assert (Hvb : bool_decide (v_visibility (c_vli c) = js "participants")
                || bool_decide (v_visibility (c_vli c) = js "public") = true).
  { destruct Hv as [->|[->|[]%elem_of_nil]]; by vm_compute. }
  rewrite Hvb. destruct (decide (v_type (c_vli c) = js "negative_incident")) as [Ht|Ht].
  - rewrite bool_decide_eq_true_2 by done. by rewrite Hs.
  - rewrite bool_decide_eq_false_2 by done. rewrite (proj2 (Z.ltb_ge _ 0)); [done|]. by apply Z.leb_le.
Qed.

End accepted.

(** Resolving a native subject registers it where it is new and touches nothing
    else. *)
Lemma resolve_native e u d : is_uuid u = true →
  ∃ d1, resolve_subject e false (vrl_prefix ++ u) d = (Ok (vrl_prefix ++ u), d1) ∧
    attestations d1 = attestations d ∧ issuers d1 = issuers d ∧ principal_keys d1 = principal_keys d ∧
    principals d ⊆ principals d1 ∧ is_Some (principals d1 !! (vrl_prefix ++ u)).
Proof.
  intros Hu. unfold resolve_subject. cbn [andb].
  assert (Hp : has_prefix vrl_prefix (vrl_prefix ++ u) = true).
  { unfold has_prefix. rewrite take_app_length. by apply bool_decide_eq_true_2. }
  rewrite Hp, drop_app_length, Hu. cbn [negb]. unfold getPrincipal, reads, mbind, M_bind, mret, M_ret.
  destruct (principals d !! (vrl_prefix ++ u)) as [p|] eqn:Ep.
  { exists d. split_and!; try done. }
  unfold createPrincipal. rewrite bool_decide_eq_true_2 by (by left). cbn [negb]. rewrite Ep.
  unfold insert_principal, mbind, M_bind, mret, M_ret. cbn [p_entity_kind p_id p_metadata p_owner_tenant_id default].
  rewrite bool_decide_eq_true_2 by (by left). rewrite Ep. cbn [negb].
  rewrite bool_decide_eq_false_2 by (by intros [? ?]).
  change (legacy_did (from_option id (JObj []) None)) with (None : option jstr). cbv iota beta.
  eexists. split; [reflexivity|]. cbn. split_and!; try done; [by apply insert_subseteq|].
  rewrite lookup_insert_eq. by eexists.
Qed.

Lemma store_claims e c tok kid factsHash d :
  native e c → attestations d !! e_row_id e = None → findByTokenDigest (e_sha256hex e tok) d = None →
  is_Some (issuers d !! c_iss c) → is_Some (principals d !! c_sub c) → is_Some (principal_keys d !! (c_iss c, kid)) →
  store e tok (js "1") factsHash kid (c_iss c) (c_sub c) (payload_of c) d
  = (Ok (row_of e c tok kid factsHash),
     set_attestations (<[e_row_id e := row_of e c tok kid factsHash]> (attestations d)) d).
Proof.
  intros Hn Hr Hd Hi Hs Hk. unfold store. apply withTransaction_Ok. unfold reads, mbind, M_bind, mret, M_ret.
  rewrite Hd. cbn [vp_observationId payload_of]. fold (payload_of c).
  unfold createAttestation.
  change (na_trustDelta (new_row _ _ _ _ _ _ _ _)) with (num_of_Z (v_trust_level_delta (c_vli c))).
  change (na_issuedAt (new_row _ _ _ _ _ _ _ _)) with (e_date e (num_of_Z (c_iat c))).
  change (na_expiresAt (new_row _ _ _ _ _ _ _ _)) with
    (if num_ltb (num_of_Z 0) (num_of_Z (default 0 (c_exp c)))
     then Some (e_date e (num_of_Z (default 0 (c_exp c)))) else None).
  destruct (na_date _ _ Hn) as [Hdi Hde]. rewrite num_to_of_Z, Hdi, num_ltb_int.
  assert (He : (if 0 <? default 0 (c_exp c) then Some (e_date e (num_of_Z (default 0 (c_exp c)))) else None)
               = Some <$> a_expires_at (row_of e c tok kid factsHash)).
  { unfold row_of. cbn [a_expires_at]. destruct (c_exp c) as [t|]; [|done]. change (default 0 (Some t)) with t.
    rewrite (Hde t) by done. by destruct (0 <? t). }
  rewrite He. destruct (na_range _ _ Hn) as [Hrange Hsign].
  cbn [na_visibility na_attestationType new_row na_tokenDigest na_issuerId na_subjectId na_verifiedKeyId payload_of vp_visibility vp_attestationType].
  rewrite (bool_decide_eq_true_2 (v_visibility (c_vli c) ∈ _)) by apply (na_vis _ _ Hn).
  rewrite (proj2 (Z.ltb_ge _ (-100))), (proj2 (Z.ltb_ge 100 _)) by lia. rewrite Hsign. cbn [negb orb].
  rewrite Hr, Hd. rewrite (bool_decide_eq_true_2 _ Hi), (bool_decide_eq_true_2 _ Hs), (bool_decide_eq_true_2 _ Hk).
  cbn [negb orb]. rewrite !bool_decide_eq_false_2 by (by intros [? ?]). cbn [orb].
  destruct (a_expires_at (row_of e c tok kid factsHash)) eqn:Ea; cbn; unfold row_of in Ea |- *; cbn [a_expires_at] in Ea;
    rewrite Ea; by destruct (c_jti c).
Qed.

(** A registered issuer's native token, new to the database, is accepted. *)
Lemma claims_accepted e c tok kid key h d :
  native e c → kid ≠ [] →
  carries e (k_public_key_raw key) (protected_header kid) (claims_json c) tok →
  length (k_public_key_raw key) = 32%nat → k_key_id key = kid →
  Canonicalize.computeFactsHash (e_sha256hex e) (v_facts (c_vli c)) = Ok h →
  is_Some (principals d !! c_iss c) → is_Some (issuers d !! c_iss c) →
  principal_keys d !! (c_iss c, kid) = Some key → key_active_at (c_iat c * 1000) key = true →
  attestations d !! e_row_id e = None → findByTokenDigest (e_sha256hex e tok) d = None →
  ∃ d1, submitAttestation e tok d = (Ok (row_of e c tok kid h, true), d1) ∧
    attestations d1 = <[e_row_id e := row_of e c tok kid h]> (attestations d).
Proof.
  intros Hn Hkid Hcar Hlen Hid Hh [p Hp] [i Hi] Hkey Hact Hrow Hdig.
  destruct (na_sub _ _ Hn) as (u & Hu & Huuid).
  destruct (resolve_native e u d Huuid) as (d1 & Hres & Ha & His & Hks & Hps & Hsub). rewrite <- Hu in Hres, Hsub.
  exists (set_attestations (<[e_row_id e := row_of e c tok kid h]> (attestations d1)) d1). split; [|cbn; by rewrite Ha].
  unfold submitAttestation. rewrite (M_bind_run _ _ d _ d (f_equal (λ r, (r, d)) (pre_parse_claims _ _ _ _ _ Hn Hkid Hcar))).
  change (String_ (get (claims_json c) "iss")) with (c_iss c). cbv iota beta zeta.
  rewrite (M_bind_run _ _ d (Some p) d) by (unfold getPrincipal, reads; by rewrite Hp).
  rewrite (M_bind_run _ _ d tt d) by done.
  rewrite (M_bind_run _ _ d (Some i) d) by (unfold getIssuer, reads; by rewrite Hi).
  rewrite (M_bind_run _ _ d tt d) by done.
  rewrite (M_bind_run _ _ d [key] d).
  2: { unfold candidate_keys, getKeyByKid, reads, mbind, M_bind. by rewrite Hkey, Hact. }
  rewrite (M_bind_run _ _ d tt d) by done.
  rewrite (M_bind_run _ _ d (Valid kid (c_iss c) (c_sub c) (payload_of c)) d).
  2: { unfold lift. f_equal. by apply verify_claims. }
  rewrite (M_bind_run _ _ d (js "1", false, h) d) by (unfold lift; f_equal; by apply check_claims).
  rewrite (M_bind_run _ _ d (c_sub c) d1) by done.
  unfold catch. rewrite (M_bind_run _ _ d1 _ _ (store_claims e c tok kid h d1 Hn ltac:(by rewrite Ha)
    ltac:(unfold findByTokenDigest in *; by rewrite Ha) ltac:(rewrite His; by eexists) Hsub ltac:(rewrite Hks; by eexists))).
  done.
Qed.

End Tokens.
