(* ===== verification/Decisions.v ===== *)
(** * Decision batches from the edges

    [src/control-plane/src/domains/decision/decisionSample.ts] (timestamps,
    canonical form, sampling gate) and [decisionIngestService.ts] (validation of
    a batch and its idempotent ingest).

    A batch body is the JSON value the request carried: the TypeScript types are
    not checked at run time. The record [denv] holds the functions of libraries:
    SHA-256, [Date.parse] and [toISOString], and what the driver and PostgreSQL
    make of an array element sent to a text, integer, boolean or timestamptz
    column ([None]: the value is refused). *)

From stdpp Require Import base gmap strings numbers sorting list.
From Stdlib Require Import ZArith Lia.
From S2P Require Import Prelude Json Errors Db SyncLog Policy.

Record denv := mkDenv {
  de_sha256hex : jstr → jstr;
  de_parse : jstr → option Z;            (** [Date.parse]; [None] for NaN *)
  de_iso : Z → jstr;                     (** [new Date(t).toISOString()] *)
  de_text : json → option jstr;
  de_int4 : json → option Z;
  de_bool : json → option bool;
  de_timestamptz : json → option Z
}.

(** ** [decisionSample.ts] *)
Module DecisionSample.

Definition strip (c : Z) (s : jstr) : option jstr :=
  match s with x :: s' => if x =? c then Some s' else None | [] => None end.

Fixpoint strip_digits (n : nat) (s : jstr) : option jstr :=
  match n with
  | O => Some s
  | S n' => match s with x :: s' => if is_digit x then strip_digits n' s' else None | [] => None end
  end.

(** The parts of a pattern one after the other. *)
Definition strips (parts : list (jstr → option jstr)) (s : jstr) : option jstr :=
  fold_left (λ o f, o ≫= f) parts (Some s).

(** [(?:\.\d+)?]; the digits are followed by a zone, so all of them are taken. *)
Definition strip_fraction (s : jstr) : option jstr :=
  match strip 46 s with
  | None => Some s
  | Some s' => match s' with x :: _ => if is_digit x then Some (drop_while is_digit s') else None | [] => None end
  end.

(** [(?:Z|[+-]\d{2}:\d{2})$] *)
Definition is_zone (s : jstr) : bool :=
  bool_decide (s = js "Z") ||
  match s with
  | x :: s' =>
      ((x =? 43) || (x =? 45)) &&
      bool_decide (strips [strip_digits 2; strip 58; strip_digits 2] s' = Some [])
  | [] => false
  end.

Definition RFC3339_RE (s : jstr) : bool :=
  match strips [strip_digits 4; strip 45; strip_digits 2; strip 45; strip_digits 2; strip 84;
                strip_digits 2; strip 58; strip_digits 2; strip 58; strip_digits 2; strip_fraction] s with
  | Some z => is_zone z
  | None => false
  end.

Example rfc_ok : RFC3339_RE (js "2026-08-01T10:20:30.250+02:00") = true.
Proof. vm_compute. reflexivity. Qed.
Example rfc_no_zone : RFC3339_RE (js "2026-08-01T10:20:30") = false.
Proof. vm_compute. reflexivity. Qed.

Definition assertRFC3339 (e : denv) (decidedAt : json) : result exn unit :=
  if negb (RFC3339_RE (String_ decidedAt)) || negb (bool_decide (is_Some (de_parse e (String_ decidedAt))))
  then Throw (EError (js "decided_at must be RFC3339 with timezone"))
  else Ok tt.

Definition canonical_decision (d : json) : json :=
  JObj [(js "wal_seq", get d "wal_seq"); (js "fingerprint", get d "fingerprint");
        (js "principal_id", nullish (get d "principal_id") (JStr []));
        (js "score", nullish (get d "score") (JNum (num_of_Z 0)));
        (js "blacklisted", nullish (get d "blacklisted") (JBool false));
        (js "score_reason", nullish (get d "score_reason") (JStr []));
        (js "action", get d "action"); (js "decided_at", get d "decided_at")].

Definition canonicalizeDecisionsJSON (decisions : list json) : jstr :=
  stringify (JArr (canonical_decision <$> decisions)).

(** [toLowerCase] on ASCII text. *)
Definition toLowerCase (s : jstr) : jstr :=
  (λ c, if (65 <=? c) && (c <=? 90) then c + 32 else c) <$> s.

Definition slice (a b : nat) (s : jstr) : jstr := take (b - a) (drop a s).

Definition batchIDFromPayloadHash (payloadHash : jstr) : jstr :=
  let h := toLowerCase payloadHash in
  slice 0 8 h ++ js "-" ++ slice 8 12 h ++ js "-" ++ slice 12 16 h ++ js "-" ++ slice 16 20 h ++ js "-"
  ++ slice 20 32 h.

(** [((ms % 10000) + 10000) % 10000], with JavaScript's truncating [%]. *)
Definition sample_bucket (ms : Z) : Z := Z.rem (Z.rem ms 10000 + 10000) 10000.

Definition shouldSample (e : denv) (action : jstr) (decidedAt : json) (rate : number) : bool :=
  if bool_decide (action = js "deny") then true
  else if negb (num_ltb (num_of_Z 0) rate) then false
  else if negb (num_ltb rate (num_of_Z 1)) then true
  else match de_parse e (String_ decidedAt) with
       | None => false
       | Some ms => num_ltb (num_ratio (sample_bucket ms) 10000) rate
       end.

End DecisionSample.

(** ** [decisionIngestService.ts] *)
Module DecisionIngest.
Import DecisionSample PolicyRepo SyncLog.

Record IngestResult := mkIngest {
  ir_duplicate : bool; ir_edge_node_id : jstr; ir_accepted : Z; ir_sampled : Z }.

Definition bad_request {A} (msg : jstr) : result exn A := throw_app BAD_REQUEST msg.

Definition hex_char (c : Z) : bool :=
  is_digit c || ((97 <=? c) && (c <=? 102)) || ((65 <=? c) && (c <=? 70)).
Definition UUID_RE (s : jstr) : bool :=
  bool_decide (length s = 36%nat) &&
  forallb (λ '(i, c), if bool_decide (i ∈ [8; 13; 18; 23]%nat) then c =? 45 else hex_char c) (imap pair s).
Definition SHA256_HEX_RE (s : jstr) : bool := bool_decide (length s = 64%nat) && forallb hex_char s.

(** [v.f], which throws on null and undefined. *)
Definition prop (v : json) (f : string) : result exn json :=
  if is_nullish v then Throw (EError (js "TypeError")) else Ok (get v f).

(** [v.toLowerCase()], which only strings have. *)
Definition lower_of (v : json) : result exn jstr :=
  match v with JStr s => Ok (toLowerCase s) | _ => Throw (EError (js "TypeError")) end.

Definition integer_of (v : json) : option Z := match v with JNum n => num_to_Z n | _ => None end.

Definition ACTIONS : list jstr := [js "allow"; js "deny"; js "passthrough"].

(** One turn of the validation loop. *)
Definition check_decision (e : denv) (d : json) : result exn unit :=
  action ← prop d "action";
  _ ← match action with
      | JStr a => if bool_decide (a ∈ ACTIONS) then Ok tt else bad_request (js "invalid action " ++ a)
      | v => bad_request (js "invalid action " ++ String_ v)
      end;
  _ ← match get d "fingerprint" with
      | JStr (_ :: _) => Ok tt
      | _ => bad_request (js "fingerprint required")
      end;
  _ ← match integer_of (get d "wal_seq") with
      | Some z => if z <? 1 then bad_request (js "wal_seq must be a positive integer") else Ok tt
      | None => bad_request (js "wal_seq must be a positive integer")
      end;
  match assertRFC3339 e (get d "decided_at") with
  | Ok _ => Ok tt
  | Throw _ => bad_request (js "decided_at must be RFC3339 with timezone")
  end.

Fixpoint check_all (e : denv) (ds : list json) : result exn unit :=
  match ds with [] => Ok tt | d :: ds' => _ ← check_decision e d; check_all e ds' end.

(** What a batch that passed is taken to be: id, hash (lower case), range, decisions. *)
Record checked := mkChecked {
  ch_batch_id : jstr; ch_payload_hash : jstr; ch_first : Z; ch_last : Z; ch_decisions : list json }.

Definition assertBatchShape (e : denv) (body : json) : result exn checked :=
  _ ← match body with JObj _ | JArr _ => Ok tt | _ => bad_request (js "Missing batch body") end;
  let batch_id := get body "batch_id" in
  let payload_hash := get body "payload_hash" in
  _ ← guard_or (truthy batch_id && UUID_RE (String_ batch_id))
        (EApp (app_error BAD_REQUEST (js "batch_id must be a UUID")));
  _ ← guard_or (truthy payload_hash && SHA256_HEX_RE (String_ payload_hash))
        (EApp (app_error BAD_REQUEST (js "payload_hash must be a 64-char sha256 hex digest")));
  match integer_of (get body "first_wal_seq"), integer_of (get body "last_wal_seq") with
  | Some first_wal_seq, Some last_wal_seq =>
      if last_wal_seq <? first_wal_seq then bad_request (js "first_wal_seq must be <= last_wal_seq") else
      match get body "decisions" with
      | JArr (d0 :: ds) =>
          if bool_decide (500 < length (d0 :: ds))%nat
          then throw_app PAYLOAD_TOO_LARGE (js "decisions exceeds max batch size 500") else
          first ← prop d0 "wal_seq";
          last ← prop (List.last ds d0) "wal_seq";
          if negb (bool_decide (integer_of first = Some first_wal_seq))
             || negb (bool_decide (integer_of last = Some last_wal_seq))
          then bad_request (js "wal_seq range must match first/last_wal_seq") else
          _ ← check_all e (d0 :: ds);
          let computedHash := de_sha256hex e (canonicalizeDecisionsJSON (d0 :: ds)) in
          ph ← lower_of payload_hash;
          if negb (bool_decide (computedHash = ph)) then bad_request (js "payload_hash does not match decisions")
          else
            bid ← lower_of batch_id;
            if negb (bool_decide (bid = batchIDFromPayloadHash computedHash))
            then bad_request (js "batch_id does not match payload_hash")
            else Ok (mkChecked bid ph first_wal_seq last_wal_seq (d0 :: ds))
      | _ => bad_request (js "decisions must be a non-empty array")
      end
  | _, _ => bad_request (js "first_wal_seq/last_wal_seq must be integers")
  end.

Definition loadSampleRate (tenantId : jstr) (d : db) : number :=
  match getActivePolicy tenantId d with
  | None => num_ratio 1 100
  | Some p =>
      let rate := num_ratio (pol_allow_sample_rate p) 1000 in
      if isNaN rate || num_ltb rate (num_of_Z 0) then num_ratio 1 100
      else if num_ltb (num_of_Z 1) rate then num_of_Z 1 else rate
  end.

(** [t.setUTCSeconds(0, 0)] *)
Definition minuteBucket (t : Z) : Z := t - t mod 60000.

Record AggRow := mkAgg { g_bucket : jstr; g_kind : jstr; g_value : json; g_action : jstr; g_count : Z }.

Definition agg_key (b kind : jstr) (value : json) (action : jstr) : jstr :=
  b ++ [0] ++ kind ++ [0] ++ String_ value ++ [0] ++ action.

(** The map, in insertion order. *)
Fixpoint bump (key : jstr) (new : AggRow) (m : list (jstr * AggRow)) : list (jstr * AggRow) :=
  match m with
  | [] => [(key, new)]
  | (k, r) :: m' =>
      if decide (k = key)
      then (k, mkAgg (g_bucket r) (g_kind r) (g_value r) (g_action r) (g_count r + 1)) :: m'
      else (k, r) :: bump key new m'
  end.

Definition bumpAgg (e : denv) (m : list (jstr * AggRow)) (bucket : Z) (kind : jstr) (value : json) (action : jstr) :
  list (jstr * AggRow) :=
  let b := de_iso e bucket in bump (agg_key b kind value action) (mkAgg b kind value action 1) m.

Definition action_of (d : json) : jstr := match get d "action" with JStr a => a | _ => [] end.

(** The loop over the decisions: rollups and samples. *)
Fixpoint collect (e : denv) (rate : number) (ds : list json) (m : list (jstr * AggRow)) (samples : list json) :
  result exn (list (jstr * AggRow) * list json) :=
  match ds with
  | [] => Ok (m, samples)
  | d :: ds' =>
      match de_parse e (String_ (get d "decided_at")) with
      | None => Throw (EError (js "RangeError: Invalid time value"))
      | Some t =>
          let bucket := minuteBucket t in
          let action := action_of d in
          let m := bumpAgg e m bucket (js "all") (JStr []) action in
          let m := bumpAgg e m bucket (js "fingerprint") (get d "fingerprint") action in
          let m := if truthy (get d "principal_id")
                   then bumpAgg e m bucket (js "principal") (get d "principal_id") action else m in
          let samples := if shouldSample e action (get d "decided_at") rate then samples ++ [d] else samples in
          collect e rate ds' m samples
      end
  end.

Definition cast {A} (o : option A) : result exn A :=
  match o with Some a => Ok a | None => Throw (EPg invalid_text) end.

Definition BIGINT_MAX : Z := 2 ^ 63 - 1.
Definition bigint (z : Z) : result exn Z :=
  if (- BIGINT_MAX - 1 <=? z) && (z <=? BIGINT_MAX) then Ok z else Throw (EPg out_of_range).

(** The foreign key (tenant_id, edge_node_id). *)
Definition edge_exists (tenantId edgeNodeId : jstr) (d : db) : bool :=
  match edge_nodes d !! edgeNodeId with Some en => bool_decide (en_tenant_id en = tenantId) | None => false end.

(** The unique columns of [decision_aggregates]. *)
Definition row_key (a : Aggregate) : jstr * jstr * Z * jstr * jstr * jstr :=
  (ag_tenant_id a, ag_edge_node_id a, ag_bucket_minute a, ag_kind a, ag_value a, ag_action a).

Definition cardinality_violation : jstr := js "21000".

(** One row of the INSERT ... ON CONFLICT DO UPDATE SET count = count + EXCLUDED. *)
Fixpoint upsert_aggregate (a : Aggregate) (l : list Aggregate) : result exn (list Aggregate) :=
  match l with
  | [] => Ok [a]
  | b :: l' =>
      if decide (row_key b = row_key a) then
        let n := ag_count b + ag_count a in
        if n <=? INT4_MAX
        then Ok (mkAggregate (ag_tenant_id b) (ag_edge_node_id b) (ag_bucket_minute b) (ag_kind b) (ag_value b)
                             (ag_action b) n :: l')
        else Throw (EPg out_of_range)
      else l'' ← upsert_aggregate a l'; Ok (b :: l'')
  end.

(** The rows of one statement; a row proposed twice is an error. *)
Fixpoint upsert_aggregates (seen : list (jstr * jstr * Z * jstr * jstr * jstr)) (rows : list Aggregate)
    (l : list Aggregate) : result exn (list Aggregate) :=
  match rows with
  | [] => Ok l
  | a :: rows' =>
      if bool_decide (row_key a ∈ seen) then Throw (EPg cardinality_violation)
      else l' ← upsert_aggregate a l; upsert_aggregates (row_key a :: seen) rows' l'
  end.

Definition cast_aggregate (e : denv) (tenantId edgeNodeId : jstr) (r : AggRow) : result exn Aggregate :=
  b ← cast (de_timestamptz e (JStr (g_bucket r)));
  v ← cast (de_text e (g_value r));
  Ok (mkAggregate tenantId edgeNodeId b (g_kind r) v (g_action r) (g_count r)).

Fixpoint cast_all {A B} (f : A → result exn B) (l : list A) : result exn (list B) :=
  match l with [] => Ok [] | x :: l' => y ← f x; ys ← cast_all f l'; Ok (y :: ys) end.

Definition insertAggregates (e : denv) (tenantId edgeNodeId : jstr) (rows : list AggRow) : M unit := λ d,
  match rows with
  | [] => (Ok tt, d)
  | _ =>
      match (rs ← cast_all (cast_aggregate e tenantId edgeNodeId) rows;
             upsert_aggregates [] rs (decision_aggregates d)) with
      | Throw x => (Throw x, d)
      | Ok l => if edge_exists tenantId edgeNodeId d then (Ok tt, set_decision_aggregates l d)
                else (Throw (EPg foreign_key_violation), d)
      end
  end.

(** [NULLIF(x, '')] *)
Definition nullif_empty (s : jstr) : option jstr := match s with [] => None | _ => Some s end.

Definition cast_sample (e : denv) (tenantId edgeNodeId : jstr) (d : json) : result exn Sample :=
  w ← match integer_of (get d "wal_seq") with Some z => bigint z | None => Throw (EPg invalid_text) end;
  fp ← cast (de_text e (get d "fingerprint"));
  pid ← cast (de_text e (nullish (get d "principal_id") (JStr [])));
  score ← cast (de_int4 e (nullish (get d "score") (JNum (num_of_Z 0))));
  bl ← cast (de_bool e (nullish (get d "blacklisted") (JBool false)));
  sr ← cast (de_text e (nullish (get d "score_reason") (JStr [])));
  at_ ← cast (de_timestamptz e (get d "decided_at"));
  Ok (mkSample tenantId edgeNodeId w fp (nullif_empty pid) score bl (nullif_empty sr) (action_of d) at_).

Definition sample_key (s : Sample) : jstr * Z := (sm_edge_node_id s, sm_wal_seq s).

(** ON CONFLICT (edge_node_id, wal_seq) DO NOTHING *)
Definition add_sample (l : list Sample) (s : Sample) : list Sample :=
  if bool_decide (sample_key s ∈ sample_key <$> l) then l else l ++ [s].

Definition insertSamples (e : denv) (tenantId edgeNodeId : jstr) (samples : list json) : M unit := λ d,
  match samples with
  | [] => (Ok tt, d)
  | _ =>
      match cast_all (cast_sample e tenantId edgeNodeId) samples with
      | Throw x => (Throw x, d)
      | Ok ss => if edge_exists tenantId edgeNodeId d
                 then (Ok tt, set_decision_samples (fold_left add_sample ss (decision_samples d)) d)
                 else (Throw (EPg foreign_key_violation), d)
      end
  end.

Definition insert_batch (tenantId edgeNodeId : jstr) (c : checked) : M unit := λ d,
  match (_ ← bigint (ch_first c); bigint (ch_last c)) with
  | Throw x => (Throw x, d)
  | Ok _ =>
      if bool_decide (is_Some (decision_batches d !! (edgeNodeId, ch_batch_id c)))
      then (Throw (EPg unique_violation), d)
      else if edge_exists tenantId edgeNodeId d
      then (Ok tt, set_decision_batches (<[(edgeNodeId, ch_batch_id c) :=
              mkBatch edgeNodeId (ch_batch_id c) tenantId (ch_first c) (ch_last c) (ch_payload_hash c)]>
              (decision_batches d)) d)
      else (Throw (EPg foreign_key_violation), d)
  end.

Definition duplicate_of (edgeNodeId : jstr) : IngestResult := mkIngest true edgeNodeId 0 0.

(** The answer for a batch id that is already stored: the same payload or not. *)
Definition settle (edgeNodeId : jstr) (c : checked) (b : option Batch) : M IngestResult :=
  match b with
  | Some b => if bool_decide (toLowerCase (ba_payload_hash b) = ch_payload_hash c)
              then mret (duplicate_of edgeNodeId)
              else lift (throw_app CONFLICT (js "batch_id reused with different payload_hash"))
  | None => lift (throw_app CONFLICT (js "batch_id reused with different payload_hash"))
  end.

Definition find_batch (edgeNodeId : jstr) (c : checked) (d : db) : option Batch :=
  decision_batches d !! (edgeNodeId, ch_batch_id c).

(** The part after the first lookup. [between] is what other sessions commit
    between that lookup and the transaction. *)
Definition record_batch (e : denv) (between : db → db) (tenantId edgeNodeId : jstr) (c : checked) :
  M IngestResult :=
  sampleRate ← reads (loadSampleRate tenantId);
  '(aggMap, samples) ← lift (collect e sampleRate (ch_decisions c) [] []);
  _ ← writes between;
  catch
    (_ ← withTransaction (
       _ ← insert_batch tenantId edgeNodeId c;
       _ ← insertAggregates e tenantId edgeNodeId aggMap.*2;
       insertSamples e tenantId edgeNodeId samples);
     mret (mkIngest false edgeNodeId (Z.of_nat (length (ch_decisions c))) (Z.of_nat (length samples))))
    (λ err, if has_sqlstate unique_violation err
            then again ← reads (find_batch edgeNodeId c); settle edgeNodeId c again
            else throw err).

Definition ingestDecisionBatch (e : denv) (now : Z) (uuid : jstr) (between : db → db) (tenantId apiKeyId : jstr)
    (body : json) : M IngestResult :=
  c ← lift (assertBatchShape e body);
  edgeNodeId ← resolveEdgeNodeForApiKey now uuid tenantId apiKeyId;
  existing ← reads (find_batch edgeNodeId c);
  match existing with
  | Some b => settle edgeNodeId c (Some b)
  | None => record_batch e between tenantId edgeNodeId c
  end.

End DecisionIngest.

(** ** The sampling gate *)
Module Sampling.
Import DecisionSample DecisionIngest PolicyRepo.

Lemma fin_compare_scale m1 e1 m2 e2 K :
  K ≤ e1 → K ≤ e2 → fin_compare m1 e1 m2 e2 = (m1 * 2 ^ (e1 - K) ?= m2 * 2 ^ (e2 - K)).
Proof.
  intros H1 H2. unfold fin_compare. set (e := Z.min e1 e2).
  replace (e1 - K) with ((e1 - e) + (e - K)) by lia. replace (e2 - K) with ((e2 - e) + (e - K)) by lia.
  rewrite !Z.pow_add_r by lia. rewrite !Z.mul_assoc.
  apply Zmult_compare_compat_r. pose proof (Z.pow_pos_nonneg 2 (e - K)). lia.
Qed.

(** The fraction [b / 10000] as the code computes it, and its exact multiple of
    2^-80. *)
Definition frac_of (b : Z) : number := num_ratio b 10000.
Definition scaled (b : Z) : Z := match frac_of b with Fin m e => m * 2 ^ (e + 80) | _ => 0 end.

(** Rounding keeps the 10001 fractions apart and in order (by evaluation). *)
Lemma scaled_step b : 0 ≤ b < 10000 → scaled b < scaled (b + 1).
Proof.
  intros Hb. assert (Hall : forallb (λ b, scaled b <? scaled (b + 1)) (seqZ 0 10000) = true)
    by (vm_compute; reflexivity).
  rewrite forallb_forall in Hall. apply Z.ltb_lt, Hall, list_elem_of_In, elem_of_seqZ. lia.
Qed.

Lemma frac_exponent b : 0 ≤ b ≤ 10000 → ∃ m e, frac_of b = Fin m e ∧ -80 ≤ e.
Proof.
  intros Hb. assert (Hall : forallb (λ b, match frac_of b with Fin m e => -80 <=? e | _ => false end) (seqZ 0 10001) = true)
    by (vm_compute; reflexivity).
  rewrite forallb_forall in Hall. specialize (Hall b). rewrite <- list_elem_of_In, elem_of_seqZ in Hall.
  destruct (frac_of b) as [| |m e]; [specialize (Hall ltac:(lia)); done..|].
  exists m, e. split; [done|]. apply Z.leb_le, Hall. lia.
Qed.

Lemma rate_is_frac k : 0 ≤ k ≤ 1000 → num_ratio k 1000 = frac_of (10 * k).
Proof.
  intros Hk. assert (Hall : forallb (λ k, bool_decide (num_ratio k 1000 = frac_of (10 * k))) (seqZ 0 1001) = true)
    by (vm_compute; reflexivity).
  rewrite forallb_forall in Hall. apply (bool_decide_eq_true_1 _), Hall, list_elem_of_In, elem_of_seqZ. lia.
Qed.

Lemma scaled_lt a b : 0 ≤ a → a < b → b ≤ 10000 → scaled a < scaled b.
Proof.
  intros Ha. remember (Z.to_nat (b - a)) as n eqn:Hn. revert b Hn. induction n as [|n IH]; intros b Hn Hab Hb; [lia|].
  destruct (decide (b = a + 1)) as [->|Hne]; [apply scaled_step; lia|].
  specialize (IH (b - 1) ltac:(lia) ltac:(lia) ltac:(lia)). pose proof (scaled_step (b - 1) ltac:(lia)) as Hs.
  replace (b - 1 + 1) with b in Hs by lia. lia.
Qed.

(** Comparing the rounded fractions is comparing the integers. *)
Lemma frac_ltb a b : 0 ≤ a ≤ 10000 → 0 ≤ b ≤ 10000 → num_ltb (frac_of a) (frac_of b) = (a <? b).
Proof.
  intros Ha Hb. destruct (frac_exponent a Ha) as (m1 & e1 & E1 & He1).
  destruct (frac_exponent b Hb) as (m2 & e2 & E2 & He2).
  assert (Hcmp : num_ltb (frac_of a) (frac_of b) = (scaled a <? scaled b)).
  { unfold scaled. rewrite E1, E2. unfold num_ltb. rewrite (fin_compare_scale _ _ _ _ (-80)) by done.
    unfold Z.ltb. replace (e1 - -80) with (e1 + 80) by lia. by replace (e2 - -80) with (e2 + 80) by lia. }
  rewrite Hcmp. destruct (Z.lt_trichotomy a b) as [H|[->|H]].
  - rewrite (proj2 (Z.ltb_lt a b)) by done. apply Z.ltb_lt. apply scaled_lt; lia.
  - by rewrite !Z.ltb_irrefl.
  - rewrite (proj2 (Z.ltb_ge a b)) by lia. apply Z.ltb_ge. pose proof (scaled_lt b a). lia.
Qed.

Lemma sample_bucket_mod ms : sample_bucket ms = ms mod 10000.
Proof.
  unfold sample_bucket. pose proof (Z.rem_bound_abs ms 10000 ltac:(lia)).
  rewrite Z.rem_mod_nonneg by lia. rewrite <- Zplus_mod_idemp_r. change (10000 mod 10000) with 0. rewrite Z.add_0_r.
  pose proof (Z.quot_rem' ms 10000) as Hq. rewrite Hq at 2.
  rewrite Z.mul_comm, Z.add_comm, Z_mod_plus_full. done.
Qed.

Lemma shouldSample_spec e a at_ k ms :
  0 ≤ k ≤ 1000 → de_parse e (String_ at_) = Some ms →
  shouldSample e a at_ (num_ratio k 1000) = bool_decide (a = js "deny") || (ms mod 10000 <? 10 * k).
Proof.
  intros Hk Hms. unfold shouldSample. case_bool_decide; [done|]. cbn [orb]. rewrite rate_is_frac by done.
  change (num_of_Z 0) with (frac_of 0). change (num_of_Z 1) with (frac_of 10000).
  pose proof (Z.mod_pos_bound ms 10000 ltac:(lia)). rewrite !frac_ltb by lia.
  destruct (0 <? 10 * k) eqn:E1; simpl.
  - destruct (10 * k <? 10000) eqn:E2; simpl.
    + rewrite Hms, sample_bucket_mod. apply frac_ltb; lia.
    + apply Z.ltb_ge in E2. symmetry. apply Z.ltb_lt. lia.
  - apply Z.ltb_ge in E1. symmetry. apply Z.ltb_ge. lia.
Qed.

Definition hits (m t0 : Z) : nat := length (filter (λ t, t mod 10000 < m) (seqZ t0 10000)).

Lemma hits_succ m t0 : hits m (Z.succ t0) = hits m t0.
Proof.
  unfold hits. replace (seqZ (Z.succ t0) 10000) with (seqZ (Z.succ t0) 9999 ++ seqZ (Z.succ t0 + 9999) 1)
    by (rewrite <- seqZ_app by lia; f_equal; lia).
  rewrite (seqZ_cons t0 10000) by lia. replace (Z.pred 10000) with 9999 by lia.
  rewrite filter_app, length_app, !filter_cons. replace (Z.succ t0 + 9999) with (t0 + 1 * 10000) by lia.
  change (seqZ (t0 + 1 * 10000) 1) with [0 + (t0 + 1 * 10000)]. rewrite Z.add_0_l.
  rewrite filter_cons, filter_nil, Z_mod_plus_full. case_decide; simpl; lia.
Qed.

Lemma window_count m t0 : 0 ≤ m ≤ 10000 → hits m t0 = Z.to_nat m.
Proof.
  intros Hm. assert (H0 : hits m 0 = Z.to_nat m).
  { unfold hits. replace (seqZ 0 10000) with (seqZ 0 m ++ seqZ (0 + m) (10000 - m))
      by (rewrite <- seqZ_app by lia; f_equal; lia). rewrite filter_app.
    rewrite filter_all, filter_none, app_nil_r, length_seqZ; [done| |].
    - intros t Ht%elem_of_seqZ. rewrite Z.mod_small by lia. lia.
    - intros t Ht%elem_of_seqZ. rewrite Z.mod_small by lia. lia. }
  revert t0. apply Z.bi_induction; [by intros ? ? ->|done|]. intros n. by rewrite hits_succ.
Qed.

(** The sampling gate is exact: with a policy rate of [k] thousandths, every
    deny is sampled, and of the other decisions those whose time in milliseconds
    is below [10 k] modulo 10000, so in any 10000 consecutive milliseconds exactly
    [10 k] qualify, despite the floating-point division and comparison. *)
Theorem sampling_gate_exact e tenantId d p a at_ ms :
  getActivePolicy tenantId d = Some p → 0 ≤ pol_allow_sample_rate p ≤ 1000 →
  de_parse e (String_ at_) = Some ms →
  shouldSample e a at_ (loadSampleRate tenantId d) =
    bool_decide (a = js "deny") || (ms mod 10000 <? 10 * pol_allow_sample_rate p) ∧
  ∀ t0, length (filter (λ t, t mod 10000 < 10 * pol_allow_sample_rate p) (seqZ t0 10000)) =
        Z.to_nat (10 * pol_allow_sample_rate p).
Proof.
  intros Hp Hk Hms. set (k := pol_allow_sample_rate p) in *. split.
  - unfold loadSampleRate. rewrite Hp. fold k. rewrite rate_is_frac by done.
    change (num_of_Z 0) with (frac_of 0). change (num_of_Z 1) with (frac_of 10000).
    rewrite !frac_ltb by lia. destruct (frac_exponent (10 * k) ltac:(lia)) as (m & ex & E & _).
    replace (isNaN (frac_of (10 * k))) with false by (by rewrite E).
    rewrite (proj2 (Z.ltb_ge (10 * k) 0)), (proj2 (Z.ltb_ge 10000 (10 * k))) by lia. cbn [orb].
    rewrite <- rate_is_frac by done. by apply shouldSample_spec.
  - intros t0. apply window_count. lia.
Qed.
Lemma sampling_gate_exact_witness :
  let e := mkDenv id (λ _, Some 1234567) (λ _, []) (λ _, None) (λ _, None) (λ _, None) (λ _, None) in
  shouldSample e (js "allow") (JStr (js "x")) (loadSampleRate (js "t") PolicyInv.policy_db) = false ∧
  pol_allow_sample_rate PolicyInv.strict_row = 250.
Proof.
  split; [|vm_compute; reflexivity].
  rewrite (proj1 (sampling_gate_exact
    (mkDenv id (λ _, Some 1234567) (λ _, []) (λ _, None) (λ _, None) (λ _, None) (λ _, None))
    (js "t") PolicyInv.policy_db PolicyInv.strict_row (js "allow") (JStr (js "x")) 1234567
    ltac:(vm_compute; reflexivity) ltac:(vm_compute; split; discriminate) eq_refl)).
  vm_compute. reflexivity.
Defined.

End Sampling.

(** ** Ingest *)
Module DecisionInv.
Import DecisionSample DecisionIngest PolicyRepo SyncLog.

(** *** Counting *)

Fixpoint zsum {A} (f : A → Z) (l : list A) : Z := match l with [] => 0 | x :: l' => f x + zsum f l' end.

Lemma zsum_app {A} (f : A → Z) l1 l2 : zsum f (l1 ++ l2) = zsum f l1 + zsum f l2.
Proof. induction l1 as [|x l1 IH]; simpl; lia. Qed.

Lemma zsum_ext {A} (f g : A → Z) l : (∀ x, x ∈ l → f x = g x) → zsum f l = zsum g l.
Proof.
  induction l as [|x l IH]; intros H; [done|]. simpl. rewrite H by (by left).
  rewrite IH; [done|]. intros y Hy. apply H. by right.
Qed.

Lemma zsum_fmap {A B} (f : B → Z) (g : A → B) l : zsum f (g <$> l) = zsum (λ x, f (g x)) l.
Proof. induction l as [|x l IH]; [done|]. rewrite fmap_cons. cbn [zsum]. by rewrite IH. Qed.

(** What a row adds to the count stored under key [k]. *)
Definition adds (k : jstr * jstr * Z * jstr * jstr * jstr) (a : Aggregate) : Z :=
  if decide (row_key a = k) then ag_count a else 0.

(** The count stored under a key. *)
Definition stored (k : jstr * jstr * Z * jstr * jstr * jstr) (d : db) : Z := zsum (adds k) (decision_aggregates d).

Lemma upsert_aggregate_total k a l l' :
  upsert_aggregate a l = Ok l' → zsum (adds k) l' = zsum (adds k) l + adds k a.
Proof.
  revert l'. induction l as [|b l IH]; intros l' H; simpl in H.
  - injection H as <-. simpl. lia.
  - destruct (decide (row_key b = row_key a)) as [E|E].
    + destruct (_ <=? _); [|done]. injection H as <-. simpl. unfold adds. simpl.
      assert (row_key (mkAggregate (ag_tenant_id b) (ag_edge_node_id b) (ag_bucket_minute b) (ag_kind b) (ag_value b)
        (ag_action b) (ag_count b + ag_count a)) = row_key b) as -> by done.
      rewrite <- E. destruct (decide _); simpl; lia.
    + apply bind_Ok in H as (l'' & H1 & [= <-]). simpl. rewrite (IH _ H1). lia.
Qed.

Lemma upsert_aggregates_total k seen rows l l' :
  upsert_aggregates seen rows l = Ok l' → zsum (adds k) l' = zsum (adds k) l + zsum (adds k) rows.
Proof.
  revert seen l. induction rows as [|a rows IH]; intros seen l H; simpl in H.
  - injection H as <-. simpl. lia.
  - case_bool_decide; [done|]. apply bind_Ok in H as (l1 & H1 & H).
    rewrite (IH _ _ H), (upsert_aggregate_total k _ _ _ H1). simpl. lia.
Qed.

(** *** The rollup map *)

Abbreviation tuple := (jstr * jstr * json * jstr)%type.
Definition tuple_of (r : AggRow) : tuple := (g_bucket r, g_kind r, g_value r, g_action r).
Definition tuple_key (p : tuple) : jstr := let '(b, k, v, a) := p in agg_key b k v a.

(** A tuple that can be read back from its key. *)
Definition readable (p : tuple) : Prop :=
  let '(b, k, v, a) := p in nul_free b ∧ nul_free k ∧ nul_free a ∧ ∃ s, v = JStr s.

Lemma tuple_key_inj p q : readable p → readable q → tuple_key p = tuple_key q → p = q.
Proof.
  destruct p as [[[b k] v] a], q as [[[b' k'] v'] a'].
  intros (Hb & Hk & Ha & s & ->) (Hb' & Hk' & Ha' & s' & ->). unfold tuple_key, agg_key. simpl.
  intros [-> H]%app_sep_inj; [|done..]. apply app_sep_inj in H as [-> H]; [|done..].
  by apply app_sep_inj_r in H as [-> ->].
Qed.

(** The map [m] holds the occurrences of [ps]: every sum over the occurrences is
    the sum over the rows weighted with their counts. *)
Record rolls_up (ps : list tuple) (m : list (jstr * AggRow)) : Prop := {
  ru_keys : ∀ k r, (k, r) ∈ m → k = tuple_key (tuple_of r) ∧ readable (tuple_of r);
  ru_sum : ∀ W : tuple → Z, zsum (λ kr, g_count kr.2 * W (tuple_of kr.2)) m = zsum W ps;
  ru_all : ∀ p, p ∈ ps → ∃ k r, (k, r) ∈ m ∧ tuple_of r = p
}.

Definition one (p : tuple) : AggRow := let '(b, k, v, a) := p in mkAgg b k v a 1.

Lemma tuple_of_one p : tuple_of (one p) = p.
Proof. by destruct p as [[[??]?]?]. Qed.
Lemma count_one p : g_count (one p) = 1.
Proof. by destruct p as [[[??]?]?]. Qed.

Lemma bump_elem key new m k r :
  (k, r) ∈ bump key new m →
  (k, r) ∈ m ∨ (k, r) = (key, new) ∨ (k = key ∧ ∃ r', (key, r') ∈ m ∧ tuple_of r = tuple_of r').
Proof.
  induction m as [|[k' r'] m IH]; simpl.
  - rewrite list_elem_of_singleton. auto.
  - destruct (decide (k' = key)) as [->|Hne]; rewrite !elem_of_cons.
    + intros [[= -> ->]|H]; [|auto]. right; right. split; [done|]. exists r'. split; [by left|done].
    + intros [->|H]; [auto|]. destruct (IH H) as [?|[?|(? & r'' & ? & ?)]]; [auto..|].
      right; right. split; [done|]. exists r''. split; [by right|done].
Qed.

Lemma bump_covers key new m :
  (∃ r, (key, r) ∈ bump key new m ∧ (tuple_of r = tuple_of new ∨ ∃ r', (key, r') ∈ m ∧ tuple_of r = tuple_of r')) ∧
  ∀ k r, (k, r) ∈ m → ∃ r', (k, r') ∈ bump key new m ∧ tuple_of r' = tuple_of r.
Proof.
  induction m as [|[k' r'] m [IH1 IH2]]; simpl.
  - split; [exists new; split; [by left|by left]|]. by intros ?? ?%elem_of_nil.
  - destruct (decide (k' = key)) as [->|Hne]; split.
    + eexists. split; [by left|]. right. exists r'. split; [by left|done].
    + intros k r [[= -> ->]|H]%elem_of_cons; [eexists; split; [by left|done]|exists r; split; [by right|done]].
    + destruct IH1 as (r & Hr & Ht). exists r. split; [by right|].
      destruct Ht as [?|(r'' & ? & ?)]; [by left|right; exists r''; split; [by right|done]].
    + intros k r [[= -> ->]|H]%elem_of_cons; [exists r'; split; [by left|done]|].
      destruct (IH2 _ _ H) as (r'' & ? & ?). exists r''. split; [by right|done].
Qed.

Lemma bump_sum W key p m :
  (∀ r, (key, r) ∈ m → tuple_of r = p) →
  zsum (λ kr, g_count kr.2 * W (tuple_of kr.2)) (bump key (one p) m) =
  zsum (λ kr, g_count kr.2 * W (tuple_of kr.2)) m + W p.
Proof.
  induction m as [|[k r] m IH]; intros Hm; simpl.
  - rewrite tuple_of_one, count_one. lia.
  - destruct (decide (k = key)) as [->|Hne]; simpl.
    + assert (tuple_of r = p) as <- by (apply Hm; by left).
      unfold tuple_of at 1. simpl. fold (tuple_of r). unfold tuple_of. lia.
    + rewrite IH; [lia|]. intros r' Hr'. apply Hm. by right.
Qed.

Lemma rolls_up_bump ps m p :
  rolls_up ps m → readable p → rolls_up (ps ++ [p]) (bump (tuple_key p) (one p) m).
Proof.
  intros [Hk Hs Ha] Hp.
  assert (Hsame : ∀ r, (tuple_key p, r) ∈ m → tuple_of r = p).
  { intros r [H1 H2]%Hk. symmetry. by apply tuple_key_inj. }
  split.
  - intros k r [H|[[= -> ->]|(-> & r' & Hr' & Ht)]]%bump_elem; [by apply Hk|by rewrite tuple_of_one|].
    rewrite Ht. by apply Hk.
  - intros W. rewrite bump_sum by done. rewrite Hs, zsum_app. simpl. lia.
  - destruct (bump_covers (tuple_key p) (one p) m) as [(r & Hr & Ht) Hc].
    intros q [Hq|Hq%list_elem_of_singleton]%elem_of_app.
    + destruct (Ha q Hq) as (k & r' & Hin & <-). destruct (Hc _ _ Hin) as (r'' & ? & ?). eauto.
    + subst q. exists (tuple_key p), r. split; [done|].
      destruct Ht as [->|(r' & Hr' & ->)]; [apply tuple_of_one|by apply Hsame].
Qed.

(** *** What the loop over the decisions collects *)

(** The dimensions a decision counts for: minute, kind, value, action. *)
Definition dims (e : denv) (d : json) : list (Z * jstr * jstr * jstr) :=
  match de_parse e (String_ (get d "decided_at")) with
  | None => []
  | Some t =>
      let b := minuteBucket t in
      [(b, js "all", [], action_of d); (b, js "fingerprint", String_ (get d "fingerprint"), action_of d)]
      ++ (if truthy (get d "principal_id") then [(b, js "principal", String_ (get d "principal_id"), action_of d)] else [])
  end.

(** How often the decisions of a batch count for a dimension. *)
Definition contributed (e : denv) (ds : list json) (q : Z * jstr * jstr * jstr) : Z :=
  zsum (λ p, if decide (p = q) then 1 else 0) (concat (dims e <$> ds)).

(** The types [DecisionWire] declares for the two text fields. *)
Definition well_typed (d : json) : Prop :=
  (∃ s, get d "fingerprint" = JStr s) ∧ (is_nullish (get d "principal_id") = true ∨ ∃ s, get d "principal_id" = JStr s).

Definition to_tuple (e : denv) (q : Z * jstr * jstr * jstr) : tuple :=
  let '(b, k, v, a) := q in (de_iso e b, k, JStr v, a).

(** What the library functions promise: ISO strings hold no NUL, a timestamptz
    column that takes one reads the same instant, a text column that takes a string
    stores that string. *)
Record denv_ok (e : denv) : Prop := {
  ok_iso : ∀ t, nul_free (de_iso e t);
  ok_timestamptz : ∀ t z, de_timestamptz e (JStr (de_iso e t)) = Some z → z = t;
  ok_text : ∀ s v, de_text e (JStr s) = Some v → v = s
}.

Lemma actions_nul_free a : a ∈ ACTIONS → nul_free a.
Proof.
  unfold ACTIONS, nul_free. rewrite !elem_of_cons, elem_of_nil.
  intros [->|[->|[->|[]]]]; apply (bool_decide_unpack _); vm_compute; done.
Qed.

Lemma kinds_nul_free : nul_free (js "all") ∧ nul_free (js "fingerprint") ∧ nul_free (js "principal").
Proof. unfold nul_free. split_and!; apply (bool_decide_unpack _); vm_compute; done. Qed.

Lemma rolls_up_bumpAgg e ps m b k s a :
  denv_ok e → nul_free k → nul_free a → rolls_up ps m →
  rolls_up (ps ++ [to_tuple e (b, k, s, a)]) (bumpAgg e m b k (JStr s) a).
Proof.
  intros [Hiso _ _] Hk Ha Hm. apply (rolls_up_bump _ _ (de_iso e b, k, JStr s, a)); [done|].
  simpl. split_and!; [apply Hiso|done|done|eauto].
Qed.

Lemma collect_spec e rate ds :
  denv_ok e → ∀ ps m s m' s', collect e rate ds m s = Ok (m', s') →
  Forall (λ d, action_of d ∈ ACTIONS ∧ well_typed d) ds → rolls_up ps m →
  rolls_up (ps ++ (to_tuple e <$> concat (dims e <$> ds))) m' ∧
  s' = s ++ filter (λ d, shouldSample e (action_of d) (get d "decided_at") rate) ds.
Proof.
  intros Hok. destruct kinds_nul_free as (Hn1 & Hn2 & Hn3).
  induction ds as [|d ds IH]; intros ps m s m' s' H HF Hm; simpl in H.
  { injection H as <- <-. simpl. by rewrite !app_nil_r. }
  apply Forall_cons in HF as [[Ha [[fp Hfp] Hpid]] HF]. apply actions_nul_free in Ha.
  destruct (de_parse e (String_ (get d "decided_at"))) as [t|] eqn:Ht; [|done].
  rewrite Hfp in H. rewrite fmap_cons. cbn [concat]. rewrite fmap_app, app_assoc.
  assert (Hm2 : rolls_up (ps ++ (to_tuple e <$> dims e d))
    (let m := bumpAgg e m (minuteBucket t) (js "all") (JStr []) (action_of d) in
     let m := bumpAgg e m (minuteBucket t) (js "fingerprint") (JStr fp) (action_of d) in
     if truthy (get d "principal_id")
     then bumpAgg e m (minuteBucket t) (js "principal") (get d "principal_id") (action_of d) else m)).
  { unfold dims. rewrite Ht, Hfp. rewrite fmap_app, app_assoc, fmap_cons, fmap_cons, fmap_nil.
    change (?x :: ?y :: []) with ([x] ++ [y]). rewrite (app_assoc ps).
    pose proof (rolls_up_bumpAgg e _ _ (minuteBucket t) (js "all") [] (action_of d) Hok Hn1 Ha Hm) as H1.
    pose proof (rolls_up_bumpAgg e _ _ (minuteBucket t) (js "fingerprint") fp (action_of d) Hok Hn2 Ha H1) as H2.
    destruct Hpid as [Hnull|[pid Hpid]].
    - destruct (get d "principal_id"); try done; simpl; by rewrite app_nil_r.
    - rewrite Hpid. destruct (truthy (JStr pid)); simpl; [|by rewrite app_nil_r].
      by apply rolls_up_bumpAgg. }
  destruct (IH _ _ _ _ _ H HF Hm2) as [Hr Hs]. split; [done|]. rewrite Hs, filter_cons.
  destruct (shouldSample e (action_of d) (get d "decided_at") rate); simpl; [by rewrite <- app_assoc|done].
Qed.

(** *** Validation *)

Lemma check_decision_Ok e d u :
  check_decision e d = Ok u →
  action_of d ∈ ACTIONS ∧ (∃ s, get d "fingerprint" = JStr s) ∧
  (∃ z, integer_of (get d "wal_seq") = Some z ∧ 1 ≤ z) ∧ is_Some (de_parse e (String_ (get d "decided_at"))).
Proof.
  unfold check_decision. intros H. invert_ok. unfold prop in *. destruct (is_nullish d); [done|]. invert_ok. subst a.
  unfold action_of. destruct (get d "action") as [| | | |act| |]; try done.
  case_bool_decide; [|done]. split; [done|].
  destruct (get d "fingerprint") as [| | | |[|c fp]| |]; try done. split; [by eauto|].
  destruct (integer_of (get d "wal_seq")) as [z|]; [|done]. destruct (z <? 1) eqn:E; [done|].
  apply Z.ltb_ge in E. split; [by eauto|].
  unfold assertRFC3339 in H. destruct (_ || _) eqn:E2 in H; [done|].
  apply orb_false_iff in E2 as [_ E2]. by apply negb_false_iff, bool_decide_eq_true in E2.
Qed.

Lemma check_decisions_Ok e ds u :
  check_all e ds = Ok u →
  Forall (λ d, action_of d ∈ ACTIONS ∧ (∃ s, get d "fingerprint" = JStr s) ∧
    (∃ z, integer_of (get d "wal_seq") = Some z ∧ 1 ≤ z) ∧ is_Some (de_parse e (String_ (get d "decided_at")))) ds.
Proof.
  induction ds as [|d ds IH]; [constructor|]. intros (u' & H1 & H2)%bind_Ok.
  constructor; [by eapply check_decision_Ok|by apply IH].
Qed.

Lemma toLowerCase_idem s : toLowerCase (toLowerCase s) = toLowerCase s.
Proof.
  unfold toLowerCase. rewrite <- list_fmap_compose. apply list_fmap_ext. intros _ c _. simpl.
  destruct ((65 <=? c) && (c <=? 90)) eqn:E; [|by rewrite E].
  apply andb_true_iff in E as [E1%Z.leb_le E2%Z.leb_le]. by rewrite (proj2 (Z.leb_gt (c + 32) 90)), andb_false_r by lia.
Qed.

Lemma assertBatchShape_Ok e body c :
  assertBatchShape e body = Ok c →
  ch_decisions c ≠ [] ∧ (length (ch_decisions c) ≤ 500)%nat ∧ check_all e (ch_decisions c) = Ok tt ∧
  ch_payload_hash c = de_sha256hex e (canonicalizeDecisionsJSON (ch_decisions c)) ∧
  ch_batch_id c = batchIDFromPayloadHash (ch_payload_hash c) ∧
  ch_first c ≤ ch_last c ∧ get body "decisions" = JArr (ch_decisions c) ∧
  toLowerCase (ch_payload_hash c) = ch_payload_hash c.
Proof.
  unfold assertBatchShape. intros H. apply bind_Ok in H as (u1 & H1 & H). clear H1.
  apply bind_Ok in H as (u2 & H2 & H). apply bind_Ok in H as (u3 & H3 & H).
  destruct (integer_of (get body "first_wal_seq")) as [first|]; [|done].
  destruct (integer_of (get body "last_wal_seq")) as [last|]; [|done].
  destruct (last <? first) eqn:Efl; [done|]. apply Z.ltb_ge in Efl.
  destruct (get body "decisions") as [| | | | |[|d0 ds]|]; try done.
  case_bool_decide; [done|]. apply bind_Ok in H as (f & Hf & H). apply bind_Ok in H as (l & Hl & H).
  destruct (_ || _); [done|]. apply bind_Ok in H as ([] & Hc & H). apply bind_Ok in H as (ph & Hph & H).
  destruct (negb _) eqn:E1 in H; [done|]. apply negb_false_iff, bool_decide_eq_true in E1.
  apply bind_Ok in H as (bid & Hbid & H).
  destruct (negb _) eqn:E2 in H; [done|]. apply negb_false_iff, bool_decide_eq_true in E2.
  injection H as <-. simpl in *. split_and!; try done; [lia|congruence|].
  unfold lower_of in Hph. destruct (get body "payload_hash"); try done. injection Hph as <-. apply toLowerCase_idem.
Qed.

(** *** The statements of the transaction *)

(** The weight of a tuple for a stored key, after the column conversions. *)
Definition weight (e : denv) (q : Z * jstr * jstr * jstr) (p : tuple) : Z :=
  let '(b, k, v, a) := q in let '(bs, kind, value, act) := p in
  if decide (de_timestamptz e (JStr bs) = Some b ∧ kind = k ∧ de_text e value = Some v ∧ act = a) then 1 else 0.

Lemma cast_Ok {A} (o : option A) a : cast o = Ok a ↔ o = Some a.
Proof. destruct o; simpl; split; congruence. Qed.

Lemma cast_all_sum e T E b k v a rows rs :
  cast_all (cast_aggregate e T E) rows = Ok rs →
  zsum (adds (T, E, b, k, v, a)) rs = zsum (λ r, g_count r * weight e (b, k, v, a) (tuple_of r)) rows.
Proof.
  revert rs. induction rows as [|r rows IH]; intros rs H; simpl in H.
  - by injection H as <-.
  - apply bind_Ok in H as (y & Hy & H). apply bind_Ok in H as (ys & Hys & [= <-]). simpl. rewrite (IH _ Hys). f_equal.
    unfold cast_aggregate in Hy. apply bind_Ok in Hy as (z & Hz%cast_Ok & Hy).
    apply bind_Ok in Hy as (t & Ht%cast_Ok & [= <-]). unfold adds, weight, tuple_of, row_key. simpl. rewrite Hz, Ht.
    destruct (decide _) as [E1|E1], (decide _) as [E2|E2]; try lia; exfalso; [apply E2|apply E1]; naive_solver congruence.
Qed.

Lemma cast_all_each {A B} (f : A → result exn B) l ys x :
  cast_all f l = Ok ys → x ∈ l → ∃ y, f x = Ok y.
Proof.
  revert ys. induction l as [|x' l IH]; intros ys H Hx; [by apply elem_of_nil in Hx|].
  simpl in H. apply bind_Ok in H as (y & Hy & H). apply bind_Ok in H as (ys' & Hys & _).
  apply elem_of_cons in Hx as [->|Hx]; eauto.
Qed.

Lemma other_edge_sum e T E K rows rs :
  cast_all (cast_aggregate e T E) rows = Ok rs → (K.1.1.1.1.1, K.1.1.1.1.2) ≠ (T, E) → zsum (adds K) rs = 0.
Proof.
  intros H HK. revert rs H. induction rows as [|r rows IH]; intros rs H; simpl in H.
  - by injection H as <-.
  - apply bind_Ok in H as (y & Hy & H). apply bind_Ok in H as (ys & Hys & [= <-]). simpl. rewrite (IH _ Hys).
    unfold cast_aggregate in Hy. apply bind_Ok in Hy as (z & _ & Hy). apply bind_Ok in Hy as (t & _ & [= <-]).
    unfold adds. destruct (decide _) as [<-|]; [|done]. by destruct HK.
Qed.

(** What [insertAggregates] adds to the stored counts. *)
Lemma insertAggregates_counts e T E ps m d d' :
  denv_ok e → rolls_up (to_tuple e <$> ps) m → insertAggregates e T E m.*2 d = (Ok tt, d') →
  (∀ b k v a, stored (T, E, b, k, v, a) d' =
     stored (T, E, b, k, v, a) d + zsum (λ p, if decide (p = (b, k, v, a)) then 1 else 0) ps) ∧
  (∀ K, (K.1.1.1.1.1, K.1.1.1.1.2) ≠ (T, E) → stored K d' = stored K d) ∧
  ∃ l, d' = set_decision_aggregates l d.
Proof.
  intros [Hiso Hts Htext] [_ Hsum Hall] H. unfold insertAggregates in H.
  assert (Hrun : ∃ rs l, cast_all (cast_aggregate e T E) m.*2 = Ok rs ∧
    upsert_aggregates [] rs (decision_aggregates d) = Ok l ∧ d' = set_decision_aggregates l d).
  { destruct m.*2 as [|r m'] eqn:Em.
    - injection H as <-. exists [], (decision_aggregates d). split_and!; try done. by destruct d.
    - destruct (_ ≫= _) as [l|] eqn:Eb; [|done]. apply bind_Ok in Eb as (rs & H1 & H2).
      destruct (edge_exists T E d); [|done]. injection H as <-. eauto. }
  destruct Hrun as (rs & l & Hc & Hu & ->). split_and!; [|intros K HK|by eauto].
  - intros b k v a. unfold stored at 1. simpl. rewrite (upsert_aggregates_total _ _ _ _ _ Hu). unfold stored. f_equal.
    rewrite (cast_all_sum _ _ _ _ _ _ _ _ _ Hc).
    rewrite zsum_fmap, Hsum. clear Hsum.
    assert (Hp : ∀ p, p ∈ ps → weight e (b, k, v, a) (to_tuple e p) = if decide (p = (b, k, v, a)) then 1 else 0).
    { intros [[[b' k'] v'] a'] Hp. destruct (Hall (to_tuple e (b', k', v', a'))) as (key & r & Hr & Ht).
      { apply list_elem_of_fmap. eauto. }
      apply (list_elem_of_fmap_2 snd) in Hr. destruct (cast_all_each _ _ _ _ Hc Hr) as [y Hy].
      unfold cast_aggregate in Hy. apply bind_Ok in Hy as (z & Hz%cast_Ok & Hy).
      apply bind_Ok in Hy as (t & Htt%cast_Ok & _). unfold tuple_of in Ht. simpl in Ht. injection Ht as Hb _ Hv _.
      simpl in Hz, Htt. rewrite Hb in Hz. rewrite Hv in Htt. pose proof (Hts _ _ Hz) as ->. pose proof (Htext _ _ Htt) as ->.
      unfold weight, to_tuple. rewrite Hz, Htt.
      destruct (decide _) as [E1|E1], (decide _) as [E2|E2]; try done; exfalso; [apply E2|apply E1]; naive_solver. }
    rewrite zsum_fmap. by apply zsum_ext.
  - unfold stored. simpl. rewrite (upsert_aggregates_total _ _ _ _ _ Hu), (other_edge_sum _ _ _ _ _ _ Hc HK). lia.
Qed.

(** *** Samples *)

Lemma add_sample_mono l s x : x ∈ l → x ∈ add_sample l s.
Proof. unfold add_sample. case_bool_decide; [done|]. intros. apply elem_of_app. by left. Qed.

Lemma add_samples_keys ss l :
  (∀ x, x ∈ l → x ∈ fold_left add_sample ss l) ∧
  ∀ s, s ∈ ss → sample_key s ∈ sample_key <$> fold_left add_sample ss l.
Proof.
  revert l. induction ss as [|s ss IH]; intros l; simpl; [split; [done|]; by intros s ?%elem_of_nil|].
  destruct (IH (add_sample l s)) as [H1 H2]. split.
  - intros x Hx. by apply H1, add_sample_mono.
  - intros s' [->|Hs']%elem_of_cons; [|by apply H2].
    assert (Hk : sample_key s ∈ sample_key <$> add_sample l s).
    { unfold add_sample. case_bool_decide; [done|]. rewrite fmap_app, elem_of_app. right. by left. }
    apply list_elem_of_fmap in Hk as (x & -> & Hx). apply list_elem_of_fmap_2. by apply H1.
Qed.

Lemma insertSamples_Ok e T E samples d d' :
  insertSamples e T E samples d = (Ok tt, d') →
  (∃ l, d' = set_decision_samples l d) ∧ (∀ x, x ∈ decision_samples d → x ∈ decision_samples d') ∧
  ∀ j z, j ∈ samples → integer_of (get j "wal_seq") = Some z → (E, z) ∈ sample_key <$> decision_samples d'.
Proof.
  unfold insertSamples. destruct samples as [|j0 js0] eqn:Es.
  { intros [= <-]. split; [exists (decision_samples d); by destruct d|]. split; [done|]. by intros ?? ?%elem_of_nil. }
  rewrite <- Es. destruct (cast_all _ _) as [ss|] eqn:Hc; [|done]. destruct (edge_exists T E d); [|done].
  intros [= <-]. simpl. destruct (add_samples_keys ss (decision_samples d)) as [H1 H2].
  split; [by eauto|]. split; [done|]. intros j z Hj Hz.
  assert (Hs : ∃ s, s ∈ ss ∧ sample_key s = (E, z)).
  { clear -Hc Hj Hz. revert ss Hc. induction samples as [|j' l IH]; intros ss Hc; [by apply elem_of_nil in Hj|].
    simpl in Hc. apply bind_Ok in Hc as (y & Hy & Hc). apply bind_Ok in Hc as (ys & Hys & [= <-]).
    apply elem_of_cons in Hj as [<-|Hj].
    - exists y. split; [by left|]. unfold cast_sample in Hy. rewrite Hz in Hy.
      apply bind_Ok in Hy as (w & Hw & Hy). unfold bigint in Hw. destruct (_ && _) in Hw; [|done]. injection Hw as <-.
      repeat (apply bind_Ok in Hy as (? & _ & Hy)). by injection Hy as <-.
    - destruct (IH Hj ys Hys) as (s & ? & ?). exists s. split; [by right|done]. }
  destruct Hs as (s & Hs & <-). by apply H2.
Qed.

(** *** The whole ingest *)

Section ingest.
Context (e : denv) (now : Z) (uuid : jstr) (between : db → db) (T K : jstr) (body : json).

Lemma settle_Ok E c b d r d' :
  settle E c b d = (Ok r, d') → d' = d ∧ r = duplicate_of E ∧ ∃ b', b = Some b' ∧ toLowerCase (ba_payload_hash b') = ch_payload_hash c.
Proof.
  unfold settle. destruct b as [b|]; [|done]. case_bool_decide; [|done]. intros [= <- <-]. eauto.
Qed.

Lemma settle_state E c b d r d' : settle E c b d = (r, d') → d' = d.
Proof. unfold settle. destruct b; [case_bool_decide|]; by intros [= _ <-]. Qed.

(** The transaction of a new batch. *)
Definition transact (E : jstr) (c : checked) (m : list (jstr * AggRow)) (samples : list json) : M unit :=
  _ ← insert_batch T E c; _ ← insertAggregates e T E m.*2; insertSamples e T E samples.

Lemma record_batch_cases E c d r d' :
  record_batch e between T E c d = (r, d') →
  (d' = d ∧ ∃ x, r = Throw x) ∨
  ∃ m samples, collect e (loadSampleRate T d) (ch_decisions c) [] [] = Ok (m, samples) ∧
  ((transact E c m samples (between d) = (Ok tt, d') ∧
     r = Ok (mkIngest false E (Z.of_nat (length (ch_decisions c))) (Z.of_nat (length samples)))) ∨
   (∃ x d1, transact E c m samples (between d) = (Throw x, d1) ∧ d' = between d ∧
     if has_sqlstate unique_violation x then settle E c (find_batch E c (between d)) (between d) = (r, d')
     else r = Throw x)).
Proof.
  unfold record_batch, mbind, M_bind, reads, lift, writes.
  destruct (collect _ _ _ _ _) as [[m samples]|x]; [|intros [= <- <-]; left; eauto].
  intros H. right. exists m, samples. split; [done|]. unfold catch, withTransaction in H.
  destruct (transact E c m samples (between d)) as [[[]|x] d1] eqn:Et;
    pose proof Et as Et'; unfold transact, mbind, M_bind in Et'; rewrite Et' in H; clear Et'; simpl in H.
  - injection H as <- <-. by left.
  - right. exists x, d1. split; [done|]. destruct (has_sqlstate unique_violation x).
    + split; [by eapply settle_state|done].
    + by injection H as <- <-.
Qed.

Lemma transact_Ok E c m samples d d' :
  transact E c m samples d = (Ok tt, d') →
  ∃ d1 d2, insert_batch T E c d = (Ok tt, d1) ∧ insertAggregates e T E m.*2 d1 = (Ok tt, d2) ∧
           insertSamples e T E samples d2 = (Ok tt, d').
Proof.
  unfold transact. intros H. apply M_bind_Ok in H as ([] & d1 & H1 & H). apply M_bind_Ok in H as ([] & d2 & H2 & H). eauto.
Qed.

Lemma insert_batch_Ok E c d d1 :
  insert_batch T E c d = (Ok tt, d1) →
  decision_batches d !! (E, ch_batch_id c) = None ∧
  d1 = set_decision_batches (<[(E, ch_batch_id c) :=
         mkBatch E (ch_batch_id c) T (ch_first c) (ch_last c) (ch_payload_hash c)]> (decision_batches d)) d.
Proof.
  unfold insert_batch. destruct (_ ≫= _); [|done]. case_bool_decide as Hn; [done|].
  destruct (edge_exists T E d); [|done]. intros [= <-]. split; [|done]. by apply eq_None_not_Some.
Qed.

Lemma ingest_cases d r d' :
  ingestDecisionBatch e now uuid between T K body d = (r, d') →
  (∃ x, r = Throw x ∧ (d' = d ∨ ∃ c, assertBatchShape e body = Ok c ∧ ∃ y d1, resolveEdgeNodeForApiKey now uuid T K d = (y, d1) ∧ d' = d1)) ∨
  ∃ c E d1, assertBatchShape e body = Ok c ∧ resolveEdgeNodeForApiKey now uuid T K d = (Ok E, d1) ∧
    ((∃ b, find_batch E c d1 = Some b ∧ settle E c (Some b) d1 = (r, d')) ∨
     (find_batch E c d1 = None ∧ record_batch e between T E c d1 = (r, d'))).
Proof.
  unfold ingestDecisionBatch, mbind, M_bind, lift, reads.
  destruct (assertBatchShape e body) as [c|x]; [|intros [= <- <-]; left; eauto].
  destruct (resolveEdgeNodeForApiKey now uuid T K d) as [[E|x] d1] eqn:Hr.
  - intros H. right. exists c, E, d1. split; [done|]. split; [done|].
    destruct (find_batch E c d1) as [b|] eqn:Hb; [left; eauto|by right].
  - intros [= <- <-]. left. exists x. split; [done|]. right. eauto 6.
Qed.

End ingest.

(** A step that leaves the decision tables alone. *)
Definition same_decisions (d d' : db) : Prop :=
  decision_aggregates d' = decision_aggregates d ∧ decision_samples d' = decision_samples d ∧
  decision_batches d' = decision_batches d.

Lemma resolve_same_decisions now uuid T K d y d1 :
  resolveEdgeNodeForApiKey now uuid T K d = (y, d1) → same_decisions d d1.
Proof.
  unfold resolveEdgeNodeForApiKey. destruct (edge_of_key T K d); [by intros [= _ <-]|].
  destruct (api_keys d !! K); [case_bool_decide|]; by intros [= _ <-].
Qed.

Lemma stored_same k d d' : same_decisions d d' → stored k d' = stored k d.
Proof. unfold stored. by intros [-> _]. Qed.

(** *** The edge of an API key *)

(** The primary key and the unique index on (tenant_id, api_key_id). *)
Record edges_ok (d : db) : Prop := {
  eo_id : ∀ i n, edge_nodes d !! i = Some n → en_id n = i;
  eo_key : ∀ i j n m k, edge_nodes d !! i = Some n → edge_nodes d !! j = Some m →
    en_tenant_id n = en_tenant_id m → en_api_key_id n = Some k → en_api_key_id m = Some k → i = j
}.

Definition edge_is (T K E : jstr) (d : db) : Prop :=
  ∃ n, edge_nodes d !! E = Some n ∧ en_id n = E ∧ en_tenant_id n = T ∧ en_api_key_id n = Some K.

Lemma edge_of_key_Some T K d n :
  edges_ok d → edge_of_key T K d = Some n → edge_is T K (en_id n) d ∧ edge_nodes d !! en_id n = Some n.
Proof.
  intros [Hid _] H. unfold edge_of_key in H. destruct (head _) as [[i m]|] eqn:Hh; [|done]. injection H as <-.
  apply head_Some_elem_of, list_elem_of_filter in Hh as [[H1 H2] H3%elem_of_map_to_list]. simpl in *.
  pose proof (Hid _ _ H3) as Hm. rewrite Hm. split; [|done]. exists m. done.
Qed.

Lemma edge_of_key_is T K d E : edges_ok d → edge_is T K E d → ∃ n, edge_of_key T K d = Some n ∧ en_id n = E.
Proof.
  intros [Hid Hkey] (n & Hn & He & HT & HK). unfold edge_of_key.
  assert (Hin : (E, n) ∈ filter (λ kv : jstr * EdgeNode, en_tenant_id kv.2 = T ∧ en_api_key_id kv.2 = Some K)
    (map_to_list (edge_nodes d))) by (apply list_elem_of_filter; split; [done|by apply elem_of_map_to_list]).
  destruct (filter _ _) as [|[j m] l] eqn:Ef; [by apply elem_of_nil in Hin|]. exists m. split; [done|].
  assert (Hj : (j, m) ∈ filter (λ kv : jstr * EdgeNode, en_tenant_id kv.2 = T ∧ en_api_key_id kv.2 = Some K)
    (map_to_list (edge_nodes d))) by (rewrite Ef; by left).
  apply list_elem_of_filter in Hj as [[HT' HK'] Hj%elem_of_map_to_list]. simpl in *.
  rewrite (Hid _ _ Hj). eapply Hkey; [exact Hj|exact Hn|congruence|exact HK'|exact HK].
Qed.

Lemma resolve_spec now uuid T K d E d1 :
  edges_ok d → edge_nodes d !! uuid = None → resolveEdgeNodeForApiKey now uuid T K d = (Ok E, d1) →
  edges_ok d1 ∧ edge_is T K E d1.
Proof.
  intros Hok Hfresh. unfold resolveEdgeNodeForApiKey. destruct (edge_of_key T K d) as [n|] eqn:He.
  - destruct (edge_of_key_Some _ _ _ _ Hok He) as [(n' & Hn' & Hid & HT & HK) Hn]. intros [= <- <-].
    assert (n' = n) as -> by congruence. destruct Hok as [Hid' Hkey]. split; [split; simpl|].
    + intros i m [[<- <-]|[_ H]]%lookup_insert_Some; eauto.
    + intros i j m1 m2 k [[<- <-]|[Hi H1]]%lookup_insert_Some [[<- <-]|[Hj H2]]%lookup_insert_Some; simpl; intros; eauto.
    + eexists. simpl. split; [apply lookup_insert_eq|]. done.
  - destruct (api_keys d !! K) as [k|]; [|done]. case_bool_decide; [|done]. intros [= <- <-].
    assert (Hno : ∀ i n, edge_nodes d !! i = Some n → en_tenant_id n = T → en_api_key_id n ≠ Some K).
    { intros i n Hn HT HK. destruct Hok as [Hid Hkey].
      destruct (edge_of_key_is T K d i) as (? & ? & _); [by split|exists n; eauto|congruence]. }
    destruct Hok as [Hid Hkey]. split; [split; simpl|].
    + intros i m [[<- <-]|[_ H']]%lookup_insert_Some; eauto.
    + intros i j m1 m2 k' [[<- <-]|[Hi H1]]%lookup_insert_Some [[<- <-]|[Hj H2]]%lookup_insert_Some; simpl; intros Ht Hk1 Hk2; eauto.
      * injection Hk1 as <-. by destruct (Hno _ _ H2 (eq_sym Ht)).
      * injection Hk2 as <-. by destruct (Hno _ _ H1 Ht).
    + eexists. simpl. split; [apply lookup_insert_eq|]. done.
Qed.

Lemma resolve_again now uuid T K E d :
  edges_ok d → edge_is T K E d → ∃ d1, resolveEdgeNodeForApiKey now uuid T K d = (Ok E, d1) ∧ same_decisions d d1.
Proof.
  intros Hok He. destruct (edge_of_key_is T K d E Hok He) as (n & Hn & <-).
  unfold resolveEdgeNodeForApiKey. rewrite Hn. eexists. split; [done|]. done.
Qed.

Lemma edges_ok_ext d d' : edge_nodes d' = edge_nodes d → edges_ok d → edges_ok d'.
Proof. intros He [H1 H2]. split; rewrite He; done. Qed.

Lemma transact_edges e T E c m samples d d' : transact e T E c m samples d = (Ok tt, d') → edge_nodes d' = edge_nodes d.
Proof.
  intros (d1 & d2 & H1 & H2 & H3)%transact_Ok.
  apply insert_batch_Ok in H1 as [_ ->]. apply insertSamples_Ok in H3 as [[l ->] _]. simpl.
  unfold insertAggregates in H2. destruct m.*2; [by injection H2 as <-|].
  destruct (_ ≫= _); [|done]. destruct (edge_exists _ _ _); [|done]. by injection H2 as <-.
Qed.

(** A batch that is stored for the edge of the API key. *)
Definition received (T K : jstr) (c : checked) (E : jstr) (d : db) : Prop :=
  edges_ok d ∧ edge_is T K E d ∧
  ∃ b, find_batch E c d = Some b ∧ toLowerCase (ba_payload_hash b) = ch_payload_hash c.

Lemma transact_received e T E c m samples d d' :
  toLowerCase (ch_payload_hash c) = ch_payload_hash c → transact e T E c m samples d = (Ok tt, d') →
  ∃ b, find_batch E c d' = Some b ∧ toLowerCase (ba_payload_hash b) = ch_payload_hash c.
Proof.
  intros Hlow (d1 & d2 & H1 & H2 & H3)%transact_Ok.
  apply insert_batch_Ok in H1 as [_ ->]. apply insertSamples_Ok in H3 as [[l ->] _].
  assert (Hb : decision_batches d2 !! (E, ch_batch_id c) =
    Some (mkBatch E (ch_batch_id c) T (ch_first c) (ch_last c) (ch_payload_hash c))).
  { unfold insertAggregates in H2. destruct m.*2; [injection H2 as <-; apply lookup_insert_eq|].
    destruct (_ ≫= _); [|done]. destruct (edge_exists _ _ _); [|done]. injection H2 as <-. apply lookup_insert_eq. }
  exists (mkBatch E (ch_batch_id c) T (ch_first c) (ch_last c) (ch_payload_hash c)). split; [exact Hb|exact Hlow].
Qed.

Lemma ingest_received e now uuid between T K body d r d' :
  edges_ok d → edge_nodes d !! uuid = None → (∀ x, edge_nodes (between x) = edge_nodes x) →
  ingestDecisionBatch e now uuid between T K body d = (Ok r, d') →
  ∃ c, assertBatchShape e body = Ok c ∧ received T K c (ir_edge_node_id r) d'.
Proof.
  intros Hok Hfresh Hbetw H. apply ingest_cases in H as [(x & ? & _)|(c & E & d1 & Hc & Hr & H)]; [done|].
  exists c. split; [done|]. destruct (resolve_spec _ _ _ _ _ _ _ Hok Hfresh Hr) as [Hok1 He].
  pose proof (assertBatchShape_Ok _ _ _ Hc) as (_ & _ & _ & _ & _ & _ & _ & Hlow).
  assert (Hst : ∀ x, edge_nodes x = edge_nodes d1 → edges_ok x ∧ edge_is T K E x).
  { intros x Hx. split; [by eapply edges_ok_ext|]. unfold edge_is. by rewrite Hx. }
  destruct H as [(b & Hb & Hs)|[Hnone Hrec]].
  - apply settle_Ok in Hs as (-> & -> & b' & [= <-] & Hh). by destruct (Hst d1 eq_refl); split_and!; eauto.
  - apply record_batch_cases in Hrec as [[_ [x ?]]|(m & samples & _ & [[Ht Hr']|(x & d2 & Ht & -> & Hx)])]; [done| |].
    + injection Hr' as ->. simpl. pose proof (transact_edges _ _ _ _ _ _ _ _ Ht) as Hed. rewrite Hbetw in Hed.
      destruct (Hst d' Hed). split_and!; [done|done|]. by eapply transact_received.
    + destruct (has_sqlstate unique_violation x); [|done]. apply settle_Ok in Hx as (_ & -> & b & Hb & Hh).
      destruct (Hst (between d1) (Hbetw d1)). split_and!; eauto.
Qed.

Lemma received_duplicate e now uuid between T K body c E d :
  assertBatchShape e body = Ok c → received T K c E d →
  ∃ d', ingestDecisionBatch e now uuid between T K body d = (Ok (duplicate_of E), d') ∧ same_decisions d d'.
Proof.
  intros Hc (Hok & He & b & Hb & Hh). destruct (resolve_again now uuid T K E d Hok He) as (d1 & Hr & Hsame).
  exists d1. split; [|done]. unfold ingestDecisionBatch, mbind, M_bind, lift, reads. rewrite Hc, Hr.
  assert (find_batch E c d1 = Some b) as -> by (unfold find_batch in *; destruct Hsame as (_ & _ & ->); done).
  unfold settle. by rewrite bool_decide_eq_true_2.
Qed.

Lemma collect_total e rate ds m s :
  Forall (λ d, is_Some (de_parse e (String_ (get d "decided_at")))) ds → ∃ m' s', collect e rate ds m s = Ok (m', s').
Proof.
  intros H. revert m s. induction H as [|d ds [t Ht] _ IH]; intros m s; simpl; [by eauto|]. rewrite Ht. apply IH.
Qed.

(** Another session stored the batch after the first lookup. *)
Lemma record_batch_lost e between T K E c d :
  check_all e (ch_decisions c) = Ok tt → received T K c E (between d) →
  (∃ x, bigint (ch_first c) = Ok x) → (∃ x, bigint (ch_last c) = Ok x) →
  record_batch e between T E c d = (Ok (duplicate_of E), between d).
Proof.
  intros Hchk (_ & _ & b & Hb & Hh) [z1 Hz1] [z2 Hz2].
  destruct (collect_total e (loadSampleRate T d) (ch_decisions c) [] []) as (m & s & Hcol).
  { eapply Forall_impl; [by eapply check_decisions_Ok|]. simpl. tauto. }
  unfold record_batch, mbind, M_bind, reads, lift, writes. rewrite Hcol. unfold catch, withTransaction.
  assert (insert_batch T E c (between d) = (Throw (EPg unique_violation), between d)) as ->.
  { unfold insert_batch, mbind, result_bind. rewrite Hz1, Hz2. unfold find_batch in Hb. by rewrite bool_decide_eq_true_2. }
  simpl. rewrite Hb. unfold settle. by rewrite bool_decide_eq_true_2.
Qed.

(** *** Properties *)

(** What an accepted batch adds to the counters and the samples. *)
Lemma ingest_accounting e now uuid between T K body ds d r d' :
  denv_ok e → get body "decisions" = JArr ds →
  Forall (λ j, is_nullish (get j "principal_id") = true ∨ ∃ s, get j "principal_id" = JStr s) ds →
  ingestDecisionBatch e now uuid between T K body d = (Ok r, d') → ir_duplicate r = false →
  let d0 := between (resolveEdgeNodeForApiKey now uuid T K d).2 in let E := ir_edge_node_id r in
  ir_accepted r = Z.of_nat (length ds) ∧
  (∀ b k v a, stored (T, E, b, k, v, a) d' = stored (T, E, b, k, v, a) d0 + contributed e ds (b, k, v, a)) ∧
  (∀ key, (key.1.1.1.1.1, key.1.1.1.1.2) ≠ (T, E) → stored key d' = stored key d0) ∧
  (∀ x, x ∈ decision_samples d0 → x ∈ decision_samples d') ∧
  (∀ j z, j ∈ ds → action_of j = js "deny" → integer_of (get j "wal_seq") = Some z →
    (E, z) ∈ sample_key <$> decision_samples d').
Proof.
  intros Henv Hds Htyped H Hdup d0 E0.
  apply ingest_cases in H as [(x & ? & _)|(c & E & d1 & Hc & Hr & H)]; [done|].
  destruct (assertBatchShape_Ok _ _ _ Hc) as (_ & _ & Hchk & _ & _ & _ & Hds' & _).
  rewrite Hds in Hds'. injection Hds' as ->. unfold d0 in *. rewrite Hr. simpl.
  destruct H as [(b & Hb & Hs)|[Hnone Hrec]]; [apply settle_Ok in Hs as (_ & -> & _); done|].
  apply record_batch_cases in Hrec as [[_ [x ?]]|(m & samples & Hcol & [[Ht Hr']|(x & d2 & Ht & -> & Hx)])]; [done| |].
  2:{ destruct (has_sqlstate unique_violation x); [|done]. apply settle_Ok in Hx as (_ & -> & _). done. }
  injection Hr' as ->. simpl in *. unfold E0. clear E0. split; [done|].
  apply transact_Ok in Ht as (d2 & d3 & H1 & H2 & H3). apply insert_batch_Ok in H1 as [_ Hd2].
  apply check_decisions_Ok in Hchk.
  destruct (collect_spec e _ _ Henv [] [] [] _ _ Hcol) as [Hroll Hsam].
  { apply Forall_forall. intros j Hj. rewrite Forall_forall in Hchk, Htyped.
    destruct (Hchk j Hj) as (? & ? & _). split; [done|]. split; [done|by apply Htyped]. }
  { by split; [intros ?? ?%elem_of_nil| |intros ? ?%elem_of_nil]. }
  destruct (insertAggregates_counts e T E _ m d2 d3 Henv Hroll H2) as (Hcnt & Hoth & l & Hd3).
  destruct (insertSamples_Ok _ _ _ _ _ _ H3) as ([l' Hd'] & Hkeep & Hdeny).
  assert (Hst : ∀ key, stored key d' = stored key d3) by (intros key; unfold stored; by rewrite Hd').
  assert (Hst0 : ∀ key, stored key d2 = stored key (between d1)) by (intros key; unfold stored; by rewrite Hd2).
  split_and!.
  - intros b k v a. by rewrite Hst, Hcnt, Hst0.
  - intros key Hkey. by rewrite Hst, Hoth, Hst0.
  - intros x Hx. apply Hkeep. by rewrite Hd3, Hd2.
  - intros j z Hj Ha Hz. apply (Hdeny j z); [|done]. rewrite Hsam. simpl. apply list_elem_of_filter. split; [|done].
    unfold shouldSample. by rewrite bool_decide_eq_true_2.
Qed.

(** A new batch is counted exactly once and completely: when ingest reports
    it as not a duplicate, every rollup counter of the edge grew by exactly the
    number of decisions of the batch that belong to it (by minute, by fingerprint
    and, when it is known, by principal, each per action), no counter of another
    edge or tenant moved, the sample table lost nothing and has every denied
    decision, and the batch's hash is recorded. The counters are compared with
    their value when the transaction began. *)
Theorem ingest_counts_once e now uuid between T K body ds d r d' :
  denv_ok e → get body "decisions" = JArr ds →
  Forall (λ j, is_nullish (get j "principal_id") = true ∨ ∃ s, get j "principal_id" = JStr s) ds →
  ingestDecisionBatch e now uuid between T K body d = (Ok r, d') → ir_duplicate r = false →
  let d0 := between (resolveEdgeNodeForApiKey now uuid T K d).2 in let E := ir_edge_node_id r in
  ir_accepted r = Z.of_nat (length ds) ∧
  (∀ b k v a, stored (T, E, b, k, v, a) d' = stored (T, E, b, k, v, a) d0 + contributed e ds (b, k, v, a)) ∧
  (∀ key, (key.1.1.1.1.1, key.1.1.1.1.2) ≠ (T, E) → stored key d' = stored key d0) ∧
  (∀ x, x ∈ decision_samples d0 → x ∈ decision_samples d') ∧
  (∀ j z, j ∈ ds → action_of j = js "deny" → integer_of (get j "wal_seq") = Some z →
    (E, z) ∈ sample_key <$> decision_samples d').
Proof. apply ingest_accounting. Qed.

(** C12. Delivery is idempotent, also under concurrency. Once a batch has been
    accepted, sending it again with the same key answers [duplicate] and changes
    no count, sample or receipt; and when two deliveries of the same batch race,
    the second one storing its rows after the first one looked, the loser answers
    [duplicate] too and adds nothing to what the winner stored. *)
Theorem ingest_exactly_once e now uuid now' uuid' between' T K body d r d1 :
  edges_ok d → edge_nodes d !! uuid = None →
  ingestDecisionBatch e now uuid id T K body d = (Ok r, d1) →
  (∃ d2, ingestDecisionBatch e now' uuid' between' T K body d1 = (Ok (duplicate_of (ir_edge_node_id r)), d2) ∧
         same_decisions d1 d2) ∧
  (∀ now0 uuid0 dpre, edges_ok dpre → edge_nodes dpre !! uuid0 = None →
     (resolveEdgeNodeForApiKey now0 uuid0 T K dpre).2 = d →
     ∃ d2, ingestDecisionBatch e now0 uuid0 (λ x, (ingestDecisionBatch e now uuid id T K body x).2) T K body dpre =
             (Ok (duplicate_of (ir_edge_node_id r)), d2) ∧ same_decisions d1 d2).
Proof.
  intros Hok Hfresh H. destruct (ingest_received e now uuid id T K body d r d1 Hok Hfresh (λ _, eq_refl) H) as (c & Hc & Hrec).
  split; [by apply (received_duplicate e now' uuid' between' T K body c)|].
  intros now0 uuid0 dpre Hokp Hfreshp Hd.
  pose proof H as Hin. apply ingest_cases in Hin as [(x & ? & _)|(c' & E & d3 & Hc' & Hr & Hin)]; [done|].
  assert (c' = c) as -> by congruence.
  destruct (resolveEdgeNodeForApiKey now0 uuid0 T K dpre) as [[E0|x] dp] eqn:Hr0; simpl in Hd; subst dp.
  2:{ exfalso. unfold resolveEdgeNodeForApiKey in Hr0, Hr.
      destruct (edge_of_key T K dpre) eqn:Ek; [done|]. destruct (api_keys dpre !! K) eqn:Ea.
      - destruct (bool_decide _) eqn:Eb in Hr0; [done|]. injection Hr0 as <- <-. by rewrite Ek, Ea, Eb in Hr.
      - injection Hr0 as <- <-. by rewrite Ek, Ea in Hr. }
  destruct (resolve_spec _ _ _ _ _ _ _ Hokp Hfreshp Hr0) as [_ He0].
  assert (E0 = E) as ->.
  { destruct (resolve_again now uuid T K E0 d Hok He0) as (? & Hr2 & _). congruence. }
  assert (HE : ir_edge_node_id r = E).
  { destruct Hin as [(b & _ & Hs)|[_ Hs]]; [by apply settle_Ok in Hs as (_ & -> & _)|].
    apply record_batch_cases in Hs as [[_ [x ?]]|(m & s & _ & [[_ Hx]|(x & ? & _ & _ & Hx)])]; [done|by injection Hx as ->|].
    destruct (has_sqlstate unique_violation x); [|done]. by apply settle_Ok in Hx as (_ & -> & _). }
  rewrite HE in *. unfold ingestDecisionBatch at 1. unfold mbind, M_bind, lift, reads. rewrite Hc, Hr0.
  assert (Hfind : find_batch E c d3 = find_batch E c d).
  { unfold find_batch. by destruct (resolve_same_decisions _ _ _ _ _ _ _ Hr) as (_ & _ & ->). }
  destruct Hin as [(b & Hb & Hs)|[Hnone Hs]].
  - rewrite Hfind in Hb. rewrite Hb. apply settle_Ok in Hs as (Hd1 & _ & b' & [= <-] & Hh). exists d.
    unfold settle. rewrite bool_decide_eq_true_2 by done. split; [done|].
    rewrite Hd1. destruct (resolve_same_decisions _ _ _ _ _ _ _ Hr) as (H1 & H2 & H3). by split_and!.
  - rewrite Hfind in Hnone. rewrite Hnone.
    assert (Hbig : (∃ x, bigint (ch_first c) = Ok x) ∧ ∃ x, bigint (ch_last c) = Ok x).
    { rewrite <- Hfind in Hnone. apply record_batch_cases in Hs as [[_ [x ?]]|(m & s & _ & [[Ht _]|(x & d4 & Ht & Hd & Hx)])]; [done| |].
      - apply transact_Ok in Ht as (? & ? & Hi & _). unfold insert_batch in Hi.
        destruct (bigint (ch_first c)); [|done]. destruct (bigint (ch_last c)); [|done]. eauto.
      - destruct (has_sqlstate unique_violation x); [|done]. apply settle_Ok in Hx as (_ & _ & b & Hb & _).
        simpl in Hb. congruence. }
    exists d1. split; [|done]. destruct Hbig as [Hb1 Hb2].
    destruct (assertBatchShape_Ok _ _ _ Hc) as (_ & _ & Hchk & _).
    pose proof (record_batch_lost e (λ x, (ingestDecisionBatch e now uuid id T K body x).2) T K E c d Hchk) as Hl.
    cbv beta in Hl. rewrite H in Hl. by apply Hl.
Qed.

(** A refused batch leaves no trace: whatever the reason, counts, samples
    and receipts are what they were (only the edge's last-seen time may move). *)
Theorem ingest_refused_no_trace e now uuid T K body d x d' :
  ingestDecisionBatch e now uuid id T K body d = (Throw x, d') → same_decisions d d'.
Proof.
  intros H. apply ingest_cases in H as [(y & _ & [->|(c & _ & z & d1 & Hr & ->)])|(c & E & d1 & Hc & Hr & H)].
  - done.
  - by eapply resolve_same_decisions.
  - apply resolve_same_decisions in Hr. destruct H as [(b & _ & Hs)|[_ Hs]].
    + by apply settle_state in Hs as ->.
    + apply record_batch_cases in Hs as [[-> _]|(m & s & _ & [[_ ?]|(y & ? & _ & -> & _)])]; done.
Qed.

(** *** The properties at concrete inputs *)

Definition toy_denv : denv :=
  mkDenv (λ _, replicate 64 97) (λ _, Some 125000) (λ t, [2 * t + 1])
    (λ v, match v with JStr s => Some s | _ => None end) integer_of
    (λ v, match v with JBool b => Some b | _ => None end)
    (λ v, match v with JStr [x] => Some ((x - 1) / 2) | JStr _ => Some 125000 | _ => None end).

Lemma toy_denv_ok : denv_ok toy_denv.
Proof.
  split; simpl.
  - unfold nul_free. intros t. rewrite list_elem_of_singleton. lia.
  - intros t z. replace (2 * t + 1 - 1) with (t * 2) by lia. rewrite Z.div_mul by done. congruence.
  - congruence.
Qed.

Definition toy_decision (w : Z) (act : string) : json :=
  JObj [(js "wal_seq", JNum (num_of_Z w)); (js "fingerprint", JStr (js "fp1"));
        (js "principal_id", JStr (js "p1")); (js "action", JStr (js act));
        (js "decided_at", JStr (js "2026-08-01T00:02:05Z"))].

Definition toy_body : json :=
  JObj [(js "batch_id", JStr (js "aaaaaaaa-aaaa-aaaa-aaaa-aaaaaaaaaaaa")); (js "payload_hash", JStr (replicate 64 65));
        (js "first_wal_seq", JNum (num_of_Z 1)); (js "last_wal_seq", JNum (num_of_Z 3));
        (js "decisions", JArr [toy_decision 1 "allow"; toy_decision 2 "deny"; toy_decision 3 "allow"])].

Definition toy_db : db :=
  set_api_keys {[js "k1" := mkApiKey (js "k1") (js "t") (js "vl_") (js "h") [] None 1 None]} empty_db.

Lemma toy_db_ok : edges_ok toy_db.
Proof. by split. Qed.

(** Two allowed and one denied decision in the minute starting at 120000:
    the denied one is sampled. *)
Lemma toy_ingest : ∃ d', ingestDecisionBatch toy_denv 9 (js "e1") id (js "t") (js "k1") toy_body toy_db =
  (Ok (mkIngest false (js "e1") 3 1), d').
Proof. apply fst_run. vm_compute. reflexivity. Qed.

Lemma ingest_counts_once_witness :
  ∃ d', ingestDecisionBatch toy_denv 9 (js "e1") id (js "t") (js "k1") toy_body toy_db =
    (Ok (mkIngest false (js "e1") 3 1), d') ∧
  stored (js "t", js "e1", 120000, js "principal", js "p1", js "deny") d' = 1.
Proof.
  destruct toy_ingest as (d' & H). exists d'. split; [exact H|].
  destruct (ingest_counts_once toy_denv 9 (js "e1") id (js "t") (js "k1") toy_body
    [toy_decision 1 "allow"; toy_decision 2 "deny"; toy_decision 3 "allow"] toy_db (mkIngest false (js "e1") 3 1) d'
    toy_denv_ok eq_refl) as (_ & Hc & _).
  - do 3 (apply Forall_cons_2; [right; eexists; reflexivity|]). apply Forall_nil_2.
  - exact H.
  - reflexivity.
  - cbn [ir_edge_node_id] in Hc. rewrite Hc. vm_compute. reflexivity.
Defined.

Lemma ingest_exactly_once_witness :
  ∃ d1 d2, ingestDecisionBatch toy_denv 9 (js "e1") id (js "t") (js "k1") toy_body toy_db =
    (Ok (mkIngest false (js "e1") 3 1), d1) ∧
  ingestDecisionBatch toy_denv 10 (js "e2") id (js "t") (js "k1") toy_body d1 = (Ok (duplicate_of (js "e1")), d2) ∧
  same_decisions d1 d2.
Proof.
  destruct toy_ingest as (d1 & H). exists d1.
  destruct (ingest_exactly_once toy_denv 9 (js "e1") 10 (js "e2") id (js "t") (js "k1") toy_body toy_db
    (mkIngest false (js "e1") 3 1) d1 toy_db_ok eq_refl H) as [(d2 & H2 & Hs) _].
  exists d2. exact (conj H (conj H2 Hs)).
Defined.

Lemma ingest_refused_no_trace_witness :
  ∃ x d', ingestDecisionBatch toy_denv 9 (js "e1") id (js "t") (js "nokey") toy_body toy_db = (Throw x, d') ∧
    same_decisions toy_db d'.
Proof.
  assert (H : ∃ x d', ingestDecisionBatch toy_denv 9 (js "e1") id (js "t") (js "nokey") toy_body toy_db = (Throw x, d'))
    by (do 2 eexists; vm_compute; reflexivity).
  destruct H as (x & d' & H). exists x, d'. split; [exact H|].
  exact (ingest_refused_no_trace toy_denv 9 (js "e1") (js "t") (js "nokey") toy_body toy_db x d' H).
Defined.

End DecisionInv.
