(* ===== verification/Bootstrap.v ===== *)
(** * The bootstrap registry

    [src/control-plane/src/domains/bootstrap/]: [seedManifest.ts] (the curated
    roots and agents), [bootstrapSeeder.ts] (idempotent seeding and the derived
    [is_bootstrap] flag), [seedAttestations.ts] (signed initial attestations),
    [bootstrapRepository.ts] (staff edits), with the PATCH handler of
    [routes/admin.ts].

    The record [benv] holds the clock, the environment's private key and the
    library functions: base64url decoding, SHA-256, signing, generated row ids, and
    PostgreSQL's conversion to NUMERIC(3,2) (hundredths). *)

From stdpp Require Import base gmap strings numbers sorting list.
From Stdlib Require Import ZArith Lia.
From S2P Require Import Prelude Json Errors Db Principals GraphLoader VeriRank Canonicalize Attestations Tokens.

Record benv := mkBenv {
  be_now : Z;
  be_decode : jstr → list Z;                    (** [Buffer.from(x, 'base64url')] *)
  be_sha256hex_bytes : list Z → jstr;
  be_sha256hex : jstr → jstr;
  be_private_key : option (result exn jstr);    (** [BOOTSTRAP_SEED_PRIVATE_KEY_JWK]: unset, unusable, or its public [x] *)
  be_SignJWT : json → json → jstr;              (** jose, with the seed's private key: protected header, claims *)
  be_row_id : jstr → jstr;                      (** generated id of a subject's row *)
  be_numeric32 : number → Z
}.

(** ** [seedManifest.ts] *)
Module SeedManifest.

Record SeedIssuerEntry := mkSeedIssuer {
  si_id : jstr; si_name : jstr; si_entityKind : jstr; si_keyId : jstr; si_publicKeyX : jstr; si_note : jstr }.

Record SeedAgentEntry := mkSeedAgent {
  sa_id : jstr; sa_name : jstr; sa_entityKind : jstr; sa_note : jstr; sa_trustDelta : Z;
  sa_attestationType : jstr; sa_facts : json }.

Definition BOOTSTRAP_KEY_ID : jstr := js "bootstrap-k1".

Definition VERILINK : SeedIssuerEntry :=
  mkSeedIssuer (js "vrl:p:11111111-1111-4111-8111-111111111111") (js "VeriLink Bootstrap") (js "issuer")
    BOOTSTRAP_KEY_ID (js "GOGFvz5XIo7ylOg7DQzOrxyg68ulDuNclIDTMQwhzSI")
    (js "VeriLink-owned bootstrap root. Signs the seeded initial attestations (PR B).").

Definition WHIMSY : SeedIssuerEntry :=
  mkSeedIssuer (js "vrl:p:22222222-2222-4222-8222-222222222222") (js "Whimsy") (js "both")
    BOOTSTRAP_KEY_ID (js "Mz1Sin-ts2l2P3S0DBhehW02chXdBIg64OHbl2KmMUE")
    (js "First seeded issuer (design " ++ [167] ++ js "2.3 / " ++ [167] ++ js "6.3). Legacy behavioral@0 allowlist member.").

Definition SEED_ISSUERS : list SeedIssuerEntry := [VERILINK; WHIMSY].

Definition seed_facts (start : string) (success failure : Z) : json :=
  JObj [(js "start", JStr (js start)); (js "end", JStr (js "2026-08-01T00:00:00.000Z"));
        (js "success_count", JNum (num_of_Z success)); (js "failure_count", JNum (num_of_Z failure));
        (js "dispute_count", JNum (num_of_Z 0))].

Definition SEED_AGENTS : list SeedAgentEntry :=
  [mkSeedAgent (js "vrl:p:aaaaaaaa-aaaa-4aaa-8aaa-aaaaaaaaaaaa") (js "VeriLink Edge Agent") (js "agent")
     (js "VeriLink built-in edge verification agent.") 20 (js "transaction_summary")
     (seed_facts "2026-01-01T00:00:00.000Z" 1000 0);
   mkSeedAgent (js "vrl:p:bbbbbbbb-bbbb-4bbb-8bbb-bbbbbbbbbbbb") (js "Whimsy Assistant") (js "agent")
     (js "Whimsy platform assistant agent.") 15 (js "transaction_summary")
     (seed_facts "2026-03-01T00:00:00.000Z" 500 2)].

End SeedManifest.

(** ** [seedAttestations.ts] *)
Module SeedAttestations.
Import SeedManifest PrincipalRepo AttestationRepo.

Definition BOOTSTRAP_ISSUER_ID : jstr := si_id VERILINK.

Definition loadAndValidateBootstrapPrivateKey (e : benv) : result exn unit :=
  match be_private_key e with
  | None => Throw (EError (js "BOOTSTRAP_SEED_PRIVATE_KEY_JWK not set."))
  | Some (Throw x) => Throw x
  | Some (Ok x) =>
      if bool_decide (x = si_publicKeyX VERILINK) then Ok tt
      else Throw (EError (js "BOOTSTRAP_SEED_PRIVATE_KEY_JWK public key mismatch"))
  end.

(** [INSERT INTO principals ... ON CONFLICT (id) DO NOTHING], unowned. *)
Definition insert_unowned (now : Z) (id kind name : jstr) (metadata : json) : M unit := λ d,
  match principals d !! id with
  | Some _ => (Ok tt, d)
  | None => insert_principal (mkPrincipal id kind (Some name) None metadata now now (js "active")) d
  end.

Definition conflict : exn := EError (js "bootstrap seed conflict").

Definition upsertSeedSubject (e : benv) (agentId agentName entityKind : jstr) : M unit :=
  existing ← reads (λ d, principals d !! agentId);
  _ ← lift (match existing with
            | Some p =>
                if negb (bool_decide (p_entity_kind p = entityKind)) || negb (bool_decide (p_name p = Some agentName))
                then Throw conflict
                else if negb (bool_decide (p_owner_tenant_id p = None)) then Throw conflict
                else Ok tt
            | None => Ok tt
            end);
  insert_unowned (be_now e) agentId entityKind agentName (JObj [(js "bootstrap_seed", JBool true)]).

Definition seed_payload (a : SeedAgentEntry) : json :=
  JObj [(js "type", JStr (sa_attestationType a)); (js "facts", sa_facts a);
        (js "trust_level_delta", JNum (num_of_Z (sa_trustDelta a))); (js "schema_version", JStr (js "1"));
        (js "visibility", JStr (js "public"))].

Definition seed_row (e : benv) (a : SeedAgentEntry) (jwsToken factsHash : jstr) (issuedAt : Z) : Attestation :=
  mkAttestation (be_row_id e (sa_id a)) BOOTSTRAP_ISSUER_ID (sa_id a) jwsToken (be_sha256hex e jwsToken)
    (seed_payload a) (sa_facts a) factsHash (js "public") (sa_trustDelta a) (sa_attestationType a) (js "1")
    (Some (js "bootstrap-seed-" ++ sa_id a)) None issuedAt None None true BOOTSTRAP_KEY_ID (be_now e) true.

(** [INSERT ... ON CONFLICT (token_digest) DO NOTHING RETURNING id]; the result
    tells whether a row was inserted. *)
Definition insertSeedAttestation (row : Attestation) : M bool := λ d,
  if (a_trust_delta row <? -100) || (100 <? a_trust_delta row)
     || negb (sign_ok (a_attestation_type row) (a_trust_delta row))
  then (Throw (EPg check_violation), d)
  else if bool_decide (is_Some (findByTokenDigest (a_token_digest row) d)) then (Ok false, d)
  else if bool_decide (is_Some (attestations d !! a_id row)) then (Throw (EPg unique_violation), d)
  else if negb (bool_decide (is_Some (issuers d !! a_issuer_id row)))
          || negb (bool_decide (is_Some (principals d !! a_subject_id row)))
          || negb (bool_decide (is_Some (principal_keys d !! (a_issuer_id row, a_verified_key_id row))))
  then (Throw (EPg foreign_key_violation), d)
  else (Ok true, set_attestations (<[a_id row := row]> (attestations d)) d).

(** [Math.floor(new Date('2026-08-01T00:00:00Z').getTime() / 1000)] *)
Definition issuedAtUnix : Z := 1785542400.

Definition signSeedAttestation (e : benv) (issuerId subjectId keyId attestationType : jstr) (trustDelta : Z)
    (facts : json) (issuedAtUnix : Z) : jstr :=
  be_SignJWT e (Tokens.protected_header keyId)
    (Tokens.claims_json (Tokens.mkClaims (Tokens.mkVli attestationType facts trustDelta (js "public"))
       issuerId subjectId issuedAtUnix (js "bootstrap-seed-" ++ subjectId) None)).

(** One turn of the loop; [n] counts the inserted rows. *)
Definition seed_agent (e : benv) (n : Z) (a : SeedAgentEntry) : M Z :=
  _ ← upsertSeedSubject e (sa_id a) (sa_name a) (sa_entityKind a);
  let jwsToken := signSeedAttestation e BOOTSTRAP_ISSUER_ID (sa_id a) BOOTSTRAP_KEY_ID (sa_attestationType a)
                    (sa_trustDelta a) (sa_facts a) issuedAtUnix in
  factsHash ← lift (Canonicalize.computeFactsHash (be_sha256hex e) (sa_facts a));
  inserted ← insertSeedAttestation (seed_row e a jwsToken factsHash (issuedAtUnix * 1000));
  mret (if (inserted : bool) then n + 1 else n).

Definition seedBootstrapAttestations (e : benv) : M (Z * Z) :=
  _ ← lift (loadAndValidateBootstrapPrivateKey e);
  n ← for_fold SEED_AGENTS (seed_agent e) 0;
  mret (n, Z.of_nat (length SEED_AGENTS)).

End SeedAttestations.

(** ** [bootstrapSeeder.ts] *)
Module BootstrapSeeder.
Import SeedManifest SeedAttestations PrincipalRepo.

Definition keyHashForX (e : benv) (x : jstr) : jstr := be_sha256hex_bytes e (be_decode e x).

Definition publicKeyJwk (x : jstr) : json :=
  JObj [(js "kty", JStr (js "OKP")); (js "crv", JStr (js "Ed25519")); (js "x", JStr x);
        (js "key_ops", JArr [JStr (js "verify")]); (js "ext", JBool true)].

Definition HOUR_MS : Z := 3600000.

(** The four insert-only statements. *)
Definition insert_issuer (e : benv) (id : jstr) : M unit := λ d,
  match issuers d !! id with
  | Some _ => (Ok tt, d)
  | None => if bool_decide (is_Some (principals d !! id))
            then (Ok tt, set_issuers (<[id := mkIssuer id 100 false None (be_now e)]> (issuers d)) d)
            else (Throw (EPg foreign_key_violation), d)
  end.

Definition insert_seed_key (e : benv) (entry : SeedIssuerEntry) : M unit := λ d,
  match principal_keys d !! (si_id entry, si_keyId entry) with
  | Some _ => (Ok tt, d)
  | None =>
      if key_hash_taken (keyHashForX e (si_publicKeyX entry)) d then (Throw (EPg unique_violation), d)
      else if negb (bool_decide (is_Some (principals d !! si_id entry))) then (Throw (EPg foreign_key_violation), d)
      else
        let t := be_now e - HOUR_MS in
        let k := mkPrincipalKey (si_id entry) (si_keyId entry) (be_decode e (si_publicKeyX entry))
                   (publicKeyJwk (si_publicKeyX entry)) (keyHashForX e (si_publicKeyX entry)) (Some t) t None None in
        (Ok tt, set_principal_keys (<[(si_id entry, si_keyId entry) := k]> (principal_keys d)) d)
  end.

Definition insert_root (e : benv) (entry : SeedIssuerEntry) : M unit := λ d,
  match bootstrap_issuers d !! si_id entry with
  | Some _ => (Ok tt, d)
  | None =>
      if bool_decide (is_Some (issuers d !! si_id entry))
      then (Ok tt, set_bootstrap_issuers (<[si_id entry :=
              mkBootstrapIssuer (si_id entry) (si_name entry) 100 (be_now e) None None None None]>
              (bootstrap_issuers d)) d)
      else (Throw (EPg foreign_key_violation), d)
  end.

Definition upsertSeedIssuer (e : benv) (entry : SeedIssuerEntry) : M unit :=
  let keyHash := keyHashForX e (si_publicKeyX entry) in
  let raw := be_decode e (si_publicKeyX entry) in
  existingPrincipal ← reads (λ d, principals d !! si_id entry);
  _ ← lift (match existingPrincipal with
            | Some p =>
                if negb (bool_decide (p_entity_kind p = si_entityKind entry))
                   || negb (bool_decide (p_name p = Some (si_name entry)))
                then Throw conflict else Ok tt
            | None => Ok tt
            end);
  existingKey ← reads (λ d, principal_keys d !! (si_id entry, si_keyId entry));
  _ ← lift (match existingKey with
            | Some k =>
                if negb (bool_decide (k_public_key_raw k = raw)) || negb (bool_decide (k_key_hash k = keyHash))
                then Throw conflict else Ok tt
            | None => Ok tt
            end);
  _ ← insert_unowned (be_now e) (si_id entry) (si_entityKind entry) (si_name entry)
        (JObj [(js "bootstrap_seed", JBool true); (js "note", JStr (si_note entry))]);
  _ ← insert_issuer e (si_id entry);
  _ ← insert_seed_key e entry;
  insert_root e entry.

(** [EXISTS (SELECT 1 FROM bootstrap_issuers b WHERE b.principal_id = p AND
    b.removed_from_registry_at IS NULL AND b.current_weight > 0)] *)
Definition is_root (d : db) (p : jstr) : bool :=
  match bootstrap_issuers d !! p with
  | Some b => bool_decide (b_removed_from_registry_at b = None) && (0 <? b_current_weight b)
  | None => false
  end.

Definition with_flag (f : bool) (i : Issuer) : Issuer :=
  mkIssuer (i_principal_id i) (i_trust_weight i) f (i_verified_at i) (i_created_at i).

Definition deriveIsBootstrap (d : db) : db :=
  set_issuers (map_imap (λ p i, Some (with_flag (is_root d p) i)) (issuers d)) d.

Definition deriveIsBootstrapForIssuer (principalId : jstr) (d : db) : db :=
  set_issuers (alter (with_flag (is_root d principalId)) principalId (issuers d)) d.

Record SeedResult := mkSeedResult { sr_issuers : Z; sr_roots : Z; sr_attestations : Z; sr_subjects : Z }.

Definition seedBootstrapRegistry (e : benv) : M SeedResult :=
  withTransaction (
    _ ← for_each SEED_ISSUERS (upsertSeedIssuer e);
    _ ← writes deriveIsBootstrap;
    att ← match be_private_key e with
          | Some _ => seedBootstrapAttestations e
          | None => mret (0, 0)
          end;
    issuers_ ← reads (λ d, Z.of_nat (length (filter (λ i, i_is_bootstrap i = true) (map_to_list (issuers d)).*2)));
    roots ← reads (λ d, Z.of_nat (size (bootstrap_issuers d)));
    mret (mkSeedResult issuers_ roots att.1 att.2)).

End BootstrapSeeder.

(** ** [bootstrapRepository.ts] and the PATCH handler of [routes/admin.ts] *)
Module BootstrapRepo.
Import BootstrapSeeder.

(** [None]: the property is undefined and the column is left alone. *)
Record BootstrapUpdate := mkBootUpdate {
  bu_current_weight : option number;
  bu_de_emphasis_reason : option (option jstr);
  bu_approved_by : option (option jstr);
  bu_remove_from_registry : option bool
}.

Record BootstrapIssuerRow := mkBootRow { br_row : BootstrapIssuer; br_trust_weight : Z; br_verified_at : option Z }.

(** The columns of the UPDATE. *)
Definition apply_update (e : benv) (u : BootstrapUpdate) (b : BootstrapIssuer) : BootstrapIssuer :=
  mkBootstrapIssuer (b_principal_id b) (b_name b)
    (match bu_current_weight u with Some w => be_numeric32 e w | None => b_current_weight b end)
    (b_seeded_at b)
    (match bu_de_emphasis_reason u with
     | Some (Some (_ :: _)) => Some (be_now e)
     | Some _ => None
     | None => b_de_emphasized_at b
     end)
    (match bu_de_emphasis_reason u with Some r => r | None => b_de_emphasis_reason b end)
    (match bu_approved_by u with Some a => a | None => b_approved_by b end)
    (match bu_remove_from_registry u with
     | Some true => Some (be_now e)
     | Some false => None
     | None => b_removed_from_registry_at b
     end).

Definition no_columns (u : BootstrapUpdate) : bool :=
  match bu_current_weight u, bu_de_emphasis_reason u, bu_approved_by u, bu_remove_from_registry u with
  | None, None, None, None => true
  | _, _, _, _ => false
  end.

Definition update_row (e : benv) (principalId : jstr) (u : BootstrapUpdate) : M (option BootstrapIssuer) := λ d,
  match bootstrap_issuers d !! principalId with
  | None => (Ok None, d)
  | Some b =>
      let b' := apply_update e u b in
      if (b_current_weight b' <? 0) || (100 <? b_current_weight b') then (Throw (EPg check_violation), d)
      else if match bu_approved_by u with
              | Some (Some a) => negb (bool_decide (is_Some (users d !! a)))
              | _ => false
              end then (Throw (EPg foreign_key_violation), d)
      else (Ok (Some b'), set_bootstrap_issuers (<[principalId := b']> (bootstrap_issuers d)) d)
  end.

Definition updateBootstrapIssuer (e : benv) (principalId : jstr) (u : BootstrapUpdate) :
  M (option BootstrapIssuerRow) :=
  withTransaction (
    if no_columns u then mret None else
    row ← update_row e principalId u;
    match row with
    | None => mret None
    | Some b =>
        _ ← writes (deriveIsBootstrapForIssuer principalId);
        issuer ← reads (λ d, issuers d !! principalId);
        mret (Some (mkBootRow b (match issuer with Some i => i_trust_weight i | None => 100 end)
                                (match issuer with Some i => i_verified_at i | None => None end)))
    end).

(** [JOIN issuers i ON i.principal_id = b.principal_id ORDER BY b.seeded_at ASC] *)
Definition seeded_le (a b : BootstrapIssuer) : bool := b_seeded_at a <=? b_seeded_at b.

Definition listBootstrapIssuers (d : db) : list BootstrapIssuerRow :=
  omap (λ b, (λ i, mkBootRow b (i_trust_weight i) (i_verified_at i)) <$> issuers d !! b_principal_id b)
    (sort_by seeded_le (map_to_list (bootstrap_issuers d)).*2).

Definition issuer_le (a b : Issuer) : bool := i_created_at a <=? i_created_at b.

(** Issuers whose principal exists and that are not verified yet. *)
Definition listUnverifiedIssuers (d : db) : list (Issuer * Principal) :=
  omap (λ i, (λ p, (i, p)) <$> principals d !! i_principal_id i)
    (sort_by issuer_le (filter (λ i, i_verified_at i = None) (map_to_list (issuers d)).*2)).

Definition bad_request {A} (msg : jstr) : result exn A := throw_app BAD_REQUEST msg.

(** The body of PATCH /v1/admin/bootstrap-issuers. *)
Definition parse_patch (body : json) (userId : option jstr) : result exn (jstr * BootstrapUpdate) :=
  _ ← guard_or (negb (is_nullish body)) (EError (js "TypeError"));
  principal_id ← match get body "principal_id" with
                 | JStr (c :: s) => Ok (c :: s)
                 | _ => bad_request (js "principal_id is required")
                 end;
  match get body "current_weight", get body "de_emphasis_reason", get body "remove_from_registry" with
  | JUndef, JUndef, JUndef =>
      bad_request (js "Provide at least one of current_weight, de_emphasis_reason, or remove_from_registry")
  | w, r, m =>
      weight ← match w with
               | JUndef => Ok None
               | JNum n =>
                   if isNaN n || num_ltb n (num_of_Z 0) || num_ltb (num_of_Z 1) n
                   then bad_request (js "current_weight must be a number between 0 and 1") else Ok (Some n)
               | _ => bad_request (js "current_weight must be a number between 0 and 1")
               end;
      reason ← match r with
               | JUndef => Ok None
               | JNull => Ok (Some None)
               | JStr s => Ok (Some (Some s))
               | _ => bad_request (js "de_emphasis_reason must be a string or null")
               end;
      remove ← match m with
               | JUndef => Ok None
               | JBool b => Ok (Some b)
               | _ => bad_request (js "remove_from_registry must be a boolean")
               end;
      Ok (principal_id, mkBootUpdate weight reason (Some userId) remove)
  end.

Definition patch_bootstrap_issuer (e : benv) (body : json) (userId : option jstr) : M BootstrapIssuerRow :=
  pu ← lift (parse_patch body userId);
  updated ← updateBootstrapIssuer e pu.1 pu.2;
  match updated with
  | Some r => mret r
  | None => lift (throw_app NOT_FOUND (js "Bootstrap issuer not found"))
  end.

End BootstrapRepo.

(** ** Properties *)
Module BootstrapInv.
Import SeedManifest SeedAttestations BootstrapSeeder BootstrapRepo PrincipalRepo AttestationRepo.
Import GraphLoader VeriRank.

(** Rows are only added, except for the flag of an issuer. *)
Record grows (d d' : db) : Prop := {
  gw_principals : ∀ p r, principals d !! p = Some r → principals d' !! p = Some r;
  gw_issuers : ∀ p i, issuers d !! p = Some i → ∃ f, issuers d' !! p = Some (with_flag f i);
  gw_keys : ∀ k r, principal_keys d !! k = Some r → principal_keys d' !! k = Some r;
  gw_roots : ∀ p b, bootstrap_issuers d !! p = Some b → bootstrap_issuers d' !! p = Some b;
  gw_attestations : ∀ i a, attestations d !! i = Some a → attestations d' !! i = Some a
}.

Lemma with_flag_same i : with_flag (i_is_bootstrap i) i = i.
Proof. by destruct i. Qed.

Lemma with_flag_twice f g i : with_flag f (with_flag g i) = with_flag f i.
Proof. done. Qed.

Lemma grows_refl d : grows d d.
Proof. split; eauto. intros p i Hi. exists (i_is_bootstrap i). by rewrite with_flag_same. Qed.

Lemma grows_trans d1 d2 d3 : grows d1 d2 → grows d2 d3 → grows d1 d3.
Proof.
  intros [A1 B1 C1 D1 E1] [A2 B2 C2 D2 E2]. split; eauto.
  intros p i [f Hf]%B1. destruct (B2 _ _ Hf) as [g Hg]. exists g. by rewrite with_flag_twice in Hg.
Qed.

#[local] Hint Resolve grows_refl : core.

(** A computation that, when it succeeds, has only added rows. *)
Definition adding {A} (m : M A) : Prop := ∀ d a d', m d = (Ok a, d') → grows d d'.

Lemma adding_bind {A B} (m : M A) (k : A → M B) : adding m → (∀ a, adding (k a)) → adding (m ≫= k).
Proof. intros Hm Hk d b d' (a & d1 & H1 & H2)%M_bind_Ok. eapply grows_trans; [by eapply Hm|by eapply Hk]. Qed.
Lemma adding_reads {A} (f : db → A) : adding (reads f).
Proof. by intros d a d' [= _ <-]. Qed.
Lemma adding_lift {A} (r : result exn A) : adding (lift r).
Proof. by intros d a d' [_ ->]%lift_Ok. Qed.
Lemma adding_ret {A} (a : A) : adding (mret a).
Proof. by intros d a' d' [= _ <-]. Qed.

Lemma adding_insert_unowned now id kind name md : adding (insert_unowned now id kind name md).
Proof.
  intros d [] d'. unfold insert_unowned. destruct (principals d !! id) eqn:E; [by intros [= <-]|].
  intros (-> & Hn & _)%PrincipalInv.insert_principal_Ok. simpl in Hn.
  split; simpl; eauto; [|intros p i Hi; exists (i_is_bootstrap i); by rewrite with_flag_same].
  intros p r Hp. rewrite lookup_insert_ne; [done|]. congruence.
Qed.

Ltac grows_one := split; simpl; eauto;
  try (intros p i Hi; exists (i_is_bootstrap i); by rewrite with_flag_same).

Lemma adding_insert_issuer e id : adding (insert_issuer e id).
Proof.
  intros d [] d'. unfold insert_issuer. destruct (issuers d !! id) eqn:E; [by intros [= <-]|].
  case_bool_decide; [|done]. intros [= <-]. split; simpl; eauto.
  intros p i Hi. exists (i_is_bootstrap i). rewrite with_flag_same, lookup_insert_ne; [done|]. congruence.
Qed.

Lemma adding_insert_seed_key e entry : adding (insert_seed_key e entry).
Proof.
  intros d [] d'. unfold insert_seed_key. destruct (principal_keys d !! _) eqn:E; [by intros [= <-]|].
  destruct (key_hash_taken _ _); [done|]. destruct (negb _); [done|]. intros [= <-]. grows_one.
  intros k r Hk. rewrite lookup_insert_ne; [done|]. congruence.
Qed.

Lemma adding_insert_root e entry : adding (insert_root e entry).
Proof.
  intros d [] d'. unfold insert_root. destruct (bootstrap_issuers d !! _) eqn:E; [by intros [= <-]|].
  case_bool_decide; [|done]. intros [= <-]. grows_one.
  intros p b Hp. rewrite lookup_insert_ne; [done|]. congruence.
Qed.

Lemma adding_upsertSeedIssuer e entry : adding (upsertSeedIssuer e entry).
Proof.
  unfold upsertSeedIssuer.
  repeat (apply adding_bind; [|intros ?]);
    eauto using adding_reads, adding_lift, adding_insert_unowned, adding_insert_issuer, adding_insert_seed_key, adding_insert_root.
Qed.

Lemma adding_insertSeedAttestation row : adding (insertSeedAttestation row).
Proof.
  intros d b d'. unfold insertSeedAttestation. destruct (_ || _); [done|]. case_bool_decide; [by intros [= _ <-]|].
  case_bool_decide as Hn; [done|]. destruct (_ || _); [done|]. intros [= _ <-]. grows_one.
  intros i a Hi. rewrite lookup_insert_ne; [done|]. intros <-. apply Hn. eauto.
Qed.

Lemma adding_for_each {A} (l : list A) (f : A → M unit) : (∀ x, adding (f x)) → adding (for_each l f).
Proof. intros Hf. induction l; simpl; [apply adding_ret|by apply adding_bind]. Qed.
Lemma adding_for_fold {A S} (l : list A) (f : S → A → M S) s : (∀ s x, adding (f s x)) → adding (for_fold l f s).
Proof. intros Hf. revert s. induction l; intros s; simpl; [apply adding_ret|by apply adding_bind]. Qed.

Lemma adding_seed_agent e n a : adding (seed_agent e n a).
Proof.
  unfold seed_agent, upsertSeedSubject.
  repeat (first [apply adding_bind; [|intros ?]]);
    eauto using adding_reads, adding_lift, adding_ret, adding_insert_unowned, adding_insertSeedAttestation.
Qed.

Lemma adding_seedBootstrapAttestations e : adding (seedBootstrapAttestations e).
Proof.
  unfold seedBootstrapAttestations. apply adding_bind; [apply adding_lift|intros _].
  apply adding_bind; [apply adding_for_fold, adding_seed_agent|intros n]. apply adding_ret.
Qed.

Lemma adding_derive : adding (writes deriveIsBootstrap).
Proof.
  intros d [] d' [= <-]. split; simpl; eauto. intros p i Hi. exists (is_root d p).
  by rewrite map_lookup_imap, Hi.
Qed.

Lemma adding_seed e : adding (seedBootstrapRegistry e).
Proof.
  intros d r d' H. unfold seedBootstrapRegistry in H. rewrite withTransaction_Ok in H. revert H.
  apply (adding_bind (for_each SEED_ISSUERS (upsertSeedIssuer e))); [apply adding_for_each, adding_upsertSeedIssuer|].
  intros _. apply adding_bind; [apply adding_derive|]. intros _.
  apply adding_bind; [destruct (be_private_key e); [apply adding_seedBootstrapAttestations|apply adding_ret]|].
  intros att. repeat (apply adding_bind; [apply adding_reads|intros ?]). apply adding_ret.
Qed.

(** *** Seeded entries *)

Record seeded (e : benv) (entry : SeedIssuerEntry) (d : db) : Prop := {
  sd_principal : ∃ p, principals d !! si_id entry = Some p ∧ p_entity_kind p = si_entityKind entry ∧
                      p_name p = Some (si_name entry);
  sd_issuer : is_Some (issuers d !! si_id entry);
  sd_key : ∃ k, principal_keys d !! (si_id entry, si_keyId entry) = Some k ∧
                k_public_key_raw k = be_decode e (si_publicKeyX entry) ∧ k_key_hash k = keyHashForX e (si_publicKeyX entry);
  sd_root : is_Some (bootstrap_issuers d !! si_id entry)
}.

Lemma seeded_grows e entry d d' : grows d d' → seeded e entry d → seeded e entry d'.
Proof.
  intros [A B C D _] [(p & Hp & ?) [i Hi] (k & Hk & ?) [b Hb]]. split.
  - exists p. eauto.
  - destruct (B _ _ Hi). eauto.
  - exists k. eauto.
  - eauto.
Qed.

Lemma insert_unowned_present now id kind name md d d' :
  insert_unowned now id kind name md d = (Ok tt, d') →
  ∃ p, principals d' !! id = Some p ∧
    (principals d !! id = Some p ∨ p = mkPrincipal id kind (Some name) None md now now (js "active")).
Proof.
  unfold insert_unowned. destruct (principals d !! id) as [p|] eqn:E; [intros [= <-]; eauto|].
  intros (-> & _)%PrincipalInv.insert_principal_Ok. eexists. split; [simpl; apply lookup_insert_eq|]. by right.
Qed.

Lemma upsertSeedIssuer_seeded e entry d d' : upsertSeedIssuer e entry d = (Ok tt, d') → seeded e entry d'.
Proof.
  unfold upsertSeedIssuer. intros H.
  apply M_bind_Ok in H as (op & d1 & [= <- <-] & H). apply M_bind_Ok in H as (u1 & d2 & H1 & H).
  apply lift_Ok in H1 as [H1 ->]. apply M_bind_Ok in H as (ox & d3 & [= <- <-] & H).
  apply M_bind_Ok in H as (u2 & d4 & H2 & H). apply lift_Ok in H2 as [H2 ->].
  apply M_bind_Ok in H as ([] & d5 & H5 & H). apply M_bind_Ok in H as ([] & d6 & H6 & H).
  apply M_bind_Ok in H as ([] & d7 & H7 & H8).
  pose proof (adding_insert_unowned _ _ _ _ _ _ _ _ H5) as G5. pose proof (adding_insert_issuer _ _ _ _ _ H6) as G6.
  pose proof (adding_insert_seed_key _ _ _ _ _ H7) as G7. pose proof (adding_insert_root _ _ _ _ _ H8) as G8.
  split.
  - destruct (insert_unowned_present _ _ _ _ _ _ _ H5) as (p & Hp & Hor). exists p.
    split; [by apply (gw_principals _ _ (grows_trans _ _ _ G6 (grows_trans _ _ _ G7 G8)))|].
    destruct Hor as [Hd| ->]; [|done]. rewrite Hd in H1. destruct (negb _ || _) eqn:E in H1; [done|].
    apply orb_false_iff in E as [E1%negb_false_iff E2%negb_false_iff]. by apply bool_decide_eq_true in E1, E2.
  - assert (Hi : is_Some (issuers d6 !! si_id entry)).
    { unfold insert_issuer in H6. destruct (issuers d5 !! _) eqn:E; [injection H6 as <-; eauto|].
      case_bool_decide; [|done]. injection H6 as <-. simpl. rewrite lookup_insert_eq. eauto. }
    destruct Hi as [i Hi]. destruct (gw_issuers _ _ (grows_trans _ _ _ G7 G8) _ _ Hi). eauto.
  - assert (Hk : ∃ k, principal_keys d7 !! (si_id entry, si_keyId entry) = Some k ∧
        k_public_key_raw k = be_decode e (si_publicKeyX entry) ∧ k_key_hash k = keyHashForX e (si_publicKeyX entry)).
    { unfold insert_seed_key in H7. destruct (principal_keys d6 !! _) as [k|] eqn:E.
      - injection H7 as <-. exists k. split; [done|].
        destruct (principal_keys d !! (si_id entry, si_keyId entry)) as [k0|] eqn:E0.
        + rewrite (gw_keys _ _ (grows_trans _ _ _ G5 G6) _ _ E0) in E. injection E as ->.
          destruct (negb _ || _) eqn:Eb in H2; [done|].
          apply orb_false_iff in Eb as [E1%negb_false_iff E2%negb_false_iff]. by apply bool_decide_eq_true in E1, E2.
        + exfalso. assert (principal_keys d6 = principal_keys d) as Hs; [|rewrite Hs, E0 in E; done].
          transitivity (principal_keys d5).
          * unfold insert_issuer in H6. destruct (issuers d5 !! _); [by injection H6 as <-|].
            case_bool_decide; [|done]. by injection H6 as <-.
          * unfold insert_unowned in H5. destruct (principals d !! _); [by injection H5 as <-|].
            by apply PrincipalInv.insert_principal_Ok in H5 as (-> & _).
      - destruct (key_hash_taken _ _); [done|]. destruct (negb _); [done|]. injection H7 as <-. eexists.
        split; [simpl; apply lookup_insert_eq|]. done. }
    destruct Hk as (k & Hk & Hr). exists k. split; [by apply (gw_keys _ _ G8)|done].
  - unfold insert_root in H8. destruct (bootstrap_issuers d7 !! _) eqn:E; [injection H8 as <-; eauto|].
    case_bool_decide; [|done]. injection H8 as <-. simpl. rewrite lookup_insert_eq. eauto.
Qed.

(** Two environments with the same keys and library functions; clock and
    generated ids may differ. *)
Record same_keys (e e' : benv) : Prop := {
  sk_decode : be_decode e' = be_decode e;
  sk_hash : be_sha256hex_bytes e' = be_sha256hex_bytes e;
  sk_sha : be_sha256hex e' = be_sha256hex e;
  sk_private : be_private_key e' = be_private_key e;
  sk_sign : be_SignJWT e' = be_SignJWT e
}.

Lemma seeded_again e e' entry d :
  same_keys e e' → seeded e entry d → upsertSeedIssuer e' entry d = (Ok tt, d).
Proof.
  intros [K1 K2 _ _ _] [(p & Hp & Hk & Hn) [i Hi] (k & Hkk & Hraw & Hhash) [b Hb]].
  unfold upsertSeedIssuer, keyHashForX in *. rewrite K1, K2. unfold mbind, M_bind, reads, lift. rewrite Hp, Hkk.
  rewrite !bool_decide_eq_true_2 by done. simpl.
  unfold insert_unowned. rewrite Hp. unfold insert_issuer. rewrite Hi. unfold insert_seed_key. rewrite Hkk.
  unfold insert_root. by rewrite Hb.
Qed.

(** The digest of an agent's token. *)
Definition agent_digest (e : benv) (a : SeedAgentEntry) : jstr :=
  be_sha256hex e (signSeedAttestation e BOOTSTRAP_ISSUER_ID (sa_id a) BOOTSTRAP_KEY_ID (sa_attestationType a)
                    (sa_trustDelta a) (sa_facts a) issuedAtUnix).

Record agent_seeded (e : benv) (a : SeedAgentEntry) (d : db) : Prop := {
  as_principal : ∃ p, principals d !! sa_id a = Some p ∧ p_entity_kind p = sa_entityKind a ∧
                      p_name p = Some (sa_name a) ∧ p_owner_tenant_id p = None;
  as_token : ∃ i r, attestations d !! i = Some r ∧ a_token_digest r = agent_digest e a;
  as_facts : ∃ h, Canonicalize.computeFactsHash (be_sha256hex e) (sa_facts a) = Ok h;
  as_checks : (sa_trustDelta a <? -100) || (100 <? sa_trustDelta a) || negb (sign_ok (sa_attestationType a) (sa_trustDelta a)) = false
}.

Lemma agent_seeded_grows e a d d' : grows d d' → agent_seeded e a d → agent_seeded e a d'.
Proof.
  intros [A B C D E] [(p & Hp & ?) (i & r & Hi & ?) ? ?]. split; [| |done|done].
  - exists p. eauto.
  - exists i, r. eauto.
Qed.

Lemma find_digest_Some h d : is_Some (findByTokenDigest h d) ↔ ∃ i r, attestations d !! i = Some r ∧ a_token_digest r = h.
Proof.
  unfold findByTokenDigest. split.
  - intros [r Hr%head_Some_elem_of]. apply list_elem_of_filter in Hr as [H1 H2].
    apply list_elem_of_fmap in H2 as ([i r'] & -> & H2%elem_of_map_to_list). eauto.
  - intros (i & r & Hi & Hr).
    assert (r ∈ filter (λ a, a_token_digest a = h) (map_to_list (attestations d)).*2) as Hin.
    { apply list_elem_of_filter. split; [done|]. apply list_elem_of_fmap. exists (i, r). split; [done|].
      by apply elem_of_map_to_list. }
    destruct (filter _ _); [by apply elem_of_nil in Hin|]. simpl. eauto.
Qed.

Lemma seed_agent_seeded e n a d m d' : seed_agent e n a d = (Ok m, d') → agent_seeded e a d'.
Proof.
  unfold seed_agent. intros H. apply M_bind_Ok in H as ([] & d1 & H1 & H). apply M_bind_Ok in H as (h & d2 & H2 & H).
  apply lift_Ok in H2 as [H2 ->]. apply M_bind_Ok in H as (b & d3 & H3 & [= _ <-]).
  pose proof (adding_insertSeedAttestation _ _ _ _ H3) as G3.
  unfold upsertSeedSubject in H1. apply M_bind_Ok in H1 as (op & d4 & [= <- <-] & H1).
  apply M_bind_Ok in H1 as (u & d5 & H4 & H1). apply lift_Ok in H4 as [H4 ->].
  unfold insertSeedAttestation in H3. destruct (_ || _) eqn:Ec in H3; [done|]. split.
  - destruct (insert_unowned_present _ _ _ _ _ _ _ H1) as (p & Hp & Hor). exists p.
    split; [by apply (gw_principals _ _ G3)|]. destruct Hor as [Hd| ->]; [|done]. rewrite Hd in H4.
    destruct (negb _ || _) eqn:E in H4; [done|]. destruct (negb _) eqn:E' in H4; [done|].
    apply orb_false_iff in E as [E1%negb_false_iff E2%negb_false_iff]. apply negb_false_iff in E'.
    by apply bool_decide_eq_true in E1, E2, E'.
  - case_bool_decide as Hf; [injection H3 as _ <-; by apply find_digest_Some|].
    case_bool_decide; [done|]. destruct (_ || _) in H3; [done|]. injection H3 as _ <-. simpl.
    do 2 eexists. split; [apply lookup_insert_eq|done].
  - eauto.
  - exact Ec.
Qed.

Lemma agent_seeded_again e e' n a d : same_keys e e' → agent_seeded e a d → seed_agent e' n a d = (Ok n, d).
Proof.
  intros [_ _ K3 _ K5] [(p & Hp & Hk & Hn & Ho) Htok [h Hh] Hc].
  unfold seed_agent, upsertSeedSubject. unfold mbind, M_bind, reads, lift. rewrite Hp.
  rewrite !bool_decide_eq_true_2 by done. simpl. unfold insert_unowned. rewrite Hp.
  assert (Hsign : ∀ i s k t δ f u, signSeedAttestation e' i s k t δ f u = signSeedAttestation e i s k t δ f u)
    by (intros; unfold signSeedAttestation; by rewrite K5).
  rewrite K3, Hsign, Hh. unfold insertSeedAttestation. cbn [seed_row a_trust_delta a_attestation_type a_token_digest].
  rewrite Hc, K3. by rewrite bool_decide_eq_true_2 by (by apply find_digest_Some).
Qed.

(** *** The derived flag *)

(** [is_bootstrap] is what the registry says. *)
Definition flags_derived (d : db) : Prop :=
  ∀ p i, issuers d !! p = Some i → i_is_bootstrap i = is_root d p.

Lemma derive_flags d : flags_derived (deriveIsBootstrap d).
Proof.
  intros p i. simpl. rewrite map_lookup_imap. destruct (issuers d !! p); [|done]. by intros [= <-].
Qed.

Lemma derive_id d : flags_derived d → deriveIsBootstrap d = d.
Proof.
  intros Hf. unfold deriveIsBootstrap. replace (map_imap _ _) with (issuers d); [by destruct d|].
  apply map_eq. intros p. rewrite map_lookup_imap. destruct (issuers d !! p) as [i|] eqn:E; [|done]. simpl.
  by rewrite <- (Hf _ _ E), with_flag_same.
Qed.

Lemma flags_derived_ext d d' :
  issuers d' = issuers d → bootstrap_issuers d' = bootstrap_issuers d → flags_derived d → flags_derived d'.
Proof. intros H1 H2 Hf p i. unfold is_root. rewrite H1, H2. apply Hf. Qed.

(** Seeding an agent touches neither table. *)
Lemma seed_agent_registry e n a d m d' :
  seed_agent e n a d = (Ok m, d') → issuers d' = issuers d ∧ bootstrap_issuers d' = bootstrap_issuers d.
Proof.
  unfold seed_agent. intros H. apply M_bind_Ok in H as ([] & d1 & H1 & H). apply M_bind_Ok in H as (h & d2 & H2 & H).
  apply lift_Ok in H2 as [_ ->]. apply M_bind_Ok in H as (b & d3 & H3 & [= _ <-]).
  unfold upsertSeedSubject in H1. apply M_bind_Ok in H1 as (op & d4 & [= <- <-] & H1).
  apply M_bind_Ok in H1 as (u & d5 & H4 & H1). apply lift_Ok in H4 as [_ ->].
  assert (issuers d1 = issuers d ∧ bootstrap_issuers d1 = bootstrap_issuers d) as [<- <-].
  { unfold insert_unowned in H1. destruct (principals d !! _); [by injection H1 as <-|].
    by apply PrincipalInv.insert_principal_Ok in H1 as (-> & _). }
  unfold insertSeedAttestation in H3. destruct (_ || _); [done|]. case_bool_decide; [by injection H3 as _ <-|].
  case_bool_decide; [done|]. destruct (_ || _); [done|]. by injection H3 as _ <-.
Qed.

Lemma seedBootstrapAttestations_registry e d r d' :
  seedBootstrapAttestations e d = (Ok r, d') → issuers d' = issuers d ∧ bootstrap_issuers d' = bootstrap_issuers d.
Proof.
  unfold seedBootstrapAttestations. intros H. apply M_bind_Ok in H as (u & d1 & H1 & H).
  apply lift_Ok in H1 as [_ ->]. apply M_bind_Ok in H as (n & d2 & H2 & [= _ <-]).
  revert H2. apply (for_fold_invariant (λ _ x, issuers x = issuers d ∧ bootstrap_issuers x = bootstrap_issuers d)); [|done].
  intros s x a0 s1 x1 _ [<- <-] H2. by eapply seed_agent_registry.
Qed.

(** The steps of a successful seed. *)
Lemma seed_steps e d r d' :
  seedBootstrapRegistry e d = (Ok r, d') →
  ∃ d1, for_each SEED_ISSUERS (upsertSeedIssuer e) d = (Ok tt, d1) ∧
    (match be_private_key e with Some _ => seedBootstrapAttestations e | None => mret (0, 0) end)
      (deriveIsBootstrap d1) = (Ok (sr_attestations r, sr_subjects r), d').
Proof.
  unfold seedBootstrapRegistry. intros H. rewrite withTransaction_Ok in H.
  apply M_bind_Ok in H as ([] & d1 & H1 & H). apply M_bind_Ok in H as ([] & d2 & [= <-] & H).
  apply M_bind_Ok in H as ([n m] & d3 & H3 & H). apply M_bind_Ok in H as (i & d4 & [= <- <-] & H).
  apply M_bind_Ok in H as (b & d5 & [= <- <-] & [= <- <-]). exists d1. split; [exact H1|exact H3].
Qed.

Lemma seed_flags e d r d' : seedBootstrapRegistry e d = (Ok r, d') → flags_derived d'.
Proof.
  intros (d1 & _ & H)%seed_steps. pose proof (derive_flags d1) as Hf. destruct (be_private_key e).
  - apply seedBootstrapAttestations_registry in H as [H1 H2]. by eapply flags_derived_ext.
  - injection H as _ _ <-. done.
Qed.

Lemma updateBootstrapIssuer_cases e p u d r d' :
  updateBootstrapIssuer e p u d = (r, d') →
  d' = d ∨ ∃ b, bootstrap_issuers d !! p = Some b ∧ 0 ≤ b_current_weight (apply_update e u b) ≤ 100 ∧
    d' = deriveIsBootstrapForIssuer p (set_bootstrap_issuers (<[p := apply_update e u b]> (bootstrap_issuers d)) d).
Proof.
  unfold updateBootstrapIssuer, withTransaction. destruct (no_columns u); [intros [= _ <-]; by left|].
  unfold mbind, M_bind, update_row. destruct (bootstrap_issuers d !! p) as [b|] eqn:E; [|intros [= _ <-]; by left].
  destruct (_ || _) eqn:Ew; [intros [= _ <-]; by left|].
  destruct (match bu_approved_by u with Some _ => _ | None => _ end); [intros [= _ <-]; by left|].
  simpl. intros [= _ <-]. right. exists b. split; [done|]. split; [|done].
  apply orb_false_iff in Ew as [E1%Z.ltb_ge E2%Z.ltb_ge]. exact (conj E1 E2).
Qed.

Lemma patch_state e body user d r d' :
  patch_bootstrap_issuer e body user d = (r, d') → d' = d ∨ ∃ p u r', updateBootstrapIssuer e p u d = (r', d').
Proof.
  unfold patch_bootstrap_issuer, mbind, M_bind, lift. destruct (parse_patch body user) as [[p u]|]; [|intros [= _ <-]; by left].
  simpl. destruct (updateBootstrapIssuer e p u d) as [[[row|]|x] d1] eqn:E; intros [= _ <-]; right; eauto.
Qed.

Lemma update_flags e p u d r d' :
  flags_derived d → updateBootstrapIssuer e p u d = (r, d') → flags_derived d'.
Proof.
  intros Hf [->|(b & Hb & _ & ->)]%updateBootstrapIssuer_cases; [done|]. intros q i. simpl.
  rewrite lookup_alter. unfold is_root at 2. simpl. case_decide as Hq.
  - subst q. destruct (issuers d !! p) as [i0|]; [|done]. by intros [= <-].
  - rewrite lookup_insert_ne by done. apply Hf.
Qed.

(** *** What the trust engine needs of the tables *)

Lemma graph_ok_add_principal d r :
  graph_db_ok d → principals d !! p_id r = None → p_entity_kind r ∈ entity_kinds → p_id r ≠ [] →
  graph_db_ok (set_principals (<[p_id r := r]> (principals d)) d).
Proof.
  intros [[Hk Hw Hks] Hfk Hids Hroots] Hn Hkind Hid. split; [split|..]; simpl; eauto.
  - intros p i Hi. destruct (Hk p i Hi) as (x & Hx & ?). exists x. rewrite lookup_insert_ne by congruence. done.
  - intros p x [[<- <-]|[_ H]]%lookup_insert_Some; eauto.
  - intros p x [[<- <-]|[_ H]]%lookup_insert_Some; eauto.
Qed.

Lemma graph_ok_insert_unowned now id kind name md d d' :
  id ≠ [] → graph_db_ok d → insert_unowned now id kind name md d = (Ok tt, d') → graph_db_ok d'.
Proof.
  intros Hid Hd. unfold insert_unowned. destruct (principals d !! id); [by intros [= <-]|].
  intros (-> & Hn & Hk & _)%PrincipalInv.insert_principal_Ok. by apply graph_ok_add_principal.
Qed.

Lemma graph_ok_upsert e entry d d' :
  si_id entry ≠ [] → si_entityKind entry ∈ [js "issuer"; js "both"] →
  graph_db_ok d → upsertSeedIssuer e entry d = (Ok tt, d') → graph_db_ok d'.
Proof.
  intros Hid Hkind Hd H. pose proof (upsertSeedIssuer_seeded _ _ _ _ H) as Hs.
  unfold upsertSeedIssuer in H.
  apply M_bind_Ok in H as (op & d1 & [= <- <-] & H). apply M_bind_Ok in H as (u1 & d2 & H1 & H).
  apply lift_Ok in H1 as [_ ->]. apply M_bind_Ok in H as (ox & d3 & [= <- <-] & H).
  apply M_bind_Ok in H as (u2 & d4 & H2 & H). apply lift_Ok in H2 as [_ ->].
  apply M_bind_Ok in H as ([] & d5 & H5 & H). apply M_bind_Ok in H as ([] & d6 & H6 & H).
  apply M_bind_Ok in H as ([] & d7 & H7 & H8).
  pose proof (graph_ok_insert_unowned _ _ _ _ _ _ _ Hid Hd H5) as Hd5.
  assert (Hpr : principals d' = principals d5).
  { transitivity (principals d6); [transitivity (principals d7)|].
    - unfold insert_root in H8. destruct (bootstrap_issuers d7 !! _); [by injection H8 as <-|].
      case_bool_decide; [|done]. by injection H8 as <-.
    - unfold insert_seed_key in H7. destruct (principal_keys d6 !! _); [by injection H7 as <-|].
      destruct (key_hash_taken _ _); [done|]. destruct (negb _); [done|]. by injection H7 as <-.
    - unfold insert_issuer in H6. destruct (issuers d5 !! _); [by injection H6 as <-|].
      case_bool_decide; [|done]. by injection H6 as <-. }
  destruct (sd_principal _ _ _ Hs) as (p & Hp & Hpk & _). rewrite Hpr in Hp.
  assert (Hd6 : graph_db_ok d6).
  { unfold insert_issuer in H6. destruct (issuers d5 !! _) eqn:E; [by injection H6 as <-|].
    case_bool_decide; [|done]. injection H6 as <-. destruct Hd5 as [[Hk Hw Hks] Hfk Hids Hroots].
    split; [split|..]; simpl; eauto.
    - intros q i [[<- <-]|[_ Hq]]%lookup_insert_Some; [|by eauto]. exists p. split; [done|]. by rewrite Hpk.
    - intros q i [[<- <-]|[_ Hq]]%lookup_insert_Some; [simpl; lia|by eauto].
    - intros i a0 Hi%Hfk. destruct Hi as [x Hx]. destruct (decide (si_id entry = a_issuer_id a0)) as [<-|Hne].
      + rewrite lookup_insert_eq. eauto.
      + rewrite lookup_insert_ne by done. eauto. }
  assert (Hd7 : graph_db_ok d7).
  { unfold insert_seed_key in H7. destruct (principal_keys d6 !! _); [by injection H7 as <-|].
    destruct (key_hash_taken _ _); [done|]. destruct (negb _); [done|]. injection H7 as <-.
    destruct Hd6 as [[Hk Hw Hks] Hfk Hids Hroots]. by split. }
  unfold insert_root in H8. destruct (bootstrap_issuers d7 !! _); [by injection H8 as <-|].
  case_bool_decide; [|done]. injection H8 as <-. destruct Hd7 as [[Hk Hw Hks] Hfk Hids Hroots].
  split; [by split|done..|]. simpl. intros q b [[<- <-]|[_ Hq]]%lookup_insert_Some; [simpl; lia|by eauto].
Qed.

Lemma graph_ok_seed_agent e n a d m d' :
  sa_id a ≠ [] → graph_db_ok d → seed_agent e n a d = (Ok m, d') → graph_db_ok d'.
Proof.
  intros Hid Hd. unfold seed_agent. intros H. apply M_bind_Ok in H as ([] & d1 & H1 & H). apply M_bind_Ok in H as (h & d2 & H2 & H).
  apply lift_Ok in H2 as [_ ->]. apply M_bind_Ok in H as (b & d3 & H3 & [= _ <-]).
  unfold upsertSeedSubject in H1. apply M_bind_Ok in H1 as (op & d4 & [= <- <-] & H1).
  apply M_bind_Ok in H1 as (u & d5 & H4 & H1). apply lift_Ok in H4 as [_ ->].
  pose proof (graph_ok_insert_unowned _ _ _ _ _ _ _ Hid Hd H1) as Hd1.
  unfold insertSeedAttestation in H3. destruct (_ || _); [done|]. case_bool_decide; [by injection H3 as _ <-|].
  case_bool_decide; [done|]. destruct (_ || _) eqn:Ef; [done|]. injection H3 as _ <-.
  apply orb_false_iff in Ef as [[Ef%negb_false_iff _]%orb_false_iff _]. apply bool_decide_eq_true in Ef.
  destruct Hd1 as [[Hk Hw Hks] Hfk Hids Hroots]. split; [by split| |done..]. simpl.
  intros i x [[<- <-]|[_ Hi]]%lookup_insert_Some; [done|by eauto].
Qed.

Lemma graph_ok_flag d d' :
  graph_db_ok d → principals d' = principals d → attestations d' = attestations d →
  (∀ p b, bootstrap_issuers d' !! p = Some b → b_current_weight b ≤ 100) →
  (∀ p, option_map i_trust_weight (issuers d' !! p) = option_map i_trust_weight (issuers d !! p)) → graph_db_ok d'.
Proof.
  intros [[Hk Hw Hks] Hfk Hids Hroots] H1 H2 H3 H4.
  assert (H5 : ∀ p i, issuers d' !! p = Some i → ∃ i', issuers d !! p = Some i' ∧ i_trust_weight i = i_trust_weight i').
  { intros p i Hi. specialize (H4 p). rewrite Hi in H4. destruct (issuers d !! p); [|done]. injection H4 as ?. eauto. }
  split; [split|..]; rewrite ?H1, ?H2; eauto.
  - intros p i (i' & Hi & _)%H5. eauto.
  - intros p i (i' & Hi & ->)%H5. eauto.
  - intros i a0 [x Hx]%Hfk. specialize (H4 (a_issuer_id a0)). rewrite Hx in H4. destruct (issuers d' !! _); [eauto|done].
Qed.

Lemma for_each_seeded e l d d' :
  for_each l (upsertSeedIssuer e) d = (Ok tt, d') → ∀ entry, entry ∈ l → seeded e entry d'.
Proof.
  revert d. induction l as [|x l IH]; intros d H entry Hin; [by apply elem_of_nil in Hin|].
  simpl in H. apply M_bind_Ok in H as ([] & d1 & H1 & H2). apply elem_of_cons in Hin as [->|Hin]; [|by eapply IH].
  eapply seeded_grows; [|by eapply upsertSeedIssuer_seeded].
  eapply (adding_for_each l (upsertSeedIssuer e) (adding_upsertSeedIssuer e)); exact H2.
Qed.

Lemma for_each_again e e' l d :
  same_keys e e' → (∀ entry, entry ∈ l → seeded e entry d) → for_each l (upsertSeedIssuer e') d = (Ok tt, d).
Proof.
  intros Hk. induction l as [|x l IH]; intros Hl; [done|]. simpl. unfold mbind, M_bind.
  rewrite (seeded_again e e' x d Hk) by (apply Hl; by left). apply IH. intros y Hy. apply Hl. by right.
Qed.

Lemma for_fold_agents e l n d m d' :
  for_fold l (seed_agent e) n d = (Ok m, d') → ∀ a, a ∈ l → agent_seeded e a d'.
Proof.
  revert n d. induction l as [|x l IH]; intros n d H a Hin; [by apply elem_of_nil in Hin|].
  simpl in H. apply M_bind_Ok in H as (n1 & d1 & H1 & H2). apply elem_of_cons in Hin as [->|Hin]; [|by eapply IH].
  eapply agent_seeded_grows; [|by eapply seed_agent_seeded].
  eapply (adding_for_fold l (seed_agent e) n1 (adding_seed_agent e)); exact H2.
Qed.

Lemma for_fold_again e e' l n d :
  same_keys e e' → (∀ a, a ∈ l → agent_seeded e a d) → for_fold l (seed_agent e') n d = (Ok n, d).
Proof.
  intros Hk. revert n. induction l as [|x l IH]; intros n Hl; [done|]. simpl. unfold mbind, M_bind.
  rewrite (agent_seeded_again e e' n x d Hk) by (apply Hl; by left). apply IH. intros y Hy. apply Hl. by right.
Qed.

(** Seeding is idempotent: after a successful seed, running it again, at any
    later time and whatever ids the database would generate, succeeds, changes
    nothing at all and reports no new attestation. *)
Theorem seed_idempotent e e' d r d1 :
  same_keys e e' → seedBootstrapRegistry e d = (Ok r, d1) →
  ∃ r', seedBootstrapRegistry e' d1 = (Ok r', d1) ∧ sr_attestations r' = 0 ∧
        sr_issuers r' = sr_issuers r ∧ sr_roots r' = sr_roots r.
Proof.
  intros Hk H. pose proof (seed_flags _ _ _ _ H) as Hf. pose proof H as H0.
  apply seed_steps in H as (d0 & H1 & H2).
  assert (Hs : ∀ entry, entry ∈ SEED_ISSUERS → seeded e entry d1).
  { intros entry Hin. eapply seeded_grows; [|by eapply for_each_seeded].
    eapply grows_trans; [eapply adding_derive; reflexivity|].
    destruct (be_private_key e); [by eapply adding_seedBootstrapAttestations|injection H2 as _ _ <-; done]. }
  assert (Hlast : sr_issuers r = Z.of_nat (length (filter (λ i, i_is_bootstrap i = true) (map_to_list (issuers d1)).*2)) ∧
                  sr_roots r = Z.of_nat (size (bootstrap_issuers d1))).
  { unfold seedBootstrapRegistry in H0. rewrite withTransaction_Ok in H0.
    apply M_bind_Ok in H0 as ([] & x1 & _ & H0). apply M_bind_Ok in H0 as ([] & x2 & _ & H0).
    apply M_bind_Ok in H0 as (att & x3 & _ & H0). apply M_bind_Ok in H0 as (i & x4 & [= <- <-] & H0).
    apply M_bind_Ok in H0 as (b & x5 & [= <- <-] & [= <- <-]). done. }
  destruct Hlast as [Hi Hr].
  exists (mkSeedResult (sr_issuers r) (sr_roots r) 0 (sr_subjects r)). split; [|done].
  unfold seedBootstrapRegistry, withTransaction. rewrite Hi, Hr.
  unfold mbind at 1, M_bind at 1. rewrite (for_each_again e e') by done.
  unfold mbind at 1, M_bind at 1, writes at 1. rewrite derive_id by done. rewrite (sk_private _ _ Hk).
  destruct (be_private_key e) as [pk|] eqn:Hpk.
  - unfold seedBootstrapAttestations in H2. apply M_bind_Ok in H2 as (u & x1 & Hv & H2). apply lift_Ok in Hv as [Hv ->].
    apply M_bind_Ok in H2 as (n & x2 & Hfold & [= Hn Hsub <-]).
    unfold seedBootstrapAttestations. unfold mbind, M_bind, lift, reads.
    assert (Hv' : loadAndValidateBootstrapPrivateKey e' = Ok u).
    { unfold loadAndValidateBootstrapPrivateKey in *. by rewrite (sk_private _ _ Hk). }
    rewrite Hv'. rewrite (for_fold_again e e') by (done || by eapply for_fold_agents). by rewrite <- Hsub.
  - injection H2 as Hn Hsub <-. unfold mbind, M_bind, reads. by rewrite <- Hsub.
Qed.

(** The registry and the derived flag never diverge: a seed establishes that
    [is_bootstrap] holds exactly for the registered issuers that are not removed
    and have positive weight, and every staff edit, accepted or refused, keeps it. *)
Theorem bootstrap_flag_consistent e d :
  (∀ r d', seedBootstrapRegistry e d = (Ok r, d') → flags_derived d') ∧
  (flags_derived d → ∀ body user r d', patch_bootstrap_issuer e body user d = (r, d') → flags_derived d').
Proof.
  split; [intros r d'; apply seed_flags|].
  intros Hf body user r d' [->|(p & u & r' & H)]%patch_state; [done|]. by eapply update_flags.
Qed.

(** A seed never reinstates: every registry row staff have edited survives a
    rerun unchanged, and a root that was removed, or whose weight is zero, is still
    no root of the trust graph and still not flagged afterwards. *)
Theorem seed_never_reinstates e d r d' p b :
  seedBootstrapRegistry e d = (Ok r, d') → bootstrap_issuers d !! p = Some b →
  bootstrap_issuers d' !! p = Some b ∧
  (b_removed_from_registry_at b ≠ None ∨ b_current_weight b = 0 →
   p ∉ gr_id <$> root_rows d' ∧ ∀ i, issuers d' !! p = Some i → i_is_bootstrap i = false).
Proof.
  intros H Hb. pose proof (gw_roots _ _ (adding_seed _ _ _ _ H) _ _ Hb) as Hb'. split; [done|].
  intros Hor. split.
  - intros ([q w] & -> & (b' & Hq & _ & _ & _ & Hrem & Hw)%elem_of_root_rows)%list_elem_of_fmap. simpl in *.
    assert (b' = b) as -> by congruence. destruct Hor; [done|lia].
  - intros i Hi. rewrite (seed_flags _ _ _ _ H _ _ Hi). unfold is_root. rewrite Hb'.
    destruct Hor as [Hor|Hor]; [by rewrite bool_decide_eq_false_2|]. by rewrite Hor, andb_false_r.
Qed.

(** An entry whose principal exists under another kind or name. *)
Lemma upsert_conflict e entry p d :
  principals d !! si_id entry = Some p → p_entity_kind p ≠ si_entityKind entry ∨ p_name p ≠ Some (si_name entry) →
  upsertSeedIssuer e entry d = (Throw conflict, d).
Proof.
  intros Hp Hor. unfold upsertSeedIssuer, mbind, M_bind, reads, lift. rewrite Hp.
  destruct (negb _ || _) eqn:E; [done|]. apply orb_false_iff in E as [E1%negb_false_iff E2%negb_false_iff].
  apply bool_decide_eq_true in E1, E2. tauto.
Qed.

Lemma for_each_conflict e l entry p d :
  entry ∈ l → principals d !! si_id entry = Some p →
  p_entity_kind p ≠ si_entityKind entry ∨ p_name p ≠ Some (si_name entry) →
  ∃ x d', for_each l (upsertSeedIssuer e) d = (Throw x, d').
Proof.
  revert d. induction l as [|y l IH]; intros d Hin Hp Hor; [by apply elem_of_nil in Hin|].
  simpl. unfold mbind, M_bind. destruct (upsertSeedIssuer e y d) as [[[]|x] d1] eqn:E; [|by eauto].
  apply elem_of_cons in Hin as [<-|Hin]; [by rewrite (upsert_conflict _ _ _ _ Hp Hor) in E|].
  eapply IH; [done| |done]. by eapply gw_principals; [eapply adding_upsertSeedIssuer|].
Qed.

(** A seed that meets a conflict does nothing: when the id of a manifest entry
    is taken by a principal of another kind or name, the seed throws and the whole
    database is as before, whatever the other entries did. *)
Theorem seed_conflict_aborts e d entry p :
  entry ∈ SEED_ISSUERS → principals d !! si_id entry = Some p →
  p_entity_kind p ≠ si_entityKind entry ∨ p_name p ≠ Some (si_name entry) →
  ∃ x, seedBootstrapRegistry e d = (Throw x, d).
Proof.
  intros Hin Hp Hor. destruct (for_each_conflict e _ _ _ _ Hin Hp Hor) as (x & d' & H). exists x.
  unfold seedBootstrapRegistry, withTransaction. unfold mbind at 1, M_bind at 1. by rewrite H.
Qed.

(** Seeding and staff edits keep what the trust engine demands of the tables
    ([graph_db_ok]: issuers of an issuing kind, weights in [0,1], registered
    attestation issuers), so that the graph loaded afterwards is still accepted. *)
Theorem bootstrap_ops_keep_graph_ok e d :
  graph_db_ok d →
  (∀ r d', seedBootstrapRegistry e d = (Ok r, d') → graph_db_ok d') ∧
  (∀ body user r d', patch_bootstrap_issuer e body user d = (r, d') → graph_db_ok d').
Proof.
  intros Hd. split.
  - intros r d' (d1 & H1 & H2)%seed_steps.
    assert (Hd1 : graph_db_ok d1).
    { simpl in H1. apply M_bind_Ok in H1 as ([] & x1 & Ha & H1). apply M_bind_Ok in H1 as ([] & x2 & Hb & [= <-]).
      eapply (graph_ok_upsert e WHIMSY x1); [done| |eapply (graph_ok_upsert e VERILINK d)|exact Hb].
      - apply elem_of_cons. right. by apply elem_of_cons; left.
      - done.
      - by apply elem_of_cons; left.
      - exact Hd.
      - exact Ha. }
    assert (Hder : graph_db_ok (deriveIsBootstrap d1)).
    { apply (graph_ok_flag d1); [done..|apply Hd1|]. intros p. simpl. rewrite map_lookup_imap. by destruct (issuers d1 !! p). }
    destruct (be_private_key e); [|by injection H2 as _ _ <-].
    unfold seedBootstrapAttestations in H2. apply M_bind_Ok in H2 as (u & x1 & Hv & H2). apply lift_Ok in Hv as [_ ->].
    apply M_bind_Ok in H2 as (n & x2 & Hfold & [= _ _ <-]). revert Hfold.
    apply (for_fold_invariant (λ _ x, graph_db_ok x)); [|done].
    intros n0 x a0 n1 x' Hin Hx. apply graph_ok_seed_agent; [|done].
    unfold SEED_AGENTS in Hin. rewrite !elem_of_cons, elem_of_nil in Hin. by destruct Hin as [->|[->|[]]].
  - intros body user r d' [->|(p & u & r' & H)]%patch_state; [done|].
    apply updateBootstrapIssuer_cases in H as [->|(b & Hb & Hw & ->)]; [done|].
    apply (graph_ok_flag d); [done..| |]; simpl.
    + intros q b' [[<- <-]|[_ Hq]]%lookup_insert_Some; [lia|by eapply gd_roots].
    + intros q. rewrite lookup_alter. case_decide; [|done]. subst. by destruct (issuers d !! q).
Qed.

(** *** The properties at concrete inputs *)

Definition toy_benv (now : Z) : benv :=
  mkBenv now id (λ b, b) id (Some (Ok (si_publicKeyX VERILINK))) (λ _ c, js "tok:" ++ String_ (get c "sub")) (λ s, js "row:" ++ s)
    (λ n, match num_to_Z n with Some z => z * 100 | None => 50 end).

Lemma toy_seed : ∃ d1, seedBootstrapRegistry (toy_benv 7200000) empty_db = (Ok (mkSeedResult 2 2 2 2), d1).
Proof. apply fst_run. vm_compute. reflexivity. Qed.

Lemma seed_idempotent_witness :
  ∃ d1 r', seedBootstrapRegistry (toy_benv 7200000) empty_db = (Ok (mkSeedResult 2 2 2 2), d1) ∧
    seedBootstrapRegistry (toy_benv 9900000) d1 = (Ok r', d1) ∧ sr_attestations r' = 0.
Proof.
  destruct toy_seed as [d1 H]. exists d1.
  destruct (seed_idempotent (toy_benv 7200000) (toy_benv 9900000) empty_db _ d1 ltac:(split; reflexivity) H)
    as (r' & H1 & H2 & _). exists r'. exact (conj H (conj H1 H2)).
Defined.

(** A registry in which staff have removed the first root. *)
Definition removed_row : BootstrapIssuer :=
  mkBootstrapIssuer (si_id VERILINK) (si_name VERILINK) 100 5 None None None (Some 6).
Definition removed_db : db := set_bootstrap_issuers {[si_id VERILINK := removed_row]} empty_db.

Lemma bootstrap_flag_consistent_witness :
  ∃ d', seedBootstrapRegistry (toy_benv 7200000) removed_db = (Ok (mkSeedResult 1 2 2 2), d') ∧ flags_derived d'.
Proof.
  assert (H : ∃ d', seedBootstrapRegistry (toy_benv 7200000) removed_db = (Ok (mkSeedResult 1 2 2 2), d'))
    by (apply fst_run; vm_compute; reflexivity).
  destruct H as [d' H]. exists d'. split; [exact H|].
  exact (proj1 (bootstrap_flag_consistent (toy_benv 7200000) removed_db) _ _ H).
Defined.

Lemma seed_never_reinstates_witness :
  ∃ r d', seedBootstrapRegistry (toy_benv 7200000) removed_db = (Ok r, d') ∧
    si_id VERILINK ∉ gr_id <$> root_rows d'.
Proof.
  assert (H : ∃ d', seedBootstrapRegistry (toy_benv 7200000) removed_db = (Ok (mkSeedResult 1 2 2 2), d'))
    by (apply fst_run; vm_compute; reflexivity).
  destruct H as (d' & H). exists (mkSeedResult 1 2 2 2), d'. split; [exact H|].
  destruct (seed_never_reinstates (toy_benv 7200000) removed_db _ d' (si_id VERILINK) removed_row H
    ltac:(vm_compute; reflexivity)) as [_ Hno].
  destruct Hno as [Hroot _]; [left; discriminate|exact Hroot].
Defined.

Definition squatted_db : db :=
  set_principals {[si_id WHIMSY := mkPrincipal (si_id WHIMSY) (js "agent") None None (JObj []) 0 0 (js "active")]} empty_db.

Lemma seed_conflict_aborts_witness : ∃ x, seedBootstrapRegistry (toy_benv 7200000) squatted_db = (Throw x, squatted_db).
Proof.
  apply (seed_conflict_aborts (toy_benv 7200000) squatted_db WHIMSY
    (mkPrincipal (si_id WHIMSY) (js "agent") None None (JObj []) 0 0 (js "active"))).
  - apply elem_of_cons. right. apply elem_of_cons. left. reflexivity.
  - vm_compute. reflexivity.
  - right. discriminate.
Defined.

Lemma empty_graph_ok : graph_db_ok empty_db.
Proof. split; [split|..]; intros; done. Qed.

Lemma bootstrap_ops_keep_graph_ok_witness :
  ∃ d1, seedBootstrapRegistry (toy_benv 7200000) empty_db = (Ok (mkSeedResult 2 2 2 2), d1) ∧ graph_db_ok d1.
Proof.
  destruct toy_seed as [d1 H]. exists d1. split; [exact H|].
  exact (proj1 (bootstrap_ops_keep_graph_ok (toy_benv 7200000) empty_db empty_graph_ok) _ _ H).
Defined.

End BootstrapInv.
