(* ===== verification/DeEmphasis.v ===== *)
(** * De-emphasis of bootstrap roots

    [src/control-plane/src/domains/bootstrap/deEmphasisService.ts]: the split of
    recent trust between bootstrap-origin and organic attestations, the
    counterfactual run of the trust engine with a root's weight overridden, and
    the readiness gate built on both.

    The trust engine is the parameter [engine] (a gRPC service, retried by
    [runVeriRankWithRetry]); weights are hundredths as in [GraphLoader]. One
    request is taken to read one database state. *)

From stdpp Require Import base gmap strings numbers sorting list.
From Stdlib Require Import ZArith Lia.
From S2P Require Import Prelude Json JsText Errors Db SyncLog Policy Principals GraphLoader ScoreWriter VeriRank.

Module DeEmphasis.
Import GraphLoader VeriRank ScoreWriter.

Definition WINDOW_DAYS : Z := 30.
Definition MIN_INDEPENDENT_ORGANIC_ISSUERS : Z := 3.
Definition MIN_ORGANIC_CONTRIBUTION_PCT : Z := 80.
Definition DAY_MS : Z := 24 * 60 * 60 * 1000.

Record ContributionSplit := mkSplit {
  cs_bootstrap_weighted : Z; cs_organic_weighted : Z; cs_organic_pct : Z;
  cs_independent_organic_issuers : Z; cs_window_days : Z; cs_window_continuous : bool }.

Record CounterfactualDrop := mkDrop {
  cd_principal_id : jstr; cd_current_score : Z; cd_counterfactual_score : Z;
  cd_serving_tenant_id : option jstr; cd_tenant_threshold : Z; cd_drops_below_threshold : bool }.

Record CounterfactualReport := mkReport {
  cf_root_id : jstr; cf_target_weight : Z; cf_graph_version : Z;
  cf_drops : list CounterfactualDrop; cf_worst_case_drop : Z }.

Record DeEmphasisCandidate := mkCandidate {
  dc_principal_id : jstr; dc_name : jstr; dc_current_weight : Z; dc_contribution : ContributionSplit;
  dc_ready : bool; dc_not_ready_reasons : list jstr; dc_counterfactual : CounterfactualReport }.

Record DeEmphasisResult := mkResult {
  dr_generated_at : Z; dr_window_days : Z; dr_contribution : ContributionSplit;
  dr_candidates : list DeEmphasisCandidate }.

Definition getGraphVersion (d : db) : Z := SyncLog.high_water d.

(** ** The contribution split *)

Record ContributionRow := mkCRow {
  c_bootstrap_origin : bool; c_trust_delta : Z; c_issued_at : Z;
  c_owner_tenant_id : option jstr; c_entity_kind : jstr }.

(** [FROM attestations a JOIN principals p ON p.id = a.issuer_id WHERE ...]; [now]
    is the database clock. *)
Definition contribution_row (d : db) (now windowStart : Z) (a : Attestation) : option ContributionRow :=
  match principals d !! a_issuer_id a with
  | Some p =>
      if (windowStart <? a_issued_at a) && bool_decide (a_superseded_by a = None)
         && match a_expires_at a with None => true | Some t => now <? t end
         && bool_decide (p_status p = js "active")
      then Some (mkCRow (a_bootstrap_origin a) (a_trust_delta a) (a_issued_at a) (p_owner_tenant_id p) (p_entity_kind p))
      else None
  | None => None
  end.

Definition contribution_rows (d : db) (now windowStart : Z) : list ContributionRow :=
  omap (contribution_row d now windowStart) (map_to_list (attestations d)).*2.

Definition weight_sum (rows : list ContributionRow) : Z := fold_right (λ r n, Z.abs (c_trust_delta r) + n) 0 rows.

(** [(row.owner_tenant_id || 'null') + ':' + row.entity_kind] *)
Definition issuer_key (r : ContributionRow) : jstr :=
  (match c_owner_tenant_id r with Some (c :: t) => c :: t | _ => js "null" end) ++ js ":" ++ c_entity_kind r.

(** [x * 100] for a non-negative number, rounded to the nearest double. *)
Definition times_100 (n : number) : number :=
  match n with
  | Fin m e => if 0 <=? e then num_ratio (m * 100 * 2 ^ e) 1 else num_ratio (m * 100) (2 ^ (- e))
  | _ => n
  end.

(** [Math.round]: the nearest integer, halves up. *)
Definition Math_round (n : number) : Z :=
  match n with
  | Fin m e => if 0 <=? e then m * 2 ^ e else (2 * m + 2 ^ (- e)) / (2 * 2 ^ (- e))
  | _ => 0
  end.

Definition organic_pct (organicWeighted total : Z) : Z :=
  if 0 <? total then Math_round (times_100 (num_ratio organicWeighted total)) else 0.

(** The earliest and the latest organic attestation of the window. *)
Definition window_continuous (dates : list Z) (windowStart evaluationTime : Z) : bool :=
  match sort_by Z.leb dates with
  | [] => false
  | d0 :: ds => (d0 <=? windowStart + 5 * DAY_MS) && (evaluationTime - 5 * DAY_MS <=? List.last ds d0)
  end.

Definition organic (r : ContributionRow) : Prop := c_bootstrap_origin r = false.
#[global] Instance organic_dec r : Decision (organic r).
Proof. unfold organic. apply _. Defined.

Definition computeContributionSplit (now evaluationTime : Z) (d : db) : ContributionSplit :=
  let windowStart := evaluationTime - WINDOW_DAYS * DAY_MS in
  let rows := contribution_rows d now windowStart in
  let bootstrapWeighted := weight_sum (filter (λ r, ¬ organic r) rows) in
  let organicRows := filter organic rows in
  let organicWeighted := weight_sum organicRows in
  let organicIssuerKeys : gset jstr := list_to_set (issuer_key <$> organicRows) in
  mkSplit bootstrapWeighted organicWeighted (organic_pct organicWeighted (bootstrapWeighted + organicWeighted))
    (Z.of_nat (size organicIssuerKeys)) WINDOW_DAYS
    (window_continuous (c_issued_at <$> organicRows) windowStart evaluationTime).

(** ** The counterfactual run *)

(** [new Map()] filled row by row: a later row of the same principal wins. *)
Definition score_map (rows : list EngineScore) : gmap jstr EngineScore :=
  list_to_map (reverse ((λ r, (es_principal_id r, r)) <$> rows)).

Definition override_root (rootId : jstr) (targetWeight : Z) (g : AttestationGraph) : AttestationGraph :=
  mkGraph (g_principals g)
    ((λ r, if decide (gr_id r = rootId) then mkRoot (gr_id r) targetWeight else r) <$> g_roots g)
    (g_attestations g) (networkScoreCount g).

(** [tenantMap.get(id) || null] *)
Definition serving_tenant (d : db) (p : jstr) : option jstr :=
  match principals d !! p with
  | Some r => match p_owner_tenant_id r with Some [] => None | o => o end
  | None => None
  end.

Definition getThreshold (d : db) (tenantId : jstr) : option Z :=
  pol_threshold <$> PolicyRepo.getActivePolicy tenantId d.

(** One turn of the loop over the graph's principals. *)
Definition drop_of (d : db) (cur cf : gmap jstr EngineScore) (p : jstr) : option CounterfactualDrop :=
  match cur !! p, cf !! p with
  | Some current, Some counterfactual =>
      let tenantId := serving_tenant d p in
      let tenantThreshold := match tenantId with Some t => default 0 (getThreshold d t) | None => 0 end in
      Some (mkDrop p (es_score current) (es_score counterfactual) tenantId tenantThreshold
              ((0 <? tenantThreshold) && (tenantThreshold <=? es_score current)
               && (es_score counterfactual <? tenantThreshold)))
  | _, _ => None
  end.

Definition worst_case (drops : list CounterfactualDrop) : Z :=
  fold_left (λ w x, let drop := cd_current_score x - cd_counterfactual_score x in
                    if 0 <? drop then Z.max w drop else w) drops 0.

Section service.
Context (engine : AttestationGraph → Z → result exn RunVeriRankResult).

Definition computeCounterfactualRemovalReport (rootId : jstr) (targetWeight evaluationTime : Z) :
  M CounterfactualReport :=
  graph ← loadAttestationGraph evaluationTime;
  graphVersion ← reads getGraphVersion;
  currentResult ← lift (engine graph evaluationTime);
  counterfactualResult ← lift (engine (override_root rootId targetWeight graph) evaluationTime);
  drops ← reads (λ d, omap (drop_of d (score_map (rr_rows currentResult)) (score_map (rr_rows counterfactualResult)))
                       (gp_id <$> g_principals graph));
  mret (mkReport rootId targetWeight graphVersion drops (worst_case drops)).

(** ** The gate *)

(** [JOIN issuers ... WHERE removed_from_registry_at IS NULL AND current_weight > 0
    ORDER BY seeded_at ASC] *)
Definition candidates (d : db) : list BootstrapIssuer :=
  filter (λ b, is_Some (issuers d !! b_principal_id b) ∧ b_removed_from_registry_at b = None ∧ 0 < b_current_weight b)
    (sort_by (λ a b, b_seeded_at a <=? b_seeded_at b) (map_to_list (bootstrap_issuers d)).*2).

Definition contribution_reasons (c : ContributionSplit) : list jstr :=
  (if cs_independent_organic_issuers c <? MIN_INDEPENDENT_ORGANIC_ISSUERS
   then [js "insufficient independent organic issuers (" ++ show_Z (cs_independent_organic_issuers c) ++ js " < 3)"] else [])
  ++ (if cs_organic_pct c <? MIN_ORGANIC_CONTRIBUTION_PCT
      then [js "organic contribution below threshold (" ++ show_Z (cs_organic_pct c) ++ js "% < 80%)"] else [])
  ++ (if cs_window_continuous c then [] else [js "organic contribution window is not continuous over 30 days"]).

Definition candidate_result (evaluationTime : Z) (contribution : ContributionSplit) (b : BootstrapIssuer) :
  M DeEmphasisCandidate :=
  counterfactual ← computeCounterfactualRemovalReport (b_principal_id b) 0 evaluationTime;
  let reasons := contribution_reasons contribution
    ++ (if existsb cd_drops_below_threshold (cf_drops counterfactual)
        then [js "counterfactual removal would drop a principal below its serving tenant threshold"] else []) in
  mret (mkCandidate (b_principal_id b) (b_name b) (b_current_weight b) contribution
          (bool_decide (length reasons = 0%nat)) reasons counterfactual).

Definition getDeEmphasisStatus (now evaluationTime : Z) : M DeEmphasisResult :=
  contribution ← reads (computeContributionSplit now evaluationTime);
  cands ← reads candidates;
  results ← for_fold cands (λ acc b, r ← candidate_result evaluationTime contribution b; mret (acc ++ [r])) [];
  mret (mkResult evaluationTime WINDOW_DAYS contribution results).

End service.

Definition validateReportFreshness (report : CounterfactualReport) (expectedGraphVersion expectedTargetWeight : Z) :
  result exn unit :=
  if negb (cf_graph_version report =? expectedGraphVersion)
  then Throw (EError (js "stale counterfactual report: graph version " ++ show_Z (cf_graph_version report)
                      ++ js " does not match current " ++ show_Z expectedGraphVersion))
  else if negb (cf_target_weight report =? expectedTargetWeight)
  then Throw (EError (js "counterfactual report target weight " ++ num_to_string (num_ratio (cf_target_weight report) 100)
                      ++ js " does not match expected " ++ num_to_string (num_ratio expectedTargetWeight 100)))
  else Ok tt.

(** ** Lemmas *)

Lemma window_continuous_spec dates ws t :
  window_continuous dates ws t = true ↔
  (∃ x, x ∈ dates ∧ x ≤ ws + 5 * DAY_MS) ∧ (∃ y, y ∈ dates ∧ t - 5 * DAY_MS ≤ y).
Proof.
  unfold window_continuous. pose proof (sort_by_Permutation Z.leb dates) as Hp.
  pose proof (sort_by_sorted Z.leb dates) as Hs. destruct (sort_by Z.leb dates) as [|d0 ds].
  { apply Permutation_nil_l in Hp as <-. split; [done|]. by intros [(x & ?%elem_of_nil & _) _]. }
  assert (Hsort : StronglySorted Z.le (d0 :: ds)).
  { apply (StronglySorted_mono (λ x y, (x <=? y) = true)); [intros x y; by rewrite Z.leb_le|].
    apply Hs; intros; rewrite ?Z.leb_le in *; lia. }
  clear Hs. setoid_rewrite <- Hp. rewrite andb_true_iff, !Z.leb_le. split.
  - intros [H1 H2]. split; [exists d0; split; [by left|done]|]. exists (List.last ds d0). split; [|done].
    destruct ds as [|d1 ds]; [by left|]. right.
    pose proof (exists_last (l := d1 :: ds) ltac:(done)) as (l & x & Hl). rewrite Hl, last_last. apply elem_of_app. right. by left.
  - intros [(x & Hx & Hx') (y & Hy & Hy')]. split.
    + apply StronglySorted_inv in Hsort as [_ Hf]. rewrite Forall_forall in Hf. apply elem_of_cons in Hx as [->|Hx]; [done|].
      specialize (Hf x Hx). lia.
    + etransitivity; [exact Hy'|]. clear -Hsort Hy.
      revert y d0 Hsort Hy. induction ds as [|d1 ds IH]; intros y d0 Hsort Hy.
      { apply elem_of_cons in Hy as [->|Hy%elem_of_nil]; [done|]. done. }
      apply StronglySorted_inv in Hsort as [Hs Hf]. assert (d0 ≤ d1) by (by apply Forall_inv in Hf).
      replace (List.last (d1 :: ds) d0) with (List.last ds d1) by (clear; revert d1; induction ds; simpl; [done|]; intros; destruct ds; done).
      apply elem_of_cons in Hy as [->|Hy]; [|by apply IH].
      etransitivity; [|apply (IH d1 d1 Hs); by left]. done.
Qed.

#[global] Instance weight_sum_perm : Proper ((≡ₚ) ==> (=)) weight_sum.
Proof. intros l1 l2 H. induction H; simpl; lia. Qed.

Lemma contribution_rows_insert d now ws i a :
  attestations d !! i = None →
  contribution_rows (set_attestations (<[i := a]> (attestations d)) d) now ws ≡ₚ
  option_list (contribution_row d now ws a) ++ contribution_rows d now ws.
Proof.
  intros Hi. unfold contribution_rows. simpl. rewrite map_to_list_insert by done. rewrite fmap_cons. simpl.
  change (contribution_row (set_attestations _ d)) with (contribution_row d).
  by destruct (contribution_row d now ws a).
Qed.

Lemma contribution_row_origin d now ws a r :
  contribution_row d now ws a = Some r → c_bootstrap_origin r = a_bootstrap_origin a.
Proof. unfold contribution_row. destruct (principals d !! _); [|done]. destruct (_ && _); [|done]. by intros [= <-]. Qed.

(** Seed attestations never count as organic: adding an attestation that
    carries the bootstrap-origin flag changes neither the organic weight, nor the
    number of independent organic issuers, nor the continuity of the window; it
    can only add to the bootstrap side. This does not depend on the registry, so
    it still holds after the root was removed from it. *)
Theorem bootstrap_origin_never_organic now t d i a :
  attestations d !! i = None → a_bootstrap_origin a = true →
  let c := computeContributionSplit now t d in
  let c' := computeContributionSplit now t (set_attestations (<[i := a]> (attestations d)) d) in
  cs_organic_weighted c' = cs_organic_weighted c ∧
  cs_independent_organic_issuers c' = cs_independent_organic_issuers c ∧
  cs_window_continuous c' = cs_window_continuous c ∧
  cs_bootstrap_weighted c ≤ cs_bootstrap_weighted c'.
Proof.
  intros Hi Ha. unfold computeContributionSplit. simpl. set (ws := t - WINDOW_DAYS * DAY_MS).
  pose proof (contribution_rows_insert d now ws i a Hi) as Hp.
  set (rows' := contribution_rows (set_attestations _ _) now ws) in *.
  assert (Horg : filter organic rows' ≡ₚ filter organic (contribution_rows d now ws)).
  { rewrite Hp, filter_app. destruct (contribution_row d now ws a) as [r|] eqn:E; [|done].
    apply contribution_row_origin in E. simpl. rewrite filter_cons_False; [done|]. unfold organic. congruence. }
  split_and!.
  - by rewrite Horg.
  - by rewrite Horg.
  - apply eq_bool_prop_intro. rewrite !Is_true_true, !window_continuous_spec. by setoid_rewrite Horg.
  - rewrite Hp, filter_app. destruct (contribution_row d now ws a) as [r|]; simpl; [|done].
    rewrite filter_cons, filter_nil. destruct (decide _); simpl; lia.
Qed.

(** What 'continuous' means here: the window counts as continuous exactly when
    some organic attestation lies in its first five days and some in its last
    five. Nothing is asked of the twenty days between, although the comment
    promises one attestation in each of the thirty daily buckets. *)
Theorem continuity_is_two_ends now t d :
  cs_window_continuous (computeContributionSplit now t d) = true ↔
  (∃ r, r ∈ contribution_rows d now (t - WINDOW_DAYS * DAY_MS) ∧ organic r ∧
        c_issued_at r ≤ t - 25 * DAY_MS) ∧
  (∃ r, r ∈ contribution_rows d now (t - WINDOW_DAYS * DAY_MS) ∧ organic r ∧
        t - 5 * DAY_MS ≤ c_issued_at r).
Proof.
  unfold computeContributionSplit. simpl. rewrite window_continuous_spec.
  replace (t - WINDOW_DAYS * DAY_MS + 5 * DAY_MS) with (t - 25 * DAY_MS) by (unfold WINDOW_DAYS, DAY_MS; lia).
  setoid_rewrite list_elem_of_fmap. setoid_rewrite list_elem_of_filter. split.
  - intros [(x & (r & -> & Ho & Hr) & Hx) (y & (r' & -> & Ho' & Hr') & Hy)].
    split; [exists r|exists r']; done.
  - intros [(r & Hr & Ho & Hx) (r' & Hr' & Ho' & Hy)].
    split; [exists (c_issued_at r)|exists (c_issued_at r')]; (split; [|done]); [exists r|exists r']; done.
Qed.

(** *** The gate *)

Lemma report_spec engine rootId w t d rep d' :
  computeCounterfactualRemovalReport engine rootId w t d = (Ok rep, d') →
  d' = d ∧ ∃ g r1 r2, loadAttestationGraph t d = (Ok g, d) ∧ engine g t = Ok r1 ∧
    engine (override_root rootId w g) t = Ok r2 ∧ cf_graph_version rep = SyncLog.high_water d ∧
    cf_drops rep = omap (drop_of d (score_map (rr_rows r1)) (score_map (rr_rows r2))) (gp_id <$> g_principals g).
Proof.
  unfold computeCounterfactualRemovalReport. intros H.
  apply M_bind_Ok in H as (g & d1 & Hg & H). destruct (loadAttestationGraph_spec t d) as (g0 & Hg0 & _).
  rewrite Hg0 in Hg. injection Hg as <- <-.
  apply M_bind_Ok in H as (v & d2 & [= <- <-] & H). apply M_bind_Ok in H as (r1 & d3 & H1 & H). apply lift_Ok in H1 as [H1 ->].
  apply M_bind_Ok in H as (r2 & d4 & H2 & H). apply lift_Ok in H2 as [H2 ->].
  apply M_bind_Ok in H as (drops & d5 & [= <- <-] & [= <- <-]). split; [done|]. exists g0, r1, r2. by split_and!.
Qed.

Lemma candidate_spec engine t c b d r d' :
  candidate_result engine t c b d = (Ok r, d') →
  d' = d ∧ dc_principal_id r = b_principal_id b ∧ dc_contribution r = c ∧
  computeCounterfactualRemovalReport engine (b_principal_id b) 0 t d = (Ok (dc_counterfactual r), d) ∧
  (dc_ready r = true ↔ contribution_reasons c = [] ∧ existsb cd_drops_below_threshold (cf_drops (dc_counterfactual r)) = false).
Proof.
  unfold candidate_result. intros H. apply M_bind_Ok in H as (rep & d1 & H1 & [= <- <-]).
  pose proof (report_spec _ _ _ _ _ _ _ H1) as [-> _]. split_and!; try done. simpl.
  rewrite bool_decide_eq_true, length_app. destruct (existsb _ _); simpl.
  - split; [lia|by intros []].
  - rewrite Nat.add_0_r. split; [|by intros [-> _]]. by intros ->%nil_length_inv.
Qed.

Lemma status_spec engine now t d res d' :
  getDeEmphasisStatus engine now t d = (Ok res, d') →
  d' = d ∧ dc_principal_id <$> dr_candidates res = b_principal_id <$> candidates d ∧
  Forall (λ c, ∃ b, candidate_result engine t (computeContributionSplit now t d) b d = (Ok c, d)) (dr_candidates res).
Proof.
  unfold getDeEmphasisStatus. intros H. apply M_bind_Ok in H as (c & d1 & [= <- <-] & H).
  apply M_bind_Ok in H as (cs & d2 & [= <- <-] & H). apply M_bind_Ok in H as (rs & d3 & Hf & [= <- <-]). simpl.
  set (c0 := computeContributionSplit now t d) in *.
  assert (Hgen : ∀ l acc d2, for_fold l (λ acc b, r ← candidate_result engine t c0 b; mret (acc ++ [r])) acc d = (Ok rs, d2) →
    d2 = d ∧ ∃ l', rs = acc ++ l' ∧ dc_principal_id <$> l' = b_principal_id <$> l ∧
      Forall (λ c, ∃ b, candidate_result engine t c0 b d = (Ok c, d)) l').
  { induction l as [|b l IH]; intros acc dx Hl; simpl in Hl.
    - injection Hl as <- <-. split; [done|]. exists []. by rewrite app_nil_r.
    - apply M_bind_Ok in Hl as (acc' & dy & Hy & Hl). apply M_bind_Ok in Hy as (r & dz & Hz & [= <- <-]).
      destruct (candidate_spec _ _ _ _ _ _ _ Hz) as (-> & Hid & _). destruct (IH _ _ Hl) as (-> & l' & -> & Hn & HF).
      split; [done|]. exists (r :: l'). rewrite <- app_assoc. split; [done|]. rewrite !fmap_cons, Hid, Hn.
      split; [done|]. constructor; [by exists b|done]. }
  destruct (Hgen _ _ _ Hf) as (-> & l' & -> & Hn & HF). done.
Qed.

Lemma contribution_reasons_nil c :
  contribution_reasons c = [] ↔
  3 ≤ cs_independent_organic_issuers c ∧ 80 ≤ cs_organic_pct c ∧ cs_window_continuous c = true.
Proof.
  unfold contribution_reasons, MIN_INDEPENDENT_ORGANIC_ISSUERS, MIN_ORGANIC_CONTRIBUTION_PCT.
  destruct (_ <? 3) eqn:E1; [apply Z.ltb_lt in E1; split; [done|lia]|]. apply Z.ltb_ge in E1.
  destruct (_ <? 80) eqn:E2; [apply Z.ltb_lt in E2; split; [done|lia]|]. apply Z.ltb_ge in E2.
  destruct (cs_window_continuous c); simpl; naive_solver.
Qed.

(** *** The rounded share

    [Math.round((organic / total) * 100)] on doubles reaches 80 exactly when the exact
    share reaches 79.5 percent, as long as the weights are below 2^40: the quotient and
    the product are each rounded once, and 79.5 and its neighbours are far enough from
    every other share. *)

(** How [num_ratio] rounds: the exponent, and the two bounds of the mantissa. *)
Lemma num_ratio_spec a b k : 0 < a → 0 < b → 0 ≤ k ≤ 50 → a < b * 2 ^ k →
  ∃ q e, num_ratio a b = mk_fin q e ∧ e ≤ k - 53 ∧ (b ≤ 2 * a → -53 ≤ e) ∧ 0 < q ∧
    (∀ K, (2 * K - 1) * b < 2 * (a * 2 ^ (- e)) → K ≤ q) ∧ (∀ K, a * 2 ^ (- e) ≤ K * b → q ≤ K).
Proof.
  intros Ha Hb Hk Hab. unfold num_ratio. rewrite (proj2 (Z.eqb_neq a 0)) by lia.
  set (e0 := Z.log2 a - Z.log2 b - 53).
  pose proof (Z.log2_spec a Ha) as [La1 La2]. pose proof (Z.log2_spec b Hb) as [Lb1 Lb2].
  pose proof (Z.log2_nonneg a). pose proof (Z.log2_nonneg b).
  assert (Hla : Z.log2 a ≤ Z.log2 b + k).
  { assert (Z.log2 a < Z.log2 b + k + 1); [|lia]. apply Z.log2_lt_pow2; [done|].
    etrans; [exact Hab|]. rewrite <- Z.add_1_r in Lb2. replace (Z.log2 b + k + 1) with ((Z.log2 b + 1) + k) by lia.
    rewrite Z.pow_add_r by lia. apply Z.mul_lt_mono_pos_r; [|done]. by apply Z.pow_pos_nonneg; lia. }
  assert (Hneg : (0 <=? e0) = false) by (apply Z.leb_gt; lia).
  cbv zeta beta. rewrite Hneg. cbv iota beta. set (e := if b * 2 ^ 53 <=? a * 2 ^ (- e0) then e0 + 1 else e0).
  assert (He : e ≤ k - 53 ∧ (b ≤ 2 * a → -53 ≤ e)).
  { unfold e. split.
    - destruct (Z.leb_spec (b * 2 ^ 53) (a * 2 ^ (- e0))) as [Hle|]; [|lia]. destruct (decide (e0 = k - 53)) as [E|]; [|lia]. exfalso.
      rewrite E in Hle. replace (2 ^ 53) with (2 ^ k * 2 ^ (53 - k)) in Hle by (rewrite <- Z.pow_add_r by lia; f_equal; lia).
      replace (- (k - 53)) with (53 - k) in Hle by lia. rewrite Z.mul_assoc in Hle.
      apply Z.mul_le_mono_pos_r in Hle; [lia|]. apply Z.pow_pos_nonneg; lia.
    - intros H2. assert (Z.log2 b ≤ Z.log2 a + 1).
      { pose proof (Z.log2_double a Ha). pose proof (Z.log2_le_mono b (2 * a) H2). lia. }
      destruct (Z.leb_spec (b * 2 ^ 53) (a * 2 ^ (- e0))) as [|Hgt]; [lia|]. destruct (decide (e0 = -54)) as [E|]; [|lia]. exfalso.
      rewrite E in Hgt. change (2 ^ (- -54)) with (2 * 2 ^ 53) in Hgt. lia. }
  assert (He1 : e ≤ e0 + 1).
  { unfold e. destruct (b * 2 ^ 53 <=? a * 2 ^ (- e0)). all: lia. }
  assert (Hpos : b ≤ a * 2 ^ (- e)).
  { assert (Hf : 2 ^ (Z.log2 b + 1) ≤ a * 2 ^ (- e)); [|rewrite <- Z.add_1_r in Lb2; lia].
    assert (Z.log2 b + 1 = Z.log2 a + (Z.log2 b - Z.log2 a + 1)) as -> by lia. destruct (decide (0 ≤ Z.log2 b - Z.log2 a + 1)).
    - rewrite Z.pow_add_r by lia. apply Z.mul_le_mono_nonneg; [lia|done|lia|]. apply Z.pow_le_mono_r; [done|]. unfold e0 in He1. lia.
    - etrans; [apply (Z.pow_le_mono_r 2 _ (Z.log2 a)); lia|]. etrans; [exact La1|]. assert (1 ≤ 2 ^ (- e)); [|nia].
      change 1 with (2 ^ 0). apply Z.pow_le_mono_r; [done|]. lia. }
  assert ((0 <=? e) = false) as -> by (apply Z.leb_gt; lia).
  set (n := a * 2 ^ (- e)). pose proof (Z_div_mod_eq_full n b). pose proof (Z.mod_pos_bound n b Hb).
  assert (1 ≤ n / b) by (apply Z.div_le_lower_bound; lia).
  eexists _, e. split; [reflexivity|]. split; [apply He|]. split; [apply He|]. split; [destruct (_ || _); lia|].
  assert (Hup : ∀ m K, m + 1 ≤ K → m * b + b ≤ K * b) 
    by (intros m K HK; replace (m * b + b) with ((m + 1) * b) by ring; apply Z.mul_le_mono_nonneg_r; lia).
  assert (Hcase : (if (b <? 2 * (n mod b)) || ((2 * (n mod b) =? b) && Z.odd (n / b)) then b ≤ 2 * (n mod b) else 2 * (n mod b) ≤ b)).
  { destruct (Z.ltb_spec b (2 * (n mod b))); cbn [orb]; [lia|]. destruct (Z.eqb_spec (2 * (n mod b)) b); cbn [andb]; [destruct (Z.odd _); lia|lia]. }
  destruct (_ || _); (split; intros K HK; apply Z.nlt_ge; intros HKq).
  - pose proof (Hup (n / b + 1) K ltac:(lia)). lia.
  - pose proof (Hup K (n / b + 1) ltac:(lia)). lia.
  - pose proof (Hup (n / b) K ltac:(lia)). lia.
  - pose proof (Hup K (n / b) ltac:(lia)). lia.
Qed.


Lemma mk_fin_pos q e : 0 < q → ∃ m ex, mk_fin q e = Fin m ex ∧ 0 < m ∧ e ≤ ex ∧ m * 2 ^ (ex - e) = q.
Proof.
  intros Hq. destruct q as [|p|p]; [lia| |lia]. unfold mk_fin. destruct (strip_pos p e) as [p' e'] eqn:E.
  apply strip_pos_spec in E as [H1 H2]. by exists (Zpos p'), e'.
Qed.

Lemma pow_split a b : 0 ≤ a → 0 ≤ b → 2 ^ (a + b) = 2 ^ a * 2 ^ b ∧ 0 < 2 ^ a ∧ 0 < 2 ^ b.
Proof. intros Ha Hb. split; [by apply Z.pow_add_r|]. split; by apply Z.pow_pos_nonneg. Qed.

Lemma scale_le c x y : 0 < c → x * c ≤ y * c ↔ x ≤ y.
Proof. intros Hc. split; intros H; [by apply Z.mul_le_mono_pos_r in H|by apply Z.mul_le_mono_pos_r]. Qed.

(** 80 is what everything from 79.5 rounds to, or less. *)
Lemma Math_round_80 q e : 0 < q → e ≤ 0 → 80 ≤ Math_round (mk_fin q e) ↔ 159 * 2 ^ (- e) ≤ 2 * q.
Proof.
  intros Hq He. destruct (mk_fin_pos q e Hq) as (m & ex & -> & Hm & Hle & <-). unfold Math_round.
  destruct (Z.leb_spec 0 ex).
  - destruct (pow_split ex (- e)) as (H1 & H2 & H3); [lia..|]. replace (ex - e) with (ex + - e) by lia.
    rewrite H1, !Z.mul_assoc, scale_le by done. lia.
  - destruct (pow_split (- ex) (ex - e)) as (H1 & H2 & H3); [lia..|]. replace (- e) with (- ex + (ex - e)) by lia.
    rewrite H1, !Z.mul_assoc, scale_le by done. set (E := 2 ^ (- ex)) in *.
    pose proof (Z_div_mod_eq_full (2 * m + E) (2 * E)). pose proof (Z.mod_pos_bound (2 * m + E) (2 * E) ltac:(lia)). split; intros; nia.
Qed.

(** The quotient of two weights, as [Fin m ex]: below one, and on the right side of
    79.5 percent. *)
Lemma quotient_spec O T : 0 < O < T → T < 2 ^ 40 →
  ∃ m ex, num_ratio O T = Fin m ex ∧ 0 < m < 2 ^ (- ex) ∧ ex < 0 ∧
    (159 * T ≤ 200 * O → 159 * 2 ^ (- ex) ≤ 200 * m) ∧
    (200 * O < 159 * T → m * 2 ^ 53 ≤ 7160723407519072 * 2 ^ (- ex)).
Proof.
  intros HO HT. destruct (num_ratio_spec O T 0) as (q & e & -> & He & Hhalf & Hq0 & Hge & Hle); [lia..|].
  destruct (pow_split (- e - 53) 53) as (P1 & P2 & P3); [lia..|]. replace (- e - 53 + 53) with (- e) in P1 by lia.
  set (G := 2 ^ (- e - 53)) in *.
  assert (Hq1 : q < 2 ^ (- e)).
  { assert (q ≤ (2 ^ 53 - 2 ^ 13) * G).
    { apply Hle. rewrite P1. replace (O * (G * 2 ^ 53)) with (O * 2 ^ 53 * G) by ring.
      replace ((2 ^ 53 - 2 ^ 13) * G * T) with ((2 ^ 53 - 2 ^ 13) * T * G) by ring. apply scale_le; [done|]. lia. }
    rewrite P1. lia. }
  destruct (mk_fin_pos q e ltac:(lia)) as (m & ex & -> & Hm & Hex & Hq).
  assert (Hneg : ex < 0).
  { apply Z.nle_gt. intros Hex0. destruct (pow_split ex (- e)) as (Q1 & Q2 & Q3); [lia..|].
    replace (ex + - e) with (ex - e) in Q1 by lia. rewrite Q1 in Hq.
    assert (1 * 2 ^ (- e) ≤ m * 2 ^ ex * 2 ^ (- e)) by (apply scale_le; [done|nia]). lia. }
  destruct (pow_split (- ex) (ex - e)) as (E1 & E2 & E3); [lia..|]. replace (- ex + (ex - e)) with (- e) in E1 by lia.
  set (E := 2 ^ (- ex)) in *. set (F := 2 ^ (ex - e)) in *.
  exists m, ex. split; [done|]. split; [split; [done|]; fold E; rewrite E1, <- Hq in Hq1; by apply Z.mul_lt_mono_pos_r in Hq1|]. split; [done|]. fold E. split.
  - intros H. assert (e = -53) as -> by lia. change (2 ^ (- -53)) with 9007199254740992 in *.
    assert (7160723407519089 ≤ q) by (apply Hge; lia).
    assert (159 * (E * F) ≤ 200 * (m * F)) by lia. apply (scale_le F); [done|]. lia.
  - intros H. assert (Hk : q ≤ 7160723407519072 * G).
    { apply Hle. rewrite P1. replace (O * (G * 2 ^ 53)) with (O * 2 ^ 53 * G) by ring.
      replace (7160723407519072 * G * T) with (7160723407519072 * T * G) by ring. apply scale_le; [done|]. lia. }
    apply (scale_le F); [done|]. rewrite P1 in E1. clearbody E F G. subst q. lia.
Qed.

(** The exact content of the percentage's test. *)
Lemma organic_pct_80 O T : 0 ≤ O ≤ T → T < 2 ^ 40 → 80 ≤ organic_pct O T ↔ 0 < T ∧ 159 * T ≤ 200 * O.
Proof.
  intros HO HT. unfold organic_pct. destruct (Z.ltb_spec 0 T) as [HT0|]; [|lia].
  destruct (decide (O = 0)) as [->|]; [change (80 ≤ 0 ↔ 0 < T ∧ 159 * T ≤ 200 * 0); lia|]. destruct (decide (O = T)) as [->|].
  { assert (num_ratio T T = Fin 1 0) as ->; [|split; [intros; lia|intros; vm_compute; discriminate]].
    destruct (num_ratio_spec T T 1) as (q & e & -> & He & _ & Hq & Hge & Hle); [lia..|].
    assert (q = 1 * 2 ^ (- e)) as ->.
    { assert (0 < 2 ^ (- e)) by (apply Z.pow_pos_nonneg; lia). apply Z.le_antisymm; [apply Hle|]; [lia|]. rewrite Z.mul_1_l. apply Hge. nia. }
    rewrite mk_fin_shift by lia. by rewrite Z.add_opp_diag_r. }
  destruct (quotient_spec O T) as (m & ex & -> & Hm & Hex & Hup & Hdown); [lia..|].
  unfold times_100. rewrite (proj2 (Z.leb_gt 0 ex)) by done. set (E := 2 ^ (- ex)) in *.
  destruct (num_ratio_spec (m * 100) E 7) as (q & e & -> & He & _ & Hq & Hge & Hle); [lia..|].
  destruct (pow_split (- e - 43) 43) as (P1 & P2 & P3); [lia..|]. replace (- e - 43 + 43) with (- e) in P1 by lia.
  set (G := 2 ^ (- e - 43)) in *.
  rewrite Math_round_80 by lia. rewrite P1. split.
  - intros H. split; [done|]. apply Z.nlt_ge. intros Hlt. specialize (Hdown Hlt).
    assert (q ≤ (159 * 2 ^ 42 - 1) * G); [|lia]. apply Hle. rewrite P1.
    replace (m * 100 * (G * 2 ^ 43)) with (m * 100 * 2 ^ 43 * G) by ring.
    replace ((159 * 2 ^ 42 - 1) * G * E) with ((159 * 2 ^ 42 - 1) * E * G) by ring. apply scale_le; [done|]. lia.
  - intros [_ H]. specialize (Hup H). assert (159 * 2 ^ 42 * G ≤ q); [|lia]. apply Hge. rewrite P1.
    assert (Hs : 159 * 2 ^ 43 * E * G ≤ 200 * 2 ^ 43 * m * G) by (apply scale_le; [done|lia]).
    assert (0 < E) by lia. lia.
Qed.

(** *** What the gate asks, of the tables themselves *)

Definition days_before (t n : Z) : Z := t - n * 86400000.

(** An attestation that counts: its issuer is active, it was issued less than thirty
    days before [t], and at [now] it is neither superseded nor expired. *)
Definition counted (d : db) (now t : Z) (a : Attestation) : Prop :=
  p_status <$> principals d !! a_issuer_id a = Some (js "active") ∧ days_before t 30 < a_issued_at a ∧
  a_superseded_by a = None ∧ match a_expires_at a with Some x => now < x | None => True end.
#[global] Instance counted_dec d now t a : Decision (counted d now t a).
Proof. unfold counted. destruct (a_expires_at a); apply _. Defined.

Definition counts_as (origin : bool) (d : db) (now t : Z) (a : Attestation) : Prop :=
  counted d now t a ∧ a_bootstrap_origin a = origin.
#[global] Instance counts_as_dec origin d now t a : Decision (counts_as origin d now t a).
Proof. unfold counts_as. apply _. Defined.

(** The trust the counted attestations of one origin carry. *)
Definition mass (origin : bool) (d : db) (now t : Z) : Z :=
  fold_right (λ a n, (if decide (counts_as origin d now t a) then Z.abs (a_trust_delta a) else 0) + n) 0
    (map_to_list (attestations d)).*2.

(** Some counted organic attestation satisfies [P]. *)
Definition some_organic (d : db) (now t : Z) (P : Attestation → Prop) : Prop :=
  ∃ i a, attestations d !! i = Some a ∧ counts_as false d now t a ∧ P a.

(** Issuers count as independent when their tenants or their kinds differ; having no
    tenant, an empty one or one called null is the same. *)
Definition issuer_class (d : db) (a : Attestation) : option (jstr * jstr) :=
  (λ p, (match p_owner_tenant_id p with None | Some [] => js "null" | Some tenant => tenant end, p_entity_kind p))
  <$> principals d !! a_issuer_id a.

Definition three_independent (d : db) (now t : Z) : Prop :=
  some_organic d now t (λ a1, some_organic d now t (λ a2, some_organic d now t (λ a3,
    issuer_class d a1 ≠ issuer_class d a2 ∧ issuer_class d a1 ≠ issuer_class d a3 ∧ issuer_class d a2 ≠ issuer_class d a3))).

(** The last row of a run for a principal. *)
Definition last_row (p : jstr) (rows : list EngineScore) (r : EngineScore) : Prop :=
  ∃ l1 l2, rows = l1 ++ r :: l2 ∧ es_principal_id r = p ∧ p ∉ es_principal_id <$> l2.

(** A principal with a row in both runs, owned by a tenant with an active policy, is
    not taken from the threshold or above it to below it. *)
Definition keeps_threshold (d : db) (rows1 rows2 : list EngineScore) (p : jstr) : Prop :=
  ∀ P tenant pol cur cf, principals d !! p = Some P → p_owner_tenant_id P = Some tenant → tenant ≠ [] →
    PolicyRepo.getActivePolicy tenant d = Some pol → 0 < pol_threshold pol →
    last_row p rows1 cur → last_row p rows2 cf → pol_threshold pol ≤ es_score cur → pol_threshold pol ≤ es_score cf.

(** [g'] is [g] without the weight of the root [id]. *)
Definition root_muted (id : jstr) (g g' : AttestationGraph) : Prop :=
  g_principals g' = g_principals g ∧ g_attestations g' = g_attestations g ∧ networkScoreCount g' = networkScoreCount g ∧
  Forall2 (λ r r', gr_id r' = gr_id r ∧ gr_weight r' = if decide (gr_id r = id) then 0 else gr_weight r) (g_roots g) (g_roots g').

(** A root the gate reports on. *)
Definition active_root (d : db) (b : BootstrapIssuer) : Prop :=
  is_Some (issuers d !! b_principal_id b) ∧ b_removed_from_registry_at b = None ∧ 0 < b_current_weight b.

(** *** The gate reads the tables that way *)

Lemma contribution_row_Some d now t a r :
  contribution_row d now (t - WINDOW_DAYS * DAY_MS) a = Some r ↔
  counted d now t a ∧ ∃ p, principals d !! a_issuer_id a = Some p ∧
    r = mkCRow (a_bootstrap_origin a) (a_trust_delta a) (a_issued_at a) (p_owner_tenant_id p) (p_entity_kind p).
Proof.
  unfold contribution_row, counted, days_before. change (WINDOW_DAYS * DAY_MS) with (30 * 86400000).
  destruct (principals d !! a_issuer_id a) as [p|]; cbn [fmap option_fmap option_map]; [|split; [done|by intros [[[=] _] _]]].
  destruct (_ && _) eqn:E.
  - rewrite !andb_true_iff, !bool_decide_eq_true, Z.ltb_lt in E. destruct E as [[[H1 H2] H3] H4]. rewrite H4.
    split; [|by intros (_ & ? & [= <-] & ->)]. intros [= <-]. split; [|eauto]. split_and!; try done.
    destruct (a_expires_at a); [by apply Z.ltb_lt|done].
  - split; [done|]. intros [([= H1] & H2 & H3 & H4) _]. exfalso. revert E.
    rewrite (proj2 (Z.ltb_lt _ _) H2), !bool_decide_eq_true_2 by done. cbn [andb]. rewrite andb_true_r.
    destruct (a_expires_at a); [by rewrite (proj2 (Z.ltb_lt _ _) H4)|done].
Qed.

Lemma contribution_row_None d now t a : contribution_row d now (t - WINDOW_DAYS * DAY_MS) a = None ↔ ¬ counted d now t a.
Proof.
  split.
  - intros Hn Hc. pose proof Hc as [Hp _]. destruct (principals d !! a_issuer_id a) as [p|] eqn:E; [|done].
    pose proof (proj2 (contribution_row_Some d now t a _) (conj Hc (ex_intro _ p (conj E eq_refl)))). congruence.
  - intros Hc. apply eq_None_not_Some. intros [r [H _]%contribution_row_Some]. done.
Qed.

(** The two sums of the split. *)
Lemma mass_sum origin d now t :
  weight_sum (filter (λ r, c_bootstrap_origin r = origin) (contribution_rows d now (t - WINDOW_DAYS * DAY_MS))) = mass origin d now t.
Proof.
  unfold contribution_rows, mass. induction (map_to_list (attestations d)).*2 as [|a l IH]; [done|].
  cbn [fold_right omap list_omap]. rewrite <- IH. clear IH.
  destruct (contribution_row d now _ a) as [r|] eqn:E.
  - apply contribution_row_Some in E as (Hc & p & _ & ->). rewrite filter_cons. cbn [c_bootstrap_origin]. unfold counts_as.
    destruct (decide (a_bootstrap_origin a = origin)); [rewrite decide_True by done|rewrite decide_False by tauto]; done.
  - apply contribution_row_None in E. rewrite decide_False; [done|]. by intros [? _].
Qed.

Lemma mass_nonneg origin d now t : 0 ≤ mass origin d now t.
Proof. unfold mass. induction (map_to_list (attestations d)).*2; simpl; [done|]. destruct (decide _); lia. Qed.

Lemma elem_of_organic_rows d now t r :
  r ∈ filter organic (contribution_rows d now (t - WINDOW_DAYS * DAY_MS)) ↔
  ∃ i a p, attestations d !! i = Some a ∧ counts_as false d now t a ∧ principals d !! a_issuer_id a = Some p ∧
    r = mkCRow false (a_trust_delta a) (a_issued_at a) (p_owner_tenant_id p) (p_entity_kind p).
Proof.
  unfold contribution_rows, organic. rewrite list_elem_of_filter, list_elem_of_omap. setoid_rewrite contribution_row_Some.
  setoid_rewrite elem_of_values. unfold counts_as. split.
  - intros (Ho & a & [i Hi] & Hc & p & Hp & ->). cbn in Ho. rewrite Ho. eauto 10.
  - intros (i & a & p & Hi & [Hc Ho] & Hp & ->). split; [done|]. exists a. split; [eauto|]. split; [done|]. rewrite Ho. eauto.
Qed.

(** A kind has no colon, so the key splits at its last one. *)
Lemma key_inj (x1 x2 k1 k2 : jstr) : k1 ∈ entity_kinds → k2 ∈ entity_kinds →
  x1 ++ js ":" ++ k1 = x2 ++ js ":" ++ k2 → x1 = x2 ∧ k1 = k2.
Proof.
  intros H1 H2 H. apply (f_equal reverse) in H. rewrite !reverse_app in H.
  assert (reverse x1 = reverse x2 ∧ k1 = k2) as [Hr Hk]; [|by apply (inj reverse) in Hr].
  unfold entity_kinds in H1, H2. rewrite !elem_of_cons, elem_of_nil in H1, H2.
  destruct H1 as [-> | [-> | [-> | []]]]; destruct H2 as [-> | [-> | [-> | []]]]; vm_compute in H;
    try discriminate H; injection H as H; split; try done; exact H.
Qed.

Lemma issuer_key_class d a1 a2 p1 p2 o1 o2 t1 t2 s1 s2 :
  principals d !! a_issuer_id a1 = Some p1 → principals d !! a_issuer_id a2 = Some p2 →
  p_entity_kind p1 ∈ entity_kinds → p_entity_kind p2 ∈ entity_kinds →
  issuer_key (mkCRow o1 t1 s1 (p_owner_tenant_id p1) (p_entity_kind p1)) =
  issuer_key (mkCRow o2 t2 s2 (p_owner_tenant_id p2) (p_entity_kind p2)) ↔ issuer_class d a1 = issuer_class d a2.
Proof.
  intros H1 H2 K1 K2. unfold issuer_key, issuer_class. rewrite H1, H2. cbn [fmap option_fmap option_map c_owner_tenant_id c_entity_kind].
  split.
  - intros [H ->]%key_inj; [|done..]. destruct (p_owner_tenant_id p1) as [[|]|], (p_owner_tenant_id p2) as [[|]|]; congruence.
  - intros [= H ->]. destruct (p_owner_tenant_id p1) as [[|]|], (p_owner_tenant_id p2) as [[|]|]; congruence.
Qed.

Lemma size_three `{Countable A} (X : gset A) :
  (3 ≤ size X)%nat ↔ ∃ x y z, x ∈ X ∧ y ∈ X ∧ z ∈ X ∧ x ≠ y ∧ x ≠ z ∧ y ≠ z.
Proof.
  split.
  - intros Hs. pose proof (NoDup_elements X) as Hn. change (size X) with (length (elements X)) in Hs.
    assert (Hin : ∀ x, x ∈ elements X → x ∈ X) by (intros x; by rewrite elem_of_elements).
    destruct (elements X) as [|x [|y [|z l]]]; simpl in Hs; try lia.
    apply NoDup_cons in Hn as [Hx [Hy _]%NoDup_cons]. exists x, y, z. set_solver.
  - intros (x & y & z & Hx & Hy & Hz & Hxy & Hxz & Hyz). transitivity (size (list_to_set [x; y; z] : gset A)).
    + rewrite size_list_to_set; [done|]. repeat constructor; set_solver.
    + apply subseteq_size. set_solver.
Qed.

Lemma independent_three d now t :
  (∀ i p, principals d !! i = Some p → p_entity_kind p ∈ entity_kinds) →
  3 ≤ cs_independent_organic_issuers (computeContributionSplit now t d) ↔ three_independent d now t.
Proof.
  intros Hk. cbn [computeContributionSplit cs_independent_organic_issuers].
  assert (∀ n : nat, 3 ≤ Z.of_nat n ↔ (3 ≤ n)%nat) as -> by lia. rewrite size_three. unfold three_independent, some_organic.
  set (rows := filter organic _).
  assert (Hin : ∀ x, x ∈ (list_to_set (issuer_key <$> rows) : gset jstr) ↔ ∃ i a p, attestations d !! i = Some a ∧
    counts_as false d now t a ∧ principals d !! a_issuer_id a = Some p ∧
    x = issuer_key (mkCRow false (a_trust_delta a) (a_issued_at a) (p_owner_tenant_id p) (p_entity_kind p))).
  { intros x. rewrite elem_of_list_to_set, list_elem_of_fmap. unfold rows. setoid_rewrite elem_of_organic_rows. naive_solver. }
  setoid_rewrite Hin. split.
  - intros (x & y & z & (i1 & a1 & p1 & A1 & C1 & P1 & ->) & (i2 & a2 & p2 & A2 & C2 & P2 & ->) & (i3 & a3 & p3 & A3 & C3 & P3 & ->) & H).
    rewrite !(issuer_key_class d) in H by eauto. exists i1, a1. split_and!; [done..|]. exists i2, a2. split_and!; [done..|]. by exists i3, a3.
  - intros (i1 & a1 & A1 & C1 & i2 & a2 & A2 & C2 & i3 & a3 & A3 & C3 & H).
    assert (Hp : ∀ a, counts_as false d now t a → ∃ p, principals d !! a_issuer_id a = Some p).
    { intros a [[Hs _] _]. destruct (principals d !! a_issuer_id a); [eauto|done]. }
    destruct (Hp a1 C1) as [p1 P1], (Hp a2 C2) as [p2 P2], (Hp a3 C3) as [p3 P3].
    eexists _, _, _. split; [by exists i1, a1, p1|]. split; [by exists i2, a2, p2|]. split; [by exists i3, a3, p3|].
    by rewrite !(issuer_key_class d) by eauto.
Qed.

Lemma continuous_ends d now t :
  cs_window_continuous (computeContributionSplit now t d) = true ↔
  some_organic d now t (λ a, a_issued_at a ≤ days_before t 25) ∧ some_organic d now t (λ a, days_before t 5 ≤ a_issued_at a).
Proof.
  cbn [computeContributionSplit cs_window_continuous]. rewrite window_continuous_spec. unfold some_organic, days_before.
  assert (Hin : ∀ x, x ∈ c_issued_at <$> filter organic (contribution_rows d now (t - WINDOW_DAYS * DAY_MS)) ↔
    ∃ i a, attestations d !! i = Some a ∧ counts_as false d now t a ∧ x = a_issued_at a).
  { intros x. rewrite list_elem_of_fmap. setoid_rewrite elem_of_organic_rows. split.
    - intros (r & -> & i & a & p & Ha & Hc & _ & ->). eauto.
    - intros (i & a & Ha & Hc & ->). pose proof Hc as [[Hs _] _]. destruct (principals d !! a_issuer_id a) eqn:E; [|done]. eexists. split; [|eauto 8]. done. }
  setoid_rewrite Hin. unfold WINDOW_DAYS, DAY_MS. split.
  - intros [(x & (i & a & Ha & Hc & ->) & Hx) (y & (j & b & Hb & Hd & ->) & Hy)].
    split; [exists i, a|exists j, b]; (split; [done|]; split; [done|lia]).
  - intros [(i & a & Ha & Hc & Hx) (j & b & Hb & Hd & Hy)].
    split; [exists (a_issued_at a)|exists (a_issued_at b)]; (split; [eauto|lia]).
Qed.

Lemma contribution_pct d now t :
  cs_organic_pct (computeContributionSplit now t d) = organic_pct (mass false d now t) (mass true d now t + mass false d now t).
Proof.
  cbn [computeContributionSplit cs_organic_pct]. rewrite <- !mass_sum. f_equal. f_equal. f_equal.
  apply list_filter_iff. intros r. unfold organic. by destruct (c_bootstrap_origin r).
Qed.

Lemma score_map_last p rows r : score_map rows !! p = Some r ↔ last_row p rows r.
Proof.
  unfold score_map, last_row. induction rows as [|x rows IH] using rev_ind.
  { split; [done|]. by intros ([|] & l2 & [=] & _). }
  rewrite fmap_app, reverse_app. cbn. destruct (decide (es_principal_id x = p)) as [<-|Hne].
  - rewrite lookup_insert_eq. split.
    + intros [= ->]. exists rows, []. split_and!; [done..|]. by intros ?%elem_of_nil.
    + intros (l1 & l2 & H & Hp & Hn). destruct l2 as [|y l2 _] using rev_ind.
      * by apply app_inj_tail in H as [_ ->].
      * rewrite app_comm_cons, app_assoc in H. apply app_inj_tail in H as [_ ->]. rewrite fmap_app in Hn. set_solver.
  - rewrite lookup_insert_ne, IH by done. split; intros (l1 & l2 & H & Hp & Hn).
    + exists l1, (l2 ++ [x]). rewrite H, <- app_assoc. split_and!; [done..|]. rewrite fmap_app. set_solver.
    + destruct l2 as [|y l2 _] using rev_ind.
      * by apply app_inj_tail in H as [_ ->].
      * rewrite app_comm_cons, app_assoc in H. apply app_inj_tail in H as [-> ->]. exists l1, l2. rewrite fmap_app in Hn. set_solver.
Qed.

Lemma drop_of_keeps d r1 r2 p :
  (∀ x, drop_of d (score_map r1) (score_map r2) p = Some x → cd_drops_below_threshold x = false) ↔ keeps_threshold d r1 r2 p.
Proof.
  unfold drop_of, keeps_threshold, serving_tenant, getThreshold. setoid_rewrite <- score_map_last. split.
  - intros H P tenant pol cur cf HP Ht Hne Hpol Hth H1 H2 Hle. rewrite H1, H2, HP, Ht in H.
    specialize (H _ eq_refl). destruct tenant as [|c tenant]; [done|]. cbn in H. rewrite Hpol in H. cbn in H.
    rewrite (proj2 (Z.ltb_lt _ _) Hth), (proj2 (Z.leb_le _ _) Hle) in H. by apply Z.ltb_ge in H.
  - intros H x Hx. destruct (score_map r1 !! p) as [cur|]; [|done]. destruct (score_map r2 !! p) as [cf|]; [|done].
    injection Hx as <-. cbn [cd_drops_below_threshold].
    destruct (principals d !! p) as [P|] eqn:HP; [|done]. destruct (p_owner_tenant_id P) as [[|c tenant]|] eqn:Ht; [done| |done].
    destruct (PolicyRepo.getActivePolicy (c :: tenant) d) as [pol|] eqn:Hpol; [|done]. cbn.
    destruct (Z.ltb_spec 0 (pol_threshold pol)); [|done]. destruct (Z.leb_spec (pol_threshold pol) (es_score cur)); [|done].
    apply Z.ltb_ge. by eapply (H P _ pol cur cf).
Qed.

Lemma no_drop_iff d r1 r2 ps :
  existsb cd_drops_below_threshold (omap (drop_of d (score_map r1) (score_map r2)) ps) = false ↔
  ∀ p, p ∈ ps → keeps_threshold d r1 r2 p.
Proof.
  setoid_rewrite <- drop_of_keeps. rewrite <- not_true_iff_false, existsb_exists. setoid_rewrite <- list_elem_of_In.
  setoid_rewrite list_elem_of_omap. setoid_rewrite <- not_true_iff_false. naive_solver.
Qed.

Lemma override_muted id g : root_muted id g (override_root id 0 g).
Proof.
  split_and!; [done..|]. cbn. apply Forall2_fmap_r, Forall_Forall2_diag, Forall_forall. intros r _. split; by case_decide.
Qed.

Lemma candidates_listed d :
  StronglySorted (λ a b, b_seeded_at a ≤ b_seeded_at b) (candidates d) ∧
  (∀ b, b ∈ candidates d ↔ active_root d b ∧ ∃ i, bootstrap_issuers d !! i = Some b).
Proof.
  unfold candidates. split.
  - apply SyncLog.StronglySorted_filter'. apply (StronglySorted_mono (λ x y, (b_seeded_at x <=? b_seeded_at y) = true)); [intros x y; by rewrite Z.leb_le|].
    apply sort_by_sorted; intros; rewrite ?Z.leb_le in *; lia.
  - intros b. by rewrite list_elem_of_filter, sort_by_elem, elem_of_values.
Qed.


(** A score that vanishes is not a drop: a principal that has no row in the
    counterfactual run never appears among the reported drops, however high its
    current score is; the loop skips it. *)
Theorem vanished_score_not_reported engine rootId w t d rep g r2 p :
  computeCounterfactualRemovalReport engine rootId w t d = (Ok rep, d) → loadAttestationGraph t d = (Ok g, d) →
  engine (override_root rootId w g) t = Ok r2 → p ∉ es_principal_id <$> rr_rows r2 →
  p ∉ cd_principal_id <$> cf_drops rep.
Proof.
  intros (_ & g' & r1 & r2' & Hg & _ & H2 & _ & Hdrops)%report_spec Hg' H2' Hp.
  assert (g' = g) as -> by congruence. assert (r2' = r2) as -> by congruence.
  rewrite Hdrops. intros (x & -> & (q & _ & Hq)%list_elem_of_omap)%list_elem_of_fmap.
  unfold drop_of in Hq. destruct (_ !! q); [|done]. destruct (score_map (rr_rows r2) !! q) eqn:E; [|done].
  injection Hq as <-. simpl in Hp. apply Hp. unfold score_map in E. apply elem_of_list_to_map_2 in E.
  apply elem_of_reverse, list_elem_of_fmap in E as (r & [= -> _] & Hr). by apply list_elem_of_fmap_2.
Qed.

(** A report is only accepted for the state and the weight it was made for. *)
Theorem fresh_report_accepted engine rootId w t d rep d' d2 w2 :
  computeCounterfactualRemovalReport engine rootId w t d = (Ok rep, d') →
  validateReportFreshness rep (getGraphVersion d2) w2 = Ok tt ↔
  SyncLog.high_water d2 = SyncLog.high_water d ∧ w2 = w.
Proof.
  intros H. pose proof H as H0. apply report_spec in H as (_ & g & r1 & r2 & _ & _ & _ & Hv & _).
  assert (Hw : cf_target_weight rep = w).
  { unfold computeCounterfactualRemovalReport in H0. apply M_bind_Ok in H0 as (? & ? & _ & H0).
    repeat (apply M_bind_Ok in H0 as (? & ? & _ & H0)). by injection H0 as <- _. }
  unfold validateReportFreshness, getGraphVersion. rewrite Hv, Hw.
  destruct (SyncLog.high_water d =? SyncLog.high_water d2) eqn:E1; simpl.
  - apply Z.eqb_eq in E1. destruct (w =? w2) eqn:E2; simpl; [apply Z.eqb_eq in E2|apply Z.eqb_neq in E2]; split; intros; try done; try congruence.
    destruct H as [_ ->]. done.
  - apply Z.eqb_neq in E1. split; [done|]. intros [H _]. congruence.
Qed.

(** *** The properties at a concrete state *)

(** A one-hop engine with the trust engine's rule that only a root or a principal
    with a positive contribution gets a row ([pkg/trust/engine.go],
    [contribution > nextScores[edge.Subject]]). *)
Definition one_hop_engine (g : AttestationGraph) (t : Z) : result exn RunVeriRankResult :=
  let root_rows := (λ r, mkScore (gr_id r) (js "issuer") (gr_weight r) false (js "propagated")) <$> g_roots g in
  let reached := omap (λ a,
    match list_find (λ r, gr_id r = Grouping.ga_issuer_id a) (g_roots g) with
    | Some (_, r) => let s := gr_weight r * Grouping.ga_trust_delta a / 100 in
                     if 0 <? s then Some (mkScore (Grouping.ga_subject_id a) (js "agent") s false (js "propagated")) else None
    | None => None
    end) (g_attestations g) in
  Ok (mkRunResult (root_rows ++ reached) (t / 1000)).

Definition person (p kind : string) (owner : option jstr) : jstr * Principal :=
  (js p, mkPrincipal (js p) (js kind) None owner (JObj []) 0 0 (js "active")).
Definition report (i issuer subject : string) (delta at_ : Z) (origin : bool) : jstr * Attestation :=
  (js i, mkAttestation (js i) (js issuer) (js subject) [] (js i) JNull JNull [] (js "public") delta
           (js "transaction_summary") (js "1") None None at_ None None true (js "k") at_ origin).

Definition day (n : Z) : Z := n * DAY_MS.

(** Root R attests agent A (owned by tenant T, threshold 50); three organic
    issuers attest another agent at both ends of the window. *)
Definition gate_db : db :=
  set_principals (list_to_map [person "R" "issuer" None; person "A" "agent" (Some (js "T"));
      person "O1" "issuer" (Some (js "T1")); person "O2" "issuer" (Some (js "T2")); person "O3" "issuer" (Some (js "T3"));
      person "S" "agent" None])
  (set_issuers (list_to_map ((λ p, (js p, mkIssuer (js p) 100 false None 0)) <$> ["R"; "O1"; "O2"; "O3"]%string))
  (set_bootstrap_issuers {[js "R" := mkBootstrapIssuer (js "R") (js "Root") 100 1 None None None None]}
  (set_attestations (list_to_map
     [report "a1" "R" "A" 90 (day 1000) true; report "a2" "O1" "S" 100 (day 980 - 5 * DAY_MS) false;
      report "a3" "O2" "S" 100 (day 999) false; report "a4" "O3" "S" 100 (day 999) false;
      report "a5" "O1" "S" 100 (day 999) false])
  (set_policies {[js "pol" := mkPolicy (js "pol") (js "T") (js "default") 50 (js "deny") (js "deny") [] [] false false 300 10 true 0]}
   empty_db)))).

Definition gate_time : Z := day 1001.

(** The gate can clear a root whose removal takes a principal from above its
    tenant's threshold to no score at all: with an engine that, like the trust
    engine, gives no row to a principal without a positive contribution, there is a
    state in which the only active root is ready for removal, an agent it alone
    supports has score 90 against a threshold of 50, and the counterfactual run
    has no row for that agent. *)
Theorem gate_ready_despite_lost_score :
  ∃ res g r1 r2 cur,
    getDeEmphasisStatus one_hop_engine gate_time gate_time gate_db = (Ok res, gate_db) ∧
    (dc_principal_id <$> dr_candidates res, dc_ready <$> dr_candidates res) = ([js "R"], [true]) ∧
    loadAttestationGraph gate_time gate_db = (Ok g, gate_db) ∧ js "A" ∈ gp_id <$> g_principals g ∧
    one_hop_engine g gate_time = Ok r1 ∧ score_map (rr_rows r1) !! js "A" = Some cur ∧ es_score cur = 90 ∧
    (serving_tenant gate_db (js "A") ≫= getThreshold gate_db) = Some 50 ∧
    one_hop_engine (override_root (js "R") 0 g) gate_time = Ok r2 ∧ score_map (rr_rows r2) !! js "A" = None.
Proof.
  assert (H : match getDeEmphasisStatus one_hop_engine gate_time gate_time gate_db with
              | (Ok res, _) => (dc_principal_id <$> dr_candidates res, dc_ready <$> dr_candidates res) = ([js "R"], [true])
              | _ => False end) by (vm_compute; reflexivity).
  destruct (getDeEmphasisStatus one_hop_engine gate_time gate_time gate_db) as [[res|x] d'] eqn:E; [|destruct H].
  pose proof (status_spec _ _ _ _ _ _ E) as [-> _]. exists res.
  destruct (loadAttestationGraph_spec gate_time gate_db) as (g & Hg & _). exists g.
  assert (Hcheck : match (loadAttestationGraph gate_time gate_db).1 with
    | Ok g => bool_decide (js "A" ∈ gp_id <$> g_principals g) = true ∧
        match one_hop_engine g gate_time, one_hop_engine (override_root (js "R") 0 g) gate_time with
        | Ok r1, Ok r2 => es_score <$> score_map (rr_rows r1) !! js "A" = Some 90 ∧
                          es_score <$> score_map (rr_rows r2) !! js "A" = None
        | _, _ => False
        end
    | _ => False
    end) by (vm_compute; repeat split; reflexivity).
  rewrite Hg in Hcheck. cbn [fst] in Hcheck. destruct Hcheck as [Hin Hc]. apply bool_decide_eq_true in Hin.
  destruct (one_hop_engine g gate_time) as [r1|]; [|destruct Hc].
  destruct (one_hop_engine (override_root (js "R") 0 g) gate_time) as [r2|]; [|destruct Hc].
  destruct Hc as [H1 H2]. destruct (score_map (rr_rows r1) !! js "A") as [cur|] eqn:Hcur; [|discriminate H1].
  destruct (score_map (rr_rows r2) !! js "A") eqn:Hcf; [discriminate H2|]. injection H1 as H1.
  exists r1, r2, cur. split_and!; try done; vm_compute; reflexivity.
Qed.

(** The organic share is compared after rounding: 79.5 percent passes the
    80-percent gate, and the comparison is exact for whole percentages. *)
Theorem organic_share_is_rounded :
  organic_pct 159 200 = 80 ∧ ∀ k, 0 ≤ k ≤ 100 → organic_pct k 100 = k.
Proof.
  split; [vm_compute; reflexivity|]. intros k Hk.
  assert (Hall : forallb (λ k, organic_pct k 100 =? k) (seqZ 0 101) = true) by (vm_compute; reflexivity).
  rewrite forallb_forall in Hall. apply Z.eqb_eq, Hall, list_elem_of_In, elem_of_seqZ. lia.
Qed.

Lemma bootstrap_origin_never_organic_witness :
  cs_organic_weighted (computeContributionSplit gate_time gate_time
    (set_attestations (<[js "a9" := (report "a9" "R" "S" 100 (day 990) true).2]> (attestations gate_db)) gate_db)) = 400.
Proof.
  rewrite (proj1 (bootstrap_origin_never_organic gate_time gate_time gate_db (js "a9")
    (report "a9" "R" "S" 100 (day 990) true).2 ltac:(vm_compute; reflexivity) eq_refl)).
  vm_compute. reflexivity.
Defined.

Lemma gate_status_runs : ∃ res d', getDeEmphasisStatus one_hop_engine gate_time gate_time gate_db = (Ok res, d').
Proof.
  assert (H : match (getDeEmphasisStatus one_hop_engine gate_time gate_time gate_db).1 with Ok _ => True | _ => False end)
    by (vm_compute; exact I).
  destruct (getDeEmphasisStatus one_hop_engine gate_time gate_time gate_db) as [[res|x] d']; [eauto|destruct H].
Qed.


Lemma gate_report_runs : ∃ rep, computeCounterfactualRemovalReport one_hop_engine (js "R") 0 gate_time gate_db = (Ok rep, gate_db).
Proof.
  assert (H : match (computeCounterfactualRemovalReport one_hop_engine (js "R") 0 gate_time gate_db).1 with Ok _ => True | _ => False end)
    by (vm_compute; exact I).
  destruct (computeCounterfactualRemovalReport one_hop_engine (js "R") 0 gate_time gate_db) as [[rep|x] d'] eqn:E; [|destruct H].
  exists rep. by destruct (report_spec _ _ _ _ _ _ _ E) as [-> _].
Qed.

Lemma vanished_score_not_reported_witness :
  ∃ rep, computeCounterfactualRemovalReport one_hop_engine (js "R") 0 gate_time gate_db = (Ok rep, gate_db) ∧
    js "A" ∉ cd_principal_id <$> cf_drops rep.
Proof.
  destruct gate_report_runs as [rep H]. exists rep. split; [exact H|].
  destruct (loadAttestationGraph_spec gate_time gate_db) as (g & Hg & _).
  assert (Hc : match (loadAttestationGraph gate_time gate_db).1 with
    | Ok g => match one_hop_engine (override_root (js "R") 0 g) gate_time with
              | Ok r2 => bool_decide (js "A" ∉ es_principal_id <$> rr_rows r2) = true | _ => False end
    | _ => False end) by (vm_compute; reflexivity).
  rewrite Hg in Hc. cbn [fst] in Hc. destruct (one_hop_engine (override_root (js "R") 0 g) gate_time) as [r2|] eqn:E; [|destruct Hc].
  apply bool_decide_eq_true in Hc.
  exact (vanished_score_not_reported one_hop_engine (js "R") 0 gate_time gate_db rep g r2 (js "A") H Hg E Hc).
Defined.

Lemma fresh_report_accepted_witness :
  ∃ rep, computeCounterfactualRemovalReport one_hop_engine (js "R") 0 gate_time gate_db = (Ok rep, gate_db) ∧
    validateReportFreshness rep (getGraphVersion gate_db) 0 = Ok tt.
Proof.
  destruct gate_report_runs as [rep H]. exists rep. split; [exact H|].
  exact (proj2 (fresh_report_accepted one_hop_engine (js "R") 0 gate_time gate_db rep gate_db gate_db 0 H) (conj eq_refl eq_refl)).
Defined.

End DeEmphasis.
