(* ===== verification/Auth.v ===== *)
(** * Authentication and authorisation

    [src/control-plane/src/middleware/auth.ts] (API keys and OIDC tokens),
    [requireScope.ts], [requireStaff.ts], [lib/activeMembership.ts],
    [lib/platformStaff.ts], [lib/tenantFilter.ts],
    [domains/apikey/apiKeyRepository.ts] and the PUT handler of
    [routes/policies.ts], which composes them.

    The record [aenv] holds the clock, the configuration and the library functions:
    the keyed hash of an API key, random bytes in hex, verification of an OIDC
    token and the ids the database generates. *)

From stdpp Require Import base gmap strings numbers sorting list.
From Stdlib Require Import ZArith Lia.
From S2P Require Import Prelude Json Errors Db SyncLog Policy.

Record aenv := mkAenv {
  ae_now : Z;
  ae_hmac : jstr → jstr;                 (** [createHmac('sha256', hmacSecret)...digest('hex')] *)
  ae_random_hex : jstr;                  (** [randomBytes(32).toString('hex')] *)
  ae_key_id : jstr;                      (** id of a new api_keys row *)
  ae_user_id : jstr;                     (** id of a new users row *)
  ae_oidc_configured : bool;             (** [config.auth.clerkIssuerUrl] *)
  ae_jwtVerify : jstr → result exn json; (** the verified payload *)
  ae_policy_id : jstr;
  ae_numeric43 : number → Z
}.

(** The request headers the code reads. *)
Record headers := mkHeaders {
  h_authorization : option jstr; h_x_api_key : option jstr; h_x_tenant_id : option jstr }.

(** [req.user] *)
Inductive user :=
| ApiKeyUser (apiKeyId tenantId : jstr) (scopes : list jstr)
| OidcUser (userId : jstr) (tenantId : option jstr) (role : jstr) (tenantIds roles : list jstr) (isStaff : bool).

Definition startsWith (p s : jstr) : bool := bool_decide (take (length p) s = p).
Definition unauthorized {A} (msg : jstr) : result exn A := throw_app UNAUTHORIZED msg.
Definition forbidden {A} (msg : jstr) : result exn A := throw_app FORBIDDEN msg.

(** ** [apiKeyRepository.ts] *)
Module ApiKeyRepo.

Definition SCHEMA_KEY : jstr := js "vrl_".
Definition generateApiKeySecret (e : aenv) : jstr := SCHEMA_KEY ++ ae_random_hex e.

(** Newest first, without the hash. *)
Definition listApiKeys (tenantId : jstr) (d : db) : list ApiKey :=
  sort_by (λ a b, ak_created_at b <=? ak_created_at a)
    (filter (λ k, ak_tenant_id k = tenantId ∧ ak_revoked_at k = None) (map_to_list (api_keys d)).*2).

Definition createApiKey (e : aenv) (tenantId : jstr) (scopes : list jstr) : M (ApiKey * jstr) := λ d,
  let secret := generateApiKeySecret e in
  let k := mkApiKey (ae_key_id e) tenantId (take 7 secret) (ae_hmac e secret) scopes None (ae_now e) None in
  if bool_decide (is_Some (api_keys d !! ae_key_id e)) then (Throw (EPg unique_violation), d)
  else if negb (bool_decide (is_Some (tenants d !! tenantId))) then (Throw (EPg foreign_key_violation), d)
  else (Ok (k, secret), set_api_keys (<[ae_key_id e := k]> (api_keys d)) d).

Definition revokeApiKey (e : aenv) (tenantId keyId : jstr) : M unit := λ d,
  match api_keys d !! keyId with
  | Some k =>
      if bool_decide (ak_tenant_id k = tenantId) && bool_decide (ak_revoked_at k = None)
      then (Ok tt, set_api_keys (<[keyId := mkApiKey (ak_id k) (ak_tenant_id k) (ak_key_prefix k) (ak_key_hash_hmac k)
                     (ak_scopes k) (ak_last_used_at k) (ak_created_at k) (Some (ae_now e))]> (api_keys d)) d)
      else (throw_app NOT_FOUND (js "API key not found"), d)
  | None => (throw_app NOT_FOUND (js "API key not found"), d)
  end.

End ApiKeyRepo.

(** ** [lib/activeMembership.ts], [platformStaff.ts], [tenantFilter.ts] *)
Module Membership.

(** Rows (tenant_id, role), in the order of the query. *)
Definition selectActiveMembership (memberships : list (jstr * jstr)) (requestedTenantId : option jstr) :
  result exn (option jstr * jstr) :=
  match requestedTenantId with
  | Some (c :: t) =>
      match list_find (λ m, m.1 = c :: t) memberships with
      | Some (_, m) => Ok (Some m.1, m.2)
      | None => forbidden (js "X-Tenant-Id does not match any tenant membership of this user")
      end
  | _ => match memberships with
         | m :: _ => Ok (Some m.1, m.2)
         | [] => Ok (None, js "member")
         end
  end.

Definition isPlatformStaff (u : option user) : bool :=
  match u with
  | None => false
  | Some (OidcUser _ _ _ _ _ isStaff) => isStaff
  | Some (ApiKeyUser _ _ scopes) => bool_decide (js "admin:read" ∈ scopes)
  end.

Definition elevated (r : jstr) : bool := bool_decide (r = js "staff") || bool_decide (r = js "admin").

Definition resolveCallerTenantIds (u : option user) : list jstr :=
  match u with
  | None => []
  | Some (ApiKeyUser _ tenantId _) => match tenantId with [] => [] | _ => [tenantId] end
  | Some (OidcUser _ _ _ tenantIds roles _) =>
      match roles with
      | [] => tenantIds
      | _ => omap (λ '(t, r), if elevated r then Some t else None) (zip tenantIds roles)
      end
  end.

End Membership.

(** ** [middleware/auth.ts] *)
Module Auth.
Import ApiKeyRepo Membership.

(** [SELECT ... FROM api_keys ak JOIN tenants t ... WHERE ak.key_prefix = $1 AND
    ak.key_hash_hmac = $2 AND ak.revoked_at IS NULL] *)
Definition key_rows (prefix hash : jstr) (d : db) : list (ApiKey * Tenant) :=
  omap (λ k, (λ t, (k, t)) <$> tenants d !! ak_tenant_id k)
    (filter (λ k, ak_key_prefix k = prefix ∧ ak_key_hash_hmac k = hash ∧ ak_revoked_at k = None)
       (map_to_list (api_keys d)).*2).

Definition touch_key (now : Z) (k : ApiKey) (d : db) : db :=
  set_api_keys (alter (λ k, mkApiKey (ak_id k) (ak_tenant_id k) (ak_key_prefix k) (ak_key_hash_hmac k) (ak_scopes k)
                              (Some now) (ak_created_at k) (ak_revoked_at k)) (ak_id k) (api_keys d)) d.

Definition authenticateApiKey (e : aenv) (key : jstr) : M user :=
  _ ← lift (if negb (startsWith (js "vrl_") key) || negb (bool_decide (length key = 68%nat))
            then unauthorized (js "Invalid API key format") else Ok tt);
  rows ← reads (key_rows (take 7 key) (ae_hmac e key));
  match rows with
  | [] => lift (unauthorized (js "Invalid API key"))
  | (k, t) :: _ =>
      if negb (bool_decide (t_status t = js "active")) then lift (forbidden (js "Tenant is not active"))
      else _ ← writes (touch_key (ae_now e) k);
           mret (ApiKeyUser (ak_id k) (ak_tenant_id k) (ak_scopes k))
  end.

Definition find_user (iss sub : jstr) (d : db) : option User :=
  head (filter (λ u, u_oidc_issuer u = iss ∧ u_oidc_subject u = sub) (map_to_list (users d)).*2).

(** [INSERT INTO users ... ON CONFLICT (oidc_issuer, oidc_subject) DO UPDATE SET
    email RETURNING id, platform_role]; the email is unique too. *)
Definition upsert_user (e : aenv) (email iss sub : jstr) : M User := λ d,
  let taken id := existsb (λ u, bool_decide (u_email u = email) && negb (bool_decide (u_id u = id)))
                    (map_to_list (users d)).*2 in
  match find_user iss sub d with
  | Some u =>
      if taken (u_id u) then (Throw (EPg unique_violation), d)
      else let u' := mkUser (u_id u) email iss sub (u_platform_role u) in
           (Ok u', set_users (<[u_id u := u']> (users d)) d)
  | None =>
      if taken (ae_user_id e) || bool_decide (is_Some (users d !! ae_user_id e)) then (Throw (EPg unique_violation), d)
      else let u' := mkUser (ae_user_id e) email iss sub (js "member") in
           (Ok u', set_users (<[ae_user_id e := u']> (users d)) d)
  end.

(** [... WHERE user_id = $1 ORDER BY tenant_id] *)
Fixpoint unit_le (a b : jstr) : bool :=
  match a, b with
  | [], _ => true
  | _ :: _, [] => false
  | x :: a', y :: b' => (x <? y) || ((x =? y) && unit_le a' b')
  end.

Definition memberships_of (userId : jstr) (d : db) : list (jstr * jstr) :=
  sort_by (λ a b, unit_le a.1 b.1)
    (omap (λ '((u, t), r), if bool_decide (u = userId) then Some (t, r) else None) (map_to_list (tenant_memberships d))).

Definition authenticateOidc (e : aenv) (token : jstr) (requestedTenantId : option jstr) : M user :=
  _ ← lift (if ae_oidc_configured e then Ok tt else unauthorized (js "OIDC not configured"));
  payload ← lift (ae_jwtVerify e token);
  let sub := String_ (get payload "sub") in
  let iss := String_ (get payload "iss") in
  let email := if truthy (get payload "email") then String_ (get payload "email") else sub ++ js "@placeholder" in
  u ← upsert_user e email iss sub;
  let platformRole := match u_platform_role u with [] => js "member" | r => r end in
  ms ← reads (memberships_of (u_id u));
  active ← lift (selectActiveMembership ms requestedTenantId);
  mret (OidcUser (u_id u) active.1 active.2 ms.*1 ms.*2 (elevated platformRole)).

(** [catch (err) { next(AppError.from(err)) }] *)
Definition as_app_error {A} (m : M A) : M A := catch m (λ err, throw (EApp (from err))).

Definition authMiddleware (e : aenv) (h : headers) : M user :=
  as_app_error
    match h_authorization h with
    | Some a =>
        if startsWith (js "Bearer ") a then
          let token := drop 7 a in
          if startsWith (js "vrl_") token then authenticateApiKey e token
          else authenticateOidc e token (h_x_tenant_id h)
        else match h_x_api_key h with
             | Some (c :: k) => authenticateApiKey e (c :: k)
             | _ => lift (unauthorized (js "Missing authentication"))
             end
    | None => match h_x_api_key h with
              | Some (c :: k) => authenticateApiKey e (c :: k)
              | _ => lift (unauthorized (js "Missing authentication"))
              end
    end.

Definition extractBearerKey (h : headers) : option jstr :=
  match h_authorization h with
  | Some a => if startsWith (js "Bearer ") a && startsWith (js "vrl_") (drop 7 a) then Some (drop 7 a) else None
  | None => None
  end.

Definition apiKeyOnly (e : aenv) (h : headers) : M user :=
  match (match h_x_api_key h with Some (c :: k) => Some (c :: k) | _ => extractBearerKey h end) with
  | None => lift (unauthorized (js "API key required"))
  | Some k => as_app_error (authenticateApiKey e k)
  end.

End Auth.

(** ** [requireScope.ts], [requireStaff.ts] and PUT /v1/policies/active *)
Module Guards.
Import Membership Auth PolicyValidation PolicyRepo.

Definition requireScope (scope : jstr) (u : option user) : result exn unit :=
  match u with
  | None => unauthorized (js "Authentication required")
  | Some (ApiKeyUser _ _ scopes) =>
      if negb (bool_decide (scope ∈ scopes)) && negb (bool_decide (js "*" ∈ scopes))
      then forbidden (js "Missing required scope: " ++ scope) else Ok tt
  | Some (OidcUser _ _ _ _ roles isStaff) =>
      if isStaff then Ok tt
      else if existsb elevated roles then Ok tt
      else forbidden (js "No membership grants scope: " ++ scope)
  end.

Definition requireStaff (u : option user) : result exn unit :=
  match u with
  | Some (OidcUser _ _ _ _ _ true) => Ok tt
  | Some (ApiKeyUser _ _ scopes) =>
      if bool_decide (js "admin:read" ∈ scopes) then Ok tt else forbidden (js "Staff access required")
  | _ => forbidden (js "Staff access required")
  end.

Definition tenant_of (u : user) : option jstr :=
  match u with ApiKeyUser _ t _ => Some t | OidcUser _ t _ _ _ _ => t end.

Definition requireTenant (u : user) : result exn jstr :=
  match tenant_of u with Some (c :: t) => Ok (c :: t) | _ => forbidden (js "Tenant required") end.

(** The route with its middleware chain. *)
Definition put_active_policy (e : aenv) (h : headers) (body : json) : M (Policy * Z) :=
  u ← authMiddleware e h;
  _ ← lift (requireScope (js "policy:admin") (Some u));
  tenantId ← lift (requireTenant u);
  update ← lift (parsePolicyUpdate body);
  replaceActivePolicy (ae_numeric43 e) (ae_now e) (ae_policy_id e) tenantId update.

End Guards.

(** ** [routes/apiKeys.ts] *)
Module ApiKeyRoutes.
Import ApiKeyRepo Auth Guards.

Definition ALLOWED_SCOPES : list jstr :=
  [js "attest:read"; js "attest:write"; js "admin:read"; js "policy:read"; js "policy:admin"; js "*"].

Definition unknown_scope (s : jstr) : jstr :=
  js "unknown scope " ++ [34] ++ s ++ [34] ++ js "; allowed: " ++ join (js ", ") ALLOWED_SCOPES.

Fixpoint collect_scopes (raw : list json) (scopes : list jstr) : result exn (list jstr) :=
  match raw with
  | [] => Ok scopes
  | JStr (c :: s) :: raw' =>
      if bool_decide (c :: s ∈ ALLOWED_SCOPES)
      then collect_scopes raw' (if bool_decide (c :: s ∈ scopes) then scopes else scopes ++ [c :: s])
      else throw_app BAD_REQUEST (unknown_scope (c :: s))
  | _ :: _ => throw_app BAD_REQUEST (js "scopes entries must be non-empty strings")
  end.

Definition parseScopes (body : json) : result exn (list jstr) :=
  match nullish (get body "scopes") (JArr []) with
  | JArr raw =>
      if bool_decide (16 < length raw)%nat then throw_app BAD_REQUEST (js "scopes may not exceed 16 entries")
      else collect_scopes raw []
  | _ => throw_app BAD_REQUEST (js "scopes must be an array")
  end.

Definition get_api_keys (e : aenv) (h : headers) : M (list ApiKey) :=
  u ← authMiddleware e h;
  tenantId ← lift (requireTenant u);
  reads (listApiKeys tenantId).

Definition post_api_key (e : aenv) (h : headers) (body : json) : M (ApiKey * jstr) :=
  u ← authMiddleware e h;
  tenantId ← lift (requireTenant u);
  scopes ← lift (parseScopes body);
  createApiKey e tenantId scopes.

Definition delete_api_key (e : aenv) (h : headers) (id : jstr) : M unit :=
  u ← authMiddleware e h;
  tenantId ← lift (requireTenant u);
  revokeApiKey e tenantId id.

End ApiKeyRoutes.

(** ** Properties *)
Module AuthInv.
Import ApiKeyRepo Membership Auth Guards ApiKeyRoutes PolicyValidation PolicyRepo.

(** *** API keys *)

(** Every stored row sits under its own id. *)
Definition keys_keyed (d : db) : Prop := map_Forall (λ id k, ak_id k = id) (api_keys d).

(** No stored key has the hash of [secret]. *)
Definition hash_unused (e : aenv) (secret : jstr) (d : db) : Prop :=
  map_Forall (λ _ k, ak_key_hash_hmac k ≠ ae_hmac e secret) (api_keys d).

Lemma key_rows_elem prefix hash d k t :
  (k, t) ∈ key_rows prefix hash d ↔
  (∃ id, api_keys d !! id = Some k) ∧ ak_key_prefix k = prefix ∧ ak_key_hash_hmac k = hash ∧
    ak_revoked_at k = None ∧ tenants d !! ak_tenant_id k = Some t.
Proof.
  unfold key_rows. rewrite list_elem_of_omap. split.
  - intros (k' & Hk & Ht). apply list_elem_of_filter in Hk as [(? & ? & ?) Hk].
    apply list_elem_of_fmap in Hk as ([id k''] & -> & Hk). apply elem_of_map_to_list in Hk.
    simpl in *. destruct (tenants d !! ak_tenant_id k'') eqn:E; [|done]. injection Ht as <- <-. eauto 10.
  - intros ((id & Hid) & ? & ? & ? & Ht). exists k. rewrite Ht. split; [|done].
    apply list_elem_of_filter. split; [done|]. apply list_elem_of_fmap. exists (id, k). split; [done|].
    by apply elem_of_map_to_list.
Qed.

(** When all rows of a list are [x] and [x] is one of them, the head is [x]. *)
Lemma head_unique {A} (l : list A) x : x ∈ l → (∀ y, y ∈ l → y = x) → ∃ l', l = x :: l'.
Proof.
  intros Hx Hall. destruct l as [|y l]; [by apply not_elem_of_nil in Hx|].
  exists l. f_equal. apply Hall. by left.
Qed.

(** A key that is the only one with its prefix and hash authenticates. *)
Lemma authenticate_unique e key d k t :
  startsWith (js "vrl_") key = true → length key = 68%nat → t_status t = js "active" →
  (k, t) ∈ key_rows (take 7 key) (ae_hmac e key) d →
  (∀ y, y ∈ key_rows (take 7 key) (ae_hmac e key) d → y = (k, t)) →
  authenticateApiKey e key d = (Ok (ApiKeyUser (ak_id k) (ak_tenant_id k) (ak_scopes k)), touch_key (ae_now e) k d).
Proof.
  intros Hp Hl Ht Hin Hall. destruct (head_unique _ _ Hin Hall) as [l Hr].
  unfold authenticateApiKey, mbind, M_bind, lift, reads. rewrite Hp. simpl. rewrite bool_decide_true by done. simpl.
  rewrite Hr, Ht, bool_decide_true by done. done.
Qed.

Lemma authenticate_none e key d :
  startsWith (js "vrl_") key = true → length key = 68%nat →
  key_rows (take 7 key) (ae_hmac e key) d = [] →
  authenticateApiKey e key d = (unauthorized (js "Invalid API key"), d).
Proof.
  intros Hp Hl Hr. unfold authenticateApiKey, mbind, M_bind, lift, reads. rewrite Hp. simpl.
  rewrite bool_decide_true by done. simpl. by rewrite Hr.
Qed.

Lemma secret_shape e : length (ae_random_hex e) = 64%nat →
  startsWith (js "vrl_") (generateApiKeySecret e) = true ∧ length (generateApiKeySecret e) = 68%nat.
Proof.
  intros Hl. unfold generateApiKeySecret, SCHEMA_KEY, startsWith. rewrite length_app, Hl.
  rewrite take_app_length. by rewrite bool_decide_true.
Qed.

(** The row a successful [createApiKey] stores, and where. *)
Lemma createApiKey_Ok e t sc d k s d1 :
  createApiKey e t sc d = (Ok (k, s), d1) →
  s = generateApiKeySecret e ∧
  k = mkApiKey (ae_key_id e) t (take 7 s) (ae_hmac e s) sc None (ae_now e) None ∧
  api_keys d !! ae_key_id e = None ∧ is_Some (tenants d !! t) ∧
  d1 = set_api_keys (<[ae_key_id e := k]> (api_keys d)) d.
Proof.
  unfold createApiKey. case_bool_decide as H1; [done|]. case_bool_decide as H2; simpl; [|done].
  intros [= <- <- <-]. repeat split; [|done]. by apply eq_None_not_Some.
Qed.

Lemma created_rows e t sc d k s d1 tn :
  hash_unused e s d → createApiKey e t sc d = (Ok (k, s), d1) → tenants d !! t = Some tn →
  ∀ y, y ∈ key_rows (take 7 s) (ae_hmac e s) d1 ↔ y = (k, tn).
Proof.
  intros Hun (-> & -> & Hf & _ & ->)%createApiKey_Ok Htn [k' t']. rewrite key_rows_elem. simpl. split.
  - intros ((id & Hid) & _ & Hh & _ & Ht). apply lookup_insert_Some in Hid as [[_ <-]|[_ Hid]].
    + simpl in *. congruence.
    + by apply Hun in Hid.
  - intros [= -> ->]. simpl. split_and!; try done. exists (ae_key_id e). by rewrite lookup_insert_eq.
Qed.

(** Life of an API key: the secret returned by [createApiKey] authenticates,
    from any later moment, as that key of that tenant with exactly the requested
    scopes (if the tenant is active); another tenant cannot revoke it, and after
    its own tenant revokes it the same secret is refused with 401 and revoking
    again is 404.  The assumption is that the 64 random hex digits give a
    secret whose keyed hash no stored row has. *)
Theorem api_key_lifecycle e e2 t sc d k s d1 tn :
  length (ae_random_hex e) = 64%nat → hash_unused e s d → ae_hmac e2 = ae_hmac e →
  createApiKey e t sc d = (Ok (k, s), d1) → tenants d !! t = Some tn →
  (t_status tn = js "active" →
     ∃ d2, authenticateApiKey e2 s d1 = (Ok (ApiKeyUser (ak_id k) t sc), d2)) ∧
  (∀ t', t' ≠ t → revokeApiKey e2 t' (ak_id k) d1 = (throw_app NOT_FOUND (js "API key not found"), d1)) ∧
  ∃ d3, revokeApiKey e2 t (ak_id k) d1 = (Ok tt, d3) ∧
    authenticateApiKey e2 s d3 = (unauthorized (js "Invalid API key"), d3) ∧
    revokeApiKey e2 t (ak_id k) d3 = (throw_app NOT_FOUND (js "API key not found"), d3).
Proof.
  intros Hl Hun Hh Hc Htn. pose proof (created_rows _ _ _ _ _ _ _ _ Hun Hc Htn) as Hrows.
  pose proof (createApiKey_Ok _ _ _ _ _ _ _ Hc) as (Hs & Hk & Hf & _ & Hd).
  destruct (secret_shape e Hl) as [Hp Hn]. rewrite <- Hs in Hp, Hn. rewrite <- Hh in Hrows.
  assert (Hlk : api_keys d1 !! ak_id k = Some k) by (rewrite Hd, Hk; simpl; by rewrite lookup_insert_eq).
  split_and!.
  - intros Ha. exists (touch_key (ae_now e2) k d1).
    rewrite (authenticate_unique e2 s d1 k tn Hp Hn Ha); [by rewrite Hk|by apply Hrows|by intros y Hy; apply Hrows].
  - intros t' Hne. unfold revokeApiKey. rewrite Hlk, bool_decide_false; [done|]. by rewrite Hk.
  - eexists. split; [|split].
    + unfold revokeApiKey. rewrite Hlk, !bool_decide_true by (by rewrite Hk). reflexivity.
    + apply authenticate_none; [done..|]. apply elem_of_nil_inv. intros [k' t'] (Hid & Hpre & Hha & Hre & Ht)%key_rows_elem.
      destruct Hid as [id Hid]. simpl in Hid, Ht.
      apply lookup_insert_Some in Hid as [[_ <-]|[Hne Hid]]; [done|].
      assert ((k', t') = (k, tn)) as [= -> ->].
      { apply Hrows, key_rows_elem. split_and!; try done. by exists id. }
      rewrite Hd in Hid. simpl in Hid. rewrite Hk in Hne. simpl in Hne.
      rewrite lookup_insert_ne in Hid by done. apply Hun in Hid. rewrite Hk in Hid. by simpl in Hid.
    + unfold revokeApiKey. simpl. rewrite lookup_insert_eq. simpl. by rewrite andb_false_r.
Qed.

Lemma authMiddleware_api_key e s d :
  s ≠ [] → authMiddleware e (mkHeaders None (Some s) None) d = as_app_error (authenticateApiKey e s) d.
Proof. by destruct s. Qed.

(** C30. Escalation through POST /v1/api-keys: the route asks for a tenant and
    for nothing else, so any caller that authenticates with a tenant (an API key
    with no scope at all, a plain member) obtains an [admin:read] key, and a
    request with that key passes [requireStaff], the guard of the platform-wide
    admin routes. *)
Theorem any_tenant_caller_becomes_staff e e2 h u t tn d d1 :
  length (ae_random_hex e) = 64%nat → hash_unused e (generateApiKeySecret e) d1 → ae_hmac e2 = ae_hmac e →
  authMiddleware e h d = (Ok u, d1) → requireTenant u = Ok t →
  tenants d1 !! t = Some tn → t_status tn = js "active" → api_keys d1 !! ae_key_id e = None →
  ∃ k s d2 u' d3,
    post_api_key e h (JObj [(js "scopes", JArr [JStr (js "admin:read")])]) d = (Ok (k, s), d2) ∧
    authMiddleware e2 (mkHeaders None (Some s) None) d2 = (Ok u', d3) ∧
    requireStaff (Some u') = Ok tt ∧ isPlatformStaff (Some u') = true.
Proof.
  intros Hl Hun Hh Hu Ht Htn Hact Hf.
  assert (Hc : ∃ k d2, createApiKey e t [js "admin:read"] d1 = (Ok (k, generateApiKeySecret e), d2)).
  { unfold createApiKey. rewrite bool_decide_false by (rewrite Hf; apply is_Some_None).
    rewrite bool_decide_true by eauto. simpl. eauto. }
  destruct Hc as (k & d2 & Hc). pose proof (created_rows _ _ _ _ _ _ _ _ Hun Hc Htn) as Hrows.
  pose proof (createApiKey_Ok _ _ _ _ _ _ _ Hc) as (_ & Hk & _ & _ & _). rewrite <- Hh in Hrows.
  destruct (secret_shape e Hl) as [Hp Hn].
  pose proof (authenticate_unique e2 _ d2 k tn Hp Hn Hact (proj2 (Hrows _) eq_refl) (λ y Hy, proj1 (Hrows y) Hy)) as Hau.
  rewrite Hk in Hau at 1 2 3. eexists k, _, d2, _, _. split; [|split; [|split]].
  - unfold post_api_key, mbind, M_bind at 1. rewrite Hu. unfold M_bind at 1, lift. rewrite Ht.
    unfold M_bind at 1. replace (parseScopes _) with (@Ok exn _ [js "admin:read"]) by (vm_compute; reflexivity). exact Hc.
  - rewrite authMiddleware_api_key by (intros E; by rewrite E in Hn). unfold as_app_error, catch. rewrite Hau. reflexivity.
  - vm_compute. reflexivity.
  - vm_compute. reflexivity.
Qed.

(** *** OIDC users *)

Lemma memberships_elem uid d t r :
  (t, r) ∈ memberships_of uid d ↔ tenant_memberships d !! (uid, t) = Some r.
Proof.
  unfold memberships_of. rewrite sort_by_Permutation, list_elem_of_omap. split.
  - intros ([[u t'] r'] & Hin & Hu). apply elem_of_map_to_list in Hin. case_bool_decide; simplify_eq. done.
  - intros Hl. exists ((uid, t), r). split; [by apply elem_of_map_to_list|]. by rewrite bool_decide_true.
Qed.

Lemma upsert_user_Ok e em iss sub d u d' :
  upsert_user e em iss sub d = (Ok u, d') →
  tenant_memberships d' = tenant_memberships d ∧ u_oidc_issuer u = iss ∧ u_oidc_subject u = sub ∧ u_email u = em ∧
  users d' = <[u_id u := u]> (users d) ∧
  (∀ u0, find_user iss sub d = Some u0 → u_id u = u_id u0 ∧ u_platform_role u = u_platform_role u0).
Proof.
  unfold upsert_user. destruct (find_user iss sub d) as [u0|] eqn:E.
  - destruct (existsb _ _); [done|]. intros [= <- <-]. simpl. split_and!; try done. intros ? [= <-]. done.
  - destruct (_ || _); [done|]. intros [= <- <-]. simpl. split_and!; done.
Qed.

(** The membership selected is one of the caller's. *)
Lemma selectActiveMembership_Ok ms req t r :
  selectActiveMembership ms req = Ok (Some t, r) →
  (t, r) ∈ ms ∧ ∀ c q, req = Some (c :: q) → t = c :: q.
Proof.
  unfold selectActiveMembership.
  assert (Hfirst : match ms with m :: _ => @Ok exn _ (Some m.1, m.2) | [] => Ok (None, js "member") end = Ok (Some t, r) →
     (t, r) ∈ ms).
  { destruct ms as [|[t0 r0] ms]; [done|]. intros [= <- <-]. by left. }
  destruct req as [[|c q]|]; [intros H; split; [by apply Hfirst|done]| |intros H; split; [by apply Hfirst|done]].
  destruct (list_find _ ms) as [[i [t0 r0]]|] eqn:E; [|done].
  apply list_find_Some in E as (Hi & Heq & _). simpl in Heq. intros [= <- <-]. split.
  - by eapply list_elem_of_lookup_2.
  - by intros ? ? [= <- <-].
Qed.

Lemma selectActiveMembership_requested ms t r c q :
  (t, r) ∈ ms → (∀ r', (t, r') ∈ ms → r' = r) → t = c :: q →
  selectActiveMembership ms (Some t) = Ok (Some t, r).
Proof.
  intros Hin Hfun ->. unfold selectActiveMembership.
  destruct (list_find _ ms) as [[i [t0 r0]]|] eqn:E.
  - apply list_find_Some in E as (Hi & Heq & _). simpl in Heq. subst t0. apply list_elem_of_lookup_2 in Hi.
    by rewrite (Hfun _ Hi).
  - apply list_find_None in E. rewrite Forall_forall in E. by destruct (E _ Hin).
Qed.

Lemma authenticateOidc_Ok e tok req d u d' :
  authenticateOidc e tok req d = (Ok u, d') →
  ∃ usr p tid role, ae_jwtVerify e tok = Ok p ∧ u_oidc_issuer usr = String_ (get p "iss") ∧ u_oidc_subject usr = String_ (get p "sub") ∧
    users d' !! u_id usr = Some usr ∧ tenant_memberships d' = tenant_memberships d ∧
    selectActiveMembership (memberships_of (u_id usr) d') req = Ok (tid, role) ∧
    u = OidcUser (u_id usr) tid role (memberships_of (u_id usr) d').*1 (memberships_of (u_id usr) d').*2
          (elevated (match u_platform_role usr with [] => js "member" | r => r end)).
Proof.
  intros H. unfold authenticateOidc in H. apply M_bind_Ok in H as ([] & d1 & H1 & H). apply lift_Ok in H1 as [_ ->].
  apply M_bind_Ok in H as (p & d1 & H1 & H). apply lift_Ok in H1 as [Hp ->].
  apply M_bind_Ok in H as (usr & d2 & H1 & H). apply upsert_user_Ok in H1 as (Hm & Hi & Hs & _ & Hus & _).
  apply M_bind_Ok in H as (ms & d3 & [= <- <-] & H).
  apply M_bind_Ok in H as ([tid role] & d3 & H1 & H). apply lift_Ok in H1 as [Hsel ->]. injection H as <- <-.
  exists usr, p, tid, role. split_and!; try done. rewrite Hus. apply lookup_insert_eq.
Qed.

Lemma zip_fmap_fst_snd {A B} (l : list (A * B)) : zip l.*1 l.*2 = l.
Proof. induction l as [|[a b] l IH]; [done|]. simpl. by f_equal. Qed.

(** An OIDC request acts for a tenant of the token's own user only: the
    user row is the one of the verified issuer and subject, the active tenant
    is a stored membership of that user with exactly its role (and the tenant
    of X-Tenant-Id when that header is given), and the tenants whose
    restricted facts the caller may read are exactly those where the stored
    role is staff or admin. *)
Theorem oidc_acts_within_memberships e tok req d u d' :
  authenticateOidc e tok req d = (Ok u, d') →
  ∃ p usr tid role ids roles staff,
    u = OidcUser (u_id usr) tid role ids roles staff ∧ ae_jwtVerify e tok = Ok p ∧
    users d' !! u_id usr = Some usr ∧ u_oidc_issuer usr = String_ (get p "iss") ∧ u_oidc_subject usr = String_ (get p "sub") ∧
    (∀ t, tid = Some t → tenant_memberships d !! (u_id usr, t) = Some role ∧ ∀ c q, req = Some (c :: q) → t = c :: q) ∧
    (∀ t, t ∈ resolveCallerTenantIds (Some u) ↔
       ∃ r, tenant_memberships d !! (u_id usr, t) = Some r ∧ elevated r = true).
Proof.
  intros (usr & p & tid & role & Hp & Hi & Hs & Hus & Hm & Hsel & Hu)%authenticateOidc_Ok.
  exists p, usr, tid, role. do 3 eexists. split; [exact Hu|]. split_and!; try done.
  - intros t ->. apply selectActiveMembership_Ok in Hsel as [Hin Hreq]. split; [|done].
    apply memberships_elem in Hin. by rewrite Hm in Hin.
  - intros t. rewrite <- Hm. subst u. unfold resolveCallerTenantIds.
    remember (memberships_of (u_id usr) d') as ms eqn:Ems.
    transitivity (∃ r, (t, r) ∈ ms ∧ elevated r = true).
    2: { subst ms. by setoid_rewrite memberships_elem. }
    destruct ms as [|m ms]; [|].
    { simpl. split; [by intros ?%not_elem_of_nil|]. by intros (r & ?%not_elem_of_nil & _). }
    destruct (m :: ms).*2 eqn:E; [done|]. rewrite <- E, zip_fmap_fst_snd, list_elem_of_omap. split.
    + intros ([t' r] & Hin & Hr). destruct (elevated r) eqn:Er; [|done]. injection Hr as ->. eauto.
    + intros (r & Hin & Hr). exists (t, r). by rewrite Hr.
Qed.

Lemma as_app_error_Ok {A} (m : M A) d a d' : as_app_error m d = (Ok a, d') → m d = (Ok a, d').
Proof. unfold as_app_error, catch. by destruct (m d) as [[|] ?]. Qed.

Lemma authenticateApiKey_not_oidc e key d uid tid role ids roles st d' :
  authenticateApiKey e key d = (Ok (OidcUser uid tid role ids roles st), d') → False.
Proof.
  intros H. unfold authenticateApiKey in H. apply M_bind_Ok in H as (? & d1 & _ & H).
  apply M_bind_Ok in H as (rows & d2 & _ & H).
  destruct rows as [|[k t] l]; [by apply lift_Ok in H as [[=] _]|].
  destruct (negb _); [by apply lift_Ok in H as [[=] _]|]. by apply M_bind_Ok in H as (? & d3 & _ & [=]).
Qed.

Lemma authMiddleware_oidc e h d uid tid role ids roles st d' :
  authMiddleware e h d = (Ok (OidcUser uid tid role ids roles st), d') →
  ∃ tok, authenticateOidc e tok (h_x_tenant_id h) d = (Ok (OidcUser uid tid role ids roles st), d').
Proof.
  unfold authMiddleware. intros H%as_app_error_Ok.
  assert (Hkey : match h_x_api_key h with
             | Some (c :: k) => authenticateApiKey e (c :: k)
             | _ => lift (unauthorized (js "Missing authentication"))
             end d ≠ (Ok (OidcUser uid tid role ids roles st), d')).
  { destruct (h_x_api_key h) as [[|c k]|]; [by intros [[=] ?]%lift_Ok| |by intros [[=] ?]%lift_Ok]. by intros ?%authenticateApiKey_not_oidc. }
  destruct (h_authorization h) as [a|]; [|done]. destruct (startsWith (js "Bearer ") a); [|done].
  destruct (startsWith (js "vrl_") (drop 7 a)); [|by eexists]. by apply authenticateApiKey_not_oidc in H.
Qed.

(** The roles [authMiddleware] gathers are those of all memberships. *)
Lemma oidc_any_elevated e h d uid tid role ids roles st d' :
  authMiddleware e h d = (Ok (OidcUser uid tid role ids roles st), d') →
  existsb elevated roles = true ↔ ∃ t r, tenant_memberships d !! (uid, t) = Some r ∧ elevated r = true.
Proof.
  intros [tok H]%authMiddleware_oidc. apply authenticateOidc_Ok in H as (usr & p & tid' & role' & _ & _ & _ & _ & Hm & _ & Hu).
  injection Hu as -> -> -> -> -> ->. rewrite existsb_exists, <- Hm. setoid_rewrite <- memberships_elem. split.
  - intros (r & Hin%list_elem_of_In & Hr). apply list_elem_of_fmap in Hin as ([t r'] & -> & Hin). eauto.
  - intros (t & r & Hin & Hr). exists r. split; [|done]. apply list_elem_of_In, list_elem_of_fmap. by exists (t, r).
Qed.

(** Who may replace a tenant's policy over OIDC: a caller that is not platform
    staff gets through [requireScope] exactly when {e some} membership of theirs,
    in whatever tenant, is staff or admin; the tenant whose policy is then
    replaced is the one selected by X-Tenant-Id.  A caller who is only a member
    there but admin elsewhere replaces it. *)
Theorem policy_put_authorisation e h body up d uid tb rb ids roles d1 :
  authMiddleware e h d = (Ok (OidcUser uid (Some tb) rb ids roles false), d1) →
  tb ≠ [] → parsePolicyUpdate body = Ok up →
  ((∃ ta r, tenant_memberships d !! (uid, ta) = Some r ∧ elevated r = true) →
     put_active_policy e h body d = replaceActivePolicy (ae_numeric43 e) (ae_now e) (ae_policy_id e) tb up d1) ∧
  ((∀ ta r, tenant_memberships d !! (uid, ta) = Some r → elevated r = false) →
     put_active_policy e h body d = (forbidden (js "No membership grants scope: policy:admin"), d1)).
Proof.
  intros Hu Htb Hup. pose proof (oidc_any_elevated _ _ _ _ _ _ _ _ _ _ Hu) as Hel.
  unfold put_active_policy. rewrite (M_bind_run _ _ _ _ _ Hu). split.
  - intros Hex. apply Hel in Hex.
    rewrite (M_bind_run _ _ d1 tt d1) by (unfold lift, requireScope; by rewrite Hex).
    rewrite (M_bind_run _ _ d1 tb d1) by (unfold lift, requireTenant, tenant_of; by destruct tb).
    by rewrite (M_bind_run _ _ d1 up d1) by (unfold lift; by rewrite Hup).
  - intros Hno. destruct (existsb elevated roles) eqn:E.
    + destruct (proj1 Hel eq_refl) as (ta & r & Hm & Hr). by rewrite (Hno _ _ Hm) in Hr.
    + unfold mbind, M_bind at 1, lift at 1, requireScope. rewrite E. reflexivity.
Qed.

(** *** Instances *)

Definition a_key_secret : jstr := js "vrl_" ++ repeat 48 64.
Definition toy_env (key_id : string) (digit : Z) : aenv :=
  mkAenv 1000 (λ s, js "h:" ++ s) (repeat digit 64) (js key_id) (js "u9") true
    (λ tok, if bool_decide (tok = js "tok") then Ok (JObj [(js "sub", JStr (js "bob")); (js "iss", JStr (js "idp"))])
            else Throw (EError (js "bad token")))
    (js "pol1") PolicyInv.round_thousandths.
Definition toy_tenant (id : string) : Tenant := mkTenant (js id) (js id) (js id) (js "free") (js "active") 0.

(** Two tenants; bob is admin of [ta] and member of [tb]. *)
Definition two_tenants : db :=
  set_tenant_memberships {[ (js "u1", js "ta") := js "admin"; (js "u1", js "tb") := js "member" ]}
    (set_users {[ js "u1" := mkUser (js "u1") (js "bob@placeholder") (js "idp") (js "bob") (js "member") ]}
      (set_tenants {[ js "ta" := toy_tenant "ta"; js "tb" := toy_tenant "tb" ]} empty_db)).

(** The same with a key of [tb] that has no scope. *)
Definition with_scopeless_key : db :=
  set_api_keys {[ js "k0" := mkApiKey (js "k0") (js "tb") (js "vrl_000") (js "h:" ++ a_key_secret) [] None 0 None ]} two_tenants.

Definition bob_headers : headers := mkHeaders (Some (js "Bearer tok")) None (Some (js "tb")).

Lemma api_key_lifecycle_witness :
  ∃ k d1 d3, createApiKey (toy_env "k1" 49) (js "ta") [js "attest:read"] two_tenants = (Ok (k, js "vrl_" ++ repeat 49 64), d1) ∧
    revokeApiKey (toy_env "k2" 50) (js "ta") (js "k1") d1 = (Ok tt, d3) ∧
    authenticateApiKey (toy_env "k2" 50) (js "vrl_" ++ repeat 49 64) d3 = (unauthorized (js "Invalid API key"), d3).
Proof.
  edestruct (fst_run (createApiKey (toy_env "k1" 49) (js "ta") [js "attest:read"] two_tenants)) as [d1 Hc];
    [vm_compute; reflexivity|].
  edestruct (api_key_lifecycle (toy_env "k1" 49) (toy_env "k2" 50) (js "ta") [js "attest:read"] two_tenants)
    as (_ & _ & d3 & Hr & Ha & _); [done| |done|exact Hc|vm_compute; reflexivity|].
  - apply map_Forall_empty.
  - eexists _, d1, d3. split; [exact Hc|]. split; [exact Hr|exact Ha].
Defined.

Lemma any_tenant_caller_becomes_staff_witness :
  let h := mkHeaders None (Some a_key_secret) None in
  ∃ k s d2 u' d3,
    post_api_key (toy_env "k1" 49) h (JObj [(js "scopes", JArr [JStr (js "admin:read")])]) with_scopeless_key = (Ok (k, s), d2) ∧
    authMiddleware (toy_env "k2" 50) (mkHeaders None (Some s) None) d2 = (Ok u', d3) ∧ requireStaff (Some u') = Ok tt.
Proof.
  intros h. edestruct (fst_run (authMiddleware (toy_env "k1" 49) h with_scopeless_key)) as [d1 Hu]; [vm_compute; reflexivity|].
  assert (Hd1 : d1 = (authMiddleware (toy_env "k1" 49) h with_scopeless_key).2) by (by rewrite Hu).
  edestruct (any_tenant_caller_becomes_staff (toy_env "k1" 49) (toy_env "k2" 50) h (ApiKeyUser (js "k0") (js "tb") []) (js "tb") (toy_tenant "tb")
    with_scopeless_key d1) as (k & s & d2 & u' & d3 & H1 & H2 & H3 & _).
  - done.
  - rewrite Hd1. apply (bool_decide_unpack _). vm_compute. exact I.
  - done.
  - exact Hu.
  - vm_compute. reflexivity.
  - rewrite Hd1. vm_compute. reflexivity.
  - done.
  - rewrite Hd1. vm_compute. reflexivity.
  - exists k, s, d2, u', d3. exact (conj H1 (conj H2 H3)).
Defined.

Lemma bob_authenticates : ∃ d1, authMiddleware (toy_env "k1" 49) bob_headers two_tenants =
  (Ok (OidcUser (js "u1") (Some (js "tb")) (js "member") [js "ta"; js "tb"] [js "admin"; js "member"] false), d1).
Proof. apply fst_run. vm_compute. reflexivity. Qed.

Lemma oidc_acts_within_memberships_witness :
  ∃ u d', authenticateOidc (toy_env "k1" 49) (js "tok") (Some (js "tb")) two_tenants = (Ok u, d') ∧
    resolveCallerTenantIds (Some u) = [js "ta"] ∧
    ∃ usr tid role ids roles staff, u = OidcUser (u_id usr) tid role ids roles staff ∧
      ∀ t, tid = Some t → tenant_memberships two_tenants !! (u_id usr, t) = Some role.
Proof.
  edestruct (fst_run (authenticateOidc (toy_env "k1" 49) (js "tok") (Some (js "tb")) two_tenants)) as [d' H];
    [vm_compute; reflexivity|].
  eexists _, d'. split; [exact H|]. split; [vm_compute; reflexivity|].
  destruct (oidc_acts_within_memberships _ _ _ _ _ _ H) as (p & usr & tid & role & ids & roles & st & Hu & _ & _ & _ & _ & Ht & _).
  exists usr, tid, role, ids, roles, st. split; [exact Hu|]. intros t Ht'. exact (proj1 (Ht t Ht')).
Defined.

(** Bob, a mere member of [tb], replaces its policy. *)
Lemma policy_put_authorisation_witness :
  ∃ r v d2, put_active_policy (toy_env "k1" 49) bob_headers (JObj [(js "threshold", JNum (num_of_Z 0))]) two_tenants
      = (Ok (r, v), d2) ∧
    pol_tenant_id r = js "tb" ∧ pol_threshold r = 0 ∧ tenant_memberships two_tenants !! (js "u1", js "tb") = Some (js "member").
Proof.
  destruct bob_authenticates as [d1 Hu].
  assert (Hd1 : d1 = (authMiddleware (toy_env "k1" 49) bob_headers two_tenants).2) by (by rewrite Hu).
  edestruct (policy_put_authorisation (toy_env "k1" 49) bob_headers (JObj [(js "threshold", JNum (num_of_Z 0))]))
    as [H _]; [exact Hu|done|vm_compute; reflexivity|].
  rewrite H; [|exists (js "ta"), (js "admin"); split; vm_compute; reflexivity].
  rewrite Hd1.
  edestruct (fst_run (replaceActivePolicy PolicyInv.round_thousandths 1000 (js "pol1") (js "tb") 
    (mkUpdate 0 (js "deny") (js "passthrough") [] [] false false 300 (num_ratio 1 100))
    (authMiddleware (toy_env "k1" 49) bob_headers two_tenants).2)) as [d2 Hr]; [vm_compute; reflexivity|].
  eexists _, _, d2. split; [exact Hr|]. split_and!; vm_compute; reflexivity.
Defined.

End AuthInv.
