(* ===== verification/SyncRoutes.v ===== *)
(** * The sync routes

    [src/control-plane/src/routes/sync.ts]: the snapshot, and the handler that
    decides whether an event stream is opened and with what.  The registry is read
    twice, before and after the query, so the handler takes the registry as it is at
    both times.  A stream that is opened runs as [SseSession] and [SseLifecycle]
    describe. *)

From stdpp Require Import base gmap strings sorting numbers list.
From Stdlib Require Import ZArith Lia.
From S2P Require Import Prelude Json Errors Db LastEventId SyncLog ScoreWriter Snapshot SseQueue SseSession Decisions Auth.

Module SyncRoutes.
Import SyncLog LastEventId Auth Guards.

(** What [sendProblem] sends: status, extra headers, body
    (application/problem+json). *)
Record problem := mkProblem { pr_status : Z; pr_headers : list (jstr * jstr); pr_body : json }.

(** [code.toLowerCase().replace(/_/g, '-')]. *)
Definition problem_slug (code : jstr) : jstr :=
  (λ c, if c =? 95 then 45 else c) <$> DecisionSample.toLowerCase code.

Definition sendProblem (status : Z) (code message : jstr) (extras : list (jstr * jstr)) : problem :=
  mkProblem status extras
    (JObj [(js "type", JStr (js "https://verilink.dev/problems/" ++ problem_slug code));
           (js "title", JStr message); (js "status", JNum (num_of_Z status)); (js "code", JStr code)]).

(** GET /v1/sync/snapshot. *)
Definition get_snapshot (e : aenv) (h : headers) : M Snapshot.Snapshot :=
  u ← apiKeyOnly e h;
  match tenant_of u with
  | Some (c :: t) => reads (Snapshot.getSnapshot (ae_now e) (c :: t))
  | _ => lift (throw_app FORBIDDEN (js "Tenant required"))
  end.

(** A response that ended, or the arguments of [runSseSession]. *)
Inductive stream_outcome :=
| Refused (p : problem)
| Stream (lastEventId : Z) (tenantId : option jstr) (apiKeyId : option jstr)
         (initialEvents : list SyncEvent) (initialHighWater : Z).

Definition limit_reached (maxConnections : Z) (r : SseRegistry.SseRegistry) : bool :=
  negb (SseRegistry.accepting r) || (maxConnections <=? SseRegistry.size r).

Definition too_many : problem :=
  sendProblem 503 (js "SERVICE_UNAVAILABLE") (js "SSE connection limit reached") [].
Definition backlog_cap : problem :=
  sendProblem 429 (js "RATE_LIMITED") (js "Sync backlog exceeds initial batch cap")
    [(js "X-Verilink-Sync-Reason", js "backlog-cap")].

(** [req.user?.tenantId || undefined], [req.user?.apiKeyId]. *)
Definition stream_tenant (u : user) : option jstr :=
  match tenant_of u with Some (c :: t) => Some (c :: t) | _ => None end.
Definition stream_key (u : user) : option jstr :=
  match u with ApiKeyUser id _ _ => Some id | OidcUser _ _ _ _ _ _ => None end.

(** GET /v1/sync/events up to [runSseSession]. *)
Definition get_events (e : aenv) (h : headers) (maxConnections : Z) (maxInitialBatch : nat)
    (before after : SseRegistry.SseRegistry) (input : LastEventIdInputs) : M stream_outcome :=
  u ← apiKeyOnly e h;
  if limit_reached maxConnections before then mret (Refused too_many)
  else
    lastEventId ← lift (match parseLastEventId input with
                        | Ok v => Ok v
                        | Throw message => throw_app BAD_REQUEST message
                        end);
    batch ← reads (getInitialBatchWithHighWater lastEventId (stream_tenant u) maxInitialBatch);
    if ib_backlogExceeded batch then mret (Refused backlog_cap)
    else if limit_reached maxConnections after then mret (Refused too_many)
    else mret (Stream lastEventId (stream_tenant u) (stream_key u) (ib_events batch) (ib_highWater batch)).

(** ** Lemmas *)

Lemma apiKeyOnly_spec e h d u d1 :
  apiKeyOnly e h d = (Ok u, d1) →
  (∃ id t sc, u = ApiKeyUser id t sc) ∧ (∃ keys, d1 = set_api_keys keys d).
Proof.
  unfold apiKeyOnly.
  destruct (match h_x_api_key h with Some (c :: k) => Some (c :: k) | _ => extractBearerKey h end) as [k|]; [|done].
  unfold as_app_error, catch. destruct (authenticateApiKey e k d) as [[u'|x] d'] eqn:E; [|done].
  intros [= <- <-]. unfold authenticateApiKey in E.
  apply M_bind_Ok in E as (? & d2 & H1 & E). unfold lift in H1. injection H1 as _ <-.
  apply M_bind_Ok in E as (rows & d3 & H2 & E). unfold reads in H2. injection H2 as <- <-.
  destruct (key_rows _ _ _) as [|[k' t] rows]; [done|]. destruct (negb _); [done|].
  apply M_bind_Ok in E as (? & d4 & H3 & E). injection H3 as _ <-. injection E as <- <-.
  split; [eauto|]. eexists. done.
Qed.

(** What an opened stream is known to have. *)
Lemma get_events_Stream e h mc mb before after input d v t k evs hw d' :
  get_events e h mc mb before after input d = (Ok (Stream v t k evs hw), d') →
  parseLastEventId input = Ok v ∧ sync_events d' = sync_events d ∧
  (∃ id ten, k = Some id ∧ t = (match ten with [] => None | _ => Some ten end)) ∧
  limit_reached mc before = false ∧ limit_reached mc after = false ∧
  evs = getEventsSince v t None d ∧ (length evs ≤ mb)%nat ∧ hw = high_water d.
Proof.
  unfold get_events. intros (u & d1 & Hu & H)%M_bind_Ok.
  destruct (apiKeyOnly_spec _ _ _ _ _ Hu) as [(id & ten & sc & ->) [keys ->]].
  destruct (limit_reached mc before); [done|].
  apply M_bind_Ok in H as (v' & d2 & Hv & H).
  destruct (parseLastEventId input) as [v0|m] eqn:Hp; [|done]. injection Hv as -> <-.
  apply M_bind_Ok in H as (b & d3 & Hb & H). unfold reads in Hb.
  pose proof (initial_batch_complete_or_exceeded v' (stream_tenant (ApiKeyUser id ten sc)) mb (set_api_keys keys d)) as Hc.
  cbv zeta in Hc.
  assert (getInitialBatchWithHighWater v' (stream_tenant (ApiKeyUser id ten sc)) mb (set_api_keys keys d) = b ∧
          set_api_keys keys d = d3) as [Eb <-] by (split; congruence).
  rewrite Eb in Hc. destruct Hc as [Hw Hc].
  destruct (ib_backlogExceeded _); [done|]. destruct (limit_reached mc after); [done|].
  injection H as <- <- <- <- <- <-. destruct Hc as [-> Hlen]. rewrite Hw.
  split_and!; try done. exists id, ten. split; [done|]. by destruct ten.
Qed.

(** ** Properties *)

(** C5. A client that reconnects misses nothing and repeats nothing. Take a session
    that ran on a log, from a cursor through any number of polls none of which
    overflowed, and let its client reconnect with the last id it was sent (the
    cursor frame of the final poll) as the Last-Event-ID header, on a log that has
    grown meanwhile. If the route opens a stream for the same tenant, then the
    events of the first session followed by the initial events of the second are
    exactly the visible rows above the first cursor, in order, and the new stream
    starts at the high-water mark. *)
Theorem reconnect_resumes_exactly tenantId maxInitialBatch maxFrameBytes every enq lastEventId d0 ds
    e h mc before after q qp d2 v k evs hw d3 :
  (∀ n, enq n = SseSession.IOk) → log_wf d0 → Forall (SseSession.fits maxFrameBytes) (sync_events d0) →
  SseSession.calm_run tenantId maxInitialBatch maxFrameBytes d0 ds → lastEventId ≤ high_water d0 →
  ib_backlogExceeded (getInitialBatchWithHighWater lastEventId tenantId maxInitialBatch d0) = false →
  let d1 := SseSession.final d0 ds in
  let s := SseSession.run_session tenantId maxInitialBatch maxFrameBytes every enq lastEventId d0 ds in
  log_wf d2 → sync_events d1 `prefix_of` sync_events d2 → high_water d1 ≤ PG_BIGINT_MAX →
  get_events e h mc maxInitialBatch before after
    {| header := Some (RawString (show_Z (SseSession.lastEmittedHw s)));
       query := q; queryKeyPresent := qp; headerPresent := Some true |} d2 = (Ok (Stream v tenantId k evs hw), d3) →
  v = high_water d1 ∧ hw = high_water d2 ∧
  SseSession.emitted s ++ evs = getEventsSince lastEventId tenantId None d2.
Proof.
  intros Henq Hd0 HF Hrun Hle Hb d1 s Hd2 Hpre Hmax Hg.
  destruct (SseSession.final_wf tenantId maxInitialBatch maxFrameBytes d0 ds Hd0 Hrun) as [Hd1 Hle1]. fold d1 in Hd1, Hle1.
  destruct (SseSession.session_delivered tenantId maxInitialBatch maxFrameBytes every enq lastEventId d0 ds)
    as (_ & Hh & Hem); try done. fold s in Hh, Hem. fold d1 in Hh, Hem.
  destruct (get_events_Stream _ _ _ _ _ _ _ _ _ _ _ _ _ _ Hg) as (Hp & _ & _ & _ & _ & Hev & _ & Hhw).
  assert (Hpos : 0 ≤ high_water d1) by (rewrite high_water_wf by done; lia).
  pose proof (last_event_id_roundtrip (SseSession.lastEmittedHw s) [] [] q qp ltac:(rewrite Hh; lia) eq_refl eq_refl) as Hp'.
  rewrite app_nil_r in Hp'. simpl in Hp'. rewrite Hp in Hp'. injection Hp' as ->. rewrite Hh in *.
  split_and!; [done|done|]. rewrite Hev, Hem, (getEventsSince_eq_filter lastEventId tenantId d2) by done.
  by rewrite (proj1 (SseSession.selected_extension tenantId lastEventId d1 d2 Hd1 Hd2 Hpre ltac:(lia))).
Qed.

(** ** Witness: a session that saw three events; its client comes back when
    there are five. *)

Definition later_db : db := set_sync_events (SseSession.ev <$> seqZ 1 5) AuthInv.with_scopeless_key.

Lemma reconnect_resumes_exactly_witness :
  let s := SseSession.run_session (Some (js "tb")) 2 100 10 (λ _, SseSession.IOk) 0 (SseSession.log_of 1)
             [SseSession.log_of 3; SseSession.log_of 3] in
  ∃ d3, get_events (AuthInv.toy_env "k1" 49) (mkHeaders None (Some AuthInv.a_key_secret) None) 5 2
          SseRegistry.new_registry SseRegistry.new_registry (header_input (js "3")) later_db
        = (Ok (Stream 3 (Some (js "tb")) (Some (js "k0")) [SseSession.ev 4; SseSession.ev 5] 5), d3) ∧
  SseSession.emitted s ++ [SseSession.ev 4; SseSession.ev 5] = getEventsSince 0 (Some (js "tb")) None later_db.
Proof.
  intros s.
  edestruct (fst_run (get_events (AuthInv.toy_env "k1" 49) (mkHeaders None (Some AuthInv.a_key_secret) None) 5 2
          SseRegistry.new_registry SseRegistry.new_registry (header_input (js "3")) later_db)) as [d3 H];
    [vm_compute; reflexivity|].
  exists d3. split; [exact H|].
  destruct (reconnect_resumes_exactly (Some (js "tb")) 2 100 10 (λ _, SseSession.IOk) 0 (SseSession.log_of 1)
    [SseSession.log_of 3; SseSession.log_of 3] (AuthInv.toy_env "k1" 49) (mkHeaders None (Some AuthInv.a_key_secret) None) 5 SseRegistry.new_registry SseRegistry.new_registry None (Some false)
    later_db 3 (Some (js "k0")) [SseSession.ev 4; SseSession.ev 5] 5 d3) as (_ & _ & He).
  - reflexivity.
  - exact (proj1 SseSession.log_of_wf).
  - exact (proj1 SseSession.log_of_fits).
  - split; [exact (proj2 SseSession.log_of_wf)|]. split; [exists [SseSession.ev 2; SseSession.ev 3]; vm_compute; reflexivity|].
    split; [exact (proj2 SseSession.log_of_fits)|]. split; [vm_compute; lia|].
    split; [exact (proj2 SseSession.log_of_wf)|]. split; [exists []; vm_compute; reflexivity|].
    split; [exact (proj2 SseSession.log_of_fits)|]. split; [vm_compute; lia|exact I].
  - vm_compute. discriminate.
  - vm_compute. reflexivity.
  - vm_compute. reflexivity.
  - exists [SseSession.ev 4; SseSession.ev 5]. vm_compute. reflexivity.
  - vm_compute. discriminate.
  - exact H.
  - exact He.
Defined.

End SyncRoutes.
