(* ===== verification/Billing.v ===== *)
(** * Billing

    [src/control-plane/src/domains/billing/] ([tiers.ts], [subscriptionRepository.ts],
    [webhookDedup.ts], [billingService.ts]) and the routes [routes/billing.ts] and
    [routes/webhookStripe.ts].

    Stripe is reached through the interface [BillingTransport] of
    [billingTransport.ts]; here it is the record [benv]'s functions.  An event is
    the part of [Stripe.Event] the code reads, plus the price id of the
    subscription, which it does not read.  Every statement commits by itself:
    nothing here runs in a transaction, so a throw keeps earlier writes. *)

From stdpp Require Import base gmap strings list.
From Stdlib Require Import ZArith Lia.
From S2P Require Import Prelude Json Errors Db Auth.

(** ** Stripe's data, as read *)

(** [customer: string | Customer] *)
Inductive customer := CustomerId (id : jstr) | CustomerObject (id : jstr).

Record CheckoutSession := mkSession {
  cs_tenant_id : option jstr;            (** [metadata?.tenant_id] *)
  cs_plan : option jstr;                 (** [metadata?.plan] *)
  cs_subscription : option jstr;
  cs_customer : option customer
}.

Record StripeSubscription := mkStripeSub {
  ss_id : jstr;
  ss_tenant_id : option jstr;
  ss_plan : option jstr;
  ss_customer : customer;
  ss_status : jstr;
  ss_current_period_end : option Z;      (** seconds *)
  ss_price_id : option jstr              (** [items.data[0].price.id] *)
}.

Inductive event_data :=
| CheckoutCompleted (s : CheckoutSession)     (** checkout.session.completed *)
| SubscriptionUpdated (s : StripeSubscription)
| SubscriptionDeleted (s : StripeSubscription)
| OtherEvent (type : jstr).

Record Event := mkEvent { ev_id : jstr; ev_data : event_data; ev_json : json }.

(** Configuration, clock, generated ids and the billing transport. *)
Record benv := mkBenv {
  be_now : Z;
  be_row_id : jstr;
  be_price_pro : option jstr;            (** STRIPE_PRICE_PRO *)
  be_price_enterprise : option jstr;     (** STRIPE_PRICE_ENTERPRISE *)
  be_web_app_url : option jstr;          (** WEB_APP_URL *)
  be_webhook_secret : option jstr;       (** STRIPE_WEBHOOK_SECRET *)
  be_production : bool;                  (** [config.server.nodeEnv === 'production'] *)
  be_checkout : option jstr → jstr → jstr → jstr → jstr → jstr → result exn jstr;
  be_portal : jstr → jstr → result exn jstr;
  be_constructEvent : list Z → jstr → result exn Event
}.

(** A value that [if (!s)] lets through. *)
Definition truthy_str (s : option jstr) : option jstr :=
  match s with Some (c :: t) => Some (c :: t) | _ => None end.

(** ** [tiers.ts] *)
Module Tiers.

Record Tier := mkTier { tier_id : jstr; tier_name : jstr; tier_priceId : option jstr }.

Definition TIERS (e : benv) : list Tier :=
  [mkTier (js "free") (js "Free") None;
   mkTier (js "pro") (js "Pro") (be_price_pro e);
   mkTier (js "enterprise") (js "Enterprise") (be_price_enterprise e)].

Definition getTier (e : benv) (id : jstr) : option Tier := snd <$> list_find (λ t, tier_id t = id) (TIERS e).

Definition getTierByPriceId (e : benv) (priceId : jstr) : option Tier :=
  snd <$> list_find (λ t, tier_priceId t = Some priceId) (TIERS e).

Definition isPaidTier (t : Tier) : bool := negb (bool_decide (tier_priceId t = None)).

End Tiers.

(** ** [subscriptionRepository.ts] *)
Module SubscriptionRepo.

Definition by_live_then_newest (a b : Subscription) : bool :=
  let act s := bool_decide (sub_status s = js "active") in
  if Bool.eqb (act a) (act b) then sub_created_at b <=? sub_created_at a else act a.

Definition getSubscriptionByTenant (tenantId : jstr) (d : db) : option Subscription :=
  head (sort_by by_live_then_newest (filter (λ s, sub_tenant_id s = tenantId) (subscriptions d))).

Definition getSubscriptionByStripeId (stripeId : jstr) (d : db) : option Subscription :=
  head (filter (λ s, sub_stripe_subscription_id s = stripeId) (subscriptions d)).

Record UpsertSubscriptionOpts := mkUpsert {
  o_tenantId : jstr; o_stripeCustomerId : jstr; o_stripeSubscriptionId : jstr;
  o_plan : jstr; o_status : jstr; o_currentPeriodEnd : option Z; o_preserveOnConflict : bool }.

Definition same_sub (o : UpsertSubscriptionOpts) (s : Subscription) : bool :=
  bool_decide (sub_tenant_id s = o_tenantId o ∧ sub_stripe_subscription_id s = o_stripeSubscriptionId o).

(** The row after ON CONFLICT DO UPDATE. *)
Definition merge (o : UpsertSubscriptionOpts) (s : Subscription) : Subscription :=
  mkSubscription (sub_id s) (sub_tenant_id s) (o_stripeCustomerId o) (sub_stripe_subscription_id s) (o_plan o)
    (if o_preserveOnConflict o then sub_status s else o_status o)
    (if o_preserveOnConflict o then sub_current_period_end s else o_currentPeriodEnd o)
    (sub_created_at s).

(** tenant_id references tenants. *)
Definition upsertSubscription (e : benv) (o : UpsertSubscriptionOpts) : M unit := λ d,
  if negb (bool_decide (is_Some (tenants d !! o_tenantId o))) then (Throw (EPg foreign_key_violation), d)
  else if existsb (same_sub o) (subscriptions d)
  then (Ok tt, set_subscriptions ((λ s, if same_sub o s then merge o s else s) <$> subscriptions d) d)
  else (Ok tt, set_subscriptions
         (subscriptions d ++ [mkSubscription (be_row_id e) (o_tenantId o) (o_stripeCustomerId o) (o_stripeSubscriptionId o)
                                (o_plan o) (o_status o) (o_currentPeriodEnd o) (be_now e)]) d).

End SubscriptionRepo.

(** ** [webhookDedup.ts] *)
Module WebhookDedup.

Definition claimWebhookEvent (eventId : jstr) (payload : json) : M bool := λ d,
  match webhook_events d !! eventId with
  | None => (Ok true, set_webhook_events (<[eventId := mkWebhookEvent payload None]> (webhook_events d)) d)
  | Some w => (Ok (bool_decide (wh_processed_at w = None)), d)
  end.

Definition markWebhookProcessed (now : Z) (eventId : jstr) : M unit :=
  writes (λ d, set_webhook_events (alter (λ w, mkWebhookEvent (wh_payload w) (Some now)) eventId (webhook_events d)) d).

End WebhookDedup.

(** ** [billingService.ts] *)
Module BillingService.
Import Tiers SubscriptionRepo WebhookDedup.

(** [base.replace(/\/$/, '')] *)
Definition strip_slash (s : jstr) : jstr :=
  match reverse s with 47 :: r => reverse r | _ => s end.

Definition webAppUrl (e : benv) : result exn jstr :=
  match truthy_str (be_web_app_url e) with
  | None => throw_app SERVICE_UNAVAILABLE (js "WEB_APP_URL is not configured (required for Stripe redirects)")
  | Some base => Ok (strip_slash base)
  end.

Definition createCheckoutSession (e : benv) (tenantId tierId : jstr) (customerEmail : option jstr) : result exn jstr :=
  match getTier e tierId with
  | None => throw_app BAD_REQUEST (js "Unknown tier: " ++ tierId)
  | Some tier =>
      match (if isPaidTier tier then truthy_str (tier_priceId tier) else None) with
      | None => throw_app BAD_REQUEST (js "Tier " ++ [34] ++ tier_id tier ++ [34] ++ js " has no Stripe price configured")
      | Some priceId =>
          base ← webAppUrl e;
          be_checkout e customerEmail priceId (base ++ js "/provider?billing=success")
            (base ++ js "/provider?billing=cancelled") tenantId (tier_id tier)
      end
  end.

Definition createPortalSession (e : benv) (tenantId : jstr) (d : db) : result exn jstr :=
  match getSubscriptionByTenant tenantId d with
  | None => throw_app NOT_FOUND (js "No subscription for tenant")
  | Some s => base ← webAppUrl e; be_portal e (sub_stripe_customer_id s) (base ++ js "/provider")
  end.

Definition resolvePlan (e : benv) (priceId metadataPlan : option jstr) : jstr :=
  match truthy_str metadataPlan with
  | Some p => p
  | None => match truthy_str priceId with
            | Some pid => match getTierByPriceId e pid with Some t => tier_id t | None => js "unknown" end
            | None => js "unknown"
            end
  end.

(** [typeof c === 'string' ? c : c.id] *)
Definition customer_id (c : customer) : jstr := match c with CustomerId i | CustomerObject i => i end.

(** An empty string or an absent customer is falsy, a customer object is not. *)
Definition truthy_customer (c : option customer) : option customer :=
  match c with Some (CustomerId []) => None | c => c end.

Definition apply_checkout (e : benv) (s : CheckoutSession) : M unit :=
  match truthy_str (cs_tenant_id s), truthy_str (cs_subscription s), truthy_customer (cs_customer s) with
  | Some tenantId, Some subscriptionId, Some c =>
      upsertSubscription e
        (mkUpsert tenantId (customer_id c) subscriptionId (resolvePlan e None (cs_plan s)) (js "active") None true)
  | _, _, _ => mret tt
  end.

(** The tenant of a subscription event: its metadata, else the stored row's. *)
Definition event_tenant (s : StripeSubscription) (d : db) : option jstr :=
  match truthy_str (ss_tenant_id s) with
  | Some t => Some t
  | None => truthy_str (sub_tenant_id <$> getSubscriptionByStripeId (ss_id s) d)
  end.

(** [sub.current_period_end ? new Date(sub.current_period_end * 1000) : null] *)
Definition period_end (s : StripeSubscription) : option Z :=
  match ss_current_period_end s with Some n => if n =? 0 then None else Some (n * 1000) | None => None end.

Definition apply_subscription (e : benv) (s : StripeSubscription) (deleted : bool) : M unit :=
  tenant ← reads (event_tenant s);
  match tenant with
  | None => mret tt
  | Some tenantId =>
      upsertSubscription e
        (mkUpsert tenantId (customer_id (ss_customer s)) (ss_id s) (resolvePlan e None (ss_plan s))
           (if deleted then js "canceled" else ss_status s) (period_end s) false)
  end.

Definition applyEvent (e : benv) (ev : Event) : M unit :=
  match ev_data ev with
  | CheckoutCompleted s => apply_checkout e s
  | SubscriptionUpdated s => apply_subscription e s false
  | SubscriptionDeleted s => apply_subscription e s true
  | OtherEvent _ => mret tt
  end.

Definition check_signature (e : benv) (signature : option jstr) : result exn unit :=
  match truthy_str (be_webhook_secret e) with
  | Some _ => match truthy_str signature with
              | None => throw_app UNAUTHORIZED (js "Missing Stripe signature")
              | Some _ => Ok tt
              end
  | None => if be_production e then throw_app UNAUTHORIZED (js "Stripe webhook secret not configured") else Ok tt
  end.

Definition handleWebhookEvent (e : benv) (rawBody : list Z) (signature : option jstr) : M (jstr * bool) :=
  _ ← lift (check_signature e signature);
  event ← lift (be_constructEvent e rawBody (default [] signature));
  claimed ← claimWebhookEvent (ev_id event) (ev_json event);
  if (claimed : bool) then
    (_ ← applyEvent e event;
     _ ← markWebhookProcessed (be_now e) (ev_id event);
     mret (ev_id event, true))
  else mret (ev_id event, false).

End BillingService.

(** ** [routes/billing.ts], [routes/webhookStripe.ts] *)
Module BillingRoutes.
Import BillingService Auth Guards.

(** [/^[^\s@]+@[^\s@]+\.[^\s@]+$/]: one at-sign, no white space, and in the
    domain a dot that is neither its first nor its last unit. *)
Definition plain (c : Z) : bool := negb (is_space c) && negb (c =? 64).
Fixpoint split_at (s : jstr) : option (jstr * jstr) :=
  match s with
  | [] => None
  | c :: s' => if c =? 64 then Some ([], s')
               else match split_at s' with Some (l, r) => Some (c :: l, r) | None => None end
  end.
Definition EMAIL_RE (s : jstr) : bool :=
  match split_at s with
  | Some (local, domain) =>
      negb (bool_decide (local = [])) && forallb plain local && forallb plain domain
        && bool_decide (46 ∈ take (length domain - 2) (drop 1 domain))
  | None => false
  end.

Definition customer_email (body : json) : result exn (option jstr) :=
  match get body "customer_email" with
  | JUndef | JNull => Ok None
  | JStr s => if EMAIL_RE s then Ok (Some s)
              else throw_app BAD_REQUEST (js "customer_email must be a valid email address")
  | _ => throw_app BAD_REQUEST (js "customer_email must be a valid email address")
  end.

(** The body is the object the JSON parser left on the request. *)
Definition post_checkout (a : aenv) (e : benv) (h : headers) (body : json) : M jstr :=
  u ← authMiddleware a h;
  tenantId ← lift (requireTenant u);
  tier ← lift (match get body "tier" with
               | JStr (c :: t) => Ok (c :: t)
               | _ => throw_app BAD_REQUEST (js "tier is required")
               end);
  email ← lift (customer_email body);
  lift (createCheckoutSession e tenantId tier email).

Definition post_portal (a : aenv) (e : benv) (h : headers) : M jstr :=
  u ← authMiddleware a h;
  tenantId ← lift (requireTenant u);
  r ← reads (createPortalSession e tenantId);
  lift r.

(** [rawBody] is absent when the body is not a Buffer.  Status and body of the
    answer; [ok] wraps the result. *)
Definition post_webhook (e : benv) (rawBody : option (list Z)) (signature : option jstr) : db → (Z * (json + jstr * bool)) * db := λ d,
  match rawBody with
  | None => ((400, inl (toResponse (app_error BAD_REQUEST (js "Webhook requires a raw body")))), d)
  | Some b => match handleWebhookEvent e b signature d with
              | (Ok r, d') => ((200, inr r), d')
              | (Throw err, d') => ((status (from err), inl (toResponse (from err))), d')
              end
  end.

End BillingRoutes.

(** ** Properties *)
Module BillingInv.
Import Tiers SubscriptionRepo WebhookDedup BillingService BillingRoutes.

(** One row per tenant and Stripe subscription (migration 014). *)
Definition subs_ok (d : db) : Prop :=
  NoDup ((λ s, (sub_tenant_id s, sub_stripe_subscription_id s)) <$> subscriptions d).

(** The row of a subscription of a tenant. *)
Definition sub_row (t sid : jstr) (d : db) : option Subscription :=
  snd <$> list_find (λ s, sub_tenant_id s = t ∧ sub_stripe_subscription_id s = sid) (subscriptions d).

(** What the code writes for the fields it controls. *)
Definition written (o : UpsertSubscriptionOpts) (old : option Subscription) (s : Subscription) : Prop :=
  sub_stripe_customer_id s = o_stripeCustomerId o ∧ sub_plan s = o_plan o ∧
  match old with
  | Some s0 => sub_id s = sub_id s0 ∧ sub_created_at s = sub_created_at s0 ∧
      (if o_preserveOnConflict o
       then sub_status s = sub_status s0 ∧ sub_current_period_end s = sub_current_period_end s0
       else sub_status s = o_status o ∧ sub_current_period_end s = o_currentPeriodEnd o)
  | None => sub_status s = o_status o ∧ sub_current_period_end s = o_currentPeriodEnd o
  end.

Lemma same_sub_spec o s :
  same_sub o s = true ↔ sub_tenant_id s = o_tenantId o ∧ sub_stripe_subscription_id s = o_stripeSubscriptionId o.
Proof. unfold same_sub. by rewrite bool_decide_eq_true. Qed.

Lemma sub_row_none t sid d :
  sub_row t sid d = None ↔
  ∀ s, s ∈ subscriptions d → ¬ (sub_tenant_id s = t ∧ sub_stripe_subscription_id s = sid).
Proof.
  unfold sub_row. rewrite fmap_None, list_find_None, Forall_forall. done.
Qed.

Lemma existsb_same_sub o d :
  existsb (same_sub o) (subscriptions d) = false ↔ sub_row (o_tenantId o) (o_stripeSubscriptionId o) d = None.
Proof.
  rewrite sub_row_none, <- not_true_iff_false, existsb_exists. split.
  - intros H s Hs Heq. apply H. exists s. split; [by apply list_elem_of_In|]. by apply same_sub_spec.
  - intros H (s & Hs%list_elem_of_In & Heq%same_sub_spec). by apply (H s).
Qed.

(** An in-place update keeps every key. *)
Lemma merge_keys o (l : list Subscription) :
  (λ s, (sub_tenant_id s, sub_stripe_subscription_id s)) <$> ((λ s, if same_sub o s then merge o s else s) <$> l) =
  (λ s, (sub_tenant_id s, sub_stripe_subscription_id s)) <$> l.
Proof. rewrite <- list_fmap_compose. apply list_fmap_ext. intros i s _. simpl. by destruct (same_sub o s). Qed.

Lemma list_find_fmap_key {A} (P : A → Prop) `{∀ x, Decision (P x)} (f : A → A) l :
  (∀ x, P (f x) ↔ P x) → snd <$> list_find P (f <$> l) = f <$> (snd <$> list_find P l).
Proof.
  intros HP. induction l as [|x l IH]; [done|]. rewrite fmap_cons. cbn [list_find].
  destruct (decide (P x)) as [Hx|Hx].
  - rewrite decide_True by by apply HP. done.
  - rewrite decide_False by by rewrite HP.
    destruct (list_find P (f <$> l)) as [[]|], (list_find P l) as [[]|]; done.
Qed.

(** What [upsertSubscription] does to the table. *)
Lemma upsert_spec e o d r d1 :
  upsertSubscription e o d = (r, d1) → is_Some (tenants d !! o_tenantId o) →
  r = Ok tt ∧ tenants d1 = tenants d ∧ webhook_events d1 = webhook_events d ∧
  (∃ s, sub_row (o_tenantId o) (o_stripeSubscriptionId o) d1 = Some s ∧
        written o (sub_row (o_tenantId o) (o_stripeSubscriptionId o) d) s) ∧
  (∀ t sid, (t, sid) ≠ (o_tenantId o, o_stripeSubscriptionId o) → sub_row t sid d1 = sub_row t sid d) ∧
  (subs_ok d → subs_ok d1).
Proof.
  intros H Ht. unfold upsertSubscription in H. rewrite bool_decide_true in H by done. simpl in H.
  destruct (existsb _ _) eqn:E; injection H as <- <-.
  - split_and!; [done..| | |].
    + destruct (sub_row (o_tenantId o) (o_stripeSubscriptionId o) d) as [s0|] eqn:E0.
      2: { apply existsb_same_sub in E0. congruence. }
      exists (merge o s0). assert (Hs0 : same_sub o s0 = true).
      { unfold sub_row in E0. apply fmap_Some in E0 as ([i s'] & Hf & ->). apply list_find_Some in Hf as (_ & Hp & _).
        by apply same_sub_spec. }
      split.
      * unfold sub_row in *. simpl. rewrite list_find_fmap_key by (intros x; destruct (same_sub o x); done).
        rewrite E0. simpl. by rewrite Hs0.
      * unfold written, merge. simpl. by destruct (o_preserveOnConflict o).
    + intros t sid Hne. unfold sub_row. simpl.
      rewrite list_find_fmap_key by (intros x; destruct (same_sub o x); done).
      destruct (snd <$> list_find _ (subscriptions d)) as [s0|] eqn:E0; [|done]. simpl.
      apply fmap_Some in E0 as ([i s'] & Hf & ->). apply list_find_Some in Hf as (_ & [<- <-] & _). simpl in *.
      destruct (same_sub o s') eqn:Es; [|done]. apply same_sub_spec in Es as [E1 E2].
      destruct Hne. by rewrite E1, E2.
    + unfold subs_ok. simpl. by rewrite merge_keys.
  - apply existsb_same_sub in E as E'. split_and!; [done..| | |].
    + rewrite E'. exists (mkSubscription (be_row_id e) (o_tenantId o) (o_stripeCustomerId o) (o_stripeSubscriptionId o)
                        (o_plan o) (o_status o) (o_currentPeriodEnd o) (be_now e)). split; [|done].
      unfold sub_row in *. simpl. apply fmap_None in E'. rewrite list_find_app_r by done. simpl. by rewrite decide_True.
    + intros t sid Hne. unfold sub_row. simpl.
      destruct (list_find _ (subscriptions d)) as [[i s]|] eqn:E0.
      * erewrite list_find_app_l; done.
      * rewrite list_find_app_r by done. simpl. rewrite decide_False; [done|]. intros [<- <-]. done.
    + unfold subs_ok. simpl. rewrite fmap_app. intros Hnd. apply NoDup_app. split_and!; [done| |apply NoDup_singleton].
      intros x Hx Hx'%list_elem_of_singleton. subst x. apply list_elem_of_fmap in Hx as (s & Hs & Hin).
      pose proof (proj1 (sub_row_none _ _ _) E' s Hin) as Hno. injection Hs as H1 H2. by apply Hno.
Qed.

(** *** The write a subscription event stands for *)

(** The upsert an event asks for in a given state, if any. *)
Definition wanted (e : benv) (ev : Event) (d : db) : option UpsertSubscriptionOpts :=
  match ev_data ev with
  | CheckoutCompleted s =>
      match truthy_str (cs_tenant_id s), truthy_str (cs_subscription s), truthy_customer (cs_customer s) with
      | Some t, Some sid, Some c => Some (mkUpsert t (customer_id c) sid (resolvePlan e None (cs_plan s)) (js "active") None true)
      | _, _, _ => None
      end
  | SubscriptionUpdated s | SubscriptionDeleted s =>
      (λ t, mkUpsert t (customer_id (ss_customer s)) (ss_id s) (resolvePlan e None (ss_plan s))
              (match ev_data ev with SubscriptionDeleted _ => js "canceled" | _ => ss_status s end) (period_end s) false)
        <$> event_tenant s d
  | OtherEvent _ => None
  end.

Lemma applyEvent_wanted e ev d :
  applyEvent e ev d = match wanted e ev d with Some o => upsertSubscription e o d | None => (Ok tt, d) end.
Proof.
  unfold applyEvent, wanted. destruct (ev_data ev) as [s|s|s|]; [|by unfold apply_subscription, reads, mbind, M_bind; destruct (event_tenant s d)..|done].
  unfold apply_checkout. by destruct (truthy_str (cs_tenant_id s)), (truthy_str (cs_subscription s)), (truthy_customer (cs_customer s)).
Qed.

(** Applying an event: success, or a foreign key violation that changes nothing. *)
Lemma applyEvent_outcome e ev d r d1 :
  applyEvent e ev d = (r, d1) →
  tenants d1 = tenants d ∧ webhook_events d1 = webhook_events d ∧ (subs_ok d → subs_ok d1) ∧
  match r with
  | Ok _ => True
  | Throw err => err = EPg foreign_key_violation ∧ d1 = d ∧
                 ∃ o, wanted e ev d = Some o ∧ tenants d !! o_tenantId o = None
  end.
Proof.
  rewrite applyEvent_wanted. destruct (wanted e ev d) as [o|]; [|by intros [= <- <-]].
  intros H. destruct (tenants d !! o_tenantId o) as [t|] eqn:Et.
  - apply upsert_spec in H as (-> & Ht & Hw & _ & _ & Hok); [done|]. rewrite Et. by eexists.
  - unfold upsertSubscription in H. rewrite Et in H. injection H as <- <-. split_and!; try done. eauto.
Qed.

Lemma handle_run e b sg d ev :
  check_signature e sg = Ok tt → be_constructEvent e b (default [] sg) = Ok ev →
  handleWebhookEvent e b sg d =
  match claimWebhookEvent (ev_id ev) (ev_json ev) d with
  | (Ok true, d1) =>
      match applyEvent e ev d1 with
      | (Ok _, d2) => (Ok (ev_id ev, true),
          set_webhook_events (alter (λ w, mkWebhookEvent (wh_payload w) (Some (be_now e))) (ev_id ev) (webhook_events d2)) d2)
      | (Throw err, d2) => (Throw err, d2)
      end
  | (Ok false, d1) => (Ok (ev_id ev, false), d1)
  | (Throw err, d1) => (Throw err, d1)
  end.
Proof.
  intros Hs Hc. unfold handleWebhookEvent, mbind, M_bind, lift. rewrite Hs, Hc.
  destruct (claimWebhookEvent _ _ d) as [[[]|] d1]; [|done|done]. by destruct (applyEvent e ev d1) as [[]].
Qed.

(** An event id is marked processed. *)
Definition processed (id : jstr) (d : db) : Prop :=
  ∃ w t, webhook_events d !! id = Some w ∧ wh_processed_at w = Some t.

Lemma claim_spec id p d r d1 :
  claimWebhookEvent id p d = (r, d1) →
  ∃ b, r = Ok b ∧ tenants d1 = tenants d ∧ subscriptions d1 = subscriptions d ∧ is_Some (webhook_events d1 !! id) ∧
    (b = false ↔ processed id d) ∧ (b = true → ∃ w, webhook_events d1 !! id = Some w ∧ wh_processed_at w = None) ∧
    (∀ id', processed id' d → processed id' d1) ∧ (is_Some (webhook_events d !! id) → d1 = d).
Proof.
  unfold claimWebhookEvent, processed. destruct (webhook_events d !! id) as [w|] eqn:E; intros [= <- <-].
  - eexists. split; [reflexivity|]. split_and!; [done..| | |done|done].
    + destruct (wh_processed_at w) as [t|] eqn:Ew; simpl; split; try done; [eauto|intros (? & ? & [= <-] & ?); congruence].
    + intros Hb%bool_decide_eq_true. eauto.
  - eexists. split; [reflexivity|]. split_and!; [done|done| | | | |].
    + simpl. rewrite lookup_insert_eq. by eexists.
    + split; [done|]. by intros (? & ? & ? & _).
    + intros _. simpl. rewrite lookup_insert_eq. eauto.
    + intros id' (w & t & Hw & Ht). simpl. exists w, t. split; [|done].
      rewrite lookup_insert_ne; [done|]. intros ->. congruence.
    + by intros [].
Qed.

Lemma processed_same id d d' : webhook_events d' = webhook_events d → processed id d → processed id d'.
Proof. unfold processed. by intros ->. Qed.

(** A webhook call never un-marks an event. *)
Lemma handle_keeps_processed e b sg d r d1 id :
  handleWebhookEvent e b sg d = (r, d1) → processed id d → processed id d1.
Proof.
  intros H Hp. destruct (check_signature e sg) as [[]|] eqn:Es.
  2: { unfold handleWebhookEvent, mbind, M_bind, lift in H. rewrite Es in H. by injection H as <- <-. }
  destruct (be_constructEvent e b (default [] sg)) as [ev|] eqn:Ec.
  2: { unfold handleWebhookEvent, mbind, M_bind, lift in H. rewrite Es, Ec in H. by injection H as <- <-. }
  rewrite (handle_run _ _ _ _ _ Es Ec) in H. destruct (claimWebhookEvent _ _ d) as [rc dc] eqn:Ecl.
  apply claim_spec in Ecl as (bc & -> & _ & _ & _ & _ & _ & Hkeep & _). apply Hkeep in Hp.
  destruct bc; [|by injection H as <- <-]. destruct (applyEvent e ev dc) as [[[]|] d2] eqn:Ea;
    apply applyEvent_outcome in Ea as (_ & Hw & _); injection H as <- <-; apply (processed_same _ _ d2) in Hp; try done.
  destruct Hp as (w & t & Hlk & Ht). unfold processed. simpl. destruct (decide (ev_id ev = id)) as [->|Hne].
  - rewrite lookup_alter_eq, Hlk. simpl. eauto.
  - rewrite lookup_alter_ne by done. eauto.
Qed.

(** A history of webhook requests. *)
Fixpoint deliveries (l : list (benv * list Z * option jstr)) (d : db) : db :=
  match l with [] => d | (e, b, sg) :: l' => deliveries l' (handleWebhookEvent e b sg d).2 end.

Lemma deliveries_keep_processed l d id : processed id d → processed id (deliveries l d).
Proof.
  revert d. induction l as [|[[e b] sg] l IH]; intros d Hp; [done|]. simpl. apply IH.
  destruct (handleWebhookEvent e b sg d) eqn:E. simpl. by eapply handle_keeps_processed.
Qed.

Lemma handle_true e b sg d id d1 :
  handleWebhookEvent e b sg d = (Ok (id, true), d1) → processed id d1.
Proof.
  intros H. destruct (check_signature e sg) as [[]|] eqn:Es.
  2: { unfold handleWebhookEvent, mbind, M_bind, lift in H. by rewrite Es in H. }
  destruct (be_constructEvent e b (default [] sg)) as [ev|] eqn:Ec.
  2: { unfold handleWebhookEvent, mbind, M_bind, lift in H. by rewrite Es, Ec in H. }
  rewrite (handle_run _ _ _ _ _ Es Ec) in H. destruct (claimWebhookEvent _ _ d) as [rc dc] eqn:Ecl.
  apply claim_spec in Ecl as (bc & -> & _ & _ & [w Hw] & _). destruct bc; [|done].
  destruct (applyEvent e ev dc) as [[[]|] d2] eqn:Ea; [|done]. apply applyEvent_outcome in Ea as (_ & Hwe & _).
  injection H as <- <-. unfold processed. simpl. rewrite lookup_alter_eq, Hwe, Hw. simpl. eauto.
Qed.

(** *** Applying an event twice *)

Lemma resolvePlan_no_price e e2 p : resolvePlan e None p = resolvePlan e2 None p.
Proof. done. Qed.

Lemma stripe_tenant_keys sid (l : list Subscription) :
  sub_tenant_id <$> head (filter (λ s, sub_stripe_subscription_id s = sid) l) =
  fst <$> head (filter (λ k, k.2 = sid) ((λ s, (sub_tenant_id s, sub_stripe_subscription_id s)) <$> l)).
Proof.
  induction l as [|s l IH]; [done|]. rewrite fmap_cons, !filter_cons. simpl.
  by destruct (decide (sub_stripe_subscription_id s = sid)).
Qed.

Lemma set_subscriptions_same d : set_subscriptions (subscriptions d) d = d.
Proof. by destruct d. Qed.

Lemma same_sub_merge o s : same_sub o (merge o s) = same_sub o s.
Proof. done. Qed.

Lemma merge_merge o s : merge o (merge o s) = merge o s.
Proof. unfold merge. simpl. by destruct (o_preserveOnConflict o). Qed.

Lemma upsert_again e e2 o d d1 :
  upsertSubscription e o d = (Ok tt, d1) → upsertSubscription e2 o d1 = (Ok tt, d1).
Proof.
  unfold upsertSubscription. destruct (negb _) eqn:Et; [done|].
  destruct (existsb (same_sub o) (subscriptions d)) eqn:E; intros [= <-]; simpl; rewrite Et.
  - replace (existsb (same_sub o) _) with true.
    2: { symmetry. apply existsb_exists. apply existsb_exists in E as (s & Hs%list_elem_of_In & Hss).
         exists (merge o s). split; [|done]. apply list_elem_of_In, list_elem_of_fmap. exists s. by rewrite Hss. }
    set (f := λ s, if same_sub o s then merge o s else s).
    assert (Hf : f <$> (f <$> subscriptions d) = f <$> subscriptions d); [|by rewrite Hf].
    rewrite <- list_fmap_compose. apply list_fmap_ext. intros i s _. unfold f. simpl.
    destruct (same_sub o s) eqn:Es; [|by rewrite Es]. by rewrite same_sub_merge, Es, merge_merge.
  - rewrite existsb_app. simpl. unfold same_sub at 2. simpl. rewrite bool_decide_true by done. rewrite orb_true_r.
    rewrite fmap_app. replace (_ <$> subscriptions d) with (subscriptions d).
    2: { rewrite <- (list_fmap_id (subscriptions d)) at 1. apply list_fmap_ext. intros i s Hs%list_elem_of_lookup_2. simpl.
      destruct (same_sub o s) eqn:Es; [|done]. exfalso. apply not_true_iff_false in E. apply E, existsb_exists.
      exists s. split; [by apply list_elem_of_In|done]. }
    simpl. unfold same_sub. simpl. rewrite bool_decide_true by done. unfold merge. simpl. by destruct (o_preserveOnConflict o).
Qed.

Lemma wanted_again e e2 ev d d1 : applyEvent e ev d = (Ok tt, d1) → wanted e2 ev d1 = wanted e ev d.
Proof.
  intros H. rewrite applyEvent_wanted in H. unfold wanted in *. destruct (ev_data ev) as [s|s|s|] eqn:Ed; try done.
  all: unfold event_tenant in *; destruct (truthy_str (ss_tenant_id s)) as [t|]; [done|].
  all: destruct (truthy_str (sub_tenant_id <$> getSubscriptionByStripeId (ss_id s) d)) as [t|] eqn:Et; simpl in H;
    [|by injection H as <-; rewrite Et].
  all: assert (Ht : sub_tenant_id <$> getSubscriptionByStripeId (ss_id s) d1 = sub_tenant_id <$> getSubscriptionByStripeId (ss_id s) d);
    [|by rewrite Ht, Et].
  all: unfold getSubscriptionByStripeId in *; rewrite !stripe_tenant_keys in *; f_equal; f_equal; f_equal.
  all: unfold upsertSubscription in H; destruct (negb _); [done|]; destruct (existsb _ _) eqn:E; injection H as <-;
    [apply merge_keys|exfalso].
  all: rewrite <- stripe_tenant_keys in Et; destruct (head _) as [s0|] eqn:Eh in Et; [|done];
    apply head_Some_elem_of, list_elem_of_filter in Eh as [Hsid Hin];
    apply not_true_iff_false in E; apply E, existsb_exists; exists s0; split; [by apply list_elem_of_In|];
    apply same_sub_spec; simpl in *; split; [|done]; unfold truthy_str in Et; destruct (sub_tenant_id s0); congruence.
Qed.

Lemma applyEvent_twice e e2 ev d d1 : applyEvent e ev d = (Ok tt, d1) → applyEvent e2 ev d1 = (Ok tt, d1).
Proof.
  intros H. rewrite applyEvent_wanted, (wanted_again e e2 ev d d1 H). rewrite applyEvent_wanted in H.
  destruct (wanted e ev d) as [o|]; [by eapply upsert_again|]. by injection H as <-.
Qed.

(** ** The theorems *)

(** C35. A webhook event takes effect once: after a delivery that reports
    [processed: true], and after any further history of webhook requests
    (signed or not, well formed or not, of any events), delivering the same event
    again reports [processed: false] and changes nothing in the database. *)
Theorem webhook_effect_once e b sg d id d1 history e2 b2 sg2 ev2 :
  handleWebhookEvent e b sg d = (Ok (id, true), d1) →
  check_signature e2 sg2 = Ok tt → be_constructEvent e2 b2 (default [] sg2) = Ok ev2 → ev_id ev2 = id →
  handleWebhookEvent e2 b2 sg2 (deliveries history d1) = (Ok (id, false), deliveries history d1).
Proof.
  intros H Hs Hc Hid. apply handle_true, (deliveries_keep_processed history) in H. rewrite (handle_run _ _ _ _ _ Hs Hc), Hid.
  destruct (claimWebhookEvent id _ _) as [rc dc] eqn:E.
  apply claim_spec in E as (bc & -> & _ & _ & _ & Hb & _ & _ & Hsame).
  rewrite (proj2 Hb H). destruct H as (w & t & Hw & _). rewrite Hsame by (rewrite Hw; by eexists). done.
Qed.

(** A delivery that fails is not lost: the failure is a missing tenant, no
    subscription changes, the event stays claimable, and the same delivery
    succeeds as soon as the tenant exists. *)
Theorem webhook_failure_reclaimable e b sg ev d err d1 :
  check_signature e sg = Ok tt → be_constructEvent e b (default [] sg) = Ok ev →
  handleWebhookEvent e b sg d = (Throw err, d1) →
  err = EPg foreign_key_violation ∧ subscriptions d1 = subscriptions d ∧ ¬ processed (ev_id ev) d1 ∧
  ∃ o, wanted e ev d1 = Some o ∧ tenants d1 !! o_tenantId o = None ∧
    ∀ ts, is_Some (ts !! o_tenantId o) →
      ∃ d2, handleWebhookEvent e b sg (set_tenants ts d1) = (Ok (ev_id ev, true), d2) ∧
        is_Some (sub_row (o_tenantId o) (o_stripeSubscriptionId o) d2).
Proof.
  intros Hs Hc H. rewrite (handle_run _ _ _ _ _ Hs Hc) in H. destruct (claimWebhookEvent _ _ d) as [rc dc] eqn:Ecl.
  apply claim_spec in Ecl as (bc & -> & Ht & Hsub & _ & _ & Hun & _ & _). destruct bc; [|done].
  destruct (applyEvent e ev dc) as [[[]|err'] d2] eqn:Ea; [done|]. injection H as <- <-.
  apply applyEvent_outcome in Ea as (_ & _ & _ & -> & -> & o & Ho & Hno). destruct (Hun eq_refl) as (w & Hw & Hwp).
  split_and!; [done|done| |].
  { intros (w' & t & Hw' & Ht'). rewrite Hw in Hw'. congruence. }
  exists o. split_and!; [done..|]. intros ts Hts.
  assert (Ho' : wanted e ev (set_tenants ts dc) = Some o) by exact Ho.
  assert (Hcl : claimWebhookEvent (ev_id ev) (ev_json ev) (set_tenants ts dc) = (Ok true, set_tenants ts dc)).
  { unfold claimWebhookEvent. simpl. by rewrite Hw, Hwp. }
  rewrite (handle_run _ _ _ _ _ Hs Hc), Hcl, applyEvent_wanted, Ho'.
  destruct (upsertSubscription e o (set_tenants ts dc)) as [r d2] eqn:Eu.
  apply upsert_spec in Eu as (-> & _ & _ & (s & Hrow & _) & _); [|done].
  eexists. split; [reflexivity|]. exists s. exact Hrow.
Qed.

(** What a processed delivery writes: the row of the event's tenant and
    subscription gets the event's customer and plan; a subscription event also
    sets status and period end, while a checkout that arrives after the row
    exists (late) leaves both alone; the row keeps its id and creation time,
    every other row is untouched, and there is one row per tenant and
    subscription. *)
Theorem subscription_event_applied e b sg ev d d1 o :
  check_signature e sg = Ok tt → be_constructEvent e b (default [] sg) = Ok ev →
  handleWebhookEvent e b sg d = (Ok (ev_id ev, true), d1) → wanted e ev d = Some o → subs_ok d →
  (∃ s, sub_row (o_tenantId o) (o_stripeSubscriptionId o) d1 = Some s ∧
        written o (sub_row (o_tenantId o) (o_stripeSubscriptionId o) d) s) ∧
  (∀ t sid, (t, sid) ≠ (o_tenantId o, o_stripeSubscriptionId o) → sub_row t sid d1 = sub_row t sid d) ∧
  subs_ok d1.
Proof.
  intros Hs Hc H Ho Hok. rewrite (handle_run _ _ _ _ _ Hs Hc) in H. destruct (claimWebhookEvent _ _ d) as [rc dc] eqn:Ecl.
  apply claim_spec in Ecl as (bc & -> & Ht & Hsub & _). destruct bc; [|done].
  assert (Ho' : wanted e ev dc = Some o).
  { rewrite <- Ho. unfold wanted, event_tenant, getSubscriptionByStripeId. by rewrite Hsub. }
  assert (Hrow : ∀ t sid, sub_row t sid dc = sub_row t sid d) by (intros; unfold sub_row; by rewrite Hsub).
  rewrite applyEvent_wanted, Ho' in H. destruct (tenants dc !! o_tenantId o) as [tn|] eqn:Etn.
  2: { unfold upsertSubscription in H. by rewrite Etn in H. }
  destruct (upsertSubscription e o dc) as [r d2] eqn:Eu.
  apply upsert_spec in Eu as (-> & _ & _ & Hw & Hoth & Hk); [|by rewrite Etn; eexists].
  injection H as <-. setoid_rewrite Hrow in Hw. setoid_rewrite Hrow in Hoth. split_and!; [exact Hw|exact Hoth|].
  apply Hk. unfold subs_ok. by rewrite Hsub.
Qed.

(** Two deliveries of one event may overlap: until the first is marked
    processed, both claims succeed.  Then the event is applied twice, and the
    second application changes nothing. *)
Theorem overlapping_deliveries_harmless e e2 ev d d1 d2 :
  claimWebhookEvent (ev_id ev) (ev_json ev) d = (Ok true, d1) → applyEvent e ev d1 = (Ok tt, d2) →
  claimWebhookEvent (ev_id ev) (ev_json ev) d1 = (Ok true, d1) ∧
  claimWebhookEvent (ev_id ev) (ev_json ev) d2 = (Ok true, d2) ∧
  applyEvent e2 ev d2 = (Ok tt, d2).
Proof.
  intros Hc Ha. apply claim_spec in Hc as (bc & [= <-] & _ & _ & _ & _ & Hun & _). destruct (Hun eq_refl) as (w & Hw & Hwp).
  pose proof (applyEvent_outcome _ _ _ _ _ Ha) as (_ & Hwe & _).
  split_and!; [unfold claimWebhookEvent; by rewrite Hw, Hwp|unfold claimWebhookEvent; by rewrite Hwe, Hw, Hwp|].
  by eapply applyEvent_twice.
Qed.

(** The stored plan never follows the price: a subscription update stores
    the plan of the event's metadata, and the word "unknown" when there is none,
    also when the subscription's price is the configured price of a tier and
    the stored row already named a plan. *)
Theorem plan_ignores_price e ev s d d1 t price tier :
  ev_data ev = SubscriptionUpdated s → event_tenant s d = Some t →
  ss_price_id s = Some price → getTierByPriceId e price = Some tier →
  applyEvent e ev d = (Ok tt, d1) →
  ∃ r, sub_row t (ss_id s) d1 = Some r ∧ sub_plan r = default (js "unknown") (truthy_str (ss_plan s)).
Proof.
  intros Hd Ht _ _ H. rewrite applyEvent_wanted in H. unfold wanted in H. rewrite Hd, Ht in H. simpl in H.
  destruct (tenants d !! t) as [tn|] eqn:Etn.
  2: { unfold upsertSubscription in H. simpl in H. by rewrite Etn in H. }
  apply upsert_spec in H as (_ & _ & _ & (r & Hr & _ & Hp & _) & _); [|simpl; rewrite Etn; by eexists].
  exists r. split; [exact Hr|]. rewrite Hp. simpl. unfold resolvePlan. by destruct (truthy_str (ss_plan s)).
Qed.

(** Order of delivery decides, not the order of Stripe's events: an update
    delivered after the deletion of the same subscription overwrites it, so a
    cancelled subscription is live again. *)
Theorem late_update_revives e e2 ev ev2 s s2 d d1 d2 t :
  ev_data ev = SubscriptionDeleted s → ev_data ev2 = SubscriptionUpdated s2 → ss_id s2 = ss_id s →
  event_tenant s d = Some t → event_tenant s2 d1 = Some t →
  applyEvent e ev d = (Ok tt, d1) → applyEvent e2 ev2 d1 = (Ok tt, d2) →
  (sub_status <$> sub_row t (ss_id s) d1) = Some (js "canceled") ∧
  (sub_status <$> sub_row t (ss_id s) d2) = Some (ss_status s2).
Proof.
  intros Hd Hd2 Hid Ht Ht2 H H2. rewrite applyEvent_wanted in H, H2. unfold wanted in *. rewrite Hd, Ht in H.
  rewrite Hd2, Ht2 in H2. simpl in *.
  destruct (tenants d !! t) as [tn|] eqn:Etn.
  2: { unfold upsertSubscription in H. simpl in H. by rewrite Etn in H. }
  apply upsert_spec in H as (_ & Htn & _ & (r & Hr & _ & _ & Hst) & _); [|simpl; rewrite Etn; by eexists].
  apply upsert_spec in H2 as (_ & _ & _ & (r2 & Hr2 & _ & _ & Hst2) & _); [|simpl; rewrite Htn, Etn; by eexists].
  simpl in *. rewrite Hid in Hr2, Hst2. rewrite Hr, Hr2. simpl. split; f_equal.
  - destruct (sub_row t (ss_id s) d); naive_solver.
  - rewrite Hr in Hst2. naive_solver.
Qed.

(** Unauthenticated webhooks change nothing: with a configured secret a
    request without signature is refused (401), in production a deployment
    without secret refuses all (401), and a body Stripe's library rejects is
    answered 500; in each case the database is as before. *)
Theorem unverified_webhook_refused e b sg d :
  (truthy_str (be_webhook_secret e) ≠ None ∧ truthy_str sg = None) ∨
  (truthy_str (be_webhook_secret e) = None ∧ be_production e = true) ∨
  (∃ msg, be_constructEvent e b (default [] sg) = Throw (EError msg)) →
  ∃ err, handleWebhookEvent e b sg d = (Throw err, d) ∧
    post_webhook e (Some b) sg d = ((status (from err), inl (toResponse (from err))), d) ∧
    (status (from err) = 401 ∨ status (from err) = 500 ∧ check_signature e sg = Ok tt).
Proof.
  intros H. assert (Hh : ∃ err, handleWebhookEvent e b sg d = (Throw err, d) ∧
     (status (from err) = 401 ∨ status (from err) = 500 ∧ check_signature e sg = Ok tt)).
  { unfold handleWebhookEvent, mbind, M_bind, lift. destruct (check_signature e sg) as [[]|err] eqn:Es.
    - destruct H as [[H1 H2]|[[H1 H2]|[msg H]]].
      + unfold check_signature in Es. rewrite H2 in Es. by destruct (truthy_str (be_webhook_secret e)).
      + unfold check_signature in Es. by rewrite H1, H2 in Es.
      + rewrite H. eexists. split; [done|]. by right.
    - exists err. split; [done|left]. unfold check_signature in Es.
      destruct (truthy_str (be_webhook_secret e)), (truthy_str sg), (be_production e); try discriminate Es; injection Es as <-; reflexivity. }
  destruct Hh as (err & Hh & Hst). exists err. split_and!; [done| |done]. unfold post_webhook. by rewrite Hh.
Qed.

(** *** Instances *)

(** A transport that knows four bodies: a checkout, an update to the enterprise
    price without metadata, the deletion, and an update with metadata. *)
Definition toy_sub (plan : option jstr) (status : string) : StripeSubscription :=
  mkStripeSub (js "sub_1") None plan (CustomerObject (js "cus_1")) (js status) (Some 1800000000) (Some (js "price_ent")).
Definition toy_event (n : Z) : option Event :=
  match n with
  | 1 => Some (mkEvent (js "evt_1") (CheckoutCompleted (mkSession (Some (js "ta")) (Some (js "pro")) (Some (js "sub_1"))
                 (Some (CustomerId (js "cus_1"))))) JNull)
  | 2 => Some (mkEvent (js "evt_2") (SubscriptionUpdated (toy_sub None "active")) JNull)
  | 3 => Some (mkEvent (js "evt_3") (SubscriptionDeleted (toy_sub (Some (js "pro")) "canceled")) JNull)
  | _ => None
  end.
Definition toy_billing (now : Z) : benv :=
  mkBenv now (js "row1") (Some (js "price_pro")) (Some (js "price_ent")) (Some (js "https://app/")) (Some (js "whsec")) true
    (λ _ _ _ _ _ _, Ok (js "https://checkout")) (λ _ _, Ok (js "https://portal"))
    (λ b _, match b with [n] => match toy_event n with Some ev => Ok ev | None => Throw (EError (js "bad")) end
                       | _ => Throw (EError (js "bad")) end).
Definition billing_db : db := set_tenants {[ js "ta" := AuthInv.toy_tenant "ta" ]} empty_db.
Definition signed : option jstr := Some (js "sig").
Definition checkout_db : db := (handleWebhookEvent (toy_billing 5) [1] signed billing_db).2.

Lemma webhook_effect_once_witness :
  ∃ d1, handleWebhookEvent (toy_billing 5) [1] signed billing_db = (Ok (js "evt_1", true), d1) ∧
    let d2 := deliveries [(toy_billing 6, [2], signed); (toy_billing 7, [9], None)] d1 in
    handleWebhookEvent (toy_billing 8) [1] signed d2 = (Ok (js "evt_1", false), d2).
Proof.
  edestruct (fst_run (handleWebhookEvent (toy_billing 5) [1] signed billing_db)) as [d1 H]; [vm_compute; reflexivity|].
  exists d1. split; [exact H|]. eapply (webhook_effect_once _ _ _ _ _ _ _ (toy_billing 8) [1] signed _ H); reflexivity.
Defined.

Lemma webhook_failure_reclaimable_witness :
  ∃ err d1 d2, handleWebhookEvent (toy_billing 5) [1] signed empty_db = (Throw err, d1) ∧
    handleWebhookEvent (toy_billing 5) [1] signed (set_tenants {[ js "ta" := AuthInv.toy_tenant "ta" ]} d1) = (Ok (js "evt_1", true), d2).
Proof.
  edestruct (fst_run (handleWebhookEvent (toy_billing 5) [1] signed empty_db)) as [d1 H]; [vm_compute; reflexivity|].
  edestruct (webhook_failure_reclaimable (toy_billing 5) [1] signed) as (_ & _ & _ & o & Ho & _ & Hr);
    [reflexivity|reflexivity|exact H|].
  injection Ho as <-. destruct (Hr {[ js "ta" := AuthInv.toy_tenant "ta" ]}) as (d2 & H2 & _); [vm_compute; eauto|].
  eexists _, d1, d2. split; [exact H|exact H2].
Defined.

(** The update of an existing row. *)
Lemma subscription_event_applied_witness :
  ∃ d1 s, handleWebhookEvent (toy_billing 6) [3] signed checkout_db = (Ok (js "evt_3", true), d1) ∧
    sub_row (js "ta") (js "sub_1") d1 = Some s ∧ sub_status s = js "canceled" ∧ sub_created_at s = 5.
Proof.
  edestruct (fst_run (handleWebhookEvent (toy_billing 6) [3] signed checkout_db)) as [d1 H]; [vm_compute; reflexivity|].
  edestruct (subscription_event_applied (toy_billing 6) [3] signed) as [(s & Hs & Hw) _];
    [reflexivity|reflexivity|exact H|vm_compute; reflexivity| |].
  - apply (bool_decide_unpack _). vm_compute. exact I.
  - exists d1, s. split; [exact H|]. split; [exact Hs|]. vm_compute in Hw. destruct Hw as (_ & _ & _ & Hc & Hst & _).
    split; [exact Hst|exact Hc].
Defined.

Lemma overlapping_deliveries_harmless_witness :
  ∃ ev d1 d2, toy_event 1 = Some ev ∧ claimWebhookEvent (ev_id ev) (ev_json ev) billing_db = (Ok true, d1) ∧
    applyEvent (toy_billing 5) ev d1 = (Ok tt, d2) ∧ applyEvent (toy_billing 6) ev d2 = (Ok tt, d2) ∧
    length (subscriptions d2) = 1%nat.
Proof.
  eexists _, _, _. split; [reflexivity|]. split; [reflexivity|]. split; [vm_compute; reflexivity|]. split; [|reflexivity].
  eapply (overlapping_deliveries_harmless (toy_billing 5) (toy_billing 6) _ billing_db); vm_compute; reflexivity.
Defined.

(** The row said pro, the price is the enterprise tier's; the row ends up unknown. *)
Lemma plan_ignores_price_witness :
  ∃ ev d1 r, toy_event 2 = Some ev ∧ (sub_plan <$> sub_row (js "ta") (js "sub_1") checkout_db) = Some (js "pro") ∧
    (tier_id <$> getTierByPriceId (toy_billing 6) (js "price_ent")) = Some (js "enterprise") ∧
    applyEvent (toy_billing 6) ev checkout_db = (Ok tt, d1) ∧
    sub_row (js "ta") (js "sub_1") d1 = Some r ∧ sub_plan r = js "unknown".
Proof.
  edestruct (fst_run (applyEvent (toy_billing 6) (mkEvent (js "evt_2") (SubscriptionUpdated (toy_sub None "active")) JNull) checkout_db))
    as [d1 H]; [vm_compute; reflexivity|].
  edestruct (plan_ignores_price (toy_billing 6) (mkEvent (js "evt_2") (SubscriptionUpdated (toy_sub None "active")) JNull) (toy_sub None "active") checkout_db d1 (js "ta") (js "price_ent"))
    as (r & Hr & Hp); [reflexivity|vm_compute; reflexivity|reflexivity|vm_compute; reflexivity|exact H|].
  eexists _, d1, r. split; [reflexivity|]. split; [vm_compute; reflexivity|]. split; [vm_compute; reflexivity|].
  split; [exact H|]. split; [exact Hr|exact Hp].
Defined.

Lemma late_update_revives_witness :
  let ev3 := mkEvent (js "evt_3") (SubscriptionDeleted (toy_sub (Some (js "pro")) "canceled")) JNull in
  let ev2 := mkEvent (js "evt_2") (SubscriptionUpdated (toy_sub None "active")) JNull in
  ∃ d1 d2, applyEvent (toy_billing 6) ev3 checkout_db = (Ok tt, d1) ∧ applyEvent (toy_billing 7) ev2 d1 = (Ok tt, d2) ∧
    (sub_status <$> sub_row (js "ta") (js "sub_1") d1) = Some (js "canceled") ∧
    (sub_status <$> sub_row (js "ta") (js "sub_1") d2) = Some (js "active").
Proof.
  intros ev3 ev2. edestruct (fst_run (applyEvent (toy_billing 6) ev3 checkout_db)) as [d1 H]; [vm_compute; reflexivity|].
  assert (Hd1 : d1 = (applyEvent (toy_billing 6) ev3 checkout_db).2) by (by rewrite H).
  edestruct (fst_run (applyEvent (toy_billing 7) ev2 d1)) as [d2 H2]; [rewrite Hd1; vm_compute; reflexivity|].
  exists d1, d2. split; [exact H|]. split; [exact H2|].
  apply (late_update_revives (toy_billing 6) (toy_billing 7) ev3 ev2 (toy_sub (Some (js "pro")) "canceled")
    (toy_sub None "active") checkout_db d1 d2 (js "ta")); [reflexivity..|vm_compute; reflexivity| |exact H|exact H2].
  rewrite Hd1. vm_compute. reflexivity.
Defined.

Lemma unverified_webhook_refused_witness :
  ∃ err, handleWebhookEvent (toy_billing 5) [1] None billing_db = (Throw err, billing_db) ∧ status (from err) = 401.
Proof.
  destruct (unverified_webhook_refused (toy_billing 5) [1] None billing_db) as (err & H & _ & [Hs|[Hs Hc]]).
  - left. split; [discriminate|reflexivity].
  - exists err. split; [exact H|exact Hs].
  - discriminate Hc.
Defined.

End BillingInv.
