(* ===== verification/Access.v ===== *)
(** * Reading and registering: who sees and who may change what

    [src/control-plane/src/domains/tenant/tenantRepository.ts],
    [domains/attestation/attestationRepository.ts] (listing),
    [domains/principal/principalRepository.ts] (listing),
    [domains/edgenode/edgeNodeRepository.ts],
    [domains/sync/syncCursorRepository.ts] (lag), and the routes [tenants.ts],
    [attestations.ts], [principals.ts], [edgeNodes.ts] and the lag route of
    [admin.ts], with their middleware.

    Query parameters arrive as strings, absent ones as [None].  The section
    variables are what the runtime, the driver and the database supply: [Number(s)],
    base64 decoding, the text of an array parameter, and what a JSONB column stores
    for a text. *)

From stdpp Require Import base gmap strings numbers sorting list.
From Stdlib Require Import ZArith Lia.
From S2P Require Import Prelude Json Errors Db SyncLog Principals Attestations Auth.

(** ** [shared/http/defineHandler.ts] *)
Module Handler.

Record ParamDef := mkParam {
  pd_number : bool;                      (** [type: 'number'] *)
  pd_required : bool;                    (** [required !== false] *)
  pd_enum : option (list jstr);
  pd_min : option Z;
  pd_max : option Z }.

Section validate.
Context (Number_ : jstr → number).

Definition validateParam (value : option jstr) (name : jstr) (def : ParamDef) : result exn unit :=
  match value with
  | None => if pd_required def then throw_app BAD_REQUEST (js "Missing required param: " ++ name) else Ok tt
  | Some str =>
      _ ← (if pd_number def then
             let n := Number_ str in
             if isNaN n then throw_app BAD_REQUEST (name ++ js " must be a number")
             else _ ← match pd_min def with
                      | Some m => if num_ltb n (num_of_Z m) then throw_app BAD_REQUEST (name ++ js " must be >= " ++ show_Z m) else Ok tt
                      | None => Ok tt
                      end;
                  match pd_max def with
                  | Some m => if num_ltb (num_of_Z m) n then throw_app BAD_REQUEST (name ++ js " must be <= " ++ show_Z m) else Ok tt
                  | None => Ok tt
                  end
           else Ok tt);
      match pd_enum def with
      | Some l => if bool_decide (str ∈ l) then Ok tt else throw_app BAD_REQUEST (js "Invalid value for " ++ name ++ js ": " ++ str)
      | None => Ok tt
      end
  end.

(** The loop over [config.query] (and, before it, [config.params]). *)
Fixpoint validate_all (q : list (jstr * ParamDef * option jstr)) : result exn unit :=
  match q with
  | [] => Ok tt
  | (name, def, value) :: q' => _ ← validateParam value name def; validate_all q'
  end.

End validate.

(** [parseInt(s, 10)]: white space, a sign, then digits; [None] is NaN. *)
Fixpoint take_digits (s : jstr) : jstr :=
  match s with c :: s' => if is_digit c then c :: take_digits s' else [] | [] => [] end.

Definition parseInt (s : jstr) : option Z :=
  let '(neg, rest) := match drop_while is_space s with
                      | 45 :: r => (true, r)
                      | 43 :: r => (false, r)
                      | r => (false, r)
                      end in
  match take_digits rest with
  | [] => None
  | ds => Some (if (neg : bool) then - digits_value ds else digits_value ds)
  end.

(** [req.query.limit ? parseInt(req.query.limit, 10) : undefined] followed by
    [opts.limit || dflt]: NaN and 0 are falsy. *)
Definition page_param (q : option jstr) (dflt : Z) : Z :=
  match q with
  | Some (c :: s) => match parseInt (c :: s) with Some 0 | None => dflt | Some n => n end
  | _ => dflt
  end.

Definition LIMIT_200 : ParamDef := mkParam true false None (Some 1) (Some 200).
Definition OFFSET : ParamDef := mkParam true false None (Some 0) None.
Definition STRING_OPTIONAL : ParamDef := mkParam false false None None None.

End Handler.

(** LIMIT and OFFSET of a query; a negative one is an error (2201W, 2201X). *)
Definition page {A} (limit offset : Z) (l : list A) : result exn (list A) :=
  if limit <? 0 then Throw (EPg (js "2201W")) else if offset <? 0 then Throw (EPg (js "2201X"))
  else Ok (take (Z.to_nat limit) (drop (Z.to_nat offset) l)).

(** ** [tenantRepository.ts] and GET /v1/tenants *)
Module Tenants.
Import Membership Auth Guards.

Definition newest_tenant (a b : Tenant) : bool := t_created_at b <=? t_created_at a.

Definition listTenants (d : db) : list Tenant := sort_by newest_tenant (map_to_list (tenants d)).*2.

Definition listTenantsForUser (userId : jstr) (d : db) : list Tenant :=
  sort_by newest_tenant
    (omap (λ '((u, t), _), if bool_decide (u = userId) then tenants d !! t else None) (map_to_list (tenant_memberships d))).

Definition getTenantById (id : jstr) (d : db) : option Tenant := tenants d !! id.

Definition get_tenants (e : aenv) (h : headers) : M (list Tenant) :=
  u ← authMiddleware e h;
  reads (λ d,
    if isPlatformStaff (Some u) then listTenants d
    else match u with
         | OidcUser (c :: uid) _ _ _ _ _ => listTenantsForUser (c :: uid) d
         | _ => match tenant_of u with
                | Some (c :: t) => match getTenantById (c :: t) d with Some own => [own] | None => [] end
                | _ => []
                end
         end).

End Tenants.

(** ** Attestation listing: [listAttestations] and GET /v1/attestations *)
Module AttestationReads.
Import Membership Auth Guards Handler.

Definition owner (p : jstr) (d : db) : option jstr := principals d !! p ≫= p_owner_tenant_id.

Definition owned_by (ids : list jstr) (p : jstr) (d : db) : bool :=
  match owner p d with Some t => bool_decide (t ∈ ids) | None => false end.

Definition row_visible (isStaff : bool) (callerTenantIds : list jstr) (a : Attestation) (d : db) : bool :=
  isStaff || bool_decide (a_visibility a = js "public") ||
  match callerTenantIds with
  | [] => false
  | ids => owned_by ids (a_issuer_id a) d || owned_by ids (a_subject_id a) d
  end.

Record ListOpts := mkListOpts {
  lo_issuerId : option jstr; lo_subjectId : option jstr; lo_limit : Z; lo_offset : Z;
  lo_callerTenantIds : list jstr; lo_isStaff : bool }.

Definition matches_filter (f : option jstr) (x : jstr) : bool :=
  match f with Some (c :: s) => bool_decide (x = c :: s) | _ => true end.

Definition newest_attestation (a b : Attestation) : bool := a_received_at b <=? a_received_at a.

(** The rows of the WHERE clause, in the order of the query. *)
Definition selected_rows (o : ListOpts) (d : db) : list Attestation :=
  sort_by newest_attestation
    (filter (λ a, matches_filter (lo_issuerId o) (a_issuer_id a) && matches_filter (lo_subjectId o) (a_subject_id a)
                  && row_visible (lo_isStaff o) (lo_callerTenantIds o) a d = true) (map_to_list (attestations d)).*2).

Definition listAttestations (o : ListOpts) (d : db) : result exn (list Attestation * Z) :=
  items ← page (lo_limit o) (lo_offset o) (selected_rows o d);
  Ok (items, Z.of_nat (length (selected_rows o d))).

Section route.
Context (Number_ : jstr → number).

Definition is_staff_user (u : user) : bool := match u with OidcUser _ _ _ _ _ s => s | ApiKeyUser _ _ _ => false end.

Definition get_attestations (e : aenv) (h : headers) (issuer_id subject_id limit offset : option jstr) :
  M (list Attestation * Z) :=
  u ← authMiddleware e h;
  _ ← lift (requireScope (js "attest:read") (Some u));
  _ ← lift (validate_all Number_ [(js "issuer_id", STRING_OPTIONAL, issuer_id); (js "subject_id", STRING_OPTIONAL, subject_id);
                                  (js "limit", LIMIT_200, limit); (js "offset", OFFSET, offset)]);
  r ← reads (listAttestations (mkListOpts issuer_id subject_id (page_param limit 50) (page_param offset 0)
                                 (resolveCallerTenantIds (Some u)) (is_staff_user u)));
  lift r.

Definition post_attestation (a : aenv) (e : Attestations.env) (h : headers) (body : json) : M (Attestation * bool) :=
  u ← authMiddleware a h;
  _ ← lift (requireScope (js "attest:write") (Some u));
  match get body "token" with
  | JStr (c :: t) => AttestationService.submitAttestation e (c :: t)
  | _ => lift (throw_app BAD_REQUEST (js "Missing required field: token"))
  end.

End route.
End AttestationReads.

(** ** [routes/principals.ts] *)
Module PrincipalRoutes.
Import Auth Guards Handler PrincipalRepo.

(** A non-revoked key whose control was proved. *)
Definition assurance_level (p : jstr) (d : db) : jstr :=
  if existsb (λ k, bool_decide (k_revoked_at k = None) && bool_decide (is_Some (k_control_verified_at k))) (keys_of p d)
  then js "verified_key" else js "unknown".

Definition newest_principal (a b : Principal) : bool := p_first_seen_at b <=? p_first_seen_at a.

Definition listPrincipals (tenantId entityKind : option jstr) (limit offset : Z) (d : db) :
  result exn (list (Principal * jstr) * Z) :=
  let rows := filter (λ p,
      match tenantId with Some (c :: t) => bool_decide (p_owner_tenant_id p = Some (c :: t)) | _ => true end
      && match entityKind with Some (c :: k) => bool_decide (p_entity_kind p = c :: k) | _ => true end = true)
    (map_to_list (principals d)).*2 in
  match page limit offset (sort_by newest_principal rows) with
  | Throw x => Throw x
  | Ok items => Ok ((λ p, (p, assurance_level (p_id p) d)) <$> items, Z.of_nat (length rows))
  end.

Section routes.
Context (Number_ : jstr → number) (base64 : jstr → list Z) (pg_array : list json → jstr)
        (jsonb_in : jstr → result jstr json).

Definition ENTITY_KIND : ParamDef := mkParam false false (Some entity_kinds) None None.

Definition get_principals (e : aenv) (h : headers) (entity_kind limit offset : option jstr) :
  M (list (Principal * jstr) * Z) :=
  u ← authMiddleware e h;
  _ ← lift (validate_all Number_ [(js "entity_kind", ENTITY_KIND, entity_kind); (js "limit", LIMIT_200, limit);
                                  (js "offset", OFFSET, offset)]);
  r ← reads (listPrincipals (tenant_of u) entity_kind (page_param limit 50) (page_param offset 0));
  lift r.

Definition truthy_tenant (t : option jstr) : option jstr := match t with Some [] => None | t => t end.

Definition post_principal (e : aenv) (uuid : jstr) (h : headers) (body : json) : M (option Principal) :=
  u ← authMiddleware e h;
  match get body "entity_kind" with
  | JStr k =>
      if bool_decide (k ∈ entity_kinds)
      then PrincipalService.createPrincipal (ae_now e) uuid k (truthy_tenant (tenant_of u)) (pg_text pg_array (get body "name"))
      else lift (throw_app BAD_REQUEST (js "entity_kind must be one of: agent, issuer, both"))
  | _ => lift (throw_app BAD_REQUEST (js "entity_kind must be one of: agent, issuer, both"))
  end.

Definition get_principal (e : aenv) (h : headers) (id : jstr) : M Principal :=
  _ ← authMiddleware e h; PrincipalService.getPrincipal id.

(** A NULL in a NOT NULL column of principal_keys is refused before the other
    constraints are checked, a text that is not JSON before that. *)
Definition post_key (e : aenv) (h : headers) (id : jstr) (body : json) : M PrincipalKey :=
  _ ← authMiddleware e h;
  match get body "public_key_raw" with
  | JStr (c :: raw) =>
      let jwk := get body "public_key_jwk" in
      match pg_text pg_array (get body "key_id"), pg_text pg_array (get body "key_hash") with
      | Some key_id, Some key_hash =>
          PrincipalService.addKey pg_array jsonb_in (ae_now e) id key_id (base64 (c :: raw)) jwk key_hash
      | _, _ =>
          _ ← PrincipalService.getPrincipal id; _ ← lift (jsonb_param pg_array jsonb_in jwk);
          throw (EPg not_null_violation)
      end
  | _ => lift (throw_app BAD_REQUEST (js "public_key_raw is required and must be a base64 string"))
  end.

Definition get_keys (e : aenv) (h : headers) (id : jstr) : M (list PrincipalKey) :=
  _ ← authMiddleware e h; PrincipalService.listKeys id.

End routes.
End PrincipalRoutes.

(** ** The edge fleet *)
Module EdgeFleet.
Import SyncLog Auth Guards.

Record EdgeNodeRow := mkEdgeRow {
  er_node : EdgeNode; er_cursor : option SyncCursor; er_high_water : Z; er_lag : Z }.

Definition oldest_node (a b : EdgeNode) : bool :=
  (en_created_at a <? en_created_at b) || ((en_created_at a =? en_created_at b) && unit_le (en_id a) (en_id b)).

(** Lag against the global high-water mark; an edge that never synced has cursor 0. *)
Definition edge_row (d : db) (n : EdgeNode) : EdgeNodeRow :=
  let sc := sync_cursors d !! (en_tenant_id n, en_id n) in
  let hw := max_or_zero (se_sync_version <$> sync_events d) in
  mkEdgeRow n sc hw (hw - match sc with Some c => sc_last_cursor c | None => 0 end).

Definition listEdgeNodesForTenant (tenantId : jstr) (d : db) : list EdgeNodeRow :=
  edge_row d <$> sort_by oldest_node (filter (λ n, en_tenant_id n = tenantId) (map_to_list (edge_nodes d)).*2).

Record SyncLagRow := mkLagRow {
  lag_tenant_id : jstr; lag_edge_node_id : jstr; lag_edge_name : jstr; lag_last_cursor : Z;
  lag_high_water : Z; lag_lag : Z; lag_last_sync_at : option Z }.

Definition lag_le (a b : SyncLagRow) : bool :=
  (lag_lag b <? lag_lag a) ||
  ((lag_lag a =? lag_lag b) &&
   ((unit_le (lag_tenant_id a) (lag_tenant_id b) && negb (bool_decide (lag_tenant_id a = lag_tenant_id b))) ||
    (bool_decide (lag_tenant_id a = lag_tenant_id b) && unit_le (lag_edge_node_id a) (lag_edge_node_id b)))).

Definition lag_row (d : db) (kv : jstr * jstr * SyncCursor) : option SyncLagRow :=
  let '((t, n), sc) := kv in
  match edge_nodes d !! n with
  | Some en =>
      if bool_decide (en_tenant_id en = t) then
        let hw := max_or_zero (se_sync_version <$> sync_events d) in
        Some (mkLagRow t n (en_name en) (sc_last_cursor sc) hw (hw - sc_last_cursor sc) (sc_last_sync_at sc))
      else None
  | None => None
  end.

Definition listSyncLag (tenantId : option jstr) (d : db) : list SyncLagRow :=
  sort_by lag_le
    (filter (λ r, match tenantId with Some t => bool_decide (lag_tenant_id r = t) | None => true end = true)
       (omap (lag_row d) (map_to_list (sync_cursors d)))).

Definition get_edge_nodes (e : aenv) (h : headers) : M (list EdgeNodeRow) :=
  u ← authMiddleware e h;
  tenantId ← lift (requireTenant u);
  reads (listEdgeNodesForTenant tenantId).

(** GET /v1/admin/sync/lag, behind [requireStaff]. *)
Definition get_sync_lag (e : aenv) (h : headers) : M (list SyncLagRow) :=
  u ← authMiddleware e h;
  _ ← lift (requireStaff (Some u));
  if AttestationReads.is_staff_user u then reads (listSyncLag None)
  else match tenant_of u with
       | Some (c :: t) => reads (listSyncLag (Some (c :: t)))
       | _ => lift (forbidden (js "Tenant required"))
       end.

End EdgeFleet.

(** ** Properties *)
Module AccessInv.
Import Membership Auth Guards Tenants AttestationReads PrincipalRoutes EdgeFleet PrincipalRepo Handler.

Lemma page_Ok {A} limit offset (l items : list A) :
  page limit offset l = Ok items →
  0 ≤ limit ∧ 0 ≤ offset ∧ items = take (Z.to_nat limit) (drop (Z.to_nat offset) l) ∧ ∀ x, x ∈ items → x ∈ l.
Proof.
  unfold page. destruct (limit <? 0) eqn:E1; [done|]. destruct (offset <? 0) eqn:E2; [done|].
  apply Z.ltb_ge in E1, E2. intros [= <-]. split_and!; [done..|]. intros x Hx.
  apply elem_of_take in Hx as (i & Hi & _). rewrite lookup_drop in Hi. by eapply list_elem_of_lookup_2.
Qed.

(** Who may read an attestation row, as the product states it. *)
Definition may_read (u : user) (a : Attestation) (d : db) : Prop :=
  is_staff_user u = true ∨ a_visibility a = js "public" ∨
  ∃ t, t ∈ resolveCallerTenantIds (Some u) ∧ (owner (a_issuer_id a) d = Some t ∨ owner (a_subject_id a) d = Some t).

Lemma owned_by_true ids p d : owned_by ids p d = true ↔ ∃ t, t ∈ ids ∧ owner p d = Some t.
Proof.
  unfold owned_by. destruct (owner p d) as [t|]; [|split; [done|by intros (? & _ & ?)]].
  rewrite bool_decide_eq_true. split; [eauto|]. by intros (? & ? & [= ->]).
Qed.

Lemma row_visible_may_read u a d :
  row_visible (is_staff_user u) (resolveCallerTenantIds (Some u)) a d = true ↔ may_read u a d.
Proof.
  unfold row_visible, may_read. destruct (resolveCallerTenantIds (Some u)) as [|t0 ids];
    rewrite !orb_true_iff, bool_decide_eq_true.
  - split; [intros [[?|?]|?]; [tauto|tauto|done]|]. intros [?|[?|(? & ?%not_elem_of_nil & _)]]; tauto.
  - rewrite !owned_by_true. firstorder.
Qed.

Lemma listAttestations_Ok o d items total :
  listAttestations o d = Ok (items, total) →
  page (lo_limit o) (lo_offset o) (selected_rows o d) = Ok items ∧ total = Z.of_nat (length (selected_rows o d)).
Proof. unfold listAttestations. intros (i & Hp & [= <- <-])%bind_Ok. done. Qed.

(** Reading the list changes nothing beyond what authentication did. *)
Lemma get_attestations_Ok N e h i s l o d items total d' :
  get_attestations N e h i s l o d = (Ok (items, total), d') →
  ∃ u, authMiddleware e h d = (Ok u, d') ∧ requireScope (js "attest:read") (Some u) = Ok tt ∧
    listAttestations (mkListOpts i s (page_param l 50) (page_param o 0) (resolveCallerTenantIds (Some u)) (is_staff_user u)) d'
      = Ok (items, total).
Proof.
  unfold get_attestations. intros (u & d1 & Hu & H)%M_bind_Ok. exists u.
  apply M_bind_Ok in H as ([] & d2 & [Hs ->]%lift_Ok & H). apply M_bind_Ok in H as ([] & d2 & [_ ->]%lift_Ok & H).
  apply M_bind_Ok in H as (r & d2 & Hr & H). injection Hr as <- <-. apply lift_Ok in H as [H ->]. done.
Qed.

(** C32. Restricted attestations stay restricted: every row GET /v1/attestations
    returns may be read by the caller (staff, public, or a tenant the caller
    represents owns the issuer or the subject); the total is the number of all
    such rows that match the issuer and subject filters, and the page is the
    requested slice of them, newest first. *)
Theorem attestation_list_confidential N e h i s l o d items total d' :
  get_attestations N e h i s l o d = (Ok (items, total), d') →
  ∃ u rows, authMiddleware e h d = (Ok u, d') ∧
    (∀ a, a ∈ rows ↔ (∃ id, attestations d' !! id = Some a) ∧ may_read u a d' ∧
            matches_filter i (a_issuer_id a) = true ∧ matches_filter s (a_subject_id a) = true) ∧
    StronglySorted (λ a b, a_received_at b ≤ a_received_at a) rows ∧
    total = Z.of_nat (length rows) ∧
    items = take (Z.to_nat (page_param l 50)) (drop (Z.to_nat (page_param o 0)) rows).
Proof.
  intros (u & Hu & _ & Hl)%get_attestations_Ok. apply listAttestations_Ok in Hl as [Hp ->].
  exists u, (selected_rows (mkListOpts i s (page_param l 50) (page_param o 0) (resolveCallerTenantIds (Some u)) (is_staff_user u)) d').
  split_and!; [done| | |done|by apply page_Ok in Hp as (_ & _ & -> & _)].
  - intros a. unfold selected_rows. simpl. rewrite sort_by_elem, list_elem_of_filter, elem_of_values, !andb_true_iff, row_visible_may_read.
    tauto.
  - apply (sort_by_desc a_received_at).
Qed.

(** The tenants a caller is told about. *)
Definition may_see_tenant (u : user) (t : jstr) (d : db) : Prop :=
  isPlatformStaff (Some u) = true ∨
  match u with
  | OidcUser uid _ _ _ _ _ => is_Some (tenant_memberships d !! (uid, t))
  | ApiKeyUser _ tid _ => t = tid
  end.

Lemma listTenantsForUser_elem uid d x :
  x ∈ listTenantsForUser uid d ↔ ∃ t r, tenant_memberships d !! (uid, t) = Some r ∧ tenants d !! t = Some x.
Proof.
  unfold listTenantsForUser. rewrite sort_by_elem, list_elem_of_omap. split.
  - intros ([[u t] r] & Hin%elem_of_map_to_list & Hx). case_bool_decide; simplify_eq. eauto.
  - intros (t & r & Hm & Ht). exists ((uid, t), r). rewrite bool_decide_true by done. split; [by apply elem_of_map_to_list|done].
Qed.

(** The id of an OIDC caller is a stored user's. *)
Lemma authMiddleware_uid e h d uid tid role ids roles st d' :
  authMiddleware e h d = (Ok (OidcUser uid tid role ids roles st), d') → is_Some (users d' !! uid).
Proof.
  intros [tok H]%AuthInv.authMiddleware_oidc. apply AuthInv.authenticateOidc_Ok in H as (usr & p & t & r & _ & _ & _ & Hus & _ & _ & [= -> _ _ _ _ _]).
  rewrite Hus. by eexists.
Qed.

(** GET /v1/tenants answers exactly the stored tenants the caller may see:
    all of them for platform staff, those with a membership row for an OIDC
    user, the key's own tenant for an API key. *)
Theorem tenants_listing_scoped e h d l d' :
  (∀ k x, tenants d' !! k = Some x → k ≠ []) →
  (∀ k x, users d' !! k = Some x → k ≠ []) →
  get_tenants e h d = (Ok l, d') →
  ∃ u, authMiddleware e h d = (Ok u, d') ∧
    ∀ x, x ∈ l ↔ ∃ t, tenants d' !! t = Some x ∧ may_see_tenant u t d'.
Proof.
  intros Hne Hue H. unfold get_tenants in H. apply M_bind_Ok in H as (u & d1 & Hu & H). injection H as <- <-.
  exists u. split; [done|]. intros x. unfold may_see_tenant. destruct (isPlatformStaff (Some u)) eqn:Est.
  { unfold isPlatformStaff in Est. rewrite Est. unfold listTenants. rewrite sort_by_elem, elem_of_values. split; [intros [t Ht]; eauto|]. intros (t & Ht & _). eauto. }
  unfold isPlatformStaff in Est. rewrite Est. destruct u as [kid tid sc|uid tid role ids roles st].
  - simpl. destruct tid as [|c t].
    + split; [by intros ?%not_elem_of_nil|]. intros (t & Ht & [?| ->]); [done|]. by apply Hne in Ht.
    + unfold getTenantById. destruct (tenants d1 !! (c :: t)) as [own|] eqn:E.
      * rewrite list_elem_of_singleton. split; [intros ->; eauto|]. intros (t' & Ht & [?| ->]); congruence.
      * split; [by intros ?%not_elem_of_nil|]. intros (t' & Ht & [?| ->]); congruence.
  - assert (Hun : uid ≠ []).
    { apply authMiddleware_uid in Hu as [usr Hus]. by eapply Hue. }
    destruct uid as [|c uid]; [done|]. rewrite listTenantsForUser_elem. split.
    + intros (t & r & Hm & Ht). exists t. split; [done|]. right. by exists r.
    + intros (t & Ht & [?|[r Hr]]); [done|]. eauto.
Qed.

Lemma key_hash_taken_false h d :
  map_Forall (λ _ k, k_key_hash k ≠ h) (principal_keys d) → key_hash_taken h d = false.
Proof.
  intros Hf. unfold key_hash_taken. apply bool_decide_eq_false. intros Hex. apply Exists_exists in Hex as (k & Hk & Heq).
  apply elem_of_values in Hk as [i Hi]. by apply Hf in Hi.
Qed.

(** C31. Keys of other tenants' principals: POST /v1/principals/:id/keys asks for
    authentication and for nothing else.  Whoever the caller is and whoever owns
    the principal, a new key id and hash (without NUL characters) are stored with the
    caller's public key, and from then on that key is the one against which
    attestations naming this issuer and key id are verified.  The JWK must be one
    that the JSONB column takes, as it does the JSON of an object: for a JWK it
    refuses (a string that is no JSON text, an array with elements) the request fails
    with the database's error and nothing is stored. *)
Theorem any_caller_adds_key b64 arr jsonb e h d u d1 p r kid raw jwk hash t :
  authMiddleware e h d = (Ok u, d1) → principals d1 !! p = Some r → raw ≠ [] → is_nullish jwk = false →
  principal_keys d1 !! (p, kid) = None → map_Forall (λ _ k, k_key_hash k ≠ hash) (principal_keys d1) →
  nul_free kid → nul_free hash → ae_now e ≤ t →
  let response := post_key b64 arr jsonb e h p (JObj [(js "public_key_raw", JStr raw); (js "key_id", JStr kid);
                                        (js "public_key_jwk", jwk); (js "key_hash", JStr hash)]) d in
  match jsonb (default [] (pg_text arr jwk)) with
  | Throw sqlstate => sqlstate ≠ unique_violation → response = (Throw (EPg sqlstate), d1)
  | Ok stored =>
      ∃ k d2, response = (Ok k, d2) ∧
      k_principal_id k = p ∧ k_public_key_raw k = b64 raw ∧ k_public_key_jwk k = stored ∧
      AttestationService.candidate_keys p (Some kid) (Some t) d2 = (Ok [k], d2) ∧
      issuers d2 = issuers d1 ∧ principals d2 = principals d1
  end.
Proof.
  intros Hu Hp Hraw Hj Hk Hh _ _ Ht response. apply key_hash_taken_false in Hh.
  assert (Hresp : response = PrincipalService.addKey arr jsonb (ae_now e) p kid (b64 raw) jwk hash d1).
  { unfold response, post_key. rewrite (M_bind_run _ _ _ _ _ Hu). by destruct raw. }
  assert (Hjwk : jsonb_param arr jsonb jwk =
    match jsonb (default [] (pg_text arr jwk)) with Ok stored => Ok (Some stored) | Throw c => Throw (EPg c) end)
    by (unfold jsonb_param; by destruct jwk).
  assert (Hadd : PrincipalService.addKey arr jsonb (ae_now e) p kid (b64 raw) jwk hash d1 =
    catch (PrincipalRepo.addKey arr jsonb (ae_now e) p kid (b64 raw) jwk hash) (λ x,
      if has_sqlstate unique_violation x
      then lift (throw_app CONFLICT (js "Key already registered (duplicate key_id or key_hash)"))
      else throw x) d1).
  { unfold PrincipalService.addKey, PrincipalService.getPrincipal, getPrincipal, mbind, M_bind, reads. by rewrite Hp. }
  rewrite Hresp, Hadd. unfold catch, addKey. rewrite Hjwk. destruct (jsonb _) as [stored|c].
  2:{ intros Hc. cbn [has_sqlstate]. by rewrite bool_decide_eq_false_2. }
  rewrite Hk, Hh, Hp.
  eexists _, _. split; [reflexivity|]. split_and!; [done..| |done|done].
  unfold AttestationService.candidate_keys, getKeyByKid, mbind, M_bind, reads. simpl. rewrite lookup_insert_eq.
  unfold key_active_at. simpl. by rewrite (proj2 (Z.leb_le _ _) Ht).
Qed.

Lemma lag_row_Some d kv r :
  lag_row d kv = Some r →
  lag_tenant_id r = kv.1.1 ∧ lag_edge_node_id r = kv.1.2 ∧ lag_high_water r = max_or_zero (se_sync_version <$> sync_events d) ∧
  lag_lag r = lag_high_water r - lag_last_cursor r ∧ lag_last_cursor r = sc_last_cursor kv.2.
Proof.
  destruct kv as [[t n] sc]. unfold lag_row. destruct (edge_nodes d !! n) as [en|]; [|done].
  case_bool_decide; [|done]. by intros [= <-].
Qed.

(** The lag report is scoped and exact: it is refused to callers that are
    not staff; an [admin:read] key sees its own tenant's edges only; and each row
    is a stored cursor with its distance to the newest event.  Hence, once the
    cursor of an edge is the high-water mark, its lag is 0. *)
Theorem sync_lag_scoped e h d l d' :
  get_sync_lag e h d = (Ok l, d') →
  ∃ u, authMiddleware e h d = (Ok u, d') ∧ isPlatformStaff (Some u) = true ∧
    ∀ r, r ∈ l →
      (is_staff_user u = true ∨ tenant_of u = Some (lag_tenant_id r)) ∧
      (∃ sc, sync_cursors d' !! (lag_tenant_id r, lag_edge_node_id r) = Some sc ∧
             lag_lag r = SyncLog.high_water d' - sc_last_cursor sc).
Proof.
  intros H. unfold get_sync_lag in H. apply M_bind_Ok in H as (u & d1 & Hu & H).
  apply M_bind_Ok in H as ([] & d2 & [Hs ->]%lift_Ok & H). exists u.
  assert (Hrow : ∀ tid r, r ∈ listSyncLag tid d1 →
     match tid with Some t => lag_tenant_id r = t | None => True end ∧
     ∃ sc, sync_cursors d1 !! (lag_tenant_id r, lag_edge_node_id r) = Some sc ∧
           lag_lag r = SyncLog.high_water d1 - sc_last_cursor sc).
  { intros tid r Hr. unfold listSyncLag in Hr. rewrite sort_by_elem in Hr. apply list_elem_of_filter in Hr as [Ht Hr].
    apply list_elem_of_omap in Hr as ([[t n] sc] & Hin%elem_of_map_to_list & (E1 & E2 & E3 & E4 & E5)%lag_row_Some).
    simpl in *. split; [destruct tid; [by apply bool_decide_eq_true in Ht|done]|].
    exists sc. rewrite E1, E2. split; [done|]. rewrite E4, E3, E5. reflexivity. }
  assert (Hstaff : isPlatformStaff (Some u) = true).
  { unfold requireStaff in Hs. unfold isPlatformStaff. destruct u as [? ? sc|? ? ? ? ? []]; [|done|done].
    by destruct (bool_decide _). }
  destruct (is_staff_user u) eqn:Eu.
  - injection H as <- <-. split_and!; [done..|]. intros r Hr. split; [by left|]. by apply (Hrow None).
  - destruct (tenant_of u) as [[|c t]|] eqn:Et; [by apply lift_Ok in H as [[=] _]| |by apply lift_Ok in H as [[=] _]].
    injection H as <- <-. split_and!; [done..|]. intros r Hr. destruct (Hrow (Some (c :: t)) r Hr) as [Hrt Hsc].
    split; [right; by rewrite Hrt|done].
Qed.

(** *** Instances *)

Definition owned_issuer : Principal :=
  mkPrincipal (js "vrl:p:1") (js "issuer") None (Some (js "ta")) (JObj []) 0 0 (js "active").

(** An issuer of tenant [ta], two attestations of it, and a scopeless key of [tb]. *)
Definition toy_att (id vis : string) (at_ : Z) : Attestation :=
  mkAttestation (js id) (js "vrl:p:1") (js "vrl:p:2") (js id) (js id) JNull JNull (js id) (js vis) 5 (js "kyb") (js "1")
    None None 0 None None true (js "k1") at_ false.
Definition shared_db : db :=
  set_attestations {[ js "a1" := toy_att "a1" "public" 1; js "a2" := toy_att "a2" "participants" 2 ]}
    (set_issuers {[ js "vrl:p:1" := mkIssuer (js "vrl:p:1") 100 false None 0 ]}
      (set_principals {[ js "vrl:p:1" := owned_issuer ]} AuthInv.with_scopeless_key)).
Definition reader_db : db :=
  set_api_keys {[ js "k0" := mkApiKey (js "k0") (js "tb") (js "vrl_000") (js "h:" ++ AuthInv.a_key_secret) [js "attest:read"] None 0 None ]} shared_db.
Definition key_headers : headers := mkHeaders None (Some AuthInv.a_key_secret) None.
Definition toy_number (s : jstr) : number := match parseInt s with Some z => num_of_Z z | None => NaN end.

(** The key of [tb] does not see the restricted attestation of [ta]'s issuer. *)
Lemma attestation_list_confidential_witness :
  ∃ items total d' u, get_attestations toy_number (AuthInv.toy_env "k9" 49) key_headers None None (Some (js "10")) None reader_db
      = (Ok (items, total), d') ∧
    authMiddleware (AuthInv.toy_env "k9" 49) key_headers reader_db = (Ok u, d') ∧
    items = [toy_att "a1" "public" 1] ∧ total = 1.
Proof.
  edestruct (fst_run (get_attestations toy_number (AuthInv.toy_env "k9" 49) key_headers None None (Some (js "10")) None reader_db))
    as [d' H]; [vm_compute; reflexivity|].
  destruct (attestation_list_confidential _ _ _ _ _ _ _ _ _ _ _ H) as (u & rows & Hu & _).
  eexists _, _, d', u. split; [exact H|]. split; [exact Hu|]. split; vm_compute; reflexivity.
Defined.

Lemma tenants_listing_scoped_witness :
  ∃ l d' u, get_tenants (AuthInv.toy_env "k9" 49) key_headers shared_db = (Ok l, d') ∧
    authMiddleware (AuthInv.toy_env "k9" 49) key_headers shared_db = (Ok u, d') ∧ l = [AuthInv.toy_tenant "tb"].
Proof.
  edestruct (fst_run (get_tenants (AuthInv.toy_env "k9" 49) key_headers shared_db)) as [d' H]; [vm_compute; reflexivity|].
  assert (Hd' : d' = (get_tenants (AuthInv.toy_env "k9" 49) key_headers shared_db).2) by (by rewrite H).
  edestruct (tenants_listing_scoped (AuthInv.toy_env "k9" 49) key_headers shared_db) as (u & Hu & _); [| |exact H|].
  - rewrite Hd'. apply (bool_decide_unpack (map_Forall (λ k (_ : Tenant), k ≠ []) _)). vm_compute. exact I.
  - rewrite Hd'. apply (bool_decide_unpack (map_Forall (λ k (_ : User), k ≠ []) _)). vm_compute. exact I.
  - eexists _, d', u. split; [exact H|]. split; [exact Hu|]. vm_compute. reflexivity.
Defined.

(** A JSONB column that knows the text of one object. *)
Definition toy_jsonb (text : jstr) : result jstr json := if decide (text = js "{}") then Ok (JObj []) else Throw (js "22P02").

(** A scopeless key of [tb] plants a key on [ta]'s issuer. *)
Lemma any_caller_adds_key_witness :
  ∃ k d2, post_key (λ s, s) (λ _, js "{1}") toy_jsonb (AuthInv.toy_env "k9" 49) key_headers (js "vrl:p:1")
      (JObj [(js "public_key_raw", JStr (js "AAAA")); (js "key_id", JStr (js "evil"));
             (js "public_key_jwk", JObj []); (js "key_hash", JStr (js "h"))]) shared_db = (Ok k, d2) ∧
    (p_owner_tenant_id <$> principals shared_db !! js "vrl:p:1") = Some (Some (js "ta")) ∧
    AttestationService.candidate_keys (js "vrl:p:1") (Some (js "evil")) (Some 2000) d2 = (Ok [k], d2).
Proof.
  edestruct (fst_run (authMiddleware (AuthInv.toy_env "k9" 49) key_headers shared_db)) as [d1 Hu]; [vm_compute; reflexivity|].
  assert (Hd1 : d1 = (authMiddleware (AuthInv.toy_env "k9" 49) key_headers shared_db).2) by (by rewrite Hu).
  edestruct (any_caller_adds_key (λ s, s) (λ _, js "{1}") toy_jsonb (AuthInv.toy_env "k9" 49) key_headers shared_db _ d1 (js "vrl:p:1")
    owned_issuer (js "evil") (js "AAAA") (JObj []) (js "h") 2000 Hu) as (k & d2 & H & _ & _ & _ & Hc & _).
  - rewrite Hd1. vm_compute. reflexivity.
  - discriminate.
  - reflexivity.
  - rewrite Hd1. vm_compute. reflexivity.
  - rewrite Hd1. apply map_Forall_empty.
  - apply (bool_decide_unpack _). vm_compute. exact I.
  - apply (bool_decide_unpack _). vm_compute. exact I.
  - vm_compute. discriminate.
  - exists k, d2. split; [exact H|]. split; [vm_compute; reflexivity|exact Hc].
Defined.

End AccessInv.
