(* ===== verification/DecisionReads.v ===== *)
(** * Reading decisions back

    [src/control-plane/src/lib/timeWindow.ts],
    [domains/decision/decisionReadRepository.ts] and the routes of
    [routes/decisions.ts].  The date parser of the runtime is the section
    variable [Date_parse] ([new Date(s).getTime()], [None] for NaN). *)

From stdpp Require Import base gmap strings numbers sorting list.
From Stdlib Require Import ZArith Lia.
From S2P Require Import Prelude Json Errors Db SyncLog Policy Decisions Auth Access.

(** ** [timeWindow.ts] *)
Module TimeWindow.
Import DecisionSample.

Definition DEFAULT_WINDOW_MS : Z := 24 * 60 * 60 * 1000.
Definition MAX_WINDOW_MS : Z := 31 * 24 * 60 * 60 * 1000.

(** [(Z|[+-]\d{2}:?\d{2})?$] *)
Definition opt_zone (s : jstr) : bool :=
  match s with
  | [] => true
  | [90] => true
  | x :: s' =>
      ((x =? 43) || (x =? 45)) &&
      (bool_decide (strips [strip_digits 2; strip 58; strip_digits 2] s' = Some []) ||
       bool_decide (strips [strip_digits 2; strip_digits 2] s' = Some []))
  end.

(** [(:\d{2}(\.\d+)?)?] before the zone. *)
Definition opt_seconds (s : jstr) : option jstr :=
  match strip 58 s with
  | None => Some s
  | Some s' => match strip_digits 2 s' with None => None | Some r => strip_fraction r end
  end.

Definition ISO_8601_RE (s : jstr) : bool :=
  match strips [strip_digits 4; strip 45; strip_digits 2; strip 45; strip_digits 2] s with
  | None => false
  | Some [] => true
  | Some (c :: r) =>
      ((c =? 84) || (c =? 32)) &&
      match strips [strip_digits 2; strip 58; strip_digits 2; opt_seconds] r with
      | Some z => opt_zone z
      | None => false
      end
  end.

Section window.
Context (Date_parse : jstr → option Z).

Definition bad_timestamp {A} : result exn A := throw_app BAD_REQUEST (js "from/to must be valid ISO 8601 timestamps").

Definition parseOptional (raw : option jstr) : result exn (option Z) :=
  match raw with
  | None | Some [] => Ok None
  | Some str =>
      if negb (ISO_8601_RE str) then bad_timestamp
      else match Date_parse str with None => bad_timestamp | Some t => Ok (Some t) end
  end.

Definition resolveTimeWindow (now : Z) (fromRaw toRaw : option jstr) : result exn (Z * Z) :=
  match parseOptional toRaw with
  | Throw x => Throw x
  | Ok to_ =>
      let to := default now to_ in
      match parseOptional fromRaw with
      | Throw x => Throw x
      | Ok from_ =>
          let from := default (to - DEFAULT_WINDOW_MS) from_ in
          if to <? from then throw_app BAD_REQUEST (js "from must be before or equal to to")
          else if MAX_WINDOW_MS <? to - from then throw_app BAD_REQUEST (js "from/to range exceeds the 31 day maximum")
          else Ok (from, to)
      end
  end.

End window.
End TimeWindow.

(** ** [decisionReadRepository.ts] *)
Module DecisionReadRepo.
Import PolicyRepo Auth.

Record AggregateRow := mkAggRow {
  rw_bucket_minute : Z; rw_dimension_kind : jstr; rw_dimension_value : jstr; rw_action : jstr; rw_count : Z }.

(** GROUP BY bucket, value, action with SUM(count). *)
Definition sum_into (m : gmap (Z * jstr * jstr) Z) (a : Aggregate) : gmap (Z * jstr * jstr) Z :=
  let k := (ag_bucket_minute a, ag_value a, ag_action a) in
  <[k := default 0 (m !! k) + ag_count a]> m.

Definition in_window (from to t : Z) : bool := (from <=? t) && (t <=? to).

Definition aggregate_selected (tenantId : jstr) (from to : Z) (dimension : jstr) (a : Aggregate) : bool :=
  bool_decide (ag_tenant_id a = tenantId) && in_window from to (ag_bucket_minute a) && bool_decide (ag_kind a = dimension).

Definition str_lt (a b : jstr) : bool := unit_le a b && negb (bool_decide (a = b)).

(** ORDER BY bucket_minute, dimension_value, action. *)
Definition agg_row_le (x y : AggregateRow) : bool :=
  (rw_bucket_minute x <? rw_bucket_minute y) ||
  ((rw_bucket_minute x =? rw_bucket_minute y) &&
   (str_lt (rw_dimension_value x) (rw_dimension_value y) ||
    (bool_decide (rw_dimension_value x = rw_dimension_value y) && unit_le (rw_action x) (rw_action y)))).

Definition sums (tenantId : jstr) (from to : Z) (dimension : jstr) (d : db) : gmap (Z * jstr * jstr) Z :=
  fold_left sum_into (filter (λ a, aggregate_selected tenantId from to dimension a = true) (decision_aggregates d)) ∅.

(** [SUM(count)::int] fails when a sum does not fit. *)
Definition getAggregates (tenantId : jstr) (from to : Z) (dimension : jstr) (d : db) : result exn (list AggregateRow) :=
  let m := sums tenantId from to dimension d in
  if forallb (λ kv : _ * Z, kv.2 <=? INT4_MAX) (map_to_list m)
  then Ok (sort_by agg_row_le ((λ '((b, v, a), n), mkAggRow b dimension v a n) <$> map_to_list m))
  else Throw (EPg out_of_range).

Definition newest_sample (a b : Sample) : bool := sm_decided_at b <=? sm_decided_at a.

(** Newest first; equal times by descending id, which is the order of insertion. *)
Definition getSamples (tenantId : jstr) (from to limit : Z) (d : db) : list Sample :=
  take (Z.to_nat limit)
    (sort_by newest_sample
       (reverse (filter (λ s, bool_decide (sm_tenant_id s = tenantId) && in_window from to (sm_decided_at s) = true)
                   (decision_samples d)))).

Record AgentRow := mkAgentRow {
  ar_principal_id : jstr; ar_principal : option Principal; ar_decisions : Z; ar_last_decided_at : Z;
  ar_score : option ScoreRow }.

(** COUNT and MAX per principal. *)
Definition agent_into (m : gmap jstr (Z * Z)) (s : Sample) : gmap jstr (Z * Z) :=
  match sm_principal_id s with
  | None => m
  | Some p => <[p := match m !! p with Some (n, t) => (n + 1, Z.max t (sm_decided_at s)) | None => (1, sm_decided_at s) end]> m
  end.

Definition agent_le (x y : AgentRow) : bool :=
  (ar_decisions y <? ar_decisions x) ||
  ((ar_decisions x =? ar_decisions y) && unit_le (ar_principal_id x) (ar_principal_id y)).

Definition listAgents (tenantId : jstr) (from to limit : Z) (d : db) : list AgentRow :=
  let m := fold_left agent_into
             (filter (λ s, bool_decide (sm_tenant_id s = tenantId) && in_window from to (sm_decided_at s) = true)
                (decision_samples d)) ∅ in
  take (Z.to_nat limit)
    (sort_by agent_le ((λ '(p, (n, t)), mkAgentRow p (principals d !! p) n t (network_scores d !! p)) <$> map_to_list m)).

End DecisionReadRepo.

(** ** [routes/decisions.ts] *)
Module DecisionRoutes.
Import TimeWindow DecisionReadRepo DecisionIngest PolicyRepo Auth Guards Handler.

Definition DIMENSION : ParamDef :=
  mkParam false false (Some [js "all"; js "principal"; js "fingerprint"]) None None.
Definition LIMIT_500 : ParamDef := mkParam true false None (Some 1) (Some 500).

(** [req.query.limit ? parseInt(req.query.limit, 10) : dflt]; NaN as a query
    parameter is refused by the database. *)
Definition limit_of (q : option jstr) (dflt : Z) : result exn Z :=
  match q with
  | Some (c :: s) => match parseInt (c :: s) with
                     | Some n => if n <? 0 then Throw (EPg (js "2201W")) else Ok n
                     | None => Throw (EPg invalid_text)
                     end
  | _ => Ok dflt
  end.

Section routes.
Context (Date_parse : jstr → option Z) (Number_ : jstr → number).

Definition get_aggregates (e : aenv) (h : headers) (from to dimension : option jstr) : M (Z * Z * jstr * list AggregateRow) :=
  u ← authMiddleware e h;
  _ ← lift (validate_all Number_ [(js "from", STRING_OPTIONAL, from); (js "to", STRING_OPTIONAL, to);
                                  (js "dimension", DIMENSION, dimension)]);
  tenantId ← lift (requireTenant u);
  w ← lift (resolveTimeWindow Date_parse (ae_now e) from to);
  let dim := match dimension with Some (c :: s) => c :: s | _ => js "all" end in
  items ← reads (getAggregates tenantId w.1 w.2 dim);
  items ← lift items;
  mret (w.1, w.2, dim, items).

Definition get_samples (e : aenv) (h : headers) (from to limit : option jstr) : M (Z * Z * list Sample) :=
  u ← authMiddleware e h;
  _ ← lift (validate_all Number_ [(js "from", STRING_OPTIONAL, from); (js "to", STRING_OPTIONAL, to); (js "limit", LIMIT_500, limit)]);
  tenantId ← lift (requireTenant u);
  w ← lift (resolveTimeWindow Date_parse (ae_now e) from to);
  n ← lift (limit_of limit 50);
  items ← reads (getSamples tenantId w.1 w.2 n);
  mret (w.1, w.2, items).

Definition get_agents (e : aenv) (h : headers) (from to limit : option jstr) : M (Z * Z * list AgentRow) :=
  u ← authMiddleware e h;
  _ ← lift (validate_all Number_ [(js "from", STRING_OPTIONAL, from); (js "to", STRING_OPTIONAL, to); (js "limit", LIMIT_500, limit)]);
  tenantId ← lift (requireTenant u);
  w ← lift (resolveTimeWindow Date_parse (ae_now e) from to);
  n ← lift (limit_of limit 100);
  items ← reads (listAgents tenantId w.1 w.2 n);
  mret (w.1, w.2, items).

(** POST /v1/decisions/batch: API keys only. *)
Definition post_batch (e : aenv) (de : denv) (uuid : jstr) (between : db → db) (h : headers) (body : json) : M IngestResult :=
  u ← apiKeyOnly e h;
  match u with
  | ApiKeyUser (k :: apiKeyId) (t :: tenantId) _ =>
      ingestDecisionBatch de (ae_now e) uuid between (t :: tenantId) (k :: apiKeyId) body
  | _ => lift (forbidden (js "Tenant API key required"))
  end.

End routes.
End DecisionRoutes.

(** ** Properties *)
Module DecisionReadInv.
Import TimeWindow DecisionReadRepo DecisionIngest DecisionInv PolicyRepo SyncLog.

(** The query window is bounded: what [resolveTimeWindow] returns is ordered
    and spans at most 31 days, ends at [to] if given and else now, and starts at
    [from] if given and else 24 hours before the end; and it succeeds for every
    readable pair in that range. *)
Theorem time_window_bounded Date_parse now fromRaw toRaw f t :
  parseOptional Date_parse fromRaw = Ok f → parseOptional Date_parse toRaw = Ok t →
  let to := default now t in let from := default (to - DEFAULT_WINDOW_MS) f in
  (from ≤ to ∧ to - from ≤ MAX_WINDOW_MS → resolveTimeWindow Date_parse now fromRaw toRaw = Ok (from, to)) ∧
  (∀ w, resolveTimeWindow Date_parse now fromRaw toRaw = Ok w → w = (from, to) ∧ w.1 ≤ w.2 ∧ w.2 - w.1 ≤ MAX_WINDOW_MS) ∧
  (to < from ∨ MAX_WINDOW_MS < to - from → ∃ m, resolveTimeWindow Date_parse now fromRaw toRaw = throw_app BAD_REQUEST m).
Proof.
  intros Hf Ht to from. unfold resolveTimeWindow. rewrite Hf, Ht. fold to. fold from.
  destruct (Z.ltb_spec to from); [split_and!; [lia|done|eauto]|].
  destruct (Z.ltb_spec MAX_WINDOW_MS (to - from)); [split_and!; [lia|done|eauto]|].
  split_and!; [done| |lia]. intros w [= <-]. done.
Qed.

(** A date and time without zone is accepted, and read in the server's own zone. *)
Theorem iso_zone_optional : ISO_8601_RE (js "2026-08-01T10:20:30") = true ∧ ISO_8601_RE (js "01/02/2024") = false ∧
  ISO_8601_RE (js "2026-08-01T10:20:30.5+0200") = true ∧ ISO_8601_RE (js "2026-08-01") = true.
Proof. vm_compute. done. Qed.

(** *** Sums *)

(** What a row adds to a reported counter. *)
Definition reports (k : Z * jstr * jstr) (a : Aggregate) : Z :=
  if decide ((ag_bucket_minute a, ag_value a, ag_action a) = k) then ag_count a else 0.

Lemma fold_sum_lookup l m k :
  default 0 (fold_left sum_into l m !! k) = default 0 (m !! k) + zsum (reports k) l ∧
  (is_Some (fold_left sum_into l m !! k) ↔ is_Some (m !! k) ∨ ∃ a, a ∈ l ∧ (ag_bucket_minute a, ag_value a, ag_action a) = k).
Proof.
  revert m. induction l as [|a l IH]; intros m; simpl.
  { split; [lia|]. split; [tauto|]. intros [?|(a & ?%not_elem_of_nil & _)]; done. }
  destruct (IH (sum_into m a)) as [H1 H2]. rewrite H1, H2. unfold sum_into, reports at 2.
  destruct (decide ((ag_bucket_minute a, ag_value a, ag_action a) = k)) as [<-|Hne].
  - rewrite lookup_insert_eq. simpl. split; [lia|]. split; [intros _; right; exists a; split; [by left|done]|].
    intros _. left. by eexists.
  - rewrite lookup_insert_ne by done. split; [lia|]. setoid_rewrite elem_of_cons. split.
    + intros [?|(a' & ? & ?)]; [by left|right; eauto].
    + intros [?|(a' & [->|?] & ?)]; [by left|done|right; eauto].
Qed.

(** The decisions of a tenant recorded for a minute, dimension, value and action, over all edges. *)
Definition total (T : jstr) (b : Z) (k v a : jstr) (d : db) : Z :=
  zsum (λ r, if decide ((ag_tenant_id r, ag_bucket_minute r, ag_kind r, ag_value r, ag_action r) = (T, b, k, v, a))
             then ag_count r else 0) (decision_aggregates d).

Lemma zsum_filter {A} (f : A → Z) (P : A → bool) l :
  zsum f (filter (λ x, P x = true) l) = zsum (λ x, if P x then f x else 0) l.
Proof. induction l as [|x l IH]; [done|]. rewrite filter_cons. simpl. destruct (P x); simpl; rewrite <- IH; done. Qed.

(** Inside the window the sums are the totals. *)
Lemma sums_total T from to k d b v a :
  in_window from to b = true → default 0 (sums T from to k d !! (b, v, a)) = total T b k v a d.
Proof.
  intros Hw. unfold sums, total. rewrite (proj1 (fold_sum_lookup _ _ _)), lookup_empty. simpl.
  rewrite zsum_filter. apply zsum_ext. intros r _. unfold aggregate_selected, reports.
  destruct (decide ((ag_bucket_minute r, ag_value r, ag_action r) = (b, v, a))) as [[= -> -> ->]|Hne].
  - rewrite Hw, andb_true_r. repeat case_bool_decide; simpl; subst; destruct (decide _); naive_solver.
  - rewrite decide_False by (intros [= ]; congruence). by destruct (_ && _).
Qed.

(** The count a report shows for a counter. *)
Definition shown (rows : list AggregateRow) (b : Z) (v a : jstr) : Z :=
  zsum (λ r, if decide ((rw_bucket_minute r, rw_dimension_value r, rw_action r) = (b, v, a)) then rw_count r else 0) rows.

Lemma zsum_Permutation {A} (f : A → Z) l1 l2 : l1 ≡ₚ l2 → zsum f l1 = zsum f l2.
Proof. induction 1; simpl; lia. Qed.

Lemma zsum_map_lookup {K} `{Countable K} (m : gmap K Z) k :
  zsum (λ kv, if decide (kv.1 = k) then kv.2 else 0) (map_to_list m) = default 0 (m !! k).
Proof.
  induction m as [|i x m Hi IH] using map_ind.
  { rewrite map_to_list_empty, lookup_empty. done. }
  rewrite (zsum_Permutation _ _ _ (map_to_list_insert m i x Hi)). simpl. rewrite IH.
  destruct (decide (i = k)) as [->|Hne].
  - rewrite lookup_insert_eq, Hi. simpl. lia.
  - rewrite lookup_insert_ne by done. lia.
Qed.

Lemma getAggregates_Ok T from to k d rows :
  getAggregates T from to k d = Ok rows →
  (∀ b v a, shown rows b v a = if in_window from to b then total T b k v a d else 0) ∧
  (∀ r, r ∈ rows → rw_dimension_kind r = k ∧ rw_count r ≤ INT4_MAX ∧ in_window from to (rw_bucket_minute r) = true) ∧
  NoDup ((λ r, (rw_bucket_minute r, rw_dimension_value r, rw_action r)) <$> rows).
Proof.
  unfold getAggregates. destruct (forallb _ _) eqn:Ef; [|done]. intros [= <-].
  set (row := λ '((b, v, a), n), mkAggRow b k v a n).
  assert (Hkey : ∀ kv, (rw_bucket_minute (row kv), rw_dimension_value (row kv), rw_action (row kv)) = kv.1) by (by intros [[[? ?] ?] ?]).
  split_and!.
  - intros b v a. unfold shown. rewrite (zsum_Permutation _ _ _ (sort_by_Permutation agg_row_le _)), zsum_fmap.
    rewrite (zsum_ext _ (λ kv, if decide (kv.1 = (b, v, a)) then kv.2 else 0)).
    2: { intros [[[b' v'] a'] n] _. done. }
    rewrite zsum_map_lookup. destruct (in_window from to b) eqn:Ew; [by apply sums_total|].
    destruct (sums T from to k d !! (b, v, a)) as [n|] eqn:E; [|done]. exfalso.
    assert (Hs : is_Some (sums T from to k d !! (b, v, a))) by (rewrite E; by eexists).
    apply (proj2 (fold_sum_lookup _ _ _)) in Hs. rewrite lookup_empty in Hs.
    destruct Hs as [[? ?]|(r & Hr & [= <- <- <-])]; [done|]. apply list_elem_of_filter in Hr as [Hr _].
    unfold aggregate_selected in Hr. by rewrite Ew, andb_false_r in Hr.
  - intros r Hr. rewrite sort_by_Permutation in Hr. apply list_elem_of_fmap in Hr as ([[[b v] a] n] & -> & Hin).
    simpl. split; [done|]. rewrite forallb_forall in Ef. apply list_elem_of_In in Hin as Hin'. apply Ef in Hin'. simpl in Hin'.
    split; [by apply Z.leb_le|]. apply elem_of_map_to_list in Hin.
    assert (Hs : is_Some (sums T from to k d !! (b, v, a))) by (rewrite Hin; by eexists).
    apply (proj2 (fold_sum_lookup _ _ _)) in Hs. rewrite lookup_empty in Hs.
    destruct Hs as [[? ?]|(r & Hr & [= <- <- <-])]; [done|]. apply list_elem_of_filter in Hr as [Hr _].
    unfold aggregate_selected in Hr. apply andb_true_iff in Hr as [[_ ?]%andb_true_iff _]. done.
  - rewrite sort_by_Permutation, <- list_fmap_compose.
    rewrite (list_fmap_ext _ fst); [apply NoDup_fst_map_to_list|]. intros i kv _. apply Hkey.
Qed.

Lemma zsum_zero {A} (l : list A) : zsum (λ _, 0) l = 0.
Proof. induction l; simpl; lia. Qed.

(** Totals are the sum over any list of edges that has them all. *)
Lemma zsum_one {A} `{EqDecision A} (x : A) n (L : list A) :
  NoDup L → x ∈ L → zsum (λ y, if decide (x = y) then n else 0) L = n.
Proof.
  induction 1 as [|y L Hy HL IH]; intros Hx; [by apply not_elem_of_nil in Hx|]. simpl. destruct (decide (x = y)) as [->|Hne].
  - rewrite (zsum_ext _ (λ _, 0)); [|intros z Hz; rewrite decide_False; [done|congruence]].
    rewrite zsum_zero. lia.
  - apply elem_of_cons in Hx as [->|Hx]; [done|]. rewrite IH by done. lia.
Qed.

Lemma zsum_add {A} (f g : A → Z) l : zsum (λ x, f x + g x) l = zsum f l + zsum g l.
Proof. induction l; simpl; lia. Qed.

Lemma total_by_edges T b k v a (L : list jstr) rows :
  NoDup L → (∀ r, r ∈ rows → ag_edge_node_id r ∈ L) →
  zsum (λ r, if decide ((ag_tenant_id r, ag_bucket_minute r, ag_kind r, ag_value r, ag_action r) = (T, b, k, v, a))
             then ag_count r else 0) rows =
  zsum (λ E, zsum (adds (T, E, b, k, v, a)) rows) L.
Proof.
  intros HL. induction rows as [|r rows IH]; intros Hin; simpl.
  { by rewrite zsum_zero. }
  rewrite zsum_add, <- IH by (intros r' Hr'; apply Hin; by right). f_equal.
  destruct (decide (_ = (T, b, k, v, a))) as [[= HT Hb Hk Hv Ha]|Hne].
  - rewrite (zsum_ext _ (λ E, if decide (ag_edge_node_id r = E) then ag_count r else 0)).
    + symmetry. apply zsum_one; [done|]. apply Hin. by left.
    + intros E _. unfold adds, row_key. subst. repeat destruct (decide _); naive_solver.
  - rewrite (zsum_ext _ (λ _, 0)).
    + by rewrite zsum_zero.
    + intros E _. unfold adds, row_key. rewrite decide_False; [done|]. intros [= ]. naive_solver.
Qed.

(** C19. Counted decisions are reported: take the aggregate report of the tenant
    just before a batch is recorded and just after it was accepted, for any
    dimension and window.  For every minute in the window, every value and every
    action, the reported count grew by exactly the number of decisions of the
    batch that belong there; every minute outside shows nothing. *)
Theorem ingested_decisions_reported e now uuid between T K body ds d r d' from to k rows0 rows1 :
  denv_ok e → get body "decisions" = JArr ds →
  Forall (λ j, is_nullish (get j "principal_id") = true ∨ ∃ s, get j "principal_id" = JStr s) ds →
  ingestDecisionBatch e now uuid between T K body d = (Ok r, d') → ir_duplicate r = false →
  getAggregates T from to k (between (resolveEdgeNodeForApiKey now uuid T K d).2) = Ok rows0 →
  getAggregates T from to k d' = Ok rows1 →
  ∀ b v a, shown rows1 b v a =
    shown rows0 b v a + if in_window from to b then contributed e ds (b, k, v, a) else 0.
Proof.
  intros Henv Hds Hty Hi Hdup H0 H1 b v a.
  destruct (ingest_accounting _ _ _ _ _ _ _ _ _ _ _ Henv Hds Hty Hi Hdup) as (_ & Hown & Hoth & _).
  apply getAggregates_Ok in H0 as [Hs0 _]. apply getAggregates_Ok in H1 as [Hs1 _]. rewrite Hs0, Hs1.
  destruct (in_window from to b); [|done]. unfold total.
  set (d0 := between _) in *. set (E := ir_edge_node_id r) in *.
  set (L := remove_dups (E :: (ag_edge_node_id <$> decision_aggregates d0) ++ (ag_edge_node_id <$> decision_aggregates d'))).
  assert (HL : NoDup L) by apply NoDup_remove_dups.
  assert (HE : E ∈ L) by (apply elem_of_remove_dups; by left).
  rewrite (total_by_edges T b k v a L (decision_aggregates d')), (total_by_edges T b k v a L (decision_aggregates d0));
    [|done| |done|]; [|intros x Hx; apply elem_of_remove_dups; right; apply elem_of_app; left; by apply list_elem_of_fmap_2
     |intros x Hx; apply elem_of_remove_dups; right; apply elem_of_app; right; by apply list_elem_of_fmap_2].
  rewrite (zsum_ext _ (λ E', zsum (adds (T, E', b, k, v, a)) (decision_aggregates d0) +
                            (if decide (E = E') then contributed e ds (b, k, v, a) else 0))).
  - rewrite zsum_add, (zsum_one E _ L HL HE). done.
  - intros E' _. destruct (decide (E = E')) as [<-|Hne].
    + apply Hown.
    + rewrite Z.add_0_r. apply Hoth. simpl. congruence.
Qed.

(** *** The agents list *)

Lemma agent_count l m p :
  let n := Z.of_nat (length (filter (λ s, sm_principal_id s = Some p) l)) in
  fst <$> fold_left agent_into l m !! p =
  match m !! p with Some (k, _) => Some (k + n) | None => if n =? 0 then None else Some n end.
Proof.
  revert m. induction l as [|s l IH]; intros m n; subst n; simpl.
  { destruct (m !! p) as [[k t]|]; simpl; [|done]. f_equal. lia. }
  rewrite IH, filter_cons. unfold agent_into. destruct (sm_principal_id s) as [q|] eqn:Eq; [|by rewrite decide_False].
  destruct (decide (q = p)) as [->|Hne].
  - rewrite decide_True, lookup_insert_eq by done. cbn [length].
    destruct (m !! p) as [[k t]|]; [f_equal; lia|].
    destruct (Z.eqb_spec (Z.of_nat (S (length (filter (λ s0, sm_principal_id s0 = Some p) l)))) 0); [lia|]. f_equal. lia.
  - rewrite decide_False by congruence. by rewrite lookup_insert_ne.
Qed.

(** The agents page: one row per principal seen in the tenant's samples of
    the window, with the number of those samples, and with the principal's
    current network score row, absent exactly when there is none. *)
Theorem agents_listed_once T from to limit d :
  let seen p := filter (λ s, sm_tenant_id s = T ∧ from ≤ sm_decided_at s ≤ to ∧ sm_principal_id s = Some p) (decision_samples d) in
  NoDup (ar_principal_id <$> listAgents T from to limit d) ∧
  ∀ r, r ∈ listAgents T from to limit d →
    ar_score r = network_scores d !! ar_principal_id r ∧ ar_principal r = principals d !! ar_principal_id r ∧
    ar_decisions r = Z.of_nat (length (seen (ar_principal_id r))) ∧ 1 ≤ ar_decisions r.
Proof.
  intros seen.
  unfold listAgents.
  set (l := filter (λ s, _ = true) (decision_samples d)). set (m := fold_left agent_into l ∅).
  set (row := λ '(p, (n, t)), mkAgentRow p (principals d !! p) n t (network_scores d !! p)).
  assert (Hseen : ∀ p, length (filter (λ s, sm_principal_id s = Some p) l) = length (seen p)).
  { intros p. unfold l, seen. rewrite list_filter_filter. f_equal. apply list_filter_iff. intros s.
    rewrite andb_true_iff, bool_decide_eq_true. unfold in_window. rewrite andb_true_iff, !Z.leb_le. tauto. }
  split.
  - rewrite fmap_take. eapply sublist_NoDup; [|apply sublist_take].
    rewrite sort_by_Permutation, <- list_fmap_compose.
    rewrite (list_fmap_ext _ fst); [apply NoDup_fst_map_to_list|]. by intros i [p [n t]] _.
  - intros r Hr. apply elem_of_take in Hr as (i & Hi & _). apply list_elem_of_lookup_2 in Hi. rewrite sort_by_elem in Hi.
    apply list_elem_of_fmap in Hi as ([p [n t]] & -> & Hin%elem_of_map_to_list). simpl. split_and!; [done..| |].
    all: pose proof (agent_count l ∅ p) as Hc; fold m in Hc; rewrite Hin, lookup_empty in Hc; cbn zeta in Hc; simpl in Hc;
      rewrite <- ?Hseen; destruct (Z.eqb_spec (Z.of_nat (length (filter (λ s, sm_principal_id s = Some p) l))) 0);
      [done|]; injection Hc as ->; lia.
Qed.

(** *** Instances *)

Lemma time_window_bounded_witness :
  let parse := λ s, if bool_decide (s = js "2026-08-01") then Some 1000000 else None in
  resolveTimeWindow parse 2000000 (Some (js "2026-08-01")) None = Ok (1000000, 2000000) ∧ 1000000 ≤ 2000000.
Proof.
  intros parse. destruct (time_window_bounded parse 2000000 (Some (js "2026-08-01")) None (Some 1000000) None) as [H _].
  - vm_compute. reflexivity.
  - vm_compute. reflexivity.
  - split; [apply H; vm_compute; split; discriminate|lia].
Defined.

Lemma ingested_decisions_reported_witness :
  ∃ d' rows, ingestDecisionBatch toy_denv 9 (js "e1") id (js "t") (js "k1") toy_body toy_db =
      (Ok (mkIngest false (js "e1") 3 1), d') ∧
    getAggregates (js "t") 0 200000 (js "all") d' = Ok rows ∧ shown rows 120000 [] (js "allow") = 2.
Proof.
  destruct toy_ingest as (d' & H).
  assert (Hd' : d' = (ingestDecisionBatch toy_denv 9 (js "e1") id (js "t") (js "k1") toy_body toy_db).2) by (by rewrite H).
  assert (Hrows : ∃ rows, getAggregates (js "t") 0 200000 (js "all") d' = Ok rows).
  { rewrite Hd'. eexists. vm_compute. reflexivity. }
  destruct Hrows as [rows Hrows]. exists d', rows. split; [exact H|]. split; [exact Hrows|].
  rewrite (ingested_decisions_reported toy_denv 9 (js "e1") id (js "t") (js "k1") toy_body
    [toy_decision 1 "allow"; toy_decision 2 "deny"; toy_decision 3 "allow"] toy_db (mkIngest false (js "e1") 3 1) d'
    0 200000 (js "all") [] rows toy_denv_ok eq_refl); [vm_compute; reflexivity| |exact H|reflexivity| |exact Hrows].
  - do 3 (apply Forall_cons_2; [right; eexists; reflexivity|]). apply Forall_nil_2.
  - vm_compute. reflexivity.
Defined.

End DecisionReadInv.
