(* ===== verification/ScoreReads.v ===== *)
(** * Reading scores and the graph summary

    [src/control-plane/src/domains/score/scoreReadRepository.ts] (the summary;
    [getCurrentScore] and [getScoreHistory] are in [ScoreWriter]) and the routes
    [scores.ts] and [graph.ts].  The properties tie what is read to what
    [scoreWriter.ts] has written. *)

From stdpp Require Import base gmap strings numbers sorting list.
From Stdlib Require Import ZArith Lia.
From S2P Require Import Prelude Json Errors Db SyncLog ScoreWriter Auth Access DecisionReads.

(** ** The summary *)
Module ScoreReads.
Import SyncLog ScoreWriter Auth Handler DecisionRoutes.

Record TopIssuer := mkTop {
  ti_issuer_id : jstr; ti_name : option jstr; ti_trust_weight : Z; ti_verified_at : option Z; ti_outgoing : Z }.

Record GraphSummary := mkSummary {
  gs_total : Z; gs_agents : Z; gs_issuers : Z; gs_both : Z; gs_attestations : Z;
  gs_top_issuers : list TopIssuer; gs_latest : option Z }.

(** [COUNT] with a [FILTER (WHERE ...)] clause over the principals. *)
Definition count_kind (kind : jstr) (d : db) : Z :=
  Z.of_nat (length (filter (λ p, p_entity_kind p = kind) (map_to_list (principals d)).*2)).

Definition outgoing (issuer : jstr) (d : db) : Z :=
  Z.of_nat (length (filter (λ a, a_issuer_id a = issuer) (map_to_list (attestations d)).*2)).

(** One group per issuer with at least one attestation. *)
Definition issuer_row (d : db) (i : Issuer) : option TopIssuer :=
  let n := outgoing (i_principal_id i) d in
  if n =? 0 then None
  else Some (mkTop (i_principal_id i) (principals d !! i_principal_id i ≫= p_name) (i_trust_weight i) (i_verified_at i) n).

(** [ORDER BY outgoing DESC, a.issuer_id] *)
Definition top_le (a b : TopIssuer) : bool :=
  (ti_outgoing b <? ti_outgoing a) ||
  ((ti_outgoing a =? ti_outgoing b) && unit_le (ti_issuer_id a) (ti_issuer_id b)).

Definition issuer_groups (d : db) : list TopIssuer := sort_by top_le (omap (issuer_row d) (map_to_list (issuers d)).*2).

(** [MAX(computed_at)] *)
Definition latest_computed (d : db) : option Z :=
  match ns_computed_at <$> (map_to_list (network_scores d)).*2 with
  | [] => None
  | x :: l => Some (fold_left Z.max l x)
  end.

Definition getGraphSummary (d : db) : GraphSummary :=
  mkSummary (Z.of_nat (size (principals d))) (count_kind (js "agent") d) (count_kind (js "issuer") d)
    (count_kind (js "both") d) (Z.of_nat (size (attestations d))) (take 10 (issuer_groups d)) (latest_computed d).

(** ** The routes *)

Definition LIMIT_1000 : ParamDef := mkParam true false None (Some 1) (Some 1000).

(** GET /v1/scores/:principalId/history *)
Definition get_score_history (Number_ : jstr → number) (e : aenv) (h : headers) (principalId : jstr)
    (limit : option jstr) : M (option ScoreRow * list ScoreRow) :=
  _ ← authMiddleware e h;
  _ ← lift (validate_all Number_ [(js "principalId", STRING_OPTIONAL, Some principalId); (js "limit", LIMIT_1000, limit)]);
  n ← lift (limit_of limit 100);
  current ← reads (getCurrentScore principalId);
  items ← reads (getScoreHistory principalId (Z.to_nat n));
  mret (current, items).

(** GET /v1/graph/summary *)
Definition get_graph_summary (e : aenv) (h : headers) : M GraphSummary :=
  _ ← authMiddleware e h; reads getGraphSummary.

(** ** Properties of the summary *)

Lemma unit_le_total a b : unit_le a b = true ∨ unit_le b a = true.
Proof.
  revert b. induction a as [|x a IH]; intros [|y b]; [by left|by left|by right|]. simpl.
  destruct (Z.ltb_spec x y), (Z.ltb_spec y x); simpl; auto. rewrite (proj2 (Z.eqb_eq x y)), (proj2 (Z.eqb_eq y x)) by lia.
  apply IH.
Qed.

Lemma unit_le_trans a b c : unit_le a b = true → unit_le b c = true → unit_le a c = true.
Proof.
  revert b c. induction a as [|x a IH]; intros [|y b] [|z c]; simpl; try done.
  rewrite !orb_true_iff, !andb_true_iff, !Z.ltb_lt, !Z.eqb_eq.
  intros [?|[? ?]] [?|[? ?]]; [left; lia..|]. right. split; [lia|]. eauto.
Qed.

Lemma top_le_spec a b : top_le a b = true ↔
  ti_outgoing b < ti_outgoing a ∨ (ti_outgoing a = ti_outgoing b ∧ unit_le (ti_issuer_id a) (ti_issuer_id b) = true).
Proof. unfold top_le. by rewrite orb_true_iff, andb_true_iff, Z.ltb_lt, Z.eqb_eq. Qed.

Lemma groups_sorted d : StronglySorted (λ a b, top_le a b = true) (issuer_groups d).
Proof.
  apply sort_by_sorted.
  - intros a b. rewrite !top_le_spec. destruct (Z.lt_total (ti_outgoing a) (ti_outgoing b)) as [?|[?|?]], (unit_le_total (ti_issuer_id a) (ti_issuer_id b)); auto.
  - intros a b c. rewrite !top_le_spec. intros [?|[? ?]] [?|[? ?]]; [left; lia..|]. right. split; [lia|].
    by eapply unit_le_trans.
Qed.

Lemma StronglySorted_take {A} (R : relation A) n l x y :
  StronglySorted R l → x ∈ take n l → y ∈ drop n l → R x y.
Proof.
  intros H. revert n. induction H as [|z l Hs IH Hf]; intros n; [rewrite take_nil; by intros ?%not_elem_of_nil|].
  destruct n as [|n]; simpl; [by intros ?%not_elem_of_nil|].
  intros [->|Hx]%elem_of_cons Hy; [|by eapply IH].
  rewrite Forall_forall in Hf. apply Hf. rewrite <- (take_drop n l). apply elem_of_app. by right.
Qed.

Lemma elem_of_take_in {A} n (l : list A) x : x ∈ take n l → x ∈ l.
Proof. intros H. rewrite <- (take_drop n l). apply elem_of_app. by left. Qed.

(** The table of issuers is keyed by the principal. *)
Definition issuers_wf (d : db) : Prop := ∀ p i, issuers d !! p = Some i → i_principal_id i = p.

Lemma issuer_groups_elem d r : issuers_wf d →
  r ∈ issuer_groups d ↔ ∃ i, issuers d !! ti_issuer_id r = Some i ∧ issuer_row d i = Some r.
Proof.
  intros Hwf. unfold issuer_groups. rewrite sort_by_elem, list_elem_of_omap. split.
  - intros (i & Hi & Hr). apply elem_of_values in Hi as [p Hi]. exists i. split; [|done].
    pose proof Hr as Hr'. unfold issuer_row in Hr'. destruct (_ =? 0); [done|]. injection Hr' as <-. simpl.
    by rewrite (Hwf _ _ Hi).
  - intros (i & Hi & Hr). exists i. split; [|done]. apply elem_of_values. eauto.
Qed.

Lemma kinds_partition (l : list Principal) :
  Forall (λ p, p_entity_kind p ∈ entity_kinds) l →
  length l = (length (filter (λ p, p_entity_kind p = js "agent") l)
              + length (filter (λ p, p_entity_kind p = js "issuer") l)
              + length (filter (λ p, p_entity_kind p = js "both") l))%nat.
Proof.
  induction 1 as [|p l Hp _ IH]; [done|].
  unfold entity_kinds in Hp. rewrite !elem_of_cons, elem_of_nil in Hp.
  assert (Hc : ∀ k, length (filter (λ p, p_entity_kind p = k) (p :: l)) =
    ((if decide (p_entity_kind p = k) then 1 else 0) + length (filter (λ p, p_entity_kind p = k) l))%nat).
  { intros k. rewrite filter_cons. by case_decide. }
  rewrite !Hc. simpl length. destruct Hp as [E|[E|[E|[]]]]; rewrite E;
    repeat case_decide; try congruence; try (match goal with H : js _ = js _ |- _ => discriminate H end); lia.
Qed.

(** The summary is exact and its ranking is the top ten. The principals split
    into agents, issuers and both; the list holds at most ten issuers, each with its
    own number of attestations, in non-increasing order, ties by id; and an issuer
    that has attestations and is not listed means ten are listed and none of them has
    fewer. *)
Theorem graph_summary_exact d :
  issuers_wf d → Forall (λ p, p_entity_kind p ∈ entity_kinds) (map_to_list (principals d)).*2 →
  let s := getGraphSummary d in
  gs_total s = gs_agents s + gs_issuers s + gs_both s ∧
  (length (gs_top_issuers s) ≤ 10)%nat ∧
  StronglySorted (λ a b, top_le a b = true) (gs_top_issuers s) ∧
  (∀ r, r ∈ gs_top_issuers s → is_Some (issuers d !! ti_issuer_id r) ∧ ti_outgoing r = outgoing (ti_issuer_id r) d) ∧
  (∀ p i, issuers d !! p = Some i → outgoing p d ≠ 0 → p ∉ ti_issuer_id <$> gs_top_issuers s →
     length (gs_top_issuers s) = 10%nat ∧ ∀ r, r ∈ gs_top_issuers s → outgoing p d ≤ ti_outgoing r).
Proof.
  intros Hwf Hk. cbn [getGraphSummary gs_total gs_agents gs_issuers gs_both gs_top_issuers].
  pose proof (groups_sorted d) as Hs. split_and!.
  - unfold count_kind. rewrite <- !Nat2Z.inj_add. f_equal. rewrite <- kinds_partition by done.
    by rewrite length_fmap, length_map_to_list.
  - rewrite length_take. lia.
  - rewrite <- (take_drop 10 (issuer_groups d)) in Hs. by apply StronglySorted_app in Hs as (_ & ? & _).
  - intros r Hr%elem_of_take_in. apply issuer_groups_elem in Hr as (i & Hi & Hr); [|done]. split; [done|].
    unfold issuer_row in Hr. destruct (_ =? 0); [done|]. by injection Hr as <-.
  - intros p i Hi Hn Hnot.
    pose (r := mkTop p (principals d !! p ≫= p_name) (i_trust_weight i) (i_verified_at i) (outgoing p d)).
    assert (Hr : r ∈ issuer_groups d).
    { apply issuer_groups_elem; [done|]. exists i. split; [done|]. unfold issuer_row. rewrite (Hwf _ _ Hi).
      by rewrite (proj2 (Z.eqb_neq _ 0)). }
    assert (Hd : r ∈ drop 10 (issuer_groups d)).
    { rewrite <- (take_drop 10 (issuer_groups d)) in Hr. apply elem_of_app in Hr as [Hr|Hr]; [|done].
      exfalso. apply Hnot. apply list_elem_of_fmap. by exists r. }
    split.
    + rewrite length_take. destruct (Nat.le_gt_cases (length (issuer_groups d)) 10); [|lia].
      rewrite drop_ge in Hd by done. by apply not_elem_of_nil in Hd.
    + intros q Hq. pose proof (StronglySorted_take _ _ _ _ _ Hs Hq Hd) as Hle. apply top_le_spec in Hle. simpl in Hle. lia.
Qed.

(** ** Current score and history *)

(** History rows carry versions of the log, and the current score of a
    principal is its row with the greatest version. *)
Record history_wf (d : db) : Prop := {
  hw_versions : Forall (λ h, ns_sync_version h ≤ high_water d) (network_score_history d);
  hw_current : ∀ p r, network_scores d !! p = Some r →
    ns_principal_id r = p ∧ r ∈ network_score_history d ∧
    ∀ h, h ∈ network_score_history d → ns_principal_id h = p → h = r ∨ ns_sync_version h < ns_sync_version r
}.

(** The tables this is about. *)
Definition score_tables (d : db) := (network_scores d, network_score_history d, sync_events d).

Lemma history_wf_ext d d' : score_tables d = score_tables d' → history_wf d' → history_wf d.
Proof.
  unfold score_tables. intros [= E1 E2 E3] [Hv Hc]. unfold high_water, versions in Hv.
  split; unfold high_water, versions; rewrite ?E1, ?E2, ?E3; done.
Qed.

Lemma high_water_put now at_ row d : high_water (put_row now at_ row d) = high_water d + 1.
Proof.
  unfold high_water, versions, put_row. cbn [sync_events set_network_score_history set_network_scores set_sync_events].
  rewrite fmap_app, max_or_zero_app. pose proof (max_or_zero_nonneg (se_sync_version <$> sync_events d)).
  unfold high_water, versions. simpl. lia.
Qed.

Lemma high_water_drop now p d : high_water (drop_row now p d) = high_water d + 1.
Proof.
  unfold high_water, versions, drop_row. cbn [sync_events set_network_scores set_sync_events].
  rewrite fmap_app, max_or_zero_app. pose proof (max_or_zero_nonneg (se_sync_version <$> sync_events d)).
  unfold high_water, versions. simpl. lia.
Qed.

Lemma history_wf_put now at_ row d : history_wf d → history_wf (put_row now at_ row d).
Proof.
  intros [Hv Hc]. split.
  - rewrite high_water_put. simpl. apply Forall_app. split; [|by repeat constructor].
    eapply Forall_impl; [exact Hv|]. simpl. lia.
  - intros p r. simpl. rewrite Forall_forall in Hv. intros [[<- <-]|[Hne Hr]]%lookup_insert_Some.
    + split_and!; [done|apply elem_of_app; right; by apply list_elem_of_singleton|].
      intros h [Hh| ->%list_elem_of_singleton]%elem_of_app _; [|by left]. right. simpl. pose proof (Hv h Hh). lia.
    + destruct (Hc p r Hr) as (Hid & Hin & Hmax). split_and!; [done|apply elem_of_app; by left|].
      intros h [Hh| ->%list_elem_of_singleton]%elem_of_app Hp; [by apply Hmax|]. by destruct Hne.
Qed.

Lemma history_wf_drop now p d : history_wf d → history_wf (drop_row now p d).
Proof.
  intros [Hv Hc]. split.
  - rewrite high_water_drop. simpl. eapply Forall_impl; [exact Hv|]. simpl. lia.
  - intros q r. simpl. intros [_ Hr]%lookup_delete_Some. by apply Hc.
Qed.

Lemma applyScoreTable_history now rows at_ d : history_wf d → history_wf (applyScoreTable now rows at_ d).2.
Proof.
  intros H. destruct (applyScoreTable now rows at_ d) as [[[u k]|e] d'] eqn:E; simpl;
    [|by apply withTransaction_throw in E as ->].
  apply applyScoreTable_Ok in E as (d1 & H1 & H2).
  revert H2. apply (for_fold_invariant (λ _ d, history_wf d)).
  { intros s d2 p s1 d3 _ Hw. rewrite delete_row_eq. case_bool_decide; intros [= <- <-]; [done|]. by apply history_wf_drop. }
  revert H1. apply (for_fold_invariant (λ _ d, history_wf d)); [|done].
  intros s d2 row s1 d3 _ Hw H1%apply_row_Ok. destruct (is_changed _ row); [|by destruct H1 as [_ ->]].
  destruct H1 as (_ & -> & _). by apply history_wf_put.
Qed.

#[local] Instance newer_trans : Transitive newer.
Proof. intros a b c. unfold newer. lia. Qed.
#[local] Instance newer_total : Total newer.
Proof. intros a b. unfold newer. lia. Qed.

Lemma history_head d p r n : history_wf d → getCurrentScore p d = Some r → head (getScoreHistory p (S n) d) = Some r.
Proof.
  intros [_ Hc] Hr. destruct (Hc p r Hr) as (Hid & Hin & Hmax). unfold getScoreHistory.
  set (l := filter (λ r, ns_principal_id r = p) (network_score_history d)).
  assert (Hrl : r ∈ merge_sort newer l) by (rewrite merge_sort_Permutation; by apply list_elem_of_filter).
  pose proof (StronglySorted_merge_sort newer l) as Hs.
  destruct (merge_sort newer l) as [|x k] eqn:E; [by apply not_elem_of_nil in Hrl|]. simpl. f_equal.
  assert (Hx : x ∈ l) by (rewrite <- (merge_sort_Permutation newer l), E; by left).
  apply list_elem_of_filter in Hx as [Hxp Hxh]. destruct (Hmax x Hxh Hxp) as [->|Hlt]; [done|].
  apply elem_of_cons in Hrl as [->|Hk]; [done|]. inversion Hs as [|? ? _ Hf]; subst.
  rewrite Forall_forall in Hf. specialize (Hf r Hk). unfold newer in Hf. lia.
Qed.

(** Authentication only writes the key and user tables. *)
Section auth_frame.
Context {A : Type} (f : db → A).
Hypothesis f_users : ∀ t d, f (set_users t d) = f d.
Hypothesis f_keys : ∀ t d, f (set_api_keys t d) = f d.

Lemma bind_frame {B C} (m : M B) (k : B → M C) d :
  f (m d).2 = f d → (∀ b d, f (k b d).2 = f d) → f ((m ≫= k) d).2 = f d.
Proof. intros Hm Hk. unfold mbind, M_bind. destruct (m d) as [[b|] d']; simpl in *; [|done]. by rewrite Hk. Qed.

Lemma authenticateApiKey_frame e k d : f (authenticateApiKey e k d).2 = f d.
Proof.
  unfold authenticateApiKey, lift, throw, reads, writes. repeat (case_match || (apply bind_frame; [|intros])); simpl;
    unfold touch_key; try rewrite f_keys; done.
Qed.

Lemma upsert_user_frame e a b c d : f (upsert_user e a b c d).2 = f d.
Proof. unfold upsert_user. repeat case_match; simpl; rewrite ?f_users; done. Qed.

Lemma authenticateOidc_frame e t r d : f (authenticateOidc e t r d).2 = f d.
Proof.
  unfold authenticateOidc. apply bind_frame; [done|intros _ d1]. apply bind_frame; [done|intros p d2].
  apply bind_frame; [apply upsert_user_frame|intros u d3]. apply bind_frame; [done|intros ms d4].
  apply bind_frame; [done|intros ? ?; done].
Qed.

Lemma authMiddleware_frame e h d : f (authMiddleware e h d).2 = f d.
Proof.
  unfold authMiddleware, as_app_error, catch.
  match goal with |- f (let _ := ?m d in _).2 = _ => idtac | |- context [match ?m with (_, _) => _ end] => 
    assert (Hm : f m.2 = f d) by (repeat case_match; auto using authenticateApiKey_frame, authenticateOidc_frame);
    destruct m as [[]]; simpl in *; done end.
Qed.

End auth_frame.

(** What a reader of the scores sees fits what the writer wrote. Every write
    of a score table, failed ones included, keeps the history consistent, and then
    the current score of a principal that has one is the first item of its history,
    whatever the page size; in particular the history route returns it first. *)
Theorem score_history_starts_with_current now rows at_ d N e h p limit c items d' :
  history_wf d →
  get_score_history N e h p limit (applyScoreTable now rows at_ d).2 = (Ok (c, items), d') →
  history_wf (applyScoreTable now rows at_ d).2 ∧
  (limit_of limit 100 = Ok 0 ∧ items = [] ∨ c = None ∨ head items = c).
Proof.
  intros Hw H. pose proof (applyScoreTable_history now rows at_ d Hw) as Hw'. split; [done|].
  remember (applyScoreTable now rows at_ d).2 as d1 eqn:Ed. clear Ed.
  unfold get_score_history in H. apply M_bind_Ok in H as (u & d2 & Ha & H).
  apply M_bind_Ok in H as ([] & d3 & Hv & H). apply M_bind_Ok in H as (n & d4 & Hn & H).
  injection Hv as _ <-. injection Hn as Hn <-.
  assert (Hf : score_tables d2 = score_tables d1).
  { change d2 with (snd (Ok u : result exn user, d2)). rewrite <- Ha. by apply (authMiddleware_frame score_tables). }
  apply M_bind_Ok in H as (c' & d5 & Hc & H). injection Hc as <- <-.
  apply M_bind_Ok in H as (i' & d6 & Hi & H). injection Hi as <- <-. injection H as <- <- <-.
  apply (history_wf_ext _ _ Hf) in Hw'. destruct (Z.to_nat n) as [|m] eqn:En.
  - left. split; [|done]. rewrite Hn. f_equal. unfold limit_of in Hn. repeat case_match; simplify_eq; bool_to_prop; lia.
  - right. destruct (getCurrentScore p d2) as [r|] eqn:Ec; [right|by left]. by apply history_head.
Qed.

(** ** Witnesses *)

Lemma graph_summary_exact_witness :
  (ti_outgoing <$> gs_top_issuers (getGraphSummary AccessInv.shared_db)) = [2] ∧
  gs_total (getGraphSummary AccessInv.shared_db) = gs_agents (getGraphSummary AccessInv.shared_db) + 1 + 0.
Proof.
  destruct (graph_summary_exact AccessInv.shared_db) as [H _].
  - intros p i Hi. cbn in Hi. apply lookup_singleton_Some in Hi as [<- <-]. reflexivity.
  - apply (bool_decide_unpack _). vm_compute. exact I.
  - split; [vm_compute; reflexivity|]. rewrite H. vm_compute. reflexivity.
Defined.

Definition rescored (z : Z) : EngineScore := mkScore (js "vrl:p:1") (js "issuer") z false (js "propagated").

(** The second write of a score, then the history route with one item per page. *)
Definition scored_once : db := (applyScoreTable 1 [rescored 60] 1 AccessInv.shared_db).2.

Lemma history_wf_empty d : network_scores d = ∅ → network_score_history d = [] → history_wf d.
Proof. intros H1 H2. split; rewrite ?H1, ?H2; [constructor|]. intros p r H. by rewrite lookup_empty in H. Qed.

Lemma score_history_starts_with_current_witness :
  ∃ c items d', get_score_history AccessInv.toy_number (AuthInv.toy_env "k9" 49) AccessInv.key_headers (js "vrl:p:1")
      (Some (js "1")) (applyScoreTable 2 [rescored 70] 2 scored_once).2 = (Ok (c, items), d') ∧
    head items = c ∧ ns_score <$> c = Some 70.
Proof.
  edestruct (fst_run (get_score_history AccessInv.toy_number (AuthInv.toy_env "k9" 49) AccessInv.key_headers (js "vrl:p:1")
    (Some (js "1")) (applyScoreTable 2 [rescored 70] 2 scored_once).2)) as [d' H]; [vm_compute; reflexivity|].
  assert (Hw : history_wf scored_once) by (apply applyScoreTable_history, history_wf_empty; reflexivity).
  destruct (score_history_starts_with_current 2 [rescored 70] 2 scored_once AccessInv.toy_number (AuthInv.toy_env "k9" 49)
    AccessInv.key_headers (js "vrl:p:1") (Some (js "1")) _ _ _ Hw H) as [_ [[Hl _]|[Hc|Hh]]].
  - vm_compute in Hl. discriminate Hl.
  - discriminate Hc.
  - eexists _, _, d'. split; [exact H|]. split; [exact Hh|]. vm_compute. reflexivity.
Defined.

End ScoreReads.
