(* ===== verification/Config.v ===== *)
(** * Configuration and the billing transport it selects

    [src/control-plane/src/config.ts]: the environment as a function, the typed
    reads and the frozen record; [src/control-plane/src/domains/billing/billingTransport.ts]:
    the Stripe and the stub transport and the choice between them.  The Stripe SDK
    is third-party: its calls are the record [sdk].  With the choice made, the
    billing environment of [Billing] is a function of the process environment, so
    that what the webhook endpoint accepts can be stated for a deployment. *)

From stdpp Require Import base gmap strings list.
From Stdlib Require Import ZArith Lia.
From S2P Require Import Prelude Json Errors Db Auth Billing Access JsText.

(** ** [config.ts] *)
Module Config.

(** [process.env]. *)
Definition environment : Type := jstr → option jstr.

Section reads.
Context (env : environment).

(** [process.env[name] || fallback]. *)
Definition optional (name : string) (fallback : jstr) : jstr :=
  match env (js name) with Some (c :: v) => c :: v | _ => fallback end.

Definition optionalInt (name : string) (fallback : Z) : Z :=
  match env (js name) with
  | Some (c :: v) => match Handler.parseInt (c :: v) with Some n => n | None => fallback end
  | _ => fallback
  end.

Definition booleanFlag (name : string) (fallback : bool) : bool :=
  match env (js name) with
  | Some (c :: v) => bool_decide (c :: v = js "true") || bool_decide (c :: v = js "1")
  | _ => fallback
  end.

Definition requireEnv (name : string) : result exn jstr :=
  match env (js name) with
  | Some (c :: v) => Ok (c :: v)
  | _ => Throw (EError (js "Missing required env var: " ++ js name))
  end.

End reads.

Record SyncSse := mkSyncSse {
  pollIntervalMs : Z; heartbeatIntervalMs : Z; maxConnections : Z; maxInitialBatch : Z;
  writeQueueMax : Z; writeQueueMaxBytes : Z; maxFrameBytes : Z; slowClientMs : Z;
  shutdownDrainMs : Z; cursorPersistIntervalMs : Z; cursorPersistEveryEvents : Z }.

Record Config := mkConfig {
  database_url : jstr; poolMax : Z; poolIdleTimeoutMillis : Z; poolConnectionTimeoutMillis : Z;
  clerkIssuerUrl : jstr; clerkClientId : jstr; clerkClientSecret : jstr;
  trustEngine_addr : jstr;
  debounceMs : Z; intervalMs : Z;
  syncSse : SyncSse;
  port : Z; nodeEnv : jstr; logLevel : jstr;
  stripe_secretKey : jstr; stripe_webhookSecret : jstr;
  hmacSecret : jstr;
  distPath : jstr }.

Definition config (env : environment) : Config :=
  mkConfig (optional env "DATABASE_URL" []) (optionalInt env "DB_POOL_MAX" 20)
    (optionalInt env "DB_POOL_IDLE_TIMEOUT_MS" 30000) (optionalInt env "DB_POOL_CONNECT_TIMEOUT_MS" 5000)
    (optional env "CLERK_ISSUER_URL" []) (optional env "CLERK_CLIENT_ID" []) (optional env "CLERK_CLIENT_SECRET" [])
    (optional env "TRUST_ENGINE_ADDR" (js "localhost:9091"))
    (optionalInt env "SCORE_RECOMPUTE_DEBOUNCE_MS" 60000) (optionalInt env "SCORE_RECOMPUTE_INTERVAL_MS" 3600000)
    (mkSyncSse (optionalInt env "SYNC_SSE_POLL_INTERVAL_MS" 5000)
       (optionalInt env "SYNC_SSE_HEARTBEAT_INTERVAL_MS" 30000) (optionalInt env "SYNC_SSE_MAX_CONNECTIONS" 100)
       (optionalInt env "SYNC_SSE_MAX_INITIAL_BATCH" 10000) (optionalInt env "SYNC_SSE_WRITE_QUEUE_MAX" 1024)
       (optionalInt env "SYNC_SSE_WRITE_QUEUE_MAX_BYTES" 8388608) (optionalInt env "SYNC_SSE_MAX_FRAME_BYTES" 1048576)
       (optionalInt env "SYNC_SSE_SLOW_CLIENT_MS" 60000) (optionalInt env "SYNC_SSE_SHUTDOWN_DRAIN_MS" 5000)
       (optionalInt env "SYNC_SSE_CURSOR_PERSIST_INTERVAL_MS" 60000)
       (optionalInt env "SYNC_SSE_CURSOR_PERSIST_EVERY_EVENTS" 100))
    (optionalInt env "PORT" 3000) (optional env "NODE_ENV" (js "development")) (optional env "LOG_LEVEL" (js "info"))
    (optional env "STRIPE_SECRET_KEY" []) (optional env "STRIPE_WEBHOOK_SECRET" [])
    (optional env "API_KEY_HMAC_SECRET" []) (optional env "DASHBOARD_DIST_PATH" []).

Definition assertDatabaseConfigured (c : Config) : result exn unit :=
  match database_url c with [] => Throw (EError (js "DATABASE_URL is required")) | _ => Ok tt end.

Definition assertSecretsConfigured (c : Config) : result exn unit :=
  match hmacSecret c with [] => Throw (EError (js "API_KEY_HMAC_SECRET is required")) | _ => Ok tt end.

(** *** Lemmas *)

(** An unset or empty variable is its fallback. *)
Lemma optional_empty env name fallback :
  env (js name) = None ∨ env (js name) = Some [] → optional env name fallback = fallback.
Proof. unfold optional. by intros [-> | ->]. Qed.

Lemma optional_value env name fallback c v : env (js name) = Some (c :: v) → optional env name fallback = c :: v.
Proof. unfold optional. by intros ->. Qed.

Lemma take_digits_all s : forallb is_digit s = true → Handler.take_digits s = s.
Proof. induction s as [|c s IH]; [done|]. simpl. intros [-> H]%andb_true_iff. by rewrite IH. Qed.

Lemma digit_range c : is_digit c = true → 48 ≤ c ≤ 57.
Proof. unfold is_digit. intros H. bool_to_prop. lia. Qed.

Lemma parseInt_show n : 0 ≤ n → Handler.parseInt (show_Z n) = Some n.
Proof.
  intros Hn. unfold show_Z. rewrite (proj2 (Z.ltb_ge _ _)) by done.
  destruct (show_nonneg_spec n Hn) as [Hd Hv]. unfold all_digits in Hd.
  destruct (show_nonneg n) as [|c s]; [done|]. pose proof Hd as [Hc _]%andb_true_iff.
  pose proof (digit_range c Hc). unfold Handler.parseInt.
  rewrite drop_while_stop by (by apply digit_not_space).
  assert (Hsign : (match c :: s with 45 :: r => (true, r) | 43 :: r => (false, r) | r => (false, r) end) = (false, c :: s)).
  { repeat (case_match; try done; try lia). }
  rewrite Hsign. rewrite take_digits_all by done. by rewrite Hv.
Qed.

(** *** Properties *)

(** A number in the environment is read back: for every integer setting, the
    decimal text of a non-negative number configures that number; an unset, empty
    or non-numeric value leaves the default. *)
Theorem optionalInt_reads env name fallback n :
  (0 ≤ n → env (js name) = Some (show_Z n) → optionalInt env name fallback = n) ∧
  (env (js name) = None ∨ env (js name) = Some [] → optionalInt env name fallback = fallback) ∧
  (∀ v, env (js name) = Some v → Handler.parseInt v = None → optionalInt env name fallback = fallback).
Proof.
  split_and!.
  - intros Hn Hv. pose proof (parseInt_show n Hn) as Hp. unfold optionalInt. rewrite Hv.
    destruct (show_Z n); [done|]. by rewrite Hp.
  - unfold optionalInt. by intros [-> | ->].
  - intros v Hv Hp. unfold optionalInt. rewrite Hv. destruct v; [done|]. by rewrite Hp.
Qed.

End Config.

(** ** [billingTransport.ts] *)
Module BillingTransport.
Import Config.

(** [encodeURIComponent]; [None]: a lone surrogate, on which it throws. *)
Definition unreserved (c : Z) : bool :=
  is_digit c || ((65 <=? c) && (c <=? 90)) || ((97 <=? c) && (c <=? 122))
  || bool_decide (c ∈ js "-_.!~*'()").
Definition upper_hex (d : Z) : Z := if d <? 10 then 48 + d else 55 + d.
Definition percent (b : Z) : jstr := [37; upper_hex (b / 16); upper_hex (b mod 16)].
Fixpoint encodeURIComponent (s : jstr) : option jstr :=
  match s with
  | [] => Some []
  | c :: s' =>
      if unreserved c then (λ r, c :: r) <$> encodeURIComponent s'
      else if is_high c then
        match s' with
        | d :: s'' => if is_low d then (λ r, concat (percent <$> utf8_pair c d) ++ r) <$> encodeURIComponent s'' else None
        | [] => None
        end
      else if is_low c then None
      else (λ r, concat (percent <$> utf8_unit c) ++ r) <$> encodeURIComponent s'
  end.

Definition uri_component (s : jstr) : result exn jstr :=
  match encodeURIComponent s with Some r => Ok r | None => Throw (EError (js "URIError")) end.

(** [Buffer.from(s).toString('hex').slice(0, 12)]. *)
Definition hex_prefix (s : jstr) : jstr :=
  take 12 (concat ((λ b, [hex_digit (b / 16); hex_digit (b mod 16)]) <$> utf8 s)).

(** Arguments of [createCheckoutSession]; [metadata] absent or its entries. *)
Record checkout_opts := mkCheckoutOpts {
  co_customerEmail : option jstr; co_priceId : jstr; co_successUrl : jstr; co_cancelUrl : jstr;
  co_metadata : option (list (jstr * jstr)) }.

(** What the SDK's [checkout.sessions.create] is called with. *)
Record checkout_params := mkCheckoutParams {
  cp_mode : jstr; cp_line_items : list (jstr * Z); cp_customer_email : option jstr;
  cp_success_url : jstr; cp_cancel_url : jstr; cp_metadata : option (list (jstr * jstr));
  cp_subscription_metadata : list (jstr * jstr) }.

(** The Stripe SDK bound to a secret key: a session's url and customer, a portal
    url, and the verified event of a body, a signature and a webhook secret. *)
Record sdk := mkSdk {
  sdk_checkout : checkout_params → result exn (jstr * option jstr);
  sdk_portal : jstr → jstr → result exn jstr;
  sdk_constructEvent : list Z → jstr → jstr → result exn Event }.

Record transport := mkTransport {
  createCheckoutSession : checkout_opts → result exn (jstr * jstr);
  createPortalSession : jstr → jstr → result exn jstr;
  constructEvent : list Z → jstr → result exn Event }.

Section transports.
Context (Stripe : jstr → sdk)                          (** [new Stripe(secretKey)] *)
        (JSON_parse_event : list Z → result exn Event). (** [JSON.parse(rawBody.toString('utf8'))] *)

Definition StripeBillingTransport (webhookSecret secretKey : jstr) : transport :=
  let client := Stripe secretKey in
  mkTransport
    (λ o, session ← sdk_checkout client
            (mkCheckoutParams (js "subscription") [(co_priceId o, 1)] (co_customerEmail o)
               (co_successUrl o) (co_cancelUrl o) (co_metadata o) (default [] (co_metadata o)));
          Ok (session.1, default [] session.2))
    (λ customerId returnUrl, sdk_portal client customerId returnUrl)
    (λ rawBody signature, sdk_constructEvent client rawBody signature webhookSecret).

Definition StubBillingTransport : transport :=
  mkTransport
    (λ o, price ← uri_component (co_priceId o);
          Ok (js "https://stub.example/checkout?price=" ++ price, js "cus_stub_" ++ hex_prefix (co_priceId o)))
    (λ customerId _, c ← uri_component customerId; Ok (js "https://stub.example/portal?customer=" ++ c))
    (λ rawBody _, JSON_parse_event rawBody).

Definition production (c : Config) : bool := bool_decide (nodeEnv c = js "production").

Definition createBillingTransport (c : Config) : result exn transport :=
  match stripe_secretKey c with
  | k :: ks => Ok (StripeBillingTransport (stripe_webhookSecret c) (k :: ks))
  | [] => if production c then Throw (EError (js "STRIPE_SECRET_KEY is required in production"))
          else Ok StubBillingTransport
  end.

(** The billing environment of a process: its configuration and the transport
    the module created when it was loaded ([None]: loading threw). *)
Definition billing_env (env : environment) (now : Z) (row_id : jstr) : option benv :=
  match createBillingTransport (config env) with
  | Throw _ => None
  | Ok t =>
      Some (mkBenv now row_id (env (js "STRIPE_PRICE_PRO")) (env (js "STRIPE_PRICE_ENTERPRISE")) (env (js "WEB_APP_URL"))
              (Some (stripe_webhookSecret (config env))) (production (config env))
              (λ email price success cancel tenant plan,
                 r ← createCheckoutSession t
                       (mkCheckoutOpts email price success cancel (Some [(js "tenant_id", tenant); (js "plan", plan)]));
                 Ok r.1)
              (createPortalSession t) (constructEvent t))
  end.

(** *** Lemmas *)

Lemma production_env env : env (js "NODE_ENV") = Some (js "production") → production (config env) = true.
Proof.
  intros H. unfold production. apply bool_decide_eq_true_2. simpl.
  by apply (optional_value env "NODE_ENV" (js "development") 112 (js "roduction")).
Qed.

(** A webhook request with an effect got an event from the transport. *)
Lemma webhook_effect_constructs e b sg d r d' :
  BillingService.handleWebhookEvent e b sg d = (r, d') → (∃ x, r = Ok x) ∨ d' ≠ d →
  BillingService.check_signature e sg = Ok tt ∧
  ∃ ev, be_constructEvent e b (default [] sg) = Ok ev ∧ ∀ x, r = Ok x → x.1 = ev_id ev.
Proof.
  intros H Hr. unfold BillingService.handleWebhookEvent in H.
  destruct (BillingService.check_signature e sg) as [[]|x] eqn:Hc.
  2: { injection H as <- <-. by destruct Hr as [[? ?]|?]. }
  split; [done|].
  destruct (be_constructEvent e b (default [] sg)) as [ev|x] eqn:He.
  2: { injection H as <- <-. by destruct Hr as [[? ?]|?]. }
  exists ev. split; [done|]. intros x ->. revert H. cbn.
  intros (? & d1 & H1 & H)%M_bind_Ok. injection H1 as <- <-.
  apply M_bind_Ok in H as (ev' & d2 & H2 & H). injection H2 as <- <-.
  apply M_bind_Ok in H as (cl & d3 & H3 & H). destruct cl; [|by injection H as <- _].
  apply M_bind_Ok in H as (? & d4 & H4 & H). apply M_bind_Ok in H as (? & d5 & H5 & H). by injection H as <- _.
Qed.

(** *** Properties *)

(** C36. In production a webhook that has any effect was verified by Stripe's SDK: the
    process runs with a Stripe key, a non-empty webhook secret and a non-empty
    signature, and the event applied is the one [constructEvent] returned for
    exactly these bytes, this signature and this secret. *)
Theorem production_webhooks_verified env now row_id e b sg d r d' :
  env (js "NODE_ENV") = Some (js "production") → billing_env env now row_id = Some e →
  BillingService.handleWebhookEvent e b sg d = (r, d') → (∃ x, r = Ok x) ∨ d' ≠ d →
  ∃ key secret s ev, env (js "STRIPE_SECRET_KEY") = Some key ∧ key ≠ [] ∧
    env (js "STRIPE_WEBHOOK_SECRET") = Some secret ∧ secret ≠ [] ∧ sg = Some s ∧ s ≠ [] ∧
    sdk_constructEvent (Stripe key) b s secret = Ok ev ∧ ∀ x, r = Ok x → x.1 = ev_id ev.
Proof.
  intros Hp He Hh Hr. destruct (webhook_effect_constructs e b sg d r d' Hh Hr) as (Hc & ev & Hev & Hid).
  pose proof (production_env env Hp) as Hprod.
  unfold billing_env, createBillingTransport in He. rewrite Hprod in He.
  destruct (stripe_secretKey (config env)) as [|k ks] eqn:Hk; [done|].
  assert (be_webhook_secret e = Some (stripe_webhookSecret (config env)) ∧ be_production e = true ∧
    be_constructEvent e = λ b s, sdk_constructEvent (Stripe (k :: ks)) b s (stripe_webhookSecret (config env))) as (E1 & E2 & E3).
  { assert (∀ x y : benv, Some x = Some y → x = y) as Hinj by congruence. apply Hinj in He. by subst e. }
  rewrite E3 in Hev. unfold BillingService.check_signature in Hc. rewrite E1, E2 in Hc.
  destruct (stripe_webhookSecret (config env)) as [|w ws] eqn:Hw; [done|]. cbn in Hc.
  destruct sg as [[|s0 s]|]; [done| |done]. cbn in Hev.
  assert (Henv : ∀ name c v, optional env name [] = c :: v → env (js name) = Some (c :: v)).
  { intros name c v. unfold optional. destruct (env (js name)) as [[|c' v']|]; [done|by intros ->|done]. }
  exists (k :: ks), (w :: ws), (s0 :: s), ev. split_and!; try done; by apply Henv.
Qed.

(** Without a Stripe key, outside production, the webhook endpoint verifies
    nothing even though a webhook secret is configured: any non-empty signature
    passes, all signatures give the same answer and the same database, and the
    event is whatever the body says. *)
Theorem stub_webhook_unverified env now row_id secret b s1 s2 d :
  env (js "STRIPE_SECRET_KEY") = None → env (js "NODE_ENV") = None →
  env (js "STRIPE_WEBHOOK_SECRET") = Some secret → secret ≠ [] → s1 ≠ [] → s2 ≠ [] →
  ∃ e, billing_env env now row_id = Some e ∧
    be_webhook_secret e = Some secret ∧ BillingService.check_signature e (Some s1) = Ok tt ∧
    be_constructEvent e b s1 = JSON_parse_event b ∧
    BillingRoutes.post_webhook e (Some b) (Some s1) d = BillingRoutes.post_webhook e (Some b) (Some s2) d.
Proof.
  intros Hk Hn Hw Hs H1 H2.
  assert (Ek : stripe_secretKey (config env) = []) by (apply optional_empty; by left).
  assert (En : production (config env) = false).
  { unfold production. apply bool_decide_eq_false_2. simpl. rewrite optional_empty by (by left). discriminate. }
  assert (Ew : stripe_webhookSecret (config env) = secret).
  { destruct secret as [|c v]; [done|]. by apply optional_value. }
  unfold billing_env, createBillingTransport. rewrite Ek, En. eexists. split; [done|]. split; [cbn [be_webhook_secret]; by rewrite Ew|].
  assert (Hc : ∀ e s, be_webhook_secret e = Some secret → s ≠ [] → BillingService.check_signature e (Some s) = Ok tt).
  { intros e s E Hne. unfold BillingService.check_signature. rewrite E. by destruct secret, s. }
  split; [apply Hc; [cbn [be_webhook_secret]; by rewrite Ew|done]|]. split; [done|].
  unfold BillingRoutes.post_webhook, BillingService.handleWebhookEvent.
  rewrite !Hc by (done || (cbn [be_webhook_secret]; by rewrite Ew)). done.
Qed.

End transports.

(** *** Witnesses *)

Definition prod_env (name : jstr) : option jstr :=
  if bool_decide (name = js "NODE_ENV") then Some (js "production")
  else if bool_decide (name = js "STRIPE_SECRET_KEY") then Some (js "sk")
  else if bool_decide (name = js "STRIPE_WEBHOOK_SECRET") then Some (js "whsec") else None.
Definition staging_env (name : jstr) : option jstr :=
  if bool_decide (name = js "STRIPE_WEBHOOK_SECRET") then Some (js "whsec") else None.

Definition parse_toy (b : list Z) : result exn Event :=
  match b with [n] => match BillingInv.toy_event n with Some ev => Ok ev | None => Throw (EError (js "bad")) end
             | _ => Throw (EError (js "bad")) end.
(** An SDK that accepts the signature "good". *)
Definition toy_sdk (key : jstr) : sdk :=
  mkSdk (λ _, Ok (js "https://checkout", None)) (λ _ _, Ok (js "https://portal"))
    (λ b s w, if bool_decide (s = js "good") && bool_decide (w = js "whsec") then parse_toy b else Throw (EError (js "signature"))).

Lemma production_webhooks_verified_witness :
  ∃ e d', billing_env toy_sdk parse_toy prod_env 5 (js "row1") = Some e ∧
    BillingService.handleWebhookEvent e [1] (Some (js "good")) BillingInv.billing_db = (Ok (js "evt_1", true), d') ∧
    ∃ secret ev, sdk_constructEvent (toy_sdk (js "sk")) [1] (js "good") secret = Ok ev.
Proof.
  eexists. edestruct (fst_run (BillingService.handleWebhookEvent
    (default (BillingInv.toy_billing 5) (billing_env toy_sdk parse_toy prod_env 5 (js "row1")))
    [1] (Some (js "good")) BillingInv.billing_db)) as [d' H]; [vm_compute; reflexivity|].
  exists d'. split; [reflexivity|]. split; [exact H|].
  destruct (production_webhooks_verified toy_sdk parse_toy prod_env 5 (js "row1") _ [1] (Some (js "good"))
              BillingInv.billing_db _ d' eq_refl eq_refl H (or_introl (ex_intro _ _ eq_refl)))
    as (key & secret & s & ev & Hk & _ & _ & _ & Hs & _ & Hv & _).
  exists secret, ev. injection Hs as <-. injection Hk as <-. exact Hv.
Defined.

Lemma stub_webhook_unverified_witness :
  ∃ e, billing_env toy_sdk parse_toy staging_env 5 (js "row1") = Some e ∧
    (BillingRoutes.post_webhook e (Some [1]) (Some (js "forged")) BillingInv.billing_db).1 = (200, inr (js "evt_1", true)) ∧
    length (subscriptions (BillingRoutes.post_webhook e (Some [1]) (Some (js "forged")) BillingInv.billing_db).2) = 1%nat ∧
    be_constructEvent e [1] (js "forged") = parse_toy [1].
Proof.
  destruct (stub_webhook_unverified toy_sdk parse_toy staging_env 5 (js "row1") (js "whsec") [1] (js "forged") (js "x")
              BillingInv.billing_db eq_refl eq_refl eq_refl ltac:(discriminate) ltac:(discriminate) ltac:(discriminate))
    as (e & He & _ & _ & Hc & _).
  exists e. split; [exact He|]. injection He as <-.
  split; [vm_compute; reflexivity|]. split; [vm_compute; reflexivity|]. exact Hc.
Defined.

End BillingTransport.
