(* ===== verification/App.v ===== *)
(** * The HTTP application and the process around it

    [src/control-plane/src/app.ts] (the order in which a request meets the
    middleware and the routers), [dashboard/spaServe.ts], [middleware/audit.ts],
    [middleware/requestTracker.ts], [src/control-plane/src/index.ts] (start and
    graceful shutdown) and [scripts/seed-bootstrap.ts].

    Express is third-party code.  What a mount path matches, and what it leaves of
    the path, is the section variable [strip_mount] with Express's documented
    behaviour as hypotheses where a theorem needs it; a router is a function that
    answers, passes on or fails (its handlers are modelled in the files of their
    domains).  Express rewrites the request's path while a mounted router handles it
    and restores it when the router passes on or fails, not when it answers. *)

From stdpp Require Import base gmap strings list.
From Stdlib Require Import ZArith Lia.
From S2P Require Import Prelude Json Errors Db Decisions Bootstrap Auth Billing Access Config.

(** ** [dashboard/spaServe.ts] *)
Module Spa.
Import Config.

Definition DISABLE_TOKENS : list jstr := [js "off"; js "false"; js "0"; js "-"; js "disabled"].

(** [path.resolve] and the module's own location are the runtime's. *)
Definition resolveDashboardDistPath (resolve : jstr → jstr) (module_dist : jstr) (env : environment) (c : Config) : option jstr :=
  let raw := trim (match env (js "DASHBOARD_DIST_PATH") with Some (x :: v) => x :: v | _ => distPath c end) in
  match raw with
  | [] => Some module_dist
  | _ => if bool_decide (DecisionSample.toLowerCase raw ∈ DISABLE_TOKENS) then None else Some (resolve raw)
  end.

Definition startsWith (p s : jstr) : bool := bool_decide (take (length p) s = p).

Definition isSpaBypassPath (p : jstr) : bool :=
  bool_decide (p = js "/healthz") || bool_decide (p = js "/v1") || startsWith (js "/v1/") p
  || bool_decide (p = js "/webhooks") || startsWith (js "/webhooks/") p.

(** Whether [mountDashboardSpa] mounts anything. *)
Definition spa_mounted (exists_index : jstr → bool) (dist : option jstr) : bool :=
  match dist with Some d => exists_index d | None => false end.

(** The fallback handler: [true] when it sends index.html. *)
Definition spa_fallback (method path : jstr) : bool :=
  if negb (bool_decide (method = js "GET")) && negb (bool_decide (method = js "HEAD")) then false
  else negb (isSpaBypassPath path).

End Spa.

(** ** [middleware/requestTracker.ts] *)
Module RequestTracker.

Record tracked := mkTracked { requestId : jstr; correlationId : jstr; response_headers : list (jstr * jstr) }.

Definition requestTracker (requestId : option jstr) (x_correlation_id : option jstr) (uuid1 uuid2 : jstr) : tracked :=
  let rid := match requestId with Some (c :: r) => c :: r | _ => uuid1 end in
  let cid := match x_correlation_id with Some (c :: r) => c :: r | _ => uuid2 end in
  mkTracked rid cid [(js "X-Request-Id", rid); (js "X-Correlation-Id", cid)].

End RequestTracker.

(** ** [middleware/audit.ts] *)
Module Audit.
Import Auth Guards.

Record AuditRow := mkAuditRow {
  au_tenant_id : jstr; au_actor_type : jstr; au_actor_id : option jstr; au_action : jstr; au_resource : jstr;
  au_resource_id : option jstr; au_metadata : json; au_ip : jstr; au_user_agent : option jstr }.

Definition user_type (u : user) : jstr :=
  match u with ApiKeyUser _ _ _ => js "apikey" | OidcUser _ _ _ _ _ _ => js "oidc" end.
Definition user_id (u : user) : option jstr :=
  match u with OidcUser id _ _ _ _ _ => Some id | ApiKeyUser _ _ _ => None end.
Definition key_id (u : user) : option jstr :=
  match u with ApiKeyUser id _ _ => Some id | OidcUser _ _ _ _ _ _ => None end.

(** [a || b], on strings. *)
Definition or_str (a b : option jstr) : option jstr := match a with Some (_ :: _) => a | _ => b end.
Definition or_null (a : option jstr) : option jstr := or_str a None.

(** The table, to which [insert] may fail to add a row: the failure is logged. *)
Definition auditLog (insert : AuditRow → bool) (u : option user) (ip : jstr) (user_agent : option jstr)
    (userId : option jstr) (action resource : jstr) (resourceId : option jstr) (metadata : option json)
    (log : list AuditRow) : list AuditRow :=
  match u ≫= tenant_of with
  | Some (c :: t) =>
      let row := mkAuditRow (c :: t) (match u with Some u => user_type u | None => js "unknown" end)
                   (or_null (or_str (or_str userId (u ≫= user_id)) (u ≫= key_id))) action resource (or_null resourceId)
                   (default (JObj []) metadata) ip (or_null user_agent) in
      if insert row then log ++ [row] else log
  | _ => log
  end.

Definition MUTATIONS : list jstr := [js "POST"; js "PUT"; js "PATCH"; js "DELETE"].

(** The 'finish' listener; [path] is [req.path] at that time. *)
Definition on_finish (insert : AuditRow → bool) (u : option user) (ip : jstr) (user_agent : option jstr)
    (method path : jstr) (status duration : Z) (log : list AuditRow) : list AuditRow :=
  if bool_decide (method ∈ MUTATIONS) then
    auditLog insert u ip user_agent (u ≫= user_id) (method ++ [32] ++ path) path None
      (Some (JObj [(js "status", JNum (num_of_Z status)); (js "duration", JNum (num_of_Z duration))])) log
  else log.

End Audit.

(** ** [app.ts] *)
Module App.
Import Spa Audit Auth.

(** What a handler or router does with a request. *)
Inductive handled :=
| Answered (status : Z) (u : option user)  (** it sends a response; [req.user] by then *)
| Passed                                   (** [next()] *)
| Failed (err : exn) (u : option user).    (** [next(err)] *)

Record request := mkRequest {
  rq_method : jstr; rq_path : jstr; rq_ip : jstr; rq_user_agent : option jstr; rq_duration : Z }.

(** Who answered. *)
Inductive origin := Webhook | Limiter | Health | Router (mount : jstr) | StaticFile | SpaIndex | NotFoundHandler | ErrorHandler.

Record answer := mkAnswer { an_origin : origin; an_status : Z; an_user : option user; an_path : jstr }.

Definition MOUNTS : list jstr :=
  js <$> ["/v1/principals"; "/v1/attestations"; "/v1/sync"; "/v1/admin"; "/v1/decisions"; "/v1/policies"; "/v1/scores";
          "/v1/graph"; "/v1/edge-nodes"; "/v1/api-keys"; "/v1/billing"; "/v1/tenants"]%string.

Section app.
Context (strip_mount : jstr → jstr → option jstr)      (** mount, path: the path the router sees *)
        (router : jstr → request → jstr → handled)     (** mount, request, path it sees *)
        (raw_body : request → option exn)              (** express.raw fails *)
        (limiter : request → bool)                     (** the rate limiter answers 429 *)
        (json_body : request → option exn)             (** express.json fails *)
        (static_file : option (jstr → bool)).          (** the mounted dist directory *)

(** The error handler. *)
Definition fail (err : exn) (u : option user) (r : request) : answer :=
  mkAnswer ErrorHandler (status (from err)) u (rq_path r).

Definition not_found (r : request) : answer :=
  mkAnswer NotFoundHandler (status (app_error NOT_FOUND (js "Route not found"))) None (rq_path r).

(** [mountDashboardSpa], then the 404 handler. *)
Definition after_routes (r : request) : answer :=
  match static_file with
  | None => not_found r
  | Some file =>
      if (bool_decide (rq_method r = js "GET") || bool_decide (rq_method r = js "HEAD")) && file (rq_path r)
      then mkAnswer StaticFile 200 None (rq_path r)
      else if spa_fallback (rq_method r) (rq_path r) then mkAnswer SpaIndex 200 None (rq_path r)
      else not_found r
  end.

(** A mounted router, and what comes after it. *)
Definition use (mount : jstr) (origin_ : origin) (rest : request → answer) (r : request) : answer :=
  match strip_mount mount (rq_path r) with
  | None => rest r
  | Some p =>
      match router mount r p with
      | Answered s u => mkAnswer origin_ s u p
      | Passed => rest r
      | Failed err u => fail err u r
      end
  end.

Fixpoint use_all (mounts : list jstr) (r : request) : answer :=
  match mounts with
  | [] => after_routes r
  | m :: ms => use m (Router m) (use_all ms) r
  end.

(** [app.get('/healthz', ...)] matches the whole path, with or without a final
    slash. *)
Definition healthz (r : request) : bool :=
  (bool_decide (rq_method r = js "GET") || bool_decide (rq_method r = js "HEAD"))
  && bool_decide (strip_mount (js "/healthz") (rq_path r) = Some (js "/")).

(** From [apiLimiter] on. *)
Definition user_routes (r : request) : answer :=
  if limiter r then mkAnswer Limiter 429 None (rq_path r)
  else match json_body r with
       | Some err => fail err None r
       | None => if healthz r then mkAnswer Health 200 None (rq_path r) else use_all MOUNTS r
       end.

(** The application: the answer, and the audit rows after the response has
    finished.  The webhook and the limiter answer before the audit middleware. *)
Definition WEBHOOK : jstr := js "/webhooks/stripe".

Definition dispatch (r : request) : answer :=
  match strip_mount WEBHOOK (rq_path r) with
  | None => user_routes r
  | Some p =>
      match raw_body r with
      | Some err => fail err None r
      | None =>
          match router WEBHOOK r p with
          | Answered s u => mkAnswer Webhook s u p
          | Passed => user_routes r
          | Failed err u => fail err u r
          end
      end
  end.

(** Whether the audit middleware saw the request. *)
Definition audited (r : request) : bool :=
  match strip_mount WEBHOOK (rq_path r) with
  | None => negb (limiter r)
  | Some p => match raw_body r, router WEBHOOK r p with None, Passed => negb (limiter r) | _, _ => false end
  end.

Definition serve (insert : AuditRow → bool) (r : request) (log : list AuditRow) : answer * list AuditRow :=
  let a := dispatch r in
  (a, if audited r
      then on_finish insert (an_user a) (rq_ip r) (rq_user_agent r) (rq_method r) (an_path a) (an_status a) (rq_duration r) log
      else log).

(** *** Lemmas *)

Lemma use_all_cases mounts r :
  (∃ m p s u, m ∈ mounts ∧ strip_mount m (rq_path r) = Some p ∧ router m r p = Answered s u ∧
     use_all mounts r = mkAnswer (Router m) s u p) ∨
  (∃ m p err u, m ∈ mounts ∧ strip_mount m (rq_path r) = Some p ∧ router m r p = Failed err u ∧ use_all mounts r = fail err u r) ∨
  (use_all mounts r = after_routes r ∧
   ∀ m p, m ∈ mounts → strip_mount m (rq_path r) = Some p → router m r p = Passed).
Proof.
  induction mounts as [|m ms IH]; [right; right; split; [done|]; by intros ? ? ?%elem_of_nil|].
  simpl. unfold use.
  assert (Hskip : (∀ p, strip_mount m (rq_path r) = Some p → router m r p = Passed) →
    (∃ m' p s u, m' ∈ m :: ms ∧ strip_mount m' (rq_path r) = Some p ∧ router m' r p = Answered s u ∧
       use_all ms r = mkAnswer (Router m') s u p) ∨
    (∃ m' p err u, m' ∈ m :: ms ∧ strip_mount m' (rq_path r) = Some p ∧ router m' r p = Failed err u ∧ use_all ms r = fail err u r) ∨
    (use_all ms r = after_routes r ∧ ∀ m' p, m' ∈ m :: ms → strip_mount m' (rq_path r) = Some p → router m' r p = Passed)).
  { intros Hm. destruct IH as [(m' & p & s & u & ? & ?)|[(m' & p & e & u & ? & ?)|[H1 H2]]].
    - left. exists m', p, s, u. split; [by right|done].
    - right; left. exists m', p, e, u. split; [by right|done].
    - right; right. split; [done|]. intros m' p [->|Hin]%elem_of_cons; auto. }
  destruct (strip_mount m (rq_path r)) as [p|] eqn:Hs; [|by apply Hskip].
  destruct (router m r p) as [s u| |e u] eqn:Hr.
  - left. exists m, p, s, u. split; [by left|done].
  - apply Hskip. by intros p' [= <-].
  - right; left. exists m, p, e, u. split; [by left|done].
Qed.

Lemma after_routes_cases r :
  an_origin (after_routes r) ∈ [StaticFile; SpaIndex; NotFoundHandler] ∧
  (an_origin (after_routes r) = SpaIndex → is_Some static_file ∧ spa_fallback (rq_method r) (rq_path r) = true) ∧
  (an_origin (after_routes r) = StaticFile → ∃ file, static_file = Some file ∧ file (rq_path r) = true) ∧
  (an_origin (after_routes r) = NotFoundHandler → an_status (after_routes r) = 404).
Proof.
  unfold after_routes. destruct static_file as [file|]; [|set_solver].
  destruct ((_ || _) && file (rq_path r)) eqn:E; [|destruct (spa_fallback _ _) eqn:E2; set_solver].
  apply andb_true_iff in E as [_ E]. split; [set_solver|]. split_and!; try done. eauto.
Qed.

Lemma user_routes_eq r :
  limiter r = false → json_body r = None → healthz r = false → user_routes r = use_all MOUNTS r.
Proof. unfold user_routes. by intros -> -> ->. Qed.

Lemma dispatch_no_webhook r : strip_mount WEBHOOK (rq_path r) = None → dispatch r = user_routes r.
Proof. unfold dispatch. by intros ->. Qed.

(** Where an answer of the dashboard, or no answer, comes from. *)
Lemma dispatch_after_routes r :
  an_origin (dispatch r) ∈ [StaticFile; SpaIndex; NotFoundHandler] →
  dispatch r = after_routes r ∧
  ∀ m p, m ∈ MOUNTS → strip_mount m (rq_path r) = Some p → router m r p = Passed.
Proof.
  assert (Huser : an_origin (user_routes r) ∈ [StaticFile; SpaIndex; NotFoundHandler] →
    user_routes r = after_routes r ∧ ∀ m p, m ∈ MOUNTS → strip_mount m (rq_path r) = Some p → router m r p = Passed).
  { unfold user_routes. destruct (limiter r); [set_solver|]. destruct (json_body r); [set_solver|].
    destruct (healthz r); [set_solver|].
    destruct (use_all_cases MOUNTS r) as [(m & p & s & u & _ & _ & _ & ->)|[(m & p & e & u & _ & _ & _ & ->)|[-> H]]];
      [set_solver|set_solver|done]. }
  unfold dispatch. destruct (strip_mount WEBHOOK (rq_path r)) as [p|]; [|done].
  destruct (raw_body r); [set_solver|]. destruct (router WEBHOOK r p); [set_solver|done|set_solver].
Qed.

(** A failed request has its path back. *)
Lemma failed_path r : an_origin (dispatch r) = ErrorHandler → an_path (dispatch r) = rq_path r.
Proof.
  assert (Hur : an_origin (user_routes r) = ErrorHandler → an_path (user_routes r) = rq_path r).
  { unfold user_routes. destruct (limiter r); [done|]. destruct (json_body r); [done|]. destruct (healthz r); [done|].
    destruct (use_all_cases MOUNTS r) as [(m' & q' & s' & u' & _ & _ & _ & ->)|[(m' & q' & e & u' & _ & _ & _ & ->)|[-> _]]];
      [done|done|]. intros Ho. destruct (after_routes_cases r) as [Hc _]. rewrite Ho in Hc. set_solver. }
  unfold dispatch. destruct (strip_mount WEBHOOK (rq_path r)) as [w|]; [|done].
  destruct (raw_body r); [done|]. by destruct (router WEBHOOK r w).
Qed.

(** *** Properties *)

(** The dashboard never takes a request from the API. Its page is only sent to a
    GET or HEAD of a path outside [/v1], [/webhooks] and [/healthz], after every
    router whose mount matches has passed the request on; and a request to a path
    under these prefixes that no router answers gets 404, or a file of the build if
    one has that path. *)
Theorem dashboard_never_shadows_api r :
  (an_origin (dispatch r) = SpaIndex →
    is_Some static_file ∧ (rq_method r = js "GET" ∨ rq_method r = js "HEAD") ∧ isSpaBypassPath (rq_path r) = false ∧
    ∀ m p, m ∈ MOUNTS → strip_mount m (rq_path r) = Some p → router m r p = Passed) ∧
  (isSpaBypassPath (rq_path r) = true →
    an_origin (dispatch r) ≠ SpaIndex ∧
    (an_origin (dispatch r) = NotFoundHandler → an_status (dispatch r) = 404) ∧
    (an_origin (dispatch r) = StaticFile → ∃ file, static_file = Some file ∧ file (rq_path r) = true)).
Proof.
  destruct (after_routes_cases r) as (_ & Hspa & Hst & Hnf).
  assert (H1 : an_origin (dispatch r) = SpaIndex →
    is_Some static_file ∧ (rq_method r = js "GET" ∨ rq_method r = js "HEAD") ∧ isSpaBypassPath (rq_path r) = false ∧
    ∀ m p, m ∈ MOUNTS → strip_mount m (rq_path r) = Some p → router m r p = Passed).
  { intros Ho. destruct (dispatch_after_routes r) as [Hd Hp]; [set_solver|]. rewrite Hd in Ho.
    destruct (Hspa Ho) as [Hm Hf]. split; [done|]. unfold spa_fallback in Hf.
    destruct (negb _ && negb _) eqn:E; [done|]. apply andb_false_iff in E as [E|E]; bool_to_prop; auto. }
  split; [exact H1|]. intros Hb. split_and!.
  - intros Ho. destruct (H1 Ho) as (_ & _ & Hb' & _). congruence.
  - intros Ho. destruct (dispatch_after_routes r) as [Hd _]; [set_solver|]. rewrite Hd in *. auto.
  - intros Ho. destruct (dispatch_after_routes r) as [Hd _]; [set_solver|]. rewrite Hd in *. auto.
Qed.

(** A body the parser refuses is reported as an internal error: the parser's own
    error (malformed JSON, a body over the limit) is no [AppError], so the answer
    is 500 whatever the method and the route, and no router is asked. *)
Theorem refused_body_is_500 r msg :
  strip_mount WEBHOOK (rq_path r) = None → limiter r = false → json_body r = Some (EError msg) →
  an_origin (dispatch r) = ErrorHandler ∧ an_status (dispatch r) = 500.
Proof.
  intros Hw Hl Hj. rewrite dispatch_no_webhook by done. unfold user_routes. by rewrite Hl, Hj.
Qed.

(** The audit log records what was changed by whom, and never gets in the way:
    the answer does not depend on the log or on its writes; a row is only added
    for a mutating method of a caller with a tenant that the middleware saw, and it
    carries that tenant, the caller, the method and the answer's status. *)
Theorem audit_rows_sound insert insert' r log log0 a log' :
  serve insert r log = (a, log') →
  fst (serve insert' r log0) = a ∧
  (log' = log ∨
   ∃ u t row, log' = log ++ [row] ∧ audited r = true ∧ rq_method r ∈ MUTATIONS ∧
     an_user a = Some u ∧ Guards.tenant_of u = Some t ∧ t ≠ [] ∧
     au_tenant_id row = t ∧ au_actor_type row = user_type u ∧
     au_action row = rq_method r ++ [32] ++ an_path a ∧ au_resource row = an_path a ∧
     get (au_metadata row) "status" = JNum (num_of_Z (an_status a))).
Proof.
  intros H. unfold serve in H. injection H as <- <-. split; [done|].
  destruct (audited r); [|by left]. unfold on_finish. case_bool_decide; [|by left]. unfold auditLog.
  destruct (an_user (dispatch r)) as [u|] eqn:Hu; [|by left]. simpl.
  destruct (Guards.tenant_of u) as [[|c t]|] eqn:Ht; [by left| |by left].
  destruct (insert _); [|by left]. right. eexists u, (c :: t), _. split; [done|]. by split_and!.
Qed.

(** The audit log cannot tell the resources apart. A router sees, and the
    'finish' listener reads, the path without the mount: two requests that different
    routers answered, with the same rest of the path, the same caller and the same
    status, leave the same row. A request that failed is recorded with its full
    path, so the same call is logged under two names. *)
Theorem audit_conflates_resources insert r m1 m2 p p1 p2 s u log :
  let r1 := mkRequest (rq_method r) p1 (rq_ip r) (rq_user_agent r) (rq_duration r) in
  let r2 := mkRequest (rq_method r) p2 (rq_ip r) (rq_user_agent r) (rq_duration r) in
  an_origin (dispatch r1) = Router m1 → an_origin (dispatch r2) = Router m2 →
  strip_mount m1 p1 = Some p → strip_mount m2 p2 = Some p →
  audited r1 = true → audited r2 = true →
  an_status (dispatch r1) = s → an_status (dispatch r2) = s → an_user (dispatch r1) = u → an_user (dispatch r2) = u →
  snd (serve insert r1 log) = snd (serve insert r2 log) ∧
  ∀ r0, an_origin (dispatch r0) = ErrorHandler → an_path (dispatch r0) = rq_path r0.
Proof.
  intros r1 r2 Ho1 Ho2 H1 H2 Ha1 Ha2 Hs1 Hs2 Hu1 Hu2.
  assert (Hpath : ∀ r0 m q, an_origin (dispatch r0) = Router m → strip_mount m (rq_path r0) = Some q → an_path (dispatch r0) = q).
  { intros r0 m q. assert (Hur : an_origin (user_routes r0) = Router m → strip_mount m (rq_path r0) = Some q →
      an_path (user_routes r0) = q).
    { unfold user_routes. destruct (limiter r0); [done|]. destruct (json_body r0); [done|]. destruct (healthz r0); [done|].
      destruct (use_all_cases MOUNTS r0) as [(m' & q' & s' & u' & _ & Hm & _ & ->)|[(m' & q' & e & u' & _ & _ & _ & ->)|[-> _]]];
        simpl; [intros [= <-]; congruence|done|].
      intros Ho. destruct (after_routes_cases r0) as [Hc _]. rewrite Ho in Hc. set_solver. }
    unfold dispatch. destruct (strip_mount WEBHOOK (rq_path r0)) as [w|]; [|done].
    destruct (raw_body r0); [done|]. by destruct (router WEBHOOK r0 w). }
  split; [|intros r0; apply failed_path].
  unfold serve. simpl. rewrite Ha1, Ha2, (Hpath r1 m1 p Ho1 H1), (Hpath r2 m2 p Ho2 H2). by rewrite Hs1, Hs2, Hu1, Hu2.
Qed.

(** The guard against sending the page to API paths is case sensitive, the routing
    is not: for an unknown API path the lower case spelling gets 404 and the upper
    case spelling gets the dashboard page with status 200. *)
Theorem upper_case_api_path_gets_page file r rest :
  static_file = Some file → rq_method r = js "GET" →
  let low := mkRequest (rq_method r) (js "/v1/" ++ rest) (rq_ip r) (rq_user_agent r) (rq_duration r) in
  let up := mkRequest (rq_method r) (js "/V1/" ++ rest) (rq_ip r) (rq_user_agent r) (rq_duration r) in
  Forall (λ q, file (rq_path q) = false ∧ strip_mount WEBHOOK (rq_path q) = None ∧ limiter q = false ∧ json_body q = None ∧
               healthz q = false ∧ ∀ m p, m ∈ MOUNTS → strip_mount m (rq_path q) = Some p → router m q p = Passed) [low; up] →
  an_status (dispatch low) = 404 ∧ an_origin (dispatch up) = SpaIndex ∧ an_status (dispatch up) = 200.
Proof.
  intros Hf Hm low up [Hl [Hu _]%Forall_cons]%Forall_cons.
  assert (Hafter : ∀ q, (file (rq_path q) = false ∧ strip_mount WEBHOOK (rq_path q) = None ∧ limiter q = false ∧ json_body q = None ∧
               healthz q = false ∧ ∀ m p, m ∈ MOUNTS → strip_mount m (rq_path q) = Some p → router m q p = Passed) →
             dispatch q = after_routes q).
  { intros q (_ & Hw & Hli & Hj & Hh & Hp). rewrite dispatch_no_webhook, user_routes_eq by done.
    destruct (use_all_cases MOUNTS q) as [(m & p & s & u & Hin & Hs & Hr & _)|[(m & p & e & u & Hin & Hs & Hr & _)|[? _]]]; [..|done];
      by rewrite (Hp m p Hin Hs) in Hr. }
  rewrite (Hafter low Hl), (Hafter up Hu). destruct Hl as [Fl _], Hu as [Fu _].
  unfold after_routes. rewrite Hf, Fl, Fu, !andb_false_r. unfold spa_fallback.
  subst low up. cbn [rq_method rq_path]. rewrite Hm.
  assert (E1 : isSpaBypassPath (js "/v1/" ++ rest) = true).
  { unfold isSpaBypassPath. assert (startsWith (js "/v1/") (js "/v1/" ++ rest) = true) as ->
      by (apply bool_decide_eq_true_2; apply take_app_length). by rewrite !orb_true_r. }
  assert (E2 : isSpaBypassPath (js "/V1/" ++ rest) = false).
  { unfold isSpaBypassPath, startsWith. rewrite !bool_decide_eq_false_2; [done|discriminate..]. }
  rewrite E1, E2. done.
Qed.

End app.

(** *** Witnesses: Express's mounts, and routers that answer a POST to their root. *)

Definition toy_strip (m p : jstr) : option jstr :=
  if bool_decide (DecisionSample.toLowerCase (take (length m) p) = DecisionSample.toLowerCase m) then
    match drop (length m) p with [] => Some (js "/") | 47 :: r => Some (47 :: r) | _ => None end
  else None.
Definition toy_caller : user := ApiKeyUser (js "k0") (js "tb") [].
Definition toy_router (m : jstr) (r : request) (p : jstr) : handled :=
  if bool_decide (rq_method r = js "POST") && bool_decide (p = js "/") then Answered 201 (Some toy_caller) else Passed.
Definition toy_dispatch : request → answer :=
  dispatch toy_strip toy_router (λ _, None) (λ _, false) (λ _, None) (Some (λ _, false)).
Definition req (m p : string) : request := mkRequest (js m) (js p) (js "1.2.3.4") None 7.

Lemma refused_body_is_500_witness :
  an_status (dispatch toy_strip toy_router (λ _, None) (λ _, false) (λ _, Some (EError (js "Unexpected token")))
               None (req "POST" "/v1/attestations")) = 500.
Proof.
  apply (refused_body_is_500 toy_strip toy_router (λ _, None) (λ _, false) (λ _, Some (EError (js "Unexpected token")))
               None (req "POST" "/v1/attestations") (js "Unexpected token")); vm_compute; reflexivity.
Defined.

Lemma audit_rows_sound_witness :
  ∃ a row, serve toy_strip toy_router (λ _, None) (λ _, false) (λ _, None) None (λ _, true) (req "POST" "/v1/principals") []
           = (a, [row]) ∧ au_tenant_id row = js "tb" ∧ au_action row = js "POST /" ∧
  fst (serve toy_strip toy_router (λ _, None) (λ _, false) (λ _, None) None (λ _, false) (req "POST" "/v1/principals") []) = a.
Proof.
  eexists _, _. split; [vm_compute; reflexivity|]. split; [reflexivity|]. split; [reflexivity|].
  eapply (audit_rows_sound toy_strip toy_router (λ _, None) (λ _, false) (λ _, None) None (λ _, true) (λ _, false)
            (req "POST" "/v1/principals") [] []). vm_compute. reflexivity.
Defined.

Lemma audit_conflates_resources_witness :
  snd (serve toy_strip toy_router (λ _, None) (λ _, false) (λ _, None) None (λ _, true) (req "POST" "/v1/principals") []) =
  snd (serve toy_strip toy_router (λ _, None) (λ _, false) (λ _, None) None (λ _, true) (req "POST" "/v1/api-keys") []).
Proof.
  apply (audit_conflates_resources toy_strip toy_router (λ _, None) (λ _, false) (λ _, None) None (λ _, true)
    (req "POST" "/") (js "/v1/principals") (js "/v1/api-keys") (js "/") (js "/v1/principals") (js "/v1/api-keys") 201 (Some toy_caller) []);
    vm_compute; reflexivity.
Defined.

Lemma upper_case_api_path_gets_page_witness :
  an_status (toy_dispatch (req "GET" "/v1/nope")) = 404 ∧ an_origin (toy_dispatch (req "GET" "/V1/nope")) = SpaIndex.
Proof.
  edestruct (upper_case_api_path_gets_page toy_strip toy_router (λ _, None) (λ _, false) (λ _, None) (Some (λ _, false))
               (λ _, false) (req "GET" "/") (js "nope")) as (H1 & H2 & _); [reflexivity|reflexivity| |exact (conj H1 H2)].
  apply List.Forall_cons; [|apply List.Forall_cons; [|apply List.Forall_nil]]; (split; [reflexivity|]); (split; [vm_compute; reflexivity|]);
    (split; [reflexivity|]); (split; [reflexivity|]); (split; [vm_compute; reflexivity|]); intros m p _ _; reflexivity.
Defined.

End App.

(** ** [index.ts]: start and graceful shutdown *)
Module Process.
Import Config.

(** The steps of [main] before the server listens. *)
Inductive start_step := RunMigrations | StartScheduler | Listen (port : Z).

(** [main]: the steps taken, and how it ends. [migrations] is what [runMigrations]
    resolves to. *)
Definition main (c : Config) (migrations : result exn unit) : list start_step * result exn unit :=
  match assertDatabaseConfigured c with
  | Throw e => ([], Throw e)
  | Ok _ =>
      match assertSecretsConfigured c with
      | Throw e => ([], Throw e)
      | Ok _ => match migrations with
                | Throw e => ([RunMigrations], Throw e)
                | Ok _ => ([RunMigrations; StartScheduler; Listen (port c)], Ok tt)
                end
      end
  end.

(** Where the shutdown is. *)
Inductive stage :=
| Running
| DrainingSse          (** [await getSseRegistry().shutdownAll(...)] *)
| StoppingScheduler    (** [await scheduler.stop()] *)
| ClosingServer        (** [server.close(...)] was called *)
| EndingPool           (** [await pool.end()] *)
| Exited (code : Z).

Record proc := mkProc {
  p_stage : stage;
  p_watchdog : bool;              (** [forceExit] is armed *)
  p_done : list stage             (** stages completed, in order *)
}.

Definition running : proc := mkProc Running false [].

Inductive pevent :=
| Signal                         (** SIGTERM or SIGINT *)
| SseSettled | SchedulerSettled  (** resolved or rejected: a rejection is logged *)
| ServerClosed
| PoolEnded (ok : bool)          (** [false]: it rejects, and the process dies of it *)
| WatchdogFires.

Definition pstep (e : pevent) (s : proc) : proc :=
  match p_stage s, e with
  | Running, Signal => mkProc DrainingSse true (p_done s)
  | DrainingSse, SseSettled => mkProc StoppingScheduler (p_watchdog s) (p_done s ++ [DrainingSse])
  | StoppingScheduler, SchedulerSettled => mkProc ClosingServer (p_watchdog s) (p_done s ++ [StoppingScheduler])
  | ClosingServer, ServerClosed => mkProc EndingPool (p_watchdog s) (p_done s ++ [ClosingServer])
  | EndingPool, PoolEnded true => mkProc (Exited 0) false (p_done s ++ [EndingPool])
  | EndingPool, PoolEnded false => mkProc (Exited 1) (p_watchdog s) (p_done s)
  | Exited _, _ => s
  | _, WatchdogFires => if p_watchdog s then mkProc (Exited 1) false (p_done s) else s
  | _, _ => s
  end.

Definition prun (es : list pevent) : proc := fold_left (λ s e, pstep e s) es running.

(** *** Lemmas *)

Definition done_at (s : stage) : list stage :=
  match s with
  | Running | DrainingSse => []
  | StoppingScheduler => [DrainingSse]
  | ClosingServer => [DrainingSse; StoppingScheduler]
  | EndingPool => [DrainingSse; StoppingScheduler; ClosingServer]
  | Exited _ => [DrainingSse; StoppingScheduler; ClosingServer; EndingPool]
  end.

(** The stages are passed in order; the watchdog watches from the signal on. *)
Record proc_inv (s : proc) : Prop := {
  pi_watchdog : match p_stage s with Running => p_watchdog s = false | Exited _ => True | _ => p_watchdog s = true end;
  pi_done : match p_stage s with
            | Exited 0 => p_done s = done_at (Exited 0)
            | Exited _ => ∃ st, p_done s = done_at st
            | st => p_done s = done_at st
            end }.

Lemma pstep_inv e s : proc_inv s → proc_inv (pstep e s).
Proof.
  intros [H1 H2]. destruct s as [st w d]. unfold pstep. simpl in *.
  destruct st, e as [| | | |[]|]; simpl in *; subst; split; simpl;
    first [done|exact H2|by exists Running|by exists StoppingScheduler|by exists ClosingServer|by exists EndingPool].
Qed.

Lemma prun_inv es : proc_inv (prun es).
Proof.
  unfold prun. assert (proc_inv running) as H by (by split). revert H. generalize running.
  induction es as [|e es IH]; intros s Hs; [done|]. by apply IH, pstep_inv.
Qed.

(** *** Properties *)

(** The process shuts down in order and does not hang. Whatever order signals,
    settled drains and timer come in: the exit code is 0 only after the event
    streams, the scheduler, the server and the pool were closed, in this order; a
    further signal changes nothing; and from the first signal until the exit the
    watchdog is armed, so that firing ends the process wherever it waits. *)
Theorem shutdown_in_order es :
  let s := prun es in
  (p_stage s = Exited 0 → p_done s = [DrainingSse; StoppingScheduler; ClosingServer; EndingPool]) ∧
  (p_stage s ≠ Running → pstep Signal s = s) ∧
  (p_stage s ≠ Running → ∃ code, p_stage (pstep WatchdogFires s) = Exited code) ∧
  (∀ code e, p_stage s = Exited code → pstep e s = s).
Proof.
  destruct (prun_inv es) as [H1 H2]. simpl. destruct (prun es) as [st w d]. simpl in *. split_and!.
  - by intros ->.
  - intros Hn. by destruct st.
  - intros Hn. destruct st; simpl in *; subst; eauto; done.
  - by intros code e ->.
Qed.

(** A process that lacks its database or its key secret never gets to the
    migrations, and one whose migrations fail never starts the scheduler or
    listens. *)
Theorem start_requires_configuration c migrations :
  (snd (main c migrations) = Ok tt ↔ database_url c ≠ [] ∧ hmacSecret c ≠ [] ∧ migrations = Ok tt) ∧
  (RunMigrations ∈ fst (main c migrations) → database_url c ≠ [] ∧ hmacSecret c ≠ []) ∧
  (∀ p, Listen p ∈ fst (main c migrations) → migrations = Ok tt ∧ p = port c).
Proof.
  unfold main, assertDatabaseConfigured, assertSecretsConfigured.
  destruct (database_url c), (hmacSecret c), migrations as [[]|]; simpl; set_solver.
Qed.

End Process.

(** ** [scripts/seed-bootstrap.ts] *)
Module SeedScript.
Import Config BootstrapSeeder.

Definition assertSeedEnabled (env : environment) : result exn unit :=
  if bool_decide (env (js "BOOTSTRAP_SEED") = Some (js "1")) then Ok tt
  else Throw (EError (js "Refusing to seed without BOOTSTRAP_SEED=1. This prevents CI/prod from auto-seeding unknown data.")).

Definition main (env : environment) (e : Bootstrap.benv) : M SeedResult :=
  _ ← lift (assertDatabaseConfigured (config env));
  _ ← lift (assertSeedEnabled env);
  seedBootstrapRegistry e.

(** Without the flag the script changes nothing. *)
Theorem seed_needs_flag env e d :
  env (js "BOOTSTRAP_SEED") ≠ Some (js "1") → ∃ err, main env e d = (Throw err, d).
Proof.
  intros Hf. unfold main, mbind, M_bind, lift.
  destruct (assertDatabaseConfigured (config env)) as [[]|err]; [|by eexists].
  unfold assertSeedEnabled. rewrite bool_decide_eq_false_2 by done. by eexists.
Qed.

Lemma seed_needs_flag_witness e d : ∃ err, main (λ _, None) e d = (Throw err, d).
Proof. apply (seed_needs_flag (λ _, None) e d). discriminate. Defined.

End SeedScript.
