(* ===== verification/Migrate.v ===== *)
(** * Schema migrations ([src/control-plane/src/db/migrate.ts])

    The migration runner: the numbered directories on disk, the tracking table,
    drift and checksum checks, and one transaction per migration under an advisory
    lock.  Executing a script is Postgres: the section variable [exec], which maps a
    schema to the next one or fails with a message; SHA-256 is [sha256hex]. *)

From stdpp Require Import base gmap strings sorting list.
From Stdlib Require Import ZArith Lia.
From S2P Require Import Prelude Json Errors Access JsText.

Module Migrate.
Import Handler.
Section Migrate.
Context {Schema : Type} (exec : jstr → Schema → result jstr Schema) (sha256hex : jstr → jstr).

Record Migration := mkMigration { m_name : jstr; m_sql : jstr; m_checksum : jstr }.

(** A directory entry of [MIGRATIONS_DIR]; no script: [readFileSync] throws. *)
Record Entry := mkEntry { e_name : jstr; e_isDirectory : bool; e_sql : option jstr }.

(** [parseInt(name.split('_')[0], 10)]. A name without a number compares equal to
    every other in the source, which leaves its place to the engine; such a name
    never passes the numbering check below, so here it goes first. *)
Definition entry_number (e : Entry) : Z := default 0 (parseInt (hd [] (split_on 95 (e_name e)))).

Definition sorted_entries (dir : list Entry) : list Entry :=
  sort_by (λ a b, entry_number a <=? entry_number b) (filter (λ e, e_isDirectory e = true) dir).

(** [String(i).padStart(3, '0')] *)
Definition pad3 (i : Z) : jstr := let s := show_Z i in repeat 48 (3 - length s) ++ s.

Definition startsWith (p s : jstr) : bool := bool_decide (take (length p) s = p).

(** Consecutive numbering from [i]. *)
Fixpoint check_numbering (i : Z) (entries : list Entry) : result jstr unit :=
  match entries with
  | [] => Ok tt
  | e :: rest =>
      if startsWith (pad3 i) (e_name e) then check_numbering (i + 1) rest
      else Throw (js "Migration gap: expected " ++ pad3 i ++ js "_*, found " ++ e_name e)
  end.

Fixpoint read_all (entries : list Entry) : result jstr (list Migration) :=
  match entries with
  | [] => Ok []
  | e :: rest =>
      match e_sql e with
      | None => Throw (js "ENOENT")
      | Some sql => ms ← read_all rest; Ok (mkMigration (e_name e) sql (sha256hex sql) :: ms)
      end
  end.

Definition discoverMigrations (dir : list Entry) : result jstr (list Migration) :=
  let entries := sorted_entries dir in
  _ ← check_numbering 1 entries; read_all entries.

(** The database: its schema, the tracking table (absent before the first run)
    and whether this session holds the advisory lock. *)
Record state := mkState { st_schema : Schema; st_tracking : option (gmap jstr jstr); st_locked : bool }.

Definition tracking (s : state) : gmap jstr jstr := default ∅ (st_tracking s).

(** An applied migration that has no file. *)
Definition drifted (applied : gmap jstr jstr) (ms : list Migration) : list jstr :=
  filter (λ n, n ∉ m_name <$> ms) (map_to_list applied).*1.

(** BEGIN; the script; the tracking row; COMMIT. A failure of either rolls both
    back. *)
Definition apply_one (m : Migration) (s : state) : result jstr unit * state :=
  match exec (m_sql m) (st_schema s) with
  | Throw err => (Throw (js "Migration " ++ m_name m ++ js " failed: " ++ err), s)
  | Ok schema' =>
      if bool_decide (is_Some (tracking s !! m_name m))
      then (Throw (js "Migration " ++ m_name m ++ js " failed: duplicate key"), s)
      else (Ok tt, mkState schema' (Some (<[m_name m := m_checksum m]> (tracking s))) (st_locked s))
  end.

Fixpoint apply_all (applied : gmap jstr jstr) (ms : list Migration) (s : state) : result jstr unit * state :=
  match ms with
  | [] => (Ok tt, s)
  | m :: ms' =>
      match applied !! m_name m with
      | Some existing =>
          if bool_decide (existing = m_checksum m) then apply_all applied ms' s
          else (Throw (js "Migration " ++ m_name m ++ js " checksum mismatch: expected " ++ existing ++ js ", got "
                       ++ m_checksum m ++ js ". Was the migration file modified after it was applied?"), s)
      | None =>
          match apply_one m s with
          | (Ok _, s1) => apply_all applied ms' s1
          | (Throw e, s1) => (Throw e, s1)
          end
      end
  end.

(** Between taking and releasing the lock. *)
Definition locked_body (dir : list Entry) (s : state) : result jstr unit * state :=
  let s1 := mkState (st_schema s) (Some (tracking s)) (st_locked s) in
  match discoverMigrations dir with
  | Throw e => (Throw e, s1)
  | Ok ms =>
      match drifted (tracking s1) ms with
      | n :: _ => (Throw (js "Migration " ++ n ++ js " was applied but no migration file found "
                          ++ [8212] ++ js " possible drift"), s1)
      | [] => apply_all (tracking s1) ms s1
      end
  end.

Definition set_locked (b : bool) (s : state) : state := mkState (st_schema s) (st_tracking s) b.

(** [runMigrations]: [got_lock] is whether the lock was free within the timeout;
    the [finally] block releases it in any case. *)
Definition runMigrations (got_lock : bool) (dir : list Entry) (s : state) : result jstr unit * state :=
  if got_lock then
    let '(r, s') := locked_body dir (set_locked true s) in (r, set_locked false s')
  else (Throw (js "canceling statement due to lock timeout"), set_locked false s).

(** ** Lemmas *)

Definition pending (applied : gmap jstr jstr) (ms : list Migration) : list Migration :=
  filter (λ m, applied !! m_name m = None) ms.

(** Scripts run one after the other. *)
Fixpoint exec_all (ms : list Migration) (x : Schema) : option Schema :=
  match ms with
  | [] => Some x
  | m :: ms' => match exec (m_sql m) x with Ok y => exec_all ms' y | Throw _ => None end
  end.

Definition record_all (ms : list Migration) (t : gmap jstr jstr) : gmap jstr jstr :=
  fold_left (λ t m, <[m_name m := m_checksum m]> t) ms t.

Lemma record_all_notin ms t n : n ∉ m_name <$> ms → record_all ms t !! n = t !! n.
Proof.
  revert t. induction ms as [|m ms IH]; intros t; [done|]. rewrite fmap_cons, not_elem_of_cons. intros [Hn Hms]. simpl.
  unfold record_all in IH |- *. simpl. rewrite IH by done. by apply lookup_insert_ne.
Qed.

(** What the loop leaves behind, whatever its outcome. *)
Lemma apply_all_spec applied ms s :
  NoDup (m_name <$> ms) → (∀ m, m ∈ ms → applied !! m_name m = None → tracking s !! m_name m = None) →
  ∃ done rest s', pending applied ms = done ++ rest ∧
    apply_all applied ms s = ((apply_all applied ms s).1, s') ∧ st_locked s' = st_locked s ∧
    exec_all done (st_schema s) = Some (st_schema s') ∧ tracking s' = record_all done (tracking s) ∧
    (done = [] → s' = s) ∧
    ((apply_all applied ms s).1 = Ok tt →
       rest = [] ∧ Forall (λ m, applied !! m_name m = None ∨ applied !! m_name m = Some (m_checksum m)) ms).
Proof.
  revert s. induction ms as [|m ms IH]; intros s Hnd Hs.
  { exists [], [], s. by split_and!. }
  rewrite fmap_cons, NoDup_cons in Hnd. destruct Hnd as [Hm Hnd]. cbn [apply_all]. unfold pending. rewrite filter_cons.
  change (filter (λ m, applied !! m_name m = None) ms) with (pending applied ms).
  destruct (applied !! m_name m) as [c|] eqn:Ea.
  - rewrite decide_False by done. case_bool_decide as Hc.
    + destruct (IH s) as (dn & rest & s' & Hp & He & Hl & Hx & Ht & H0 & Hok); [done|intros m' Hm'; apply Hs; by right|].
      exists dn, rest, s'. split_and!; try done. intros H. destruct (Hok H) as [-> Hf]. split; [done|].
      apply Forall_cons. split; [right; congruence|done].
    + exists [], (pending applied ms), s. by split_and!.
  - rewrite decide_True by done. unfold apply_one. destruct (exec (m_sql m) (st_schema s)) as [x|err] eqn:Ex.
    2: { exists [], (m :: pending applied ms), s. by split_and!. }
    rewrite bool_decide_false by (rewrite (Hs m) by (done || by left); by intros [? ?]).
    set (s1 := mkState x _ _).
    destruct (IH s1) as (dn & rest & s' & Hp & He & Hl & Hx & Ht & H0 & Hok); [done| |].
    { intros m' Hm' Hn. unfold s1, tracking. simpl. rewrite lookup_insert_ne; [by apply Hs; [right|]|].
      intros Heq. apply Hm. rewrite Heq. by apply list_elem_of_fmap_2. }
    exists (m :: dn), rest, s'. split_and!; [by rewrite Hp|exact He|done| |done|done|].
    + simpl. by rewrite Ex.
    + intros H. destruct (Hok H) as [-> Hf]. split; [done|]. apply Forall_cons. split; [by left|done].
Qed.

Lemma read_all_names entries ms : read_all entries = Ok ms → m_name <$> ms = e_name <$> entries.
Proof.
  revert ms. induction entries as [|e es IH]; intros ms; simpl; [by intros [= <-]|].
  destruct (e_sql e); [|done]. intros (ms' & H & [= <-])%bind_Ok. rewrite fmap_cons. simpl. by rewrite (IH _ H).
Qed.

Lemma check_numbering_Ok i entries : check_numbering i entries = Ok tt →
  ∀ k e, entries !! k = Some e → startsWith (pad3 (i + Z.of_nat k)) (e_name e) = true.
Proof.
  revert i. induction entries as [|e es IH]; intros i H [|k] e' Hk; simpl in *; try done.
  - injection Hk as <-. rewrite Z.add_0_r. by destruct (startsWith _ _).
  - destruct (startsWith _ _); [|done]. replace (i + Z.of_nat (S k)) with (i + 1 + Z.of_nat k) by lia. by apply IH.
Qed.

Lemma discover_Ok dir ms : discoverMigrations dir = Ok ms →
  (NoDup (e_name <$> dir) → NoDup (m_name <$> ms)) ∧
  ∀ k m, ms !! k = Some m → startsWith (pad3 (1 + Z.of_nat k)) (m_name m) = true.
Proof.
  unfold discoverMigrations. intros ([] & Hc & Hr)%bind_Ok. pose proof (read_all_names _ _ Hr) as Hn. split.
  - intros Hd. rewrite Hn. unfold sorted_entries. rewrite (sort_by_Permutation _ (filter _ dir)).
    by apply NoDup_fmap_filter.
  - intros k m Hk. assert (Hl : (m_name <$> ms) !! k = Some (m_name m)) by (by rewrite list_lookup_fmap, Hk).
    rewrite Hn, list_lookup_fmap in Hl. destruct (sorted_entries dir !! k) as [e|] eqn:Ee; [|done].
    injection Hl as <-. by eapply check_numbering_Ok.
Qed.

Lemma drifted_nil applied ms : drifted applied ms = [] → ∀ n, is_Some (applied !! n) → n ∈ m_name <$> ms.
Proof.
  unfold drifted. intros H n [c Hc]. destruct (decide (n ∈ m_name <$> ms)) as [|Hn]; [done|]. exfalso.
  assert (Hin : n ∈ filter (λ n, n ∉ m_name <$> ms) (map_to_list applied).*1).
  { apply list_elem_of_filter. split; [done|]. apply list_elem_of_fmap. exists (n, c). by rewrite elem_of_map_to_list. }
  rewrite H in Hin. by apply not_elem_of_nil in Hin.
Qed.

Lemma record_all_in ms t m : NoDup (m_name <$> ms) → m ∈ ms → record_all ms t !! m_name m = Some (m_checksum m).
Proof.
  revert t. induction ms as [|x ms IH]; intros t Hnd Hm; [by apply not_elem_of_nil in Hm|].
  rewrite fmap_cons, NoDup_cons in Hnd. destruct Hnd as [Hx Hnd].
  apply elem_of_cons in Hm as [->|Hm]; [|by apply (IH (<[m_name x := m_checksum x]> t))].
  change (record_all ms (<[m_name x := m_checksum x]> t) !! m_name x = Some (m_checksum x)).
  rewrite record_all_notin by done. apply lookup_insert_eq.
Qed.

(** The recorded set after a successful loop. *)
Lemma all_recorded applied ms :
  NoDup (m_name <$> ms) →
  Forall (λ m, applied !! m_name m = None ∨ applied !! m_name m = Some (m_checksum m)) ms →
  ∀ m, m ∈ ms → record_all (pending applied ms) applied !! m_name m = Some (m_checksum m).
Proof.
  intros Hnd Hf m Hm. rewrite Forall_forall in Hf. destruct (Hf m Hm) as [Hn|Hs].
  - apply record_all_in; [by apply NoDup_fmap_filter|]. apply list_elem_of_filter. done.
  - rewrite record_all_notin; [done|]. intros (m' & He & Hm')%list_elem_of_fmap.
    apply list_elem_of_filter in Hm' as [Hn _]. rewrite <- He in Hn. congruence.
Qed.

Lemma apply_all_recorded applied ms s :
  (∀ m, m ∈ ms → applied !! m_name m = Some (m_checksum m)) → apply_all applied ms s = (Ok tt, s).
Proof.
  induction ms as [|m ms IH]; intros H; [done|]. simpl. rewrite (H m) by by left. rewrite bool_decide_true by done.
  apply IH. intros m' Hm'. apply H. by right.
Qed.

Lemma apply_all_tracking applied ms s :
  is_Some (st_tracking s) → st_tracking (apply_all applied ms s).2 = Some (tracking (apply_all applied ms s).2).
Proof.
  revert s. induction ms as [|m ms IH]; intros s Hs; simpl.
  { destruct Hs as [t Ht]. unfold tracking. by rewrite Ht. }
  assert (H0 : st_tracking s = Some (tracking s)) by (destruct Hs as [t Ht]; unfold tracking; by rewrite Ht).
  destruct (applied !! m_name m).
  - case_bool_decide; [by apply IH|done].
  - unfold apply_one. destruct (exec _ _); [|done]. case_bool_decide; [done|]. by apply IH.
Qed.

Definition started (s : state) : state := mkState (st_schema s) (Some (tracking s)) true.

Lemma run_eq dir ms s : discoverMigrations dir = Ok ms →
  runMigrations true dir s =
  match drifted (tracking s) ms with
  | n :: _ => (Throw (js "Migration " ++ n ++ js " was applied but no migration file found "
                       ++ [8212] ++ js " possible drift"), set_locked false (started s))
  | [] => ((apply_all (tracking s) ms (started s)).1, set_locked false (apply_all (tracking s) ms (started s)).2)
  end.
Proof.
  intros Hd. unfold runMigrations, locked_body. rewrite Hd.
  change (tracking (mkState (st_schema (set_locked true s)) (Some (tracking (set_locked true s))) (st_locked (set_locked true s))))
    with (tracking s).
  change (mkState (st_schema (set_locked true s)) (Some (tracking (set_locked true s))) (st_locked (set_locked true s)))
    with (started s).
  destruct (drifted (tracking s) ms); [|done]. by destruct (apply_all _ _ _).
Qed.

(** ** Properties *)

(** C20. Migrations run once each, in order, and the tracking table never lies.
    Whatever its outcome, a run leaves the schema that results from executing a
    prefix of the migrations not yet recorded, in the order of their numbers, the
    tracking table with exactly those added, and the lock released. A run that
    succeeds executed all of them, and every file is then recorded with its checksum;
    in particular every migration recorded before is still on disk, unmodified. *)
Theorem migrations_run_once_in_order dir ms s :
  discoverMigrations dir = Ok ms → NoDup (e_name <$> dir) →
  (∀ k m, ms !! k = Some m → startsWith (pad3 (1 + Z.of_nat k)) (m_name m) = true) ∧
  ∃ r s' done rest, runMigrations true dir s = (r, s') ∧ st_locked s' = false ∧
    pending (tracking s) ms = done ++ rest ∧
    exec_all done (st_schema s) = Some (st_schema s') ∧ tracking s' = record_all done (tracking s) ∧
    (r = Ok tt → rest = [] ∧ (∀ m, m ∈ ms → tracking s' !! m_name m = Some (m_checksum m)) ∧
       ∀ n c, tracking s !! n = Some c → ∃ m, m ∈ ms ∧ m_name m = n ∧ m_checksum m = c).
Proof.
  intros Hd Hnd. destruct (discover_Ok _ _ Hd) as [Hnm Hnum]. specialize (Hnm Hnd). split; [done|].
  rewrite (run_eq _ _ _ Hd). destruct (drifted (tracking s) ms) as [|n ns] eqn:Edr.
  2: { eexists _, _, [], (pending (tracking s) ms). by split_and!. }
  destruct (apply_all_spec (tracking s) ms (started s)) as (dn & rest & s' & Hp & He & Hl & Hx & Ht & _ & Hok); [done|done|].
  eexists _, _, dn, rest. split; [reflexivity|]. rewrite He. cbn [snd].
  split_and!; [done|done|done|done|]. cbn [fst]. intros Hr. destruct (Hok Hr) as [-> Hf]. split; [done|].
  rewrite app_nil_r in Hp. change (tracking (set_locked false s')) with (tracking s'). rewrite Ht, <- Hp.
  pose proof (all_recorded _ _ Hnm Hf) as Hrec. split; [done|].
  intros n c Hc. pose proof (drifted_nil _ _ Edr n (mk_is_Some _ _ Hc)) as (m & -> & Hm)%list_elem_of_fmap.
  exists m. split_and!; [done|done|]. rewrite Forall_forall in Hf. destruct (Hf m Hm); congruence.
Qed.

(** A second run over the same files does nothing. *)
Theorem second_migration_run_is_noop dir ms s s1 :
  discoverMigrations dir = Ok ms → NoDup (e_name <$> dir) →
  runMigrations true dir s = (Ok tt, s1) → runMigrations true dir s1 = (Ok tt, s1).
Proof.
  intros Hd Hnd. destruct (discover_Ok _ _ Hd) as [Hnm _]. specialize (Hnm Hnd).
  rewrite !(run_eq _ _ _ Hd). destruct (drifted (tracking s) ms) eqn:Edr; [|done].
  destruct (apply_all_spec (tracking s) ms (started s)) as (dn & rest & s' & Hp & He & Hl & Hx & Ht & _ & Hok); [done|done|].
  rewrite He. cbn [fst snd]. intros [= Hr <-]. destruct (Hok Hr) as [-> Hf]. rewrite app_nil_r in Hp.
  change (tracking (set_locked false s')) with (tracking s').
  assert (Hrec : ∀ m, m ∈ ms → tracking s' !! m_name m = Some (m_checksum m)).
  { rewrite Ht, <- Hp. by apply all_recorded. }
  assert (Hdom : drifted (tracking s') ms = []).
  { unfold drifted. apply filter_none. intros n Hn Hnot.
    apply list_elem_of_fmap in Hn as ([n' c] & -> & Hn%elem_of_map_to_list). simpl in Hnot.
    rewrite Ht, record_all_notin in Hn.
    - apply Hnot. eapply drifted_nil; [exact Edr|]. by exists c.
    - intros (m & -> & Hm)%list_elem_of_fmap. apply Hnot. apply list_elem_of_fmap. exists m. split; [done|].
      rewrite app_nil_r, <- Hp in Hm || rewrite <- Hp in Hm. by apply list_elem_of_filter in Hm as [_ ?]. }
  rewrite Hdom, apply_all_recorded by done. cbn [fst snd]. f_equal.
  pose proof (apply_all_tracking (tracking s) ms (started s) (mk_is_Some _ _ eq_refl)) as Hsome. rewrite He in Hsome.
  unfold started, set_locked. cbn. cbn in Hsome. by rewrite Hsome.
Qed.

End Migrate.

(** ** Witnesses: a schema is the list of scripts run *)

Definition toy_exec (sql : jstr) (x : list jstr) : result jstr (list jstr) :=
  if decide (sql = js "bad") then Throw (js "syntax error") else Ok (x ++ [sql]).

Definition toy_dir : list Entry :=
  [mkEntry (js "002_b") true (Some (js "B")); mkEntry (js "README") false None; mkEntry (js "001_a") true (Some (js "A"));
   mkEntry (js "003_c") true (Some (js "bad"))].

Definition toy_start : @state (list jstr) := mkState [js "A"] (Some {[ js "001_a" := js "h:A" ]}) false.

Definition files (dir : list Entry) : list Migration :=
  match discoverMigrations (app (js "h:")) dir with Ok ms => ms | Throw _ => [] end.

(** The third script fails: the second has been applied and recorded. *)
Lemma migrations_run_once_in_order_witness :
  ∃ r s' done rest, runMigrations toy_exec (app (js "h:")) true toy_dir toy_start = (r, s') ∧
    st_schema s' = [js "A"; js "B"] ∧ m_name <$> done = [js "002_b"] ∧ m_name <$> rest = [js "003_c"] ∧ r ≠ Ok tt.
Proof.
  destruct (migrations_run_once_in_order toy_exec (app (js "h:")) toy_dir (files toy_dir) toy_start) as (_ & r & s' & dn & rest & H & _ & Hp & Hx & _).
  - vm_compute. reflexivity.
  - apply (bool_decide_unpack _). vm_compute. exact I.
  - exists r, s', dn, rest. split; [exact H|].
    assert (Hr : r = (runMigrations toy_exec (app (js "h:")) true toy_dir toy_start).1) by (by rewrite H).
    assert (Hs : st_schema s' = [js "A"; js "B"]).
    { change s' with (snd (r, s')). rewrite <- H. vm_compute. reflexivity. }
    rewrite Hs in Hx. split; [done|].
    assert (Hlen : length dn = 1%nat).
    { destruct dn as [|x [|y dn]]; [discriminate Hx|done|]. exfalso. vm_compute in Hp. injection Hp as <- <- _. vm_compute in Hx. discriminate Hx. }
    destruct dn as [|x [|]]; try discriminate Hlen. vm_compute in Hp. injection Hp as <- <-.
    split; [reflexivity|]. split; [reflexivity|]. rewrite Hr. vm_compute. discriminate.
Defined.

Lemma second_migration_run_is_noop_witness :
  ∃ s1, runMigrations toy_exec (app (js "h:")) true (take 3 toy_dir) toy_start = (Ok tt, s1) ∧
    runMigrations toy_exec (app (js "h:")) true (take 3 toy_dir) s1 = (Ok tt, s1) ∧ st_schema s1 = [js "A"; js "B"].
Proof.
  edestruct (fst_run (runMigrations toy_exec (app (js "h:")) true (take 3 toy_dir) toy_start)) as [s1 H]; [vm_compute; reflexivity|].
  exists s1. split; [exact H|]. split.
  - apply (second_migration_run_is_noop toy_exec (app (js "h:")) (take 3 toy_dir) (files (take 3 toy_dir)) toy_start s1); [vm_compute; reflexivity| |exact H].
    apply (bool_decide_unpack _). vm_compute. exact I.
  - change s1 with (snd (Ok tt : result jstr unit, s1)). rewrite <- H. vm_compute. reflexivity.
Defined.

End Migrate.
