(* ===== verification/TestUtil.v ===== *)
(** * Integration-test utilities and the connection pool

    [src/control-plane/src/testutil/] ([testDb.ts], [seedData.ts],
    [appHarness.ts]) and [src/control-plane/src/db/client.ts].

    These helpers truncate a database, so what matters most about them is which one.
    The databases a process can reach are a function from a target (host, database
    name) to a content; what a connection string connects to is decided by the
    [pg] package: the section variable [pg_target], with its documented behaviour
    for a URL without overriding parameters as a hypothesis of the theorem that
    needs it.  The URL parser is [new_URL].  The two phases of the setup reuse the
    migration directory and the tracking table of [Migrate]. *)

From stdpp Require Import base gmap strings functions list.
From Stdlib Require Import ZArith Lia.
From S2P Require Import Prelude Json JsText JsDate Errors Db Principals SchemaValidator Canonicalize Attestations Tokens Bootstrap Auth Config Migrate.

(** ** [db/client.ts]: the pool *)
Module DbClient.
Import Config.

(** A [pg.Pool]: its connection string (absent when it was configured another
    way), how many clients are checked out, and whether [end] was called. *)
Record Pool := mkPool { connectionString : option jstr; max_ : option Z; idle : option Z; connect_timeout : option Z;
                        checked_out : nat; ended : bool }.

Definition createPool (c : Config) : Pool :=
  mkPool (Some (database_url c)) (Some (poolMax c)) (Some (poolIdleTimeoutMillis c))
    (Some (poolConnectionTimeoutMillis c)) 0 false.

(** [pool.connect()], [client.release()], [pool.end()] *)
Definition connect (p : Pool) : result exn Pool :=
  if ended p then Throw (EError (js "Cannot use a pool after calling end on the pool"))
  else Ok (mkPool (connectionString p) (max_ p) (idle p) (connect_timeout p) (S (checked_out p)) (ended p)).
Definition release (p : Pool) : Pool :=
  mkPool (connectionString p) (max_ p) (idle p) (connect_timeout p) (pred (checked_out p)) (ended p).
Definition end_ (p : Pool) : result exn unit * Pool :=
  if ended p then (Throw (EError (js "Called end on pool more than once")), p)
  else (Ok tt, mkPool (connectionString p) (max_ p) (idle p) (connect_timeout p) (checked_out p) true).

(** The singleton is replaced only after it was ended. *)
Definition recreatePool (c : Config) (pool : Pool) : result exn Pool :=
  if negb (ended pool)
  then Throw (EError (js "recreatePool() called while the current pool is still open; call pool.end() first"))
  else Ok (createPool c).

End DbClient.

(** ** [appHarness.ts] *)
Module AppHarness.
Import Config DbClient.

(** The singleton pool and the port a server listens on. *)
Record harness := mkHarness { singleton : Pool; listening : option Z }.

(** [bind]: the port the system gives, or why it refuses. *)
Definition startControlPlane (c : Config) (bind : result exn Z) (h : harness) : result exn jstr * harness :=
  match (if ended (singleton h) then recreatePool c (singleton h) else Ok (singleton h)) with
  | Throw e => (Throw e, h)
  | Ok pool =>
      match bind with
      | Throw e => (Throw e, mkHarness pool (listening h))
      | Ok port => (Ok (js "http://127.0.0.1:" ++ show_Z port), mkHarness pool (Some port))
      end
  end.

(** [close]: why closing the server failed, if it did. *)
Definition stop (close : result exn unit) (h : harness) : result exn unit * harness :=
  match close with
  | Throw e => (Throw e, h)
  | Ok _ =>
      if negb (ended (singleton h))
      then let '(r, p) := end_ (singleton h) in (r, mkHarness p None)
      else (Ok tt, mkHarness (singleton h) None)
  end.

(** A suite that starts and stops leaves the harness ready for the next one,
    whatever pool it found: both succeed and each server had an open pool. *)
Lemma suite_cycle c port h :
  ∃ h1 h2, startControlPlane c (Ok port) h = (Ok (js "http://127.0.0.1:" ++ show_Z port), h1) ∧
    ended (singleton h1) = false ∧ listening h1 = Some port ∧
    stop (Ok tt) h1 = (Ok tt, h2) ∧ ended (singleton h2) = true ∧ listening h2 = None.
Proof.
  unfold startControlPlane, recreatePool. destruct (ended (singleton h)) eqn:E; cbn [negb].
  - do 2 eexists. split; [reflexivity|]. do 2 (split; [done|]). by split.
  - do 2 eexists. split; [reflexivity|]. do 2 (split; [done|]). unfold stop, end_. cbn. rewrite E. by split.
Qed.

End AppHarness.

(** ** [testDb.ts] *)
Module TestDb.
Import Config DbClient.

(** A parsed URL: what the code reads of it. *)
Record url := mkUrl { u_protocol : jstr; u_hostname : jstr; u_pathname : jstr; u_password : jstr; u_keys : list jstr }.

Definition target : Type := jstr * jstr.

Section TestDb.
Context (new_URL : jstr → option url) (url_toString : url → jstr) (pg_target : url → target).

Definition redactDatabaseUrl (urlStr : jstr) : jstr :=
  match new_URL urlStr with
  | None => js "[invalid DATABASE_URL]"
  | Some u => url_toString (if bool_decide (u_password u = []) then u
                            else mkUrl (u_protocol u) (u_hostname u) (u_pathname u) (js "***") (u_keys u))
  end.

Definition disallowedOverrideKeys : list jstr :=
  [js "host"; js "database"; js "dbname"; js "port"; js "user"; js "password"].

(** [u.pathname.replace(/^\//, '')] *)
Definition dbName (u : url) : jstr := match u_pathname u with 47 :: s => s | s => s end.

Definition refusing (urlStr why : jstr) : exn :=
  EError (js "Refusing to run VeriLink integration DB helpers against DATABASE_URL=" ++ redactDatabaseUrl urlStr
          ++ js ". " ++ why).

Definition assertSafeVerilinkTestDb (urlStr : jstr) : result exn unit :=
  match new_URL urlStr with
  | None => Throw (EError (js "Invalid URL"))
  | Some u =>
      let hostOk := bool_decide (u_hostname u = js "127.0.0.1") || bool_decide (u_hostname u = js "localhost") in
      let dbOk := bool_decide (dbName u = js "verilink_test") in
      match list_find (λ k, k ∈ u_keys u) disallowedOverrideKeys with
      | Some (_, key) => Throw (refusing urlStr (js "Detected disallowed DATABASE_URL override parameter: " ++ key))
      | None =>
          if negb hostOk || negb dbOk
          then Throw (refusing urlStr (js "Expected host=127.0.0.1|localhost and db=verilink_test.")) else Ok tt
      end
  end.

(** The databases that can be reached. *)
Definition databases : Type := target → db.

(** [TRUNCATE ... CASCADE] names every table of [db]. *)
Definition truncate_all (d : db) : db :=
  set_audit_log [] (set_webhook_events ∅ (set_subscriptions [] (set_decision_batches ∅ (set_decision_samples []
  (set_decision_aggregates [] (set_sync_cursors ∅ (set_edge_nodes ∅ (set_policies ∅ (set_sync_events []
  (set_network_score_history [] (set_network_scores ∅ (set_bootstrap_issuers ∅ (set_attestations ∅
  (set_principal_keys ∅ (set_issuers ∅ (set_principals ∅ (set_api_keys ∅ (set_tenant_memberships ∅
  (set_users ∅ (set_tenants ∅ d)))))))))))))))))))).

Definition deadlock_detected : jstr := js "40P01".
Definition lock_not_available : jstr := js "55P03".

(** The retry loop from [attempt], with [n] attempts left. [answers k] is how the
    transaction of attempt [k] ends; the third component is the pauses taken. *)
Fixpoint attempts (answers : Z → result exn unit) (n : nat) (attempt : Z) (d : db) : result exn unit * db * list Z :=
  match n with
  | O => (Ok tt, d, [])
  | S n' =>
      match answers attempt with
      | Ok _ => (Ok tt, truncate_all d, [])
      | Throw err =>
          if (attempt <? 5) && (has_sqlstate deadlock_detected err || has_sqlstate lock_not_available err)
          then let '(r, d', ps) := attempts answers n' (attempt + 1) d in (r, d', 100 * attempt :: ps)
          else (Throw err, d, [])
      end
  end.

(** [resetTestData]: the outcome, the databases, the pool, the pauses. *)
Definition resetTestData (answers : Z → result exn unit) (p : Pool) (w : databases) :
  result exn unit * databases * Pool * list Z :=
  match connectionString p with
  | None | Some [] =>
      (Throw (EError (js "Refusing to reset test data: pool.options.connectionString is missing.")), w, p, [])
  | Some url =>
      match assertSafeVerilinkTestDb url, new_URL url with
      | Ok _, Some u =>
          match connect p with
          | Throw e => (Throw e, w, p, [])
          | Ok p1 =>
              let t := pg_target u in
              let '(r, d, ps) := attempts answers 5 1 (w t) in (r, <[t := d]> w, release p1, ps)
          end
      | Throw e, _ => (Throw e, w, p, [])
      | Ok _, None => (Throw (EError (js "Invalid URL")), w, p, [])
      end
  end.

(** An error of [pool.end()] in the [finally] block replaces the other one. *)
Definition teardownTestDb (answers : Z → result exn unit) (p : Pool) (w : databases) : result exn unit * databases * Pool :=
  let '(r, w', p', _) := resetTestData answers p w in
  let '(re, p'') := end_ p' in
  (match re with Throw e => Throw e | Ok _ => r end, w', p'').

(** ** The setup *)

Definition default_secret : jstr := js "test-hmac-secret-for-integration".

Section Setup.
Context {Schema : Type} (exec : jstr → Schema → result jstr Schema) (sha256hex : jstr → jstr).

(** The loop over the sorted directories; [applied] is the map read before it. *)
Fixpoint apply_dirs (applied : gmap jstr jstr) (entries : list Migrate.Entry) (s : Migrate.state) :
  result jstr unit * Migrate.state :=
  match entries with
  | [] => (Ok tt, s)
  | e :: rest =>
      match Migrate.e_sql e with
      | None => (Throw (js "ENOENT"), s)
      | Some sql =>
          let checksum := sha256hex sql in
          match applied !! Migrate.e_name e with
          | Some c =>
              if negb (bool_decide (c = checksum))
              then (Throw (js "Migration " ++ Migrate.e_name e ++ js " checksum mismatch"), s)
              else apply_dirs applied rest s
          | None =>
              match exec sql (Migrate.st_schema s) with
              | Throw err => (Throw err, s)
              | Ok schema' =>
                  if bool_decide (is_Some (Migrate.tracking s !! Migrate.e_name e)) then (Throw (js "duplicate key"), s)
                  else apply_dirs applied rest
                         (Migrate.mkState schema' (Some (<[Migrate.e_name e := checksum]> (Migrate.tracking s)))
                            (Migrate.st_locked s))
              end
          end
      end
  end.

(** The environment variables read and written, and the database behind the URL.
    The result is the pool and the value of [API_KEY_HMAC_SECRET]. *)
Definition setupTestDb (DATABASE_URL API_KEY_HMAC_SECRET : option jstr) (dir : list Migrate.Entry) (s : @Migrate.state Schema) :
  result exn (Pool * jstr) * Migrate.state :=
  match DATABASE_URL with
  | None | Some [] => (Throw (EError (js "DATABASE_URL is required for control-plane integration tests")), s)
  | Some url =>
      match assertSafeVerilinkTestDb url with
      | Throw e => (Throw e, s)
      | Ok _ =>
          let secret := match API_KEY_HMAC_SECRET with None | Some [] => default_secret | Some x => x end in
          let s1 := Migrate.mkState (Migrate.st_schema s) (Some (Migrate.tracking s)) (Migrate.st_locked s) in
          match apply_dirs (Migrate.tracking s1) (Migrate.sorted_entries dir) s1 with
          | (Throw m, s2) => (Throw (EError m), s2)
          | (Ok _, s2) => (Ok (mkPool (Some url) None None None 0 false, secret), s2)
          end
      end
  end.

(** ** Lemmas *)

(** Two states that differ at most in who holds the lock. *)
Definition same_content (s s' : @Migrate.state Schema) : Prop :=
  Migrate.st_schema s = Migrate.st_schema s' ∧ Migrate.st_tracking s = Migrate.st_tracking s'.

Lemma same_tracking s s' : same_content s s' → Migrate.tracking s = Migrate.tracking s'.
Proof. intros [_ H]. unfold Migrate.tracking. by rewrite H. Qed.

(** On directories that can be read, the loop does what the migration runner's
    does; only the error texts differ. *)
Lemma apply_dirs_all applied entries ms s s' :
  Migrate.read_all sha256hex entries = Ok ms → same_content s s' →
  same_content (apply_dirs applied entries s).2 (Migrate.apply_all exec applied ms s').2 ∧
  ((apply_dirs applied entries s).1 = Ok tt ↔ (Migrate.apply_all exec applied ms s').1 = Ok tt).
Proof.
  revert ms s s'. induction entries as [|e es IH]; intros ms s s' Hr Hs; simpl in Hr |- *.
  { injection Hr as <-. done. }
  destruct (Migrate.e_sql e) as [sql|]; [|done]. apply bind_Ok in Hr as (ms' & Hr & [= <-]). simpl.
  destruct (applied !! Migrate.e_name e) as [c|].
  - case_bool_decide; cbn [negb]; [by apply IH|done].
  - unfold Migrate.apply_one. simpl. rewrite <- (proj1 Hs), <- (same_tracking _ _ Hs).
    destruct (exec sql (Migrate.st_schema s)) as [x|err]; [|done].
    case_bool_decide; [done|]. by apply IH.
Qed.

End Setup.

Lemma truncate_all_empty d : truncate_all d = empty_db.
Proof. reflexivity. Qed.

Definition lock_error (err : exn) : bool := has_sqlstate deadlock_detected err || has_sqlstate lock_not_available err.

(** The loop ends with the answer of some attempt [k] of the five; every earlier
    one failed on a lock, and each was followed by its pause. *)
Lemma attempts_spec answers n a d : 1 ≤ a ≤ 5 → a + Z.of_nat n = 6 →
  ∃ k r, a ≤ k ≤ 5 ∧ (∀ j, a ≤ j < k → ∃ err, answers j = Throw err ∧ lock_error err = true) ∧
    answers k = r ∧ (∀ err, r = Throw err → k = 5 ∨ lock_error err = false) ∧
    attempts answers n a d = (r, match r with Ok _ => truncate_all d | Throw _ => d end, Z.mul 100 <$> seqZ a (k - a)).
Proof.
  revert a. induction n as [|n IH]; intros a Ha Hn; [lia|]. cbn [attempts].
  destruct (answers a) as [[]|err] eqn:Ea.
  { exists a, (Ok tt). replace (a - a) with 0 by lia. split_and!; try done; lia. }
  fold (lock_error err). destruct (lock_error err) eqn:El; [destruct (decide (a = 5)) as [->|Hne]|]; cbn [andb].
  - exists 5, (Throw err). split_and!; try done; [lia|by left].
  - rewrite (proj2 (Z.ltb_lt a 5)) by lia. cbn [andb].
    destruct (IH (a + 1)) as (k & r & Hk & Hlock & Hr & Hend & Heq); [lia..|]. exists k, r.
    split_and!; [lia|lia| |done|done|].
    + intros j Hj. destruct (decide (j = a)) as [->|]; [by exists err|]. apply Hlock. lia.
    + rewrite Heq. rewrite (seqZ_cons a (k - a)) by lia.
      replace (Z.succ a) with (a + 1) by lia. by replace (Z.pred (k - a)) with (k - (a + 1)) by lia.
  - rewrite andb_false_r. exists a, (Throw err). replace (a - a) with 0 by lia. split_and!; try done; try lia.
    intros e' [= <-]. by right.
Qed.

(** What the guard lets through. *)
Lemma assertSafe_Ok s : assertSafeVerilinkTestDb s = Ok tt →
  ∃ u, new_URL s = Some u ∧ (∀ k, k ∈ disallowedOverrideKeys → k ∉ u_keys u) ∧
    (u_hostname u = js "127.0.0.1" ∨ u_hostname u = js "localhost") ∧ dbName u = js "verilink_test".
Proof.
  unfold assertSafeVerilinkTestDb. destruct (new_URL s) as [u|]; [|done].
  destruct (list_find _ _) as [[i k]|] eqn:Ef; [done|].
  destruct (negb _ || negb _) eqn:E; [done|]. intros _. exists u. split; [done|].
  rewrite orb_false_iff, !negb_false_iff, orb_true_iff, !bool_decide_eq_true in E. destruct E as [Eh Ed]. split_and!; try done.
  apply list_find_None in Ef. by rewrite Forall_forall in Ef.
Qed.

(** ** Properties *)

(** The guard never looks at the protocol, and the parameter db is not among those it
    refuses: a URL with the right host and path passes with any protocol and with that
    parameter. pg takes the database of a [socket:] URL from that parameter. *)
Theorem guard_ignores_protocol s proto pass :
  new_URL s = Some (mkUrl proto (js "localhost") (js "/verilink_test") pass [js "db"]) → assertSafeVerilinkTestDb s = Ok tt.
Proof. intros H. unfold assertSafeVerilinkTestDb. by rewrite H. Qed.

(** The WHATWG parser: a URL with a host has an empty path or one that starts with
    a slash. *)
Definition url_paths : Prop :=
  ∀ s u, new_URL s = Some u → u_hostname u ≠ [] → u_pathname u = [] ∨ ∃ p, u_pathname u = 47 :: p.

(** [pg-connection-string]: for a [postgres:] URL without overriding parameters
    and without percent escapes, the host is the URL's and the database is the path
    after its slash. *)
Definition pg_documented : Prop :=
  ∀ u p, u_protocol u ∈ [js "postgres:"; js "postgresql:"] → (∀ k, k ∈ disallowedOverrideKeys → k ∉ u_keys u) →
    37 ∉ u_hostname u → u_pathname u = 47 :: p → 37 ∉ p → pg_target u = (u_hostname u, p).

Definition test_targets : list target :=
  [(js "127.0.0.1", js "verilink_test"); (js "localhost", js "verilink_test")].

Lemma safe_target s u : url_paths → pg_documented → new_URL s = Some u →
  u_protocol u ∈ [js "postgres:"; js "postgresql:"] → assertSafeVerilinkTestDb s = Ok tt → pg_target u ∈ test_targets.
Proof.
  intros Hpath Hpg Hu Hpr (u' & Hu' & Hk & Hh & Hd)%assertSafe_Ok. rewrite Hu in Hu'. injection Hu' as <-.
  assert (Hne : u_hostname u ≠ [] ∧ 37 ∉ u_hostname u).
  { destruct Hh as [->| ->]; (split; [done|]); apply (bool_decide_unpack _); vm_compute; exact I. }
  unfold dbName in Hd. destruct (Hpath _ _ Hu (proj1 Hne)) as [Hp|[p Hp]]; rewrite Hp in Hd; [done|]. cbn in Hd. subst p.
  rewrite (Hpg u _ Hpr Hk (proj2 Hne) Hp) by (apply (bool_decide_unpack _); vm_compute; exact I).
  unfold test_targets. rewrite !elem_of_cons. destruct Hh as [->| ->]; auto.
Qed.


(** The test setup brings the schema to the state the migration runner would.
    On a directory the runner accepts and a database without drift, [setupTestDb]
    leaves the same schema and the same tracking table as [runMigrations], and one
    succeeds exactly when the other does. *)
Theorem setup_matches_migration_runner {Schema} (exec : jstr → Schema → result jstr Schema) sha256hex c url secret dir ms s :
  Migrate.discoverMigrations sha256hex dir = Ok ms → Migrate.drifted (Migrate.tracking s) ms = [] →
  assertSafeVerilinkTestDb (c :: url) = Ok tt →
  same_content (setupTestDb exec sha256hex (Some (c :: url)) secret dir s).2 (Migrate.runMigrations exec sha256hex true dir s).2 ∧
  ((∃ x, (setupTestDb exec sha256hex (Some (c :: url)) secret dir s).1 = Ok x) ↔
     (Migrate.runMigrations exec sha256hex true dir s).1 = Ok tt).
Proof.
  intros Hd Hdr Hsafe. rewrite (Migrate.run_eq _ _ _ _ _ Hd), Hdr. unfold setupTestDb. rewrite Hsafe.
  unfold Migrate.discoverMigrations in Hd. apply bind_Ok in Hd as ([] & _ & Hr).
  set (s1 := Migrate.mkState _ _ _).
  destruct (apply_dirs_all exec sha256hex (Migrate.tracking s) _ _ s1 (Migrate.started s) Hr) as [Hc Hiff]; [done|].
  change (Migrate.tracking s1) with (Migrate.tracking s). cbn [fst snd].
  destruct (apply_dirs _ _ _ _ _) as [[[]|m] s2]; cbn [fst snd] in *.
  - split; [done|]. split; [by intros _; apply Hiff|by eexists].
  - split; [done|]. split; [by intros [? ?]|]. intros H. by apply Hiff in H.
Qed.

End TestDb.

(** ** Witnesses: one URL, a database with rows everywhere, a deadlock first *)

Definition toy_url : jstr := js "postgres://localhost/verilink_test".
Definition toy_new_URL (s : jstr) : option url :=
  if decide (s = toy_url) then Some (mkUrl (js "postgres:") (js "localhost") (js "/verilink_test") [] []) else None.
Definition toy_target (u : url) : target := (u_hostname u, drop 1 (u_pathname u)).
Definition toy_answers (k : Z) : result exn unit := if k =? 1 then Throw (EPg deadlock_detected) else Ok tt.
Definition toy_pool : Pool := mkPool (Some toy_url) None None None 0 false.


Lemma setup_matches_migration_runner_witness :
  let dir := take 3 Migrate.toy_dir in
  let sha := app (js "h:") in
  same_content (setupTestDb toy_new_URL (λ _, []) Migrate.toy_exec sha (Some toy_url) None dir Migrate.toy_start).2
    (Migrate.runMigrations Migrate.toy_exec sha true dir Migrate.toy_start).2 ∧
  (setupTestDb toy_new_URL (λ _, []) Migrate.toy_exec sha (Some toy_url) None dir Migrate.toy_start).1
    = Ok (toy_pool, default_secret).
Proof.
  intros dir sha. split; [|vm_compute; reflexivity].
  refine (proj1 (setup_matches_migration_runner toy_new_URL (λ _, []) Migrate.toy_exec sha 112 (drop 1 toy_url) None dir
    (Migrate.files dir) Migrate.toy_start _ _ _)); vm_compute; reflexivity.
Defined.

End TestDb.

(** ** [seedData.ts] *)
Module SeedData.
Import PrincipalRepo.

Record SeededTenant := mkSeededTenant { st_id : jstr; st_slug : jstr }.
Record SeededIssuer := mkSeededIssuer { is_id : jstr; is_keyId : jstr; is_publicKeyRaw : list Z; is_privateKey : jstr }.

(** A generated Ed25519 pair: the public key as a JWK, and the private key. *)
Record KeyPair := mkKeyPair { kp_jwk : json; kp_private : jstr }.

(** The clock, the random values of one call and the library functions. *)
Record senv := mkSenv {
  s_now : Z;
  s_uuid : jstr;                                 (** [crypto.randomUUID()], and ids the database generates *)
  s_pair : KeyPair;                              (** [generateKeyPairSync('ed25519')] *)
  s_random_hex : jstr;                           (** [randomBytes(32).toString('hex')] *)
  s_base64url : jstr → list Z;                   (** [Buffer.from(x, 'base64url')] *)
  s_sha256hex : list Z → jstr;
  s_createHmac : jstr → jstr → jstr;             (** secret, text; in hex *)
  s_hmac_env : option jstr;                      (** [process.env.API_KEY_HMAC_SECRET] *)
  s_numeric32 : number → Z;
  s_SignJWT : json → json → jstr → jstr          (** jose: protected header, claims, private key *)
}.

Definition slug_taken (slug : jstr) (d : db) : bool :=
  bool_decide (Exists (λ t, t_slug t = slug) (map_to_list (tenants d)).*2).

Definition seedTenant (e : senv) (slug : jstr) : M SeededTenant := λ d,
  if bool_decide (is_Some (tenants d !! s_uuid e)) || slug_taken slug d then (Throw (EPg unique_violation), d)
  else (Ok (mkSeededTenant (s_uuid e) slug),
        set_tenants (<[s_uuid e := mkTenant (s_uuid e) slug slug (js "free") (js "active") (s_now e)]> (tenants d)) d).

Definition HOUR_MS : Z := 3600000.
Definition TEST_KEY_ID : jstr := js "k1".

(** The [INSERT]s without [ON CONFLICT]. *)
Definition insert_issuer (e : senv) (id : jstr) : M unit := λ d,
  if bool_decide (is_Some (issuers d !! id)) then (Throw (EPg unique_violation), d)
  else if negb (bool_decide (is_Some (principals d !! id))) then (Throw (EPg foreign_key_violation), d)
  else (Ok tt, set_issuers (<[id := mkIssuer id 100 false None (s_now e)]> (issuers d)) d).

Definition insert_key (e : senv) (id keyId : jstr) (raw : list Z) (jwk : json) (keyHash : jstr) : M unit := λ d,
  if bool_decide (is_Some (principal_keys d !! (id, keyId))) || key_hash_taken keyHash d
  then (Throw (EPg unique_violation), d)
  else if negb (bool_decide (is_Some (principals d !! id))) then (Throw (EPg foreign_key_violation), d)
  else (Ok tt, set_principal_keys (<[(id, keyId) :=
          mkPrincipalKey id keyId raw jwk keyHash None (s_now e - HOUR_MS) None None]> (principal_keys d)) d).

Definition new_principal (e : senv) (kind tenantId : jstr) : Principal :=
  mkPrincipal (js "vrl:p:" ++ s_uuid e) kind None (Some tenantId) (JObj []) (s_now e) (s_now e) (js "active").

(** Three statements, each its own transaction. *)
Definition seedIssuer (e : senv) (tenantId : jstr) : M SeededIssuer :=
  let id := js "vrl:p:" ++ s_uuid e in
  let jwk := kp_jwk (s_pair e) in
  let publicKeyRaw := s_base64url e (String_ (get jwk "x")) in
  let keyHash := s_sha256hex e publicKeyRaw in
  let keyId := TEST_KEY_ID in
  _ ← insert_principal (new_principal e (js "issuer") tenantId);
  _ ← insert_issuer e id;
  _ ← insert_key e id keyId publicKeyRaw jwk keyHash;
  mret (mkSeededIssuer id keyId publicKeyRaw (kp_private (s_pair e))).

Definition seedSubject (e : senv) (tenantId : jstr) : M jstr :=
  _ ← insert_principal (new_principal e (js "agent") tenantId);
  mret (js "vrl:p:" ++ s_uuid e).

(** [INSERT INTO bootstrap_issuers ... ON CONFLICT (principal_id) DO UPDATE SET
    name, current_weight] *)
Definition upsert_root (e : senv) (principalId n : jstr) (w : Z) : M unit := λ d,
  if (w <? 0) || (100 <? w) then (Throw (EPg check_violation), d)
  else match bootstrap_issuers d !! principalId with
       | Some b =>
           (Ok tt, set_bootstrap_issuers (<[principalId := mkBootstrapIssuer (b_principal_id b) n w (b_seeded_at b)
              (b_de_emphasized_at b) (b_de_emphasis_reason b) (b_approved_by b) (b_removed_from_registry_at b)]>
              (bootstrap_issuers d)) d)
       | None =>
           if bool_decide (is_Some (issuers d !! principalId))
           then (Ok tt, set_bootstrap_issuers (<[principalId :=
                   mkBootstrapIssuer principalId n w (s_now e) None None None None]> (bootstrap_issuers d)) d)
           else (Throw (EPg foreign_key_violation), d)
       end.

(** [opts] is [{ name?, weight? }]. *)
Definition seedBootstrapIssuer (e : senv) (principalId : jstr) (name : option jstr) (weight : option number) : M unit :=
  _ ← writes (λ d, set_issuers (alter (BootstrapSeeder.with_flag true) principalId (issuers d)) d);
  upsert_root e principalId (default (js "test-bootstrap") name) (s_numeric32 e (default (num_of_Z 1) weight)).

Definition seedApiKey (e : senv) (tenantId : jstr) (scopes : list jstr) : M jstr := λ d,
  let key := js "vrl_" ++ s_random_hex e in
  let hash := s_createHmac e (default [] (s_hmac_env e)) key in
  if bool_decide (is_Some (api_keys d !! s_uuid e)) then (Throw (EPg unique_violation), d)
  else if negb (bool_decide (is_Some (tenants d !! tenantId))) then (Throw (EPg foreign_key_violation), d)
  else (Ok key, set_api_keys (<[s_uuid e := mkApiKey (s_uuid e) tenantId (take 7 key) hash scopes None (s_now e) None]>
                  (api_keys d)) d).

Definition authHeaders (apiKey : jstr) : headers := mkHeaders (Some (js "Bearer " ++ apiKey)) None None.

(** The options of a test token. *)
Record TokenOpts := mkOpts {
  o_issuerId : jstr; o_subjectId : jstr; o_privateKey : jstr; o_keyId : jstr; o_visibility : option jstr;
  o_trustLevelDelta : option Z; o_attestationType : option jstr; o_facts : option json;
  o_issuedAtUnix : option Z; o_expiresAtUnix : option Z }.

Definition default_facts (now : Z) : json :=
  JObj [(js "start", JStr (toISOString (now - 3600000))); (js "end", JStr (toISOString now));
        (js "success_count", JNum (num_of_Z 1)); (js "failure_count", JNum (num_of_Z 0));
        (js "dispute_count", JNum (num_of_Z 0))].

Definition token_claims (e : senv) (o : TokenOpts) : Tokens.claims :=
  let issuedAt := default (s_now e / 1000) (o_issuedAtUnix o) in
  Tokens.mkClaims
    (Tokens.mkVli (default (js "transaction_summary") (o_attestationType o)) (default (default_facts (s_now e)) (o_facts o))
       (default 10 (o_trustLevelDelta o)) (default (js "participants") (o_visibility o)))
    (o_issuerId o) (o_subjectId o) issuedAt (s_uuid e)
    (if bool_decide (o_expiresAtUnix o = Some 0) then None else Some (default (issuedAt + 3600) (o_expiresAtUnix o))).

Definition signAttestationToken (e : senv) (o : TokenOpts) : jstr :=
  s_SignJWT e (Tokens.protected_header (o_keyId o)) (Tokens.claims_json (token_claims e o)) (o_privateKey o).

(** ** Lemmas *)

Lemma iso_char_range c : iso_char c = true → 45 ≤ c ≤ 90 ∧ c ≠ 92.
Proof.
  unfold iso_char, is_digit. rewrite orb_true_iff, andb_true_iff, !Z.leb_le, bool_decide_eq_true, !elem_of_cons, elem_of_nil.
  lia.
Qed.

Definition ascii (c : Z) : bool := (0 <=? c) && (c <? 128).

Lemma byteLength_ascii a s : forallb ascii a = true → byteLength (a ++ s) = Z.of_nat (length a) + byteLength s.
Proof.
  induction a as [|c a IH]; [done|]. cbn [forallb]. intros [Hc Ha]%andb_true_iff.
  unfold ascii in Hc. rewrite andb_true_iff, Z.leb_le, Z.ltb_lt in Hc. cbn [app byteLength length].
  assert (Hh : is_high c = false) by (unfold is_high; lia). rewrite Hh, IH, (proj2 (Z.ltb_lt c 128)) by (done || lia). lia.
Qed.

(** Text of such characters is printed as it is. *)
Lemma iso_text a : forallb iso_char a = true →
  quote_body a = a ∧ Canonicalize.check_surrogates a = Ok tt ∧ forallb ascii a = true.
Proof.
  induction a as [|c a IH]; [done|]. cbn [forallb]. intros [Hc%iso_char_range Ha]%andb_true_iff.
  destruct (IH Ha) as (Hq & Hs & Hb).
  assert (Hh : is_high c = false) by (unfold is_high; lia). assert (Hl : is_low c = false) by (unfold is_low; lia).
  split_and!.
  - cbn [quote_body]. rewrite Hh, Hl, Hq. unfold quote_unit. repeat (case_match; [lia|]). done.
  - cbn [Canonicalize.check_surrogates]. by rewrite Hh, Hl.
  - rewrite Hb. unfold ascii. lia.
Qed.

Definition facts_of (a b : jstr) : json :=
  JObj [(js "start", JStr a); (js "end", JStr b); (js "success_count", JNum (num_of_Z 1));
        (js "failure_count", JNum (num_of_Z 0)); (js "dispute_count", JNum (num_of_Z 0))].

Lemma facts_of_bytes a b : forallb iso_char a = true → forallb iso_char b = true →
  byteLength (stringify (facts_of a b)) = Z.of_nat (length a) + Z.of_nat (length b) + 75.
Proof.
  intros (Ha & _ & Ba)%iso_text (Hb & _ & Bb)%iso_text.
  assert (Htxt : stringify (facts_of a b) = [123] ++ quote (js "start") ++ js ":" ++ [34] ++ quote_body a ++ [34] ++ js ","
    ++ quote (js "end") ++ js ":" ++ [34] ++ quote_body b ++ [34] ++ js "," ++ quote (js "success_count") ++ js ":1,"
    ++ quote (js "failure_count") ++ js ":0," ++ quote (js "dispute_count") ++ js ":0}").
  { clear. unfold facts_of. cbn [stringify join]. unfold quote. rewrite <- !app_assoc. reflexivity. }
  rewrite Htxt, Ha, Hb. clear Htxt Ha Hb.
  repeat (rewrite byteLength_ascii by (done || reflexivity)). rewrite <- (app_nil_r (js ":0}")), byteLength_ascii by done.
  generalize (Z.of_nat (length a)), (Z.of_nat (length b)). intros x y. cbv -[Z.add]. lia.
Qed.

Lemma default_facts_schema al cu now iss t :
  SchemaValidator.validateSchema al cu now (js "transaction_summary") (js "1") (default_facts t) (Some iss) = Ok tt.
Proof.
  pose proof (facts_of_bytes (toISOString (t - 3600000)) (toISOString t) (toISOString_chars _) (toISOString_chars _)) as Hb.
  rewrite !toISOString_length in Hb. unfold default_facts. fold (facts_of (toISOString (t - 3600000)) (toISOString t)).
  revert Hb. generalize (toISOString (t - 3600000)), (toISOString t). intros a b Hb.
  assert (Hc : SchemaValidator.checkSizeAndDepth (facts_of a b) 0 = Ok tt).
  { unfold facts_of in *. cbn [SchemaValidator.checkSizeAndDepth]. by rewrite Hb. }
  unfold SchemaValidator.validateSchema. rewrite !bool_decide_eq_true_2 by (apply (bool_decide_unpack _); vm_compute; exact I).
  rewrite Hc. reflexivity.
Qed.

Lemma default_facts_hash sha t : ∃ h, Canonicalize.computeFactsHash sha (default_facts t) = Ok h.
Proof.
  destruct (iso_text _ (toISOString_chars (t - 3600000))) as (_ & Ha & _).
  destruct (iso_text _ (toISOString_chars t)) as (_ & Hb & _).
  unfold default_facts. revert Ha Hb. generalize (toISOString (t - 3600000)), (toISOString t). intros a b Ha Hb.
  assert (Hq : ∀ x, Canonicalize.check_surrogates x = Ok tt → Canonicalize.canonicalizeString x = Ok (quote x)).
  { intros x Hx. unfold Canonicalize.canonicalizeString. by rewrite Hx. }
  unfold Canonicalize.computeFactsHash, Canonicalize.canonicalize. cbn [Canonicalize.canonicalizeValue].
  rewrite (Hq a Ha), (Hq b Hb). eexists. reflexivity.
Qed.

(** The rows a seeded issuer and subject leave. *)
Lemma seedIssuer_Ok e t d i d1 : seedIssuer e t d = (Ok i, d1) →
  is_id i = js "vrl:p:" ++ s_uuid e ∧ is_keyId i = TEST_KEY_ID ∧ is_privateKey i = kp_private (s_pair e) ∧
  is_Some (principals d1 !! is_id i) ∧ is_Some (issuers d1 !! is_id i) ∧ attestations d1 = attestations d ∧
  ∃ jwk h, principal_keys d1 !! (is_id i, is_keyId i) =
    Some (mkPrincipalKey (is_id i) (is_keyId i) (is_publicKeyRaw i) jwk h None (s_now e - HOUR_MS) None None).
Proof.
  unfold seedIssuer. intros (x & d2 & H1 & (? & d3 & H2 & (? & d4 & H3 & [= <- <-])%M_bind_Ok)%M_bind_Ok)%M_bind_Ok.
  destruct x. apply PrincipalInv.insert_principal_Ok in H1 as (-> & _).
  unfold insert_issuer in H2. case_bool_decide; [done|]. case_bool_decide; [|done]. injection H2 as _ <-.
  unfold insert_key in H3. destruct (_ || _); [done|]. case_bool_decide; [|done]. injection H3 as _ <-.
  cbn. split_and!; try done; rewrite ?lookup_insert_eq; eauto.
Qed.

Lemma seedSubject_Ok e t d s d1 : seedSubject e t d = (Ok s, d1) →
  s = js "vrl:p:" ++ s_uuid e ∧ principals d ⊆ principals d1 ∧ issuers d1 = issuers d ∧
  principal_keys d1 = principal_keys d ∧ attestations d1 = attestations d.
Proof.
  unfold seedSubject. intros (x & d2 & H1 & [= <- <-])%M_bind_Ok.
  destruct x. apply PrincipalInv.insert_principal_Ok in H1 as (-> & ? & _). cbn. split_and!; try done.
  by apply insert_subseteq.
Qed.

(** The direct insert stores the row the API's own [createApiKey] would, under the
    same hash function. *)
Lemma seedApiKey_is_createApiKey e ea t sc d key d1 :
  seedApiKey e t sc d = (Ok key, d1) →
  ae_now ea = s_now e → ae_random_hex ea = s_random_hex e → ae_key_id ea = s_uuid e →
  ae_hmac ea = s_createHmac e (default [] (s_hmac_env e)) →
  ApiKeyRepo.generateApiKeySecret ea = key ∧
  ∃ k, ApiKeyRepo.createApiKey ea t sc d = (Ok (k, key), d1) ∧ ak_id k = s_uuid e ∧ ak_tenant_id k = t ∧ ak_scopes k = sc.
Proof.
  intros H Hn Hr Hi Hh. unfold seedApiKey in H. unfold ApiKeyRepo.createApiKey, ApiKeyRepo.generateApiKeySecret, ApiKeyRepo.SCHEMA_KEY.
  rewrite Hn, Hr, Hi, Hh. case_bool_decide; [done|]. case_bool_decide; [|done]. injection H as <- <-.
  split; [done|]. eexists. by split.
Qed.

(** ** Properties *)

(** A seeded key works: the text [seedApiKey] returns, sent with [authHeaders],
    authenticates as that tenant with the scopes asked for, provided the server
    hashes with the secret the helper read from the environment. *)
Theorem seeded_key_authenticates e ea ea2 t tn sc d key d1 :
  length (s_random_hex e) = 64%nat → tenants d !! t = Some tn → t_status tn = js "active" →
  ae_now ea = s_now e → ae_random_hex ea = s_random_hex e → ae_key_id ea = s_uuid e →
  ae_hmac ea = s_createHmac e (default [] (s_hmac_env e)) → ae_hmac ea2 = ae_hmac ea →
  AuthInv.hash_unused ea key d → seedApiKey e t sc d = (Ok key, d1) →
  ∃ d2, Auth.authMiddleware ea2 (authHeaders key) d1 = (Ok (ApiKeyUser (s_uuid e) t sc), d2).
Proof.
  intros Hl Ht Ha Hn Hr Hi Hh Hh2 Hun Hs.
  destruct (seedApiKey_is_createApiKey _ _ _ _ _ _ _ Hs Hn Hr Hi Hh) as (Hkey & k & Hc & Hid & Htid & Hsc).
  pose proof (AuthInv.created_rows _ _ _ _ _ _ _ _ Hun Hc Ht) as Hrows. rewrite <- Hh2 in Hrows.
  destruct (AuthInv.secret_shape ea) as [Hp Hlen]; [by rewrite Hr|]. rewrite Hkey in Hp, Hlen.
  unfold Auth.authMiddleware, authHeaders. cbn [h_authorization].
  assert (Hb : startsWith (js "Bearer ") (js "Bearer " ++ key) = true).
  { unfold startsWith. rewrite take_app_length. by apply bool_decide_eq_true_2. }
  rewrite Hb. change 7%nat with (length (js "Bearer ")). rewrite drop_app_length, Hp.
  unfold Auth.as_app_error, catch.
  rewrite (AuthInv.authenticate_unique ea2 key d1 k tn Hp Hlen Ha); [|by apply Hrows|by intros y Hy; apply Hrows].
  rewrite Hid, Htid, Hsc. by eexists.
Qed.

(** The claims of a default token meet every condition of the ingest. *)
Lemma token_native ea e o :
  o_attestationType o = None → o_facts o = None → (∀ v, o_visibility o = Some v → v ∈ [js "participants"; js "public"]) →
  (∀ x, o_trustLevelDelta o = Some x → 0 ≤ x ≤ 100) → o_issuerId o ≠ [] →
  (∃ u, o_subjectId o = js "vrl:p:" ++ u ∧ AttestationService.is_uuid u = true) →
  let c := token_claims e o in
  Tokens.c_iat c ≠ 0 → (∀ x, Tokens.c_exp c = Some x → e_now ea / 1000 < x) →
  (∀ x, x = Tokens.c_iat c ∨ Tokens.c_exp c = Some x → e_date ea (num_of_Z x) = Some (x * 1000)) →
  Tokens.native ea c.
Proof.
  intros Hty Hf Hv Hd Hi Hs c Hiat Hexp Hdate.
  assert (Hfacts : Tokens.v_facts (Tokens.c_vli c) = default_facts (s_now e)) by (unfold c, token_claims; cbn; by rewrite Hf).
  assert (Htype : Tokens.v_type (Tokens.c_vli c) = js "transaction_summary") by (unfold c, token_claims; cbn; by rewrite Hty).
  split; rewrite ?Hfacts, ?Htype; try done.
  - by eexists.
  - apply default_facts_schema.
  - apply default_facts_hash.
  - assert (0 ≤ Tokens.v_trust_level_delta (Tokens.c_vli c) ≤ 100) as Hr.
    { unfold c, token_claims. cbn. destruct (o_trustLevelDelta o); [by apply Hd|]. cbn. lia. }
    split; [lia|]. unfold AttestationRepo.sign_ok. rewrite decide_False by done. apply Z.leb_le. lia.
  - unfold c, token_claims. cbn. destruct (o_visibility o) as [v|]; [by apply Hv|]. by left.
  - destruct (Tokens.c_exp c) as [x|]; [by apply Hexp|done].
  - split; [apply Hdate; by left|]. intros x Hx. apply Hdate. by right.
Qed.

(** C40. The seeded world is one the service accepts: after [seedIssuer] and
    [seedSubject], a token that [signAttestationToken] makes for that issuer, its key
    and that subject is accepted by [submitAttestation], and the stored row is exactly
    what the options say. The options leave out the type, which is then
    transaction_summary, and the facts, which are then the default ones of that type
    (with another type these facts break its schema); a visibility, if given, is
    participants or public, and a trust delta, if given, is between 0 and 100. The token
    is issued at a time other than 0, within the validity of the key (from an hour
    before it was seeded), and is not expired; neither the token nor the new row's id
    is stored already. Assumed of libraries: [randomUUID] gives a UUID, the Ed25519 key has
    32 bytes, dates of the two instants are valid, and jose's token carries its header
    and claims under a signature of the issuer's key. *)
Theorem seeded_token_accepted e1 e2 e3 ea t o d iss d1 d2 :
  let c := token_claims e3 o in let tok := signAttestationToken e3 o in
  seedIssuer e1 t d = (Ok iss, d1) → seedSubject e2 t d1 = (Ok (o_subjectId o), d2) →
  o_issuerId o = is_id iss → o_keyId o = is_keyId iss → o_attestationType o = None → o_facts o = None →
  (∀ v, o_visibility o = Some v → v ∈ [js "participants"; js "public"]) →
  (∀ x, o_trustLevelDelta o = Some x → 0 ≤ x ≤ 100) →
  s_now e1 - HOUR_MS ≤ Tokens.c_iat c * 1000 → Tokens.c_iat c ≠ 0 → (∀ x, Tokens.c_exp c = Some x → e_now ea / 1000 < x) →
  AttestationService.is_uuid (s_uuid e2) = true → length (is_publicKeyRaw iss) = 32%nat →
  (∀ x, x = Tokens.c_iat c ∨ Tokens.c_exp c = Some x → e_date ea (num_of_Z x) = Some (x * 1000)) →
  Tokens.carries ea (is_publicKeyRaw iss) (Tokens.protected_header (o_keyId o)) (Tokens.claims_json c) tok →
  attestations d !! e_row_id ea = None → AttestationRepo.findByTokenDigest (e_sha256hex ea tok) d = None →
  ∃ h d3, Canonicalize.computeFactsHash (e_sha256hex ea) (default_facts (s_now e3)) = Ok h ∧
    AttestationService.submitAttestation ea tok d2 = (Ok (Tokens.row_of ea c tok (is_keyId iss) h, true), d3) ∧
    attestations d3 = <[e_row_id ea := Tokens.row_of ea c tok (is_keyId iss) h]> (attestations d).
Proof.
  intros c tok Hi Hs Ho Hk Hty Hf Hv Hd Hval Hiat Hexp Huuid Hlen Hdate Hcar Hrow Hdig.
  destruct (seedIssuer_Ok _ _ _ _ _ Hi) as (Hid & Hkid & _ & Hp & His & Ha & jwk & hh & Hkey).
  destruct (seedSubject_Ok _ _ _ _ _ Hs) as (Hsub & Hps & Hisq & Hks & Ha2).
  destruct (default_facts_hash (e_sha256hex ea) (s_now e3)) as [h Hh]. exists h.
  assert (Hn : Tokens.native ea c).
  { apply token_native; try done; [rewrite Ho, Hid; discriminate|]. exists (s_uuid e2). by split. }
  assert (Hci : Tokens.c_iss c = is_id iss) by done.
  edestruct (Tokens.claims_accepted ea c tok (is_keyId iss)) as (d3 & Hsubmit & Hatt).
  - exact Hn.
  - rewrite Hkid. discriminate.
  - rewrite <- Hk. exact (Hcar : Tokens.carries ea (k_public_key_raw (mkPrincipalKey (is_id iss) (is_keyId iss)
      (is_publicKeyRaw iss) jwk hh None (s_now e1 - HOUR_MS) None None)) _ _ _).
  - done.
  - done.
  - unfold c, token_claims. cbn. rewrite Hf. exact Hh.
  - rewrite Hci. destruct Hp as [p Hp]. exists p. by eapply lookup_weaken.
  - by rewrite Hci, Hisq.
  - rewrite Hci, Hks. exact Hkey.
  - unfold key_active_at. cbn [k_revoked_at k_valid_from k_valid_until]. by rewrite (proj2 (Z.leb_le _ _) Hval).
  - by rewrite Ha2, Ha.
  - unfold AttestationRepo.findByTokenDigest in *. by rewrite Ha2, Ha.
  - exists d3. split; [done|]. by rewrite Ha2, Ha in Hatt.
Qed.

(** ** Witnesses *)

Definition toy_senv (uuid : string) : senv :=
  mkSenv 1785542400123 (js uuid) (mkKeyPair (JObj [(js "x", JStr (js "X"))]) (js "priv")) (repeat 49 64)
    (λ _, repeat 7 32) (λ _, js "kh") (λ secret s, secret ++ js ":" ++ s) (Some (js "secret")) (λ _, 100)
    (λ _ _ _, js "H.P.S").

Definition U1 : string := "00000000-0000-4000-8000-000000000001".
Definition U2 : string := "00000000-0000-4000-8000-000000000002".

Definition one_tenant : db := set_tenants {[ js "t1" := mkTenant (js "t1") (js "t1") (js "t1") (js "free") (js "active") 0 ]} empty_db.

Definition toy_opts : TokenOpts :=
  mkOpts (js "vrl:p:" ++ js U1) (js "vrl:p:" ++ js U2) (js "priv") (js "k1") (Some (js "public")) None None None None None.

Definition toy_ingest : env :=
  mkEnv 1785542400123 None None (js "u") (js "row1") (λ s, js "h" ++ s)
    (λ s, if decide (s = js "H") then Some (Tokens.protected_header (js "k1"))
          else if decide (s = js "P") then Some (Tokens.claims_json (token_claims (toy_senv U1) toy_opts)) else None)
    (λ _, None) (λ s, s) (λ k input sg, bool_decide (sg = js "S")) (λ _, NaN)
    (λ n, (λ z, z * 1000) <$> num_to_Z n).

Lemma seeded_key_authenticates_witness :
  let ea := mkAenv 1785542400123 (λ s, js "secret:" ++ s) (repeat 49 64) (js U1) [] false (λ _, Throw (EError [])) [] (λ _, 0) in
  ∃ d1 d2, seedApiKey (toy_senv U1) (js "t1") [js "attest:read"] one_tenant = (Ok (js "vrl_" ++ repeat 49 64), d1) ∧
    Auth.authMiddleware ea (authHeaders (js "vrl_" ++ repeat 49 64)) d1 = (Ok (ApiKeyUser (js U1) (js "t1") [js "attest:read"]), d2).
Proof.
  intros ea.
  edestruct (fst_run (seedApiKey (toy_senv U1) (js "t1") [js "attest:read"] one_tenant)) as [d1 H]; [vm_compute; reflexivity|].
  destruct (seeded_key_authenticates (toy_senv U1) ea ea (js "t1") (mkTenant (js "t1") (js "t1") (js "t1") (js "free") (js "active") 0)
    [js "attest:read"] one_tenant (js "vrl_" ++ repeat 49 64) d1) as [d2 H2]; try reflexivity.
  - intros i k Hk. discriminate Hk.
  - exact H.
  - exists d1, d2. split; [exact H|exact H2].
Defined.

Lemma seeded_token_accepted_witness :
  ∃ iss d1 d2 row d3, seedIssuer (toy_senv U1) (js "t1") one_tenant = (Ok iss, d1) ∧
    seedSubject (toy_senv U2) (js "t1") d1 = (Ok (o_subjectId toy_opts), d2) ∧
    AttestationService.submitAttestation toy_ingest (signAttestationToken (toy_senv U1) toy_opts) d2 = (Ok (row, true), d3) ∧
    a_trust_delta row = 10.
Proof.
  edestruct (fst_run (seedIssuer (toy_senv U1) (js "t1") one_tenant)) as [d1 H1]; [vm_compute; reflexivity|].
  assert (Hd1 : d1 = (seedIssuer (toy_senv U1) (js "t1") one_tenant).2) by (by rewrite H1).
  edestruct (fst_run (seedSubject (toy_senv U2) (js "t1") d1)) as [d2 H2]; [rewrite Hd1; vm_compute; reflexivity|].
  edestruct (seeded_token_accepted (toy_senv U1) (toy_senv U2) (toy_senv U1) toy_ingest (js "t1") toy_opts one_tenant)
    as (h & d3 & _ & H3 & _); [exact H1|exact H2|reflexivity|reflexivity|reflexivity|reflexivity|..].
  - intros v [= <-]. right. by left.
  - intros x [=].
  - vm_compute. discriminate.
  - vm_compute. discriminate.
  - intros x Hx. vm_compute in Hx. injection Hx as <-. vm_compute. reflexivity.
  - vm_compute. reflexivity.
  - reflexivity.
  - intros x _. unfold toy_ingest, e_date. by rewrite num_to_of_Z.
  - split. exists (js "H"), (js "P"), (js "S"). split_and!; vm_compute; reflexivity.
  - reflexivity.
  - reflexivity.
  - eexists _, d1, d2, _, d3. split; [exact H1|]. split; [exact H2|]. split; [exact H3|reflexivity].
Defined.

End SeedData.
