(* ===== verification/Client.v ===== *)
(** * The Node client

    [src/client/node/index.ts]: signed attestation tokens, HTTP message
    signatures in the style of RFC 9421 (signer and verifier), and the client class.

    What the code takes from its surroundings is the record [cenv]: the clock,
    the random id, Ed25519 and SHA-256, [Buffer.from(s, 'base64url')],
    [Number(s)], [toUpperCase], [JSON.parse], [encodeURIComponent], the URL parser
    and the transport. A callback that throws is a [Throw] with the message of the
    exception, which is all the verifier uses of it. *)

From stdpp Require Import base gmap strings list.
From Stdlib Require Import ZArith Lia.
From S2P Require Import Prelude Json JsText.

Record URLParts := mkURL { u_protocol : jstr; u_hostname : jstr; u_port : jstr; u_pathname : jstr; u_search : jstr }.

Record HttpCall := mkCall {
  h_https : bool; h_hostname : jstr; h_port : jstr; h_path : jstr; h_method : jstr;
  h_headers : gmap jstr jstr; h_body : option jstr
}.

Inductive ClientError := HttpError (msg : jstr) (statusCode : Z) | PlainError (msg : jstr).

Record cenv (KeyObject : Type) := mkCenv {
  c_now : Z;                                               (** [Date.now()] *)
  c_uuid : jstr;                                           (** [crypto.randomUUID()] *)
  c_import : jstr → jstr → result jstr KeyObject;          (** [createPrivateKey] of the JWK with this [d] and [x] *)
  c_sign : KeyObject → list Z → list Z;
  c_verify : KeyObject → list Z → list Z → result jstr bool; (** key, message, signature *)
  c_sha256 : list Z → list Z;
  c_from_base64url : jstr → list Z;
  c_Number : jstr → number;
  c_upper : jstr → jstr;
  c_parse : jstr → option json;                            (** [JSON.parse]; [None] when it throws *)
  c_encode_uri : jstr → jstr;
  c_URL : jstr → result jstr URLParts;
  c_send : HttpCall → result jstr (option Z * jstr)        (** status code and body, or the transport's error *)
}.
Arguments c_now {_}. Arguments c_uuid {_}. Arguments c_import {_}. Arguments c_sign {_}. Arguments c_verify {_}.
Arguments c_sha256 {_}. Arguments c_from_base64url {_}. Arguments c_Number {_}. Arguments c_upper {_}.
Arguments c_parse {_}. Arguments c_encode_uri {_}. Arguments c_URL {_}. Arguments c_send {_}.

(** The same runtime at another time. *)
Definition at_time {K} (t : Z) (E : cenv K) : cenv K :=
  mkCenv K t (c_uuid E) (c_import E) (c_sign E) (c_verify E) (c_sha256 E) (c_from_base64url E) (c_Number E)
    (c_upper E) (c_parse E) (c_encode_uri E) (c_URL E) (c_send E).

(** ** Signatures *)
Module Signing.
Section Signing.
Context {KeyObject : Type} (E : cenv KeyObject).

Inductive Body := Text (s : jstr) | Bytes (b : list Z).

Record SignRequestResult := mkSigned { signatureBase : jstr; sigInput : jstr; signature : jstr }.
Record VerifyResult := mkVerify { valid : bool; v_keyid : jstr; reason : option jstr }.

Record RequestLike := mkRequest {
  url : jstr; method : option jstr; r_headers : option (gmap jstr jstr); body : option Body;
  created : option number; expires : option number
}.

Definition body_bytes (b : option Body) : list Z :=
  match b with None => [] | Some (Text s) => utf8 s | Some (Bytes b) => b end.

(** [body == null ? 0 : Buffer.byteLength(body)] *)
Definition body_length (b : option Body) : Z :=
  match b with None => 0 | Some (Text s) => byteLength s | Some (Bytes b) => Z.of_nat (length b) end.

Definition computeContentDigest (b : option Body) : jstr :=
  js "sha-256=:" ++ b64url (c_sha256 E (body_bytes b)) ++ js ":".

Definition importPrivKey (hexPriv : jstr) : result jstr KeyObject :=
  if negb (bool_decide (length hexPriv = 128%nat))
  then Throw (js "VERILINK_ISSUER_PRIVATE_KEY must be 128 hex chars (64-byte Ed25519 key)")
  else
    let raw := hex_bytes hexPriv in
    c_import E (b64url (take 32 raw)) (b64url (drop 32 raw)).

(** A component line: the quoted name, a colon and the value. *)
Definition line (name value : jstr) : jstr := [34] ++ name ++ [34] ++ js ": " ++ value.

Definition signature_lines (meth targetURI : jstr) (cr ex : number) (b : option Body)
    (extra : option (list (jstr * jstr))) : list jstr :=
  [line (js "@method") (c_upper E meth);
   line (js "@target-uri") targetURI;
   line (js "@created") (num_to_string cr);
   line (js "@expires") (num_to_string ex)]
  ++ (if 0 <? body_length b then [line (js "content-digest") (computeContentDigest b)] else [])
  ++ (match extra with Some l => (λ c, line c.1 c.2) <$> l | None => [] end).

Definition buildSignatureBase (meth targetURI : jstr) (cr ex : number) (b : option Body)
    (extra : option (list (jstr * jstr))) : jstr :=
  join [10] (signature_lines meth targetURI cr ex b extra) ++ [10].

Definition quote_name (n : jstr) : jstr := 34 :: n ++ [34].

Definition keyid_of (issuerDID keyLabel : jstr) : jstr := js "vrl:agent:" ++ issuerDID ++ js "|" ++ keyLabel.

(** [req.body || null]: the empty string is dropped, an empty buffer is not. *)
Definition body_or_null (b : option Body) : option Body := match b with Some (Text []) => None | _ => b end.

Definition num_or (n : option number) (dflt : number) : number :=
  match n with Some n => if truthy_num n then n else dflt | None => dflt end.

Definition method_or_get (m : option jstr) : jstr := match m with None | Some [] => js "GET" | Some m => m end.

Definition now_seconds : Z := c_now E / 1000.

Definition sig_input (components : list jstr) (keyid : jstr) (cr ex : number) (nonce : jstr) : jstr :=
  join [32] components ++ js ";keyid=" ++ [34] ++ keyid ++ [34] ++ js ";created=" ++ num_to_string cr
  ++ js ";expires=" ++ num_to_string ex ++ js ";nonce=" ++ nonce.

Definition component_names (b : option Body) (extra : option (list (jstr * jstr))) : list jstr :=
  [js "@method"; js "@target-uri"; js "@created"; js "@expires"]
  ++ (if 0 <? body_length b then [js "content-digest"] else [])
  ++ (match extra with Some l => l.*1 | None => [] end).

Definition signRequest (req : RequestLike) (privKeyHexOrObj : jstr + KeyObject) (keyLabel issuerDID : jstr)
    (extra : option (list (jstr * jstr))) : result jstr SignRequestResult :=
  privKeyObj ← match privKeyHexOrObj with inl h => importPrivKey h | inr k => Ok k end;
  let keyid := keyid_of issuerDID keyLabel in
  let b := body_or_null (body req) in
  let meth := c_upper E (method_or_get (method req)) in
  let now := now_seconds in
  let cr := num_or (created req) (num_of_Z now) in
  let ex := num_or (expires req) (num_of_Z (now + 300)) in
  let nonce := remove_char 45 (c_uuid E) in
  let sigBase := buildSignatureBase meth (url req) cr ex b extra in
  let sigBytes := c_sign E privKeyObj (utf8 sigBase) in
  Ok (mkSigned sigBase (sig_input (quote_name <$> component_names b extra) keyid cr ex nonce) (b64url sigBytes)).

(** The request is changed in place: the new request comes with the result. *)
Definition set_header (k v : jstr) (req : RequestLike) : RequestLike :=
  mkRequest (url req) (method req) (Some (<[k := v]> (default ∅ (r_headers req)))) (body req)
    (created req) (expires req).

Definition signRequestWithIdempotencyKey (req : RequestLike) (privKeyHexOrObj : jstr + KeyObject)
    (keyLabel issuerDID idempotencyKey : jstr) : RequestLike * result jstr SignRequestResult :=
  let req := set_header (js "Idempotency-Key") idempotencyKey req in
  (req, signRequest req privKeyHexOrObj keyLabel issuerDID (Some [(js "idempotency-key", idempotencyKey)])).

(** The parameters after the component list, the last value of a name winning. *)
Definition parse_params (parts : list jstr) : gmap jstr jstr :=
  fold_left (λ params part,
    match cut_at 61 part with
    | None => params
    | Some (k, v) => <[trim k := strip_quotes (trim v)]> params
    end) parts ∅.

Definition derived : list jstr :=
  [js "@method"; js "@target-uri"; js "@created"; js "@expires"; js "content-digest"].

(** The covered headers, read through [getExtraHeader]. *)
Fixpoint collect_extra (getExtraHeader : option (jstr → result jstr jstr)) (names : list jstr) :
  result jstr (list (jstr * jstr)) :=
  match names with
  | [] => Ok []
  | name :: names' =>
      match getExtraHeader with
      | Some g =>
          if bool_decide (name ∈ derived) then collect_extra getExtraHeader names'
          else v ← g name; rest ← collect_extra getExtraHeader names'; Ok ((name, v) :: rest)
      | None => collect_extra getExtraHeader names'
      end
  end.

(** [maxSkew] *)
Definition maxSkew : number := num_of_Z 30.

(** The time checks, with the reason of the first that fails. *)
Definition time_reason (now : number) (cr ex : number) : option jstr :=
  if truthy_num cr && num_ltb now (num_sub cr maxSkew)
  then Some (js "signature created in the future: created=" ++ num_to_string cr ++ js " now=" ++ num_to_string now)
  else if truthy_num ex && num_ltb (num_add ex maxSkew) now
  then Some (js "signature expired: expires=" ++ num_to_string ex ++ js " now=" ++ num_to_string now)
  else if truthy_num cr && truthy_num ex && num_ltb (num_of_Z 300) (num_sub ex cr)
  then Some (js "validity window exceeds 300 seconds")
  else None.

Definition number_param (params : gmap jstr jstr) (k : string) : number :=
  match params !! js k with Some s => c_Number E s | None => NaN end.

(** The [try] block. *)
Definition verify_body (sigInputHeader sigHeader meth targetURI : jstr) (getBody : result jstr (option Body))
    (lookupKey : jstr → result jstr (option KeyObject)) (getExtraHeader : option (jstr → result jstr jstr)) :
  result jstr VerifyResult :=
  if bool_decide (trim sigInputHeader = [])
  then Ok (mkVerify false [] (Some (js "empty signature-input header")))
  else
  let parts := split_on 59 sigInputHeader in
  let componentsStr := trim (hd [] parts) in
  if bool_decide (componentsStr = [])
  then Ok (mkVerify false [] (Some (js "missing covered-component list")))
  else
  let params := parse_params (tl parts) in
  match params !! js "keyid" with
  | None | Some [] => Ok (mkVerify false [] (Some (js "missing keyid")))
  | Some keyid =>
      let cr := number_param params "created" in
      let ex := number_param params "expires" in
      let nonce := default [] (params !! js "nonce") in
      match time_reason (num_of_Z now_seconds) cr ex with
      | Some r => Ok (mkVerify false keyid (Some r))
      | None =>
          if bool_decide (nonce = [])
          then Ok (mkVerify false keyid (Some (js "missing nonce in signature-input")))
          else
            b ← getBody;
            extra ← collect_extra getExtraHeader (quoted None componentsStr);
            let sigBase := buildSignatureBase meth targetURI cr ex b (Some extra) in
            pubKeyObj ← lookupKey keyid;
            match pubKeyObj with
            | None => Ok (mkVerify false keyid (Some (js "unknown keyid: " ++ keyid)))
            | Some k =>
                ok ← c_verify E k (utf8 sigBase) (c_from_base64url E sigHeader);
                Ok (mkVerify ok keyid None)
            end
      end
  end.

Definition verifySignatureInput (sigInputHeader sigHeader meth targetURI : jstr)
    (getBody : result jstr (option Body)) (lookupKey : jstr → result jstr (option KeyObject))
    (getExtraHeader : option (jstr → result jstr jstr)) : VerifyResult :=
  match verify_body sigInputHeader sigHeader meth targetURI getBody lookupKey getExtraHeader with
  | Ok r => r
  | Throw msg => mkVerify false [] (Some msg)
  end.

End Signing.
End Signing.

(** ** The client class *)
Module ApiClient.
Section ApiClient.
Context {KeyObject : Type} (E : cenv KeyObject).
Import Signing.

Definition jwt_header : json := JObj [(js "alg", JStr (js "EdDSA")); (js "typ", JStr (js "JWT"))].

Definition signJWT (payload : json) (privKeyObj : KeyObject) : jstr :=
  let header := b64url (utf8 (stringify jwt_header)) in
  let body := b64url (utf8 (stringify payload)) in
  let sig := c_sign E privKeyObj (utf8 (header ++ js "." ++ body)) in
  header ++ js "." ++ body ++ js "." ++ b64url sig.

Record VeriLinkClient := mkClient { _url : jstr; _issuer : jstr; _privKey : KeyObject }.

(** [s.replace(/\/$/, '')] *)
Definition strip_slash (s : jstr) : jstr := match reverse s with 47 :: r => reverse r | _ => s end.

(** The options as strings; [undefined] is treated like the empty string. *)
Definition constructor (attestationURL issuerDID privateKeyHex : jstr) : result jstr VeriLinkClient :=
  _ ← guard_or (negb (bool_decide (attestationURL = []))) (js "VeriLinkClient: attestationURL is required");
  _ ← guard_or (negb (bool_decide (issuerDID = []))) (js "VeriLinkClient: issuerDID is required");
  _ ← guard_or (negb (bool_decide (privateKeyHex = []))) (js "VeriLinkClient: privateKeyHex is required");
  k ← importPrivKey E privateKeyHex;
  Ok (mkClient (strip_slash attestationURL) issuerDID k).

(** The three environment variables, empty when unset. *)
Definition fromEnv (VERILINK_ATTESTATION_URL VERILINK_ISSUER_DID VERILINK_ISSUER_PRIVATE_KEY : jstr) :
  result jstr VeriLinkClient :=
  constructor (match VERILINK_ATTESTATION_URL with [] => js "https://api.verilink.ai" | u => u end)
    VERILINK_ISSUER_DID VERILINK_ISSUER_PRIVATE_KEY.

(** One HTTP exchange; the timeout is one of the transport's errors. *)
Definition request (meth urlStr : jstr) (bodyObj : option json) : result ClientError json :=
  match c_URL E urlStr with
  | Throw msg => Throw (PlainError msg)
  | Ok u =>
      let https := bool_decide (u_protocol u = js "https:") in
      let body := stringify <$> bodyObj in
      let headers : gmap jstr jstr :=
        match body with Some b => {[js "Content-Length" := show_Z (byteLength b)]} | None => ∅ end in
      let call := mkCall https (u_hostname u)
        (match u_port u with [] => if https then js "443" else js "80" | p => p end)
        (u_pathname u ++ u_search u) meth
        (<[js "Content-Type" := js "application/json"]> (<[js "Accept" := js "application/json"]> headers)) body in
      match c_send E call with
      | Throw msg => Throw (PlainError msg)
      | Ok (statusCode, raw) =>
          match statusCode with
          | Some c =>
              if 400 <=? c
              then Throw (HttpError (js "VeriLink HTTP " ++ show_Z c ++ js ": " ++ trim raw) c)
              else Ok (match raw with [] => JNull | _ => default (JStr raw) (c_parse E raw) end)
          | None => Ok (match raw with [] => JNull | _ => default (JStr raw) (c_parse E raw) end)
          end
      end
  end.

Definition attestation_payload (this : VeriLinkClient) (subject : jstr) (facts : json) (type : jstr)
    (trustLevelDelta : number) : json :=
  let now := c_now E / 1000 in
  JObj [(js "iss", JStr (_issuer this)); (js "sub", JStr subject); (js "iat", JNum (num_of_Z now));
        (js "exp", JNum (num_of_Z (now + 365 * 24 * 3600)));
        (js "vli", JObj [(js "type", JStr type); (js "facts", facts);
                         (js "trust_level_delta", JNum trustLevelDelta)])].

(** The defaults are those of the parameters: [facts = {}], [type =
    'behavioral'], [trustLevelDelta = 10]. *)
Definition submitAttestation (this : VeriLinkClient) (subject : jstr) (facts : option json) (type : option jstr)
    (trustLevelDelta : option number) : result ClientError unit :=
  let payload := attestation_payload this subject (default (JObj []) facts) (default (js "behavioral") type)
    (default (num_of_Z 10) trustLevelDelta) in
  let token := signJWT payload (_privKey this) in
  _ ← request (js "POST") (_url this ++ js "/v1/attestations/submit") (Some (JObj [(js "token", JStr token)]));
  Ok tt.

Definition getTrustScore (this : VeriLinkClient) (fingerprint : jstr) : result ClientError number :=
  data ← request (js "GET") (_url this ++ js "/v1/trust?fingerprint=" ++ c_encode_uri E fingerprint) None;
  Ok (match get data "score" with JNum n => n | _ => num_of_Z 0 end).

(** [score >= threshold] *)
Definition isTrusted (this : VeriLinkClient) (fingerprint : jstr) (threshold : option number) :
  result ClientError bool :=
  score ← getTrustScore this fingerprint;
  let threshold := default (num_of_Z 50) threshold in
  Ok (negb (isNaN score) && negb (isNaN threshold) && negb (num_ltb score threshold)).

Definition signRequest (this : VeriLinkClient) (req : RequestLike) (keyLabel : option jstr) :
  RequestLike * result jstr SignRequestResult :=
  match Signing.signRequest E req (inr (_privKey this)) (default (js "default") keyLabel) (_issuer this) None with
  | Throw e => (req, Throw e)
  | Ok r => (set_header (js "Signature") (signature r) (set_header (js "Signature-Input") (sigInput r) req), Ok r)
  end.

Definition signRequestWithIdempotencyKey (this : VeriLinkClient) (req : RequestLike)
    (keyLabel idempotencyKey : jstr) : RequestLike * result jstr SignRequestResult :=
  match Signing.signRequestWithIdempotencyKey E req (inr (_privKey this)) keyLabel (_issuer this) idempotencyKey with
  | (req, Throw e) => (req, Throw e)
  | (req, Ok r) =>
      (set_header (js "Idempotency-Key") idempotencyKey
        (set_header (js "Signature") (signature r) (set_header (js "Signature-Input") (sigInput r) req)), Ok r)
  end.

End ApiClient.
End ApiClient.

(** ** Properties *)
Module ClientInv.
Import Signing.

(** *** Reading back a signature-input header *)

Lemma split_on_ne sep s : split_on sep s ≠ [].
Proof. destruct s as [|c s]; [done|]. simpl. repeat case_match; done. Qed.

Lemma split_on_split sep a b : split_on sep (a ++ sep :: b) = split_on sep a ++ split_on sep b.
Proof.
  induction a as [|c a IH]; simpl; [by rewrite Z.eqb_refl|].
  destruct (c =? sep); [by rewrite IH|]. rewrite IH. pose proof (split_on_ne sep a). by destruct (split_on sep a).
Qed.

Lemma drop_while_nil {A} (p : A → bool) l : drop_while p l = [] → forallb p l = true.
Proof. induction l as [|x l IH]; [done|]. simpl. destruct (p x); [auto|done]. Qed.

Lemma trim_ne s c : c ∈ s → is_space c = false → trim s ≠ [].
Proof.
  intros Hc Hs H. unfold trim in H. apply (f_equal reverse) in H. rewrite reverse_involutive in H.
  apply drop_while_nil in H. rewrite forallb_reverse in H.
  assert (Hk : c ∈ drop_while is_space s).
  { clear H. induction s as [|x s IH]; [by apply not_elem_of_nil in Hc|]. simpl.
    apply elem_of_cons in Hc as [<-|Hc]; [rewrite Hs; set_solver|]. destruct (is_space x); [auto|set_solver]. }
  rewrite forallb_forall in H. apply list_elem_of_In, H in Hk. congruence.
Qed.

Lemma trim_ends c m d : is_space c = false → is_space d = false → trim (c :: m ++ [d]) = c :: m ++ [d].
Proof.
  intros Hc Hd. unfold trim. rewrite drop_while_stop by done.
  rewrite app_comm_cons, reverse_app. simpl. rewrite Hd.
  change (d :: reverse (c :: m)) with ([d] ++ reverse (c :: m)). by rewrite reverse_app, reverse_involutive.
Qed.

Lemma join_quoted_ends ns : ns ≠ [] → ∃ m, join [32] (quote_name <$> ns) = 34 :: m ++ [34].
Proof.
  induction ns as [|n ns IH]; [done|]. intros _. destruct ns as [|k ns]; [by exists n|].
  destruct IH as [m Hm]; [done|].
  change (join [32] (quote_name <$> n :: k :: ns)) with (quote_name n ++ [32] ++ join [32] (quote_name <$> k :: ns)).
  rewrite Hm. exists (n ++ [34; 32; 34] ++ m). unfold quote_name. by rewrite <- !app_comm_cons, <- !app_assoc.
Qed.

Lemma join_not_in c sep (l : list jstr) : c ∉ sep → Forall (λ s, c ∉ s) l → c ∉ join sep l.
Proof.
  intros Hs. induction 1 as [|x l Hx _ IH]; [simpl; apply not_elem_of_nil|]. destruct l; [done|].
  change (c ∉ x ++ sep ++ join sep (l :: l0)). rewrite !not_elem_of_app. done.
Qed.

Ltac not_in := apply (bool_decide_unpack _); vm_compute; exact I.

(** The parameters a header written by the signer is read with. *)
Lemma parse_params_snoc ps k v :
  61 ∉ k → trim k = k → parse_params (ps ++ [k ++ 61 :: v]) = <[k := strip_quotes (trim v)]> (parse_params ps).
Proof.
  intros Hk Ht. unfold parse_params. rewrite fold_left_app. cbn [fold_left]. by rewrite cut_at_app, Ht by done.
Qed.

Lemma plain_value v : forallb plain v = true → strip_quotes (trim v) = v.
Proof. intros H. rewrite plain_trim, strip_quotes_clean; [done| |done]. eapply plain_not_in; [done|]. not_in. Qed.

Definition params_of (kid : jstr) (cr ex : number) (nonce : jstr) : gmap jstr jstr :=
  <[js "nonce" := nonce]> (<[js "expires" := num_to_string ex]>
    (<[js "created" := num_to_string cr]> {[js "keyid" := kid]})).

Lemma params_of_lookup kid cr ex nonce :
  params_of kid cr ex nonce !! js "keyid" = Some kid ∧
  params_of kid cr ex nonce !! js "created" = Some (num_to_string cr) ∧
  params_of kid cr ex nonce !! js "expires" = Some (num_to_string ex) ∧
  params_of kid cr ex nonce !! js "nonce" = Some nonce.
Proof.
  unfold params_of. split_and!.
  - do 3 (rewrite lookup_insert_ne by (intros [=])). apply lookup_singleton_eq.
  - do 2 (rewrite lookup_insert_ne by (intros [=])). apply lookup_insert_eq.
  - rewrite lookup_insert_ne by (intros [=]). apply lookup_insert_eq.
  - apply lookup_insert_eq.
Qed.

Lemma split_sig_input names kid cr ex nonce :
  Forall (λ n, 59 ∉ n) names → 59 ∉ kid → forallb plain nonce = true →
  split_on 59 (sig_input (quote_name <$> names) kid cr ex nonce) =
  [join [32] (quote_name <$> names); js "keyid" ++ 61 :: quote_name kid; js "created" ++ 61 :: num_to_string cr;
   js "expires" ++ 61 :: num_to_string ex; js "nonce" ++ 61 :: nonce].
Proof.
  intros Hn Hk Hp. unfold sig_input.
  assert (H59 : ∀ a b, 59 ∉ a → 59 ∉ b → 59 ∉ a ++ 61 :: b).
  { intros a b Ha Hb. rewrite not_elem_of_app, not_elem_of_cons. split_and!; [done|lia|done]. }
  assert (Hnum : ∀ x, 59 ∉ num_to_string x).
  { intros x. eapply plain_not_in; [apply num_to_string_plain|]. not_in. }
  assert (Hnonce : 59 ∉ nonce) by (eapply plain_not_in; [done|not_in]).
  assert (Hkid : 59 ∉ quote_name kid).
  { unfold quote_name. rewrite not_elem_of_cons, not_elem_of_app. split_and!; [lia|done|not_in]. }
  assert (Hj : 59 ∉ join [32] (quote_name <$> names)).
  { apply join_not_in; [not_in|]. apply Forall_fmap. eapply Forall_impl; [exact Hn|]. intros n Hn'. simpl.
    unfold quote_name. rewrite not_elem_of_cons, not_elem_of_app. split_and!; [lia|done|not_in]. }
  replace (join _ _ ++ _) with
    (join [32] (quote_name <$> names) ++ 59 :: (js "keyid" ++ 61 :: quote_name kid) ++ 59 ::
      (js "created" ++ 61 :: num_to_string cr) ++ 59 :: (js "expires" ++ 61 :: num_to_string ex) ++ 59 ::
      (js "nonce" ++ 61 :: nonce)).
  { rewrite !split_on_app by (done || (apply H59; [not_in|done])). rewrite split_on_clean; [done|].
    apply H59; [not_in|done]. }
  unfold quote_name. repeat first [rewrite <- app_assoc | rewrite <- app_comm_cons]. reflexivity.
Qed.

Lemma params_sig_input kid cr ex nonce :
  forallb plain nonce = true →
  parse_params [js "keyid" ++ 61 :: quote_name kid; js "created" ++ 61 :: num_to_string cr;
    js "expires" ++ 61 :: num_to_string ex; js "nonce" ++ 61 :: nonce] = params_of kid cr ex nonce.
Proof.
  intros Hn.
  unfold parse_params. cbn [fold_left]. rewrite !cut_at_app by not_in.
  change (trim (js "keyid")) with (js "keyid"). change (trim (js "created")) with (js "created").
  change (trim (js "expires")) with (js "expires"). change (trim (js "nonce")) with (js "nonce").
  rewrite !plain_value by (done || apply num_to_string_plain).
  unfold quote_name. rewrite trim_ends by done. rewrite strip_quotes_quoted. done.
Qed.

Section Laws.
Context {KeyObject : Type} (E : cenv KeyObject).

(** *** Signing, then verifying *)

Definition covered_header (hdr : jstr → result jstr jstr) (c : jstr * jstr) : Prop :=
  (c.1 ≠ []) ∧ (34 ∉ c.1) ∧ (59 ∉ c.1) ∧ (c.1 ∉ derived) ∧ (hdr c.1 = Ok c.2).

Lemma collect_extra_derived hdr ds ns :
  Forall (λ n, n ∈ derived) ds → collect_extra (Some hdr) (ds ++ ns) = collect_extra (Some hdr) ns.
Proof. induction 1 as [|n ds Hn _ IH]; [done|]. simpl. by rewrite bool_decide_true. Qed.

Lemma collect_extra_all hdr l : Forall (covered_header hdr) l → collect_extra (Some hdr) l.*1 = Ok l.
Proof.
  induction 1 as [|[n v] l (_ & _ & _ & Hd & Hv) _ IH]; [done|]. simpl in Hd, Hv.
  rewrite fmap_cons. cbn [fst collect_extra]. rewrite bool_decide_false, Hv by done.
  unfold mbind, result_bind. by rewrite IH.
Qed.

Definition derived_names (b : option Body) : list jstr :=
  [js "@method"; js "@target-uri"; js "@created"; js "@expires"]
  ++ (if 0 <? body_length b then [js "content-digest"] else []).

Lemma component_names_split b extra : component_names b extra = derived_names b ++ (default [] extra).*1.
Proof. unfold component_names, derived_names. rewrite <- app_assoc. by destruct extra. Qed.

Lemma derived_names_ok b : Forall (λ n, n ∈ derived) (derived_names b) ∧
  Forall (λ n, (n ≠ [] ∧ 34 ∉ n) ∧ 59 ∉ n) (derived_names b).
Proof.
  unfold derived_names. case_match; split; simpl; repeat constructor; try not_in; done.
Qed.

Lemma body_or_null_length b : body_length (body_or_null b) = body_length b.
Proof. by destruct b as [[[|]|]|]. Qed.

Lemma signature_lines_body m u cr ex b extra :
  signature_lines E m u cr ex b (Some (default [] extra)) = signature_lines E m u cr ex (body_or_null b) extra.
Proof.
  unfold signature_lines. rewrite body_or_null_length.
  destruct b as [[[|]|]|], extra; reflexivity.
Qed.

(** The time checks pass inside the window. *)
Lemma time_reason_ok t cr ex :
  0 < cr < 2 ^ 52 → 0 < ex < 2 ^ 52 → cr - 30 ≤ t ≤ ex + 30 → ex - cr ≤ 300 →
  time_reason (num_of_Z t) (num_of_Z cr) (num_of_Z ex) = None.
Proof.
  intros Hc Hx Ht Hw. unfold time_reason, maxSkew.
  rewrite !num_sub_int, num_add_int, !num_ltb_int by (unfold safe_int; lia).
  rewrite (proj2 (Z.ltb_ge t _)), (proj2 (Z.ltb_ge _ t)), (proj2 (Z.ltb_ge 300 _)) by lia.
  by rewrite !andb_false_r.
Qed.

Lemma time_reason_None t cr ex :
  time_reason (num_of_Z t) (num_of_Z cr) (num_of_Z ex) = None →
  0 < cr < 2 ^ 52 → 0 < ex < 2 ^ 52 → cr - 30 ≤ t ≤ ex + 30 ∧ ex - cr ≤ 300.
Proof.
  intros H Hc Hx. unfold time_reason, maxSkew in H.
  rewrite !num_sub_int, num_add_int, !num_ltb_int, !truthy_num_int in H by (unfold safe_int; lia).
  rewrite (proj2 (Z.eqb_neq cr 0)), (proj2 (Z.eqb_neq ex 0)) in H by lia. cbn [negb andb] in H.
  destruct (Z.ltb_spec t (cr - 30)), (Z.ltb_spec (ex + 30) t), (Z.ltb_spec 300 (ex - cr)); (discriminate H || lia).
Qed.

(** What the signer and the verifier rely on in the runtime: signatures verify
    under the matching key, survive base64url, and [Number] reads back the two
    printed times. *)
Record runtime_ok (k pk : KeyObject) (cr ex : Z) : Prop := {
  ro_sign : ∀ m, c_verify E pk m (c_sign E k m) = Ok true;
  ro_b64 : ∀ m, c_from_base64url E (b64url (c_sign E k m)) = c_sign E k m;
  ro_cr : c_Number E (num_to_string (num_of_Z cr)) = num_of_Z cr;
  ro_ex : c_Number E (num_to_string (num_of_Z ex)) = num_of_Z ex
}.

Lemma signRequest_Ok req k label did extra r :
  signRequest E req (inr k) label did extra = Ok r →
  let b := body_or_null (body req) in
  let cr := num_or (created req) (num_of_Z (now_seconds E)) in
  let ex := num_or (expires req) (num_of_Z (now_seconds E + 300)) in
  let base := buildSignatureBase E (c_upper E (method_or_get (method req))) (url req) cr ex b extra in
  r = mkSigned base (sig_input (quote_name <$> component_names b extra) (keyid_of did label) cr ex
                       (remove_char 45 (c_uuid E))) (b64url (c_sign E k (utf8 base))).
Proof. unfold signRequest. simpl. by intros [= <-]. Qed.

(** The verifier on a header the signer wrote: the times first, then the signature. *)
Lemma verify_body_sig_input t names kid cr ex nonce sg m u gb lk gh :
  names ≠ [] → Forall (λ n, (n ≠ [] ∧ 34 ∉ n) ∧ 59 ∉ n) names → kid ≠ [] → 59 ∉ kid →
  forallb plain nonce = true → nonce ≠ [] →
  c_Number E (num_to_string cr) = cr → c_Number E (num_to_string ex) = ex →
  verify_body (at_time t E) (sig_input (quote_name <$> names) kid cr ex nonce) sg m u gb lk gh =
  match time_reason (num_of_Z (t / 1000)) cr ex with
  | Some reason => Ok (mkVerify false kid (Some reason))
  | None =>
      b ← gb; extra ← collect_extra gh names;
      pk ← lk kid;
      match pk with
      | None => Ok (mkVerify false kid (Some (js "unknown keyid: " ++ kid)))
      | Some k => ok ← c_verify E k (utf8 (buildSignatureBase E m u cr ex b (Some extra))) (c_from_base64url E sg);
                  Ok (mkVerify ok kid None)
      end
  end.
Proof.
  intros Hne Hn Hk0 Hk Hp Hp0 Hcr Hex. apply Forall_and in Hn as [Hn1 Hn2].
  unfold verify_body. rewrite split_sig_input by done.
  destruct (join_quoted_ends names Hne) as [mid Hj]. cbn [hd tl]. rewrite params_sig_input by done.
  rewrite bool_decide_false.
  2: { apply (trim_ne _ 34); [|done]. unfold sig_input. rewrite Hj. set_solver. }
  assert (Htr : trim (join [32] (quote_name <$> names)) = join [32] (quote_name <$> names)).
  { rewrite Hj. by apply trim_ends. }
  rewrite Htr, bool_decide_false by (rewrite Hj; done).
  unfold number_param. destruct (params_of_lookup kid cr ex nonce) as (-> & -> & -> & ->).
  destruct kid as [|c kid]; [done|].
  cbn [c_Number at_time]. rewrite Hcr, Hex. unfold now_seconds. cbn [c_now at_time].
  destruct (time_reason _ cr ex); [done|].
  cbn [default]. rewrite bool_decide_false by done.
  replace (quoted None (join [32] (quote_name <$> names))) with names; [done|].
  symmetry. by apply quoted_names.
Qed.

(** C18. A request the client signs is accepted by the verifier exactly in its window.
    Take a request signed under a key that the verifier finds under the request's key
    id, where the DID and the key label have no semicolon, the covered headers have
    plain names (not empty, no quote or semicolon, not one of the derived components)
    and values the verifier can read back, the two times are positive whole numbers
    below 2^52, the UUID is plain text, and signatures, base64url and [Number] round
    trip.  Verifying the two headers the signer produced against the request's own
    method, target and body, at time [t], reports it valid under that key id if [t]
    is within 30 seconds of the window and the window is at most 300 seconds, and
    otherwise invalid for a reason of time: [signRequest] signs a request with a
    longer window, and no verifier accepts it at any time. *)
Theorem signed_request_verifies req k pk label did extra hdr lk cr ex t r :
  runtime_ok k pk cr ex →
  signRequest E req (inr k) label did extra = Ok r →
  59 ∉ did → 59 ∉ label → Forall (covered_header hdr) (default [] extra) →
  forallb plain (remove_char 45 (c_uuid E)) = true → remove_char 45 (c_uuid E) ≠ [] →
  num_or (created req) (num_of_Z (now_seconds E)) = num_of_Z cr →
  num_or (expires req) (num_of_Z (now_seconds E + 300)) = num_of_Z ex →
  0 < cr < 2 ^ 52 → 0 < ex < 2 ^ 52 →
  lk (keyid_of did label) = Ok (Some pk) →
  let v := verifySignatureInput (at_time t E) (sigInput r) (signature r) (c_upper E (method_or_get (method req)))
             (url req) (Ok (body req)) lk (Some hdr) in
  if decide (cr - 30 ≤ t / 1000 ≤ ex + 30 ∧ ex - cr ≤ 300)
  then v = mkVerify true (keyid_of did label) None
  else ∃ reason, v = mkVerify false (keyid_of did label) (Some reason).
Proof.
  intros [Hsign Hb64 Hcr Hex] Hr Hdid Hlab Hx Hp Hp0 Ec Ee Hc0 Hx0 Hlk v. subst v.
  apply signRequest_Ok in Hr. cbv zeta in Hr. rewrite Ec, Ee in Hr. subst r. cbn [sigInput signature].
  destruct (derived_names_ok (body_or_null (body req))) as [Hd1 Hd2].
  unfold verifySignatureInput. rewrite verify_body_sig_input; cycle 1.
  { by rewrite component_names_split. }
  { rewrite component_names_split. apply Forall_app. split; [done|]. apply Forall_fmap.
    eapply Forall_impl; [exact Hx|]. by intros c (? & ? & ? & _). }
  { done. }
  { unfold keyid_of. rewrite !not_elem_of_app. split_and!; [not_in|done|not_in|done]. }
  1-4: done.
  destruct (decide _) as [[Ht Hw]|Hout].
  2:{ destruct (time_reason _ _ _) as [reason|] eqn:Et; [by exists reason|]. by apply time_reason_None in Et. }
  rewrite time_reason_ok by lia. unfold mbind, result_bind.
  rewrite component_names_split, collect_extra_derived, collect_extra_all, Hlk by done.
  unfold buildSignatureBase. rewrite (signature_lines_body _ _ _ _ (body req) extra). by rewrite Hb64, Hsign.
Qed.

(** *** Replay *)

End Laws.

Lemma split_nonce p n : forallb plain n = true →
  split_on 59 (p ++ js ";nonce=" ++ n) = split_on 59 p ++ [js "nonce" ++ 61 :: n].
Proof.
  intros Hn. change (js ";nonce=" ++ n) with (59 :: js "nonce" ++ 61 :: n). rewrite split_on_split. f_equal.
  apply split_on_clean. rewrite not_elem_of_app, not_elem_of_cons.
  split_and!; [not_in|lia|]. eapply plain_not_in; [done|not_in].
Qed.

Lemma verify_body_nonce {KeyObject} (E : cenv KeyObject) p n sg m u gb lk gh : forallb plain n = true → n ≠ [] →
  verify_body E (p ++ js ";nonce=" ++ n) sg m u gb lk gh = verify_body E (p ++ js ";nonce=" ++ js "0") sg m u gb lk gh.
Proof.
  intros Hn Hn0. unfold verify_body. rewrite !split_nonce by done.
  assert (Ht : ∀ n, bool_decide (trim (p ++ js ";nonce=" ++ n) = []) = false).
  { intros n1. apply bool_decide_eq_false, (trim_ne _ 59); [|done]. apply elem_of_app; right; apply elem_of_app; left; not_in. }
  rewrite !Ht.
  pose proof (split_on_ne 59 p). destruct (split_on 59 p) as [|c ps]; [done|]. cbn [app hd tl].
  destruct (bool_decide (trim c = [])); [done|].
  rewrite !parse_params_snoc, !plain_value by (done || not_in).
  unfold number_param. rewrite !(lookup_insert_ne _ (js "nonce") (js "keyid")),
    !(lookup_insert_ne _ (js "nonce") (js "created")), !(lookup_insert_ne _ (js "nonce") (js "expires")) by (intros [=]).
  rewrite !lookup_insert_eq. cbn [default]. rewrite !bool_decide_false by done. reflexivity.
Qed.

(** The verifier's answer does not depend on the nonce. For a request the
    client signed, anyone can replace the nonce of the signature-input header by
    another one and the verifier answers the same, for any request data: the nonce is
    not part of the signed text, so a cache of used nonces does not detect the
    replay. *)
Theorem nonce_not_covered {KeyObject} (E : cenv KeyObject) req kk label did extra r n' sg m u gb lk gh :
  signRequest E req kk label did extra = Ok r →
  forallb plain (remove_char 45 (c_uuid E)) = true → remove_char 45 (c_uuid E) ≠ [] →
  forallb plain n' = true → n' ≠ [] →
  ∃ prefix, sigInput r = prefix ++ js ";nonce=" ++ remove_char 45 (c_uuid E) ∧
    ∀ t, verifySignatureInput (at_time t E) (prefix ++ js ";nonce=" ++ n') sg m u gb lk gh =
         verifySignatureInput (at_time t E) (sigInput r) sg m u gb lk gh.
Proof.
  intros Hr Hp Hp0 Hn Hn0. unfold signRequest in Hr. apply bind_Ok in Hr as (k & _ & [= <-]). cbn [sigInput].
  unfold sig_input. rewrite !app_assoc. eexists. split; [rewrite <- app_assoc; reflexivity|].
  intros t. rewrite <- !(app_assoc _ (js ";nonce=")). unfold verifySignatureInput. by rewrite (verify_body_nonce _ _ n'), (verify_body_nonce _ _ (remove_char 45 (c_uuid E))).
Qed.

(** *** What an accepted signature covers *)

Lemma utf8_low s : Forall (λ c, c < 128) (utf8 s) → utf8 s = s.
Proof.
  enough (∀ n s, (length s < n)%nat → Forall (λ c, c < 128) (utf8 s) → utf8 s = s) by eauto.
  clear s. induction n as [|n IH]; intros s Hn; [lia|]. destruct s as [|c s]; [done|]. simpl in Hn.
  cbn [utf8]. destruct (is_high c) eqn:Eh.
  - unfold is_high in Eh. bool_to_prop. destruct s as [|d s]; [inversion 1; lia|]. destruct (is_low d) eqn:El.
    + unfold is_low in El. bool_to_prop. unfold utf8_pair. cbn [app]. inversion 1. zdiv.
    + inversion 1; lia.
  - destruct (is_low c); [inversion 1; lia|]. unfold utf8_unit. split_ifs; cbn [app]; inversion 1; subst; [|zdiv..].
    f_equal. apply IH; [lia|done].
Qed.

Lemma split_join l : l ≠ [] → Forall (λ s, 10 ∉ s) l → split_on 10 (join [10] l) = l.
Proof.
  intros Hne H. induction H as [|x l Hx _ IH]; [done|]. destruct l as [|y l]; [by apply split_on_clean|].
  change (join [10] (x :: y :: l)) with (x ++ 10 :: join [10] (y :: l)). rewrite split_on_app by done. by rewrite IH.
Qed.

Lemma line_inj n v n' v' : 34 ∉ n → 34 ∉ n' → line n v = line n' v' → n = n' ∧ v = v'.
Proof.
  intros Hn Hn' H. unfold line in H. injection H as H.
  change (n ++ [34] ++ js ": " ++ v) with (n ++ 34 :: js ": " ++ v) in H.
  change (n' ++ [34] ++ js ": " ++ v') with (n' ++ 34 :: js ": " ++ v') in H.
  apply (f_equal (cut_at 34)) in H. rewrite !cut_at_app in H by done. by injection H as <- <-.
Qed.

Lemma cons_inv {A} (x y : A) l l' : x :: l = y :: l' → x = y ∧ l = l'.
Proof. by intros [= -> ->]. Qed.

Lemma line_clean n v : 10 ∉ n → 10 ∉ v → 10 ∉ line n v.
Proof. intros Hn Hv. unfold line. rewrite !not_elem_of_app. split_and!; [not_in|done|not_in..|done]. Qed.

Lemma num_newline n : 10 ∉ num_to_string n.
Proof.
  intros H. pose proof (num_to_string_plain n) as Hp. rewrite forallb_forall in Hp.
  by apply list_elem_of_In, Hp in H.
Qed.

Section Binding.
Context {KeyObject : Type} (E : cenv KeyObject).

(** The data of one signature base. *)
Record SignedData := mkData {
  sd_method : jstr; sd_uri : jstr; sd_created : number; sd_expires : number; sd_body : option Body;
  sd_extra : list (jstr * jstr)
}.

Definition base_of (d : SignedData) : jstr :=
  buildSignatureBase E (sd_method d) (sd_uri d) (sd_created d) (sd_expires d) (sd_body d) (Some (sd_extra d)).

(** No line breaks in what is signed, no quotes in header names, and the
    digest line is not one of the extra ones. *)
Record one_line (d : SignedData) : Prop := {
  ol_method : 10 ∉ c_upper E (sd_method d);
  ol_uri : 10 ∉ sd_uri d;
  ol_digest : 10 ∉ computeContentDigest E (sd_body d);
  ol_extra : Forall (λ c, (10 ∉ c.1) ∧ (10 ∉ c.2) ∧ (34 ∉ c.1) ∧ (c.1 ∉ derived)) (sd_extra d)
}.

Lemma lines_clean d : one_line d →
  Forall (λ s, 10 ∉ s) (signature_lines E (sd_method d) (sd_uri d) (sd_created d) (sd_expires d) (sd_body d) (Some (sd_extra d))).
Proof.
  intros [Hm Hu Hd Hx]. unfold signature_lines. cbn [app].
  repeat apply Forall_cons_2; try (apply line_clean; [not_in|]; (done || apply num_newline)).
  apply Forall_app. split.
  - case_match; [|done]. repeat constructor. apply line_clean; [not_in|done].
  - apply Forall_fmap. eapply Forall_impl; [exact Hx|]. intros c (? & ? & _). by apply line_clean.
Qed.

Lemma extra_lines_inj (l l' : list (jstr * jstr)) :
  Forall (λ c, 34 ∉ c.1) l → Forall (λ c, 34 ∉ c.1) l' →
  (λ c, line c.1 c.2) <$> l = (λ c, line c.1 c.2) <$> l' → l = l'.
Proof.
  intros H. revert l'. induction H as [|[n v] l Hn _ IH]; intros [|[n' v'] l'] H' He; try done.
  apply Forall_cons in H' as [Hn' H']. apply cons_inv in He as [He1 He2]. cbn [fst snd] in *. apply line_inj in He1 as [-> ->]; [|done..].
  f_equal. by apply IH.
Qed.

(** Two requests with the same signature base agree on what it covers. *)
Record same_coverage (d d' : SignedData) : Prop := {
  sc_method : c_upper E (sd_method d) = c_upper E (sd_method d');
  sc_uri : sd_uri d = sd_uri d';
  sc_created : num_to_string (sd_created d) = num_to_string (sd_created d');
  sc_expires : num_to_string (sd_expires d) = num_to_string (sd_expires d');
  sc_has_body : (0 <? body_length (sd_body d)) = (0 <? body_length (sd_body d'));
  sc_digest : 0 < body_length (sd_body d) → computeContentDigest E (sd_body d) = computeContentDigest E (sd_body d');
  sc_extra : sd_extra d = sd_extra d'
}.

Lemma digest_line_not_extra v (l : list (jstr * jstr)) rest :
  Forall (λ c, (10 ∉ c.1) ∧ (10 ∉ c.2) ∧ (34 ∉ c.1) ∧ (c.1 ∉ derived)) l →
  line (js "content-digest") v :: rest ≠ (λ c, line c.1 c.2) <$> l.
Proof.
  intros Hx He. destruct l as [|[n w] l]; [done|]. apply Forall_cons in Hx as [(_ & _ & Hq & Hd) _].
  apply cons_inv in He as [He _]. cbn [fst snd] in *. apply (line_inj (js "content-digest")) in He as [<- _]; [|not_in|done].
  apply Hd. not_in.
Qed.

Lemma base_binds d d' : one_line d → one_line d' → base_of d = base_of d' → same_coverage d d'.
Proof.
  intros H H' He. unfold base_of, buildSignatureBase in He. apply app_inj_tail in He as [He _].
  apply (f_equal (split_on 10)) in He. rewrite !split_join in He by (done || by apply lines_clean).
  destruct H as [_ _ _ Hx], H' as [_ _ _ Hx']. unfold signature_lines in He. cbn [app] in He.
  apply cons_inv in He as [[_ H1]%line_inj He]; [|not_in..]. apply cons_inv in He as [[_ H2]%line_inj He]; [|not_in..].
  apply cons_inv in He as [[_ H3]%line_inj He]; [|not_in..]. apply cons_inv in He as [[_ H4]%line_inj He]; [|not_in..].
  assert (Hq : ∀ l : list (jstr * jstr), Forall (λ c, (10 ∉ c.1) ∧ (10 ∉ c.2) ∧ (34 ∉ c.1) ∧ (c.1 ∉ derived)) l →
     Forall (λ c, 34 ∉ c.1) l).
  { intros l Hl. eapply Forall_impl; [exact Hl|]. by intros ? (? & ? & ? & ?). }
  destruct (0 <? body_length (sd_body d)) eqn:Eb, (0 <? body_length (sd_body d')) eqn:Eb'; cbn [app] in He.
  - apply cons_inv in He as [[_ H5]%line_inj He]; [|not_in..]. apply extra_lines_inj in He; [|by apply Hq..].
    split; try done. congruence.
  - destruct (digest_line_not_extra _ _ _ Hx' He).
  - destruct (digest_line_not_extra _ _ _ Hx (eq_sym He)).
  - apply extra_lines_inj in He; [|by apply Hq..]. split; try done; [congruence|]. intros Hb. bool_to_prop. lia.
Qed.

Lemma collect_extra_Ok gh names extra :
  collect_extra gh names = Ok extra →
  Forall (λ c, (c.1 ∈ names) ∧ (c.1 ∉ derived) ∧ ∃ g, gh = Some g ∧ g c.1 = Ok c.2) extra.
Proof.
  revert extra. induction names as [|n names IH]; intros extra H; [by injection H as <-|]. cbn [collect_extra] in H.
  assert (Hw : ∀ l, collect_extra gh names = Ok l →
     Forall (λ c, (c.1 ∈ n :: names) ∧ (c.1 ∉ derived) ∧ ∃ g, gh = Some g ∧ g c.1 = Ok c.2) l).
  { intros l Hl. eapply Forall_impl; [by apply IH|]. intros c (? & ? & ?). by rewrite elem_of_cons; auto. }
  destruct gh as [g|]; [|by apply Hw]. case_bool_decide; [by apply Hw|].
  apply bind_Ok in H as (v & Hv & H). apply bind_Ok in H as (rest & Hr & [= <-]).
  apply Forall_cons. split; [|by apply Hw]. split_and!; [by apply elem_of_cons; left|done|by exists g].
Qed.

Lemma elem_of_split_on sep s part x : part ∈ split_on sep s → x ∈ part → x ∈ s.
Proof.
  revert part. induction s as [|c s IH]; intros part Hp Hx; cbn [split_on] in Hp.
  { apply list_elem_of_singleton in Hp as ->. by apply not_elem_of_nil in Hx. }
  apply elem_of_cons. destruct (c =? sep).
  { apply elem_of_cons in Hp as [->|Hp]; [by apply not_elem_of_nil in Hx|]. right. by eapply IH. }
  destruct (split_on sep s) as [|q qs] eqn:Eq; [by apply split_on_ne in Eq|].
  apply elem_of_cons in Hp as [->|Hp].
  - apply elem_of_cons in Hx as [->|Hx]; [by left|]. right. eapply IH; [|exact Hx]. by left.
  - right. eapply IH; [|exact Hx]. by right.
Qed.

Lemma elem_of_drop_while {A} (p : A → bool) l x : x ∈ drop_while p l → x ∈ l.
Proof. induction l as [|y l IH]; [done|]. simpl. destruct (p y); [|done]. rewrite elem_of_cons. auto. Qed.

Lemma elem_of_trim s x : x ∈ trim s → x ∈ s.
Proof.
  unfold trim. rewrite elem_of_reverse. intros H%elem_of_drop_while. rewrite elem_of_reverse in H.
  by apply elem_of_drop_while in H.
Qed.

Lemma quoted_chars inside s n :
  match inside with Some acc => 34 ∉ acc | None => True end →
  n ∈ quoted inside s → 34 ∉ n ∧ ∀ x, x ∈ n → x ∈ default [] inside ∨ x ∈ s.
Proof.
  revert inside. induction s as [|c s IH]; intros inside Hi Hn; [by apply not_elem_of_nil in Hn|].
  cbn [quoted] in Hn. destruct inside as [acc|]; cbn [default].
  - destruct (Z.eqb_spec c 34) as [->|Hc].
    + destruct acc as [|a acc].
      * destruct (IH (Some []) Hi Hn) as [? Hx]. split; [done|]. intros x [?|?]%Hx; [by left|]. right. by apply elem_of_cons; right.
      * apply elem_of_cons in Hn as [->|Hn]; [by split; [|left]|].
        destruct (IH None I Hn) as [? Hx]. split; [done|]. intros x [?%not_elem_of_nil|?]%Hx; [done|]. right. by apply elem_of_cons; right.
    + destruct (IH (Some (acc ++ [c]))) as [? Hx]; [|done|].
      { rewrite not_elem_of_app, list_elem_of_singleton. split; [done|congruence]. }
      split; [done|]. cbn [default] in Hx. intros x [H'|?]%Hx; [|right; by apply elem_of_cons; right].
      apply elem_of_app in H' as [?| ->%list_elem_of_singleton]; [by left|right]. by apply elem_of_cons; left.
  - destruct (c =? 34).
    + destruct (IH (Some [])) as [? Hx]; [by apply not_elem_of_nil|done|]. split; [done|].
      intros x [?|?]%Hx; [by left|right]. by apply elem_of_cons; right.
    + destruct (IH None I Hn) as [? Hx]. split; [done|]. intros x [?|?]%Hx; [by left|right]. by apply elem_of_cons; right.
Qed.

(** The number a parameter stands for: absent ones are [NaN]. *)
Definition param_value (n : number) : Prop := n = NaN ∨ ∃ s, n = c_Number E s.

Lemma verify_valid h sg m u gb lk gh kid rs :
  verifySignatureInput E h sg m u gb lk gh = mkVerify true kid rs →
  ∃ pk cr ex b extra, lk kid = Ok (Some pk) ∧ gb = Ok b ∧ param_value cr ∧ param_value ex ∧
    time_reason (num_of_Z (now_seconds E)) cr ex = None ∧
    collect_extra gh (quoted None (trim (hd [] (split_on 59 h)))) = Ok extra ∧
    c_verify E pk (utf8 (buildSignatureBase E m u cr ex b (Some extra))) (c_from_base64url E sg) = Ok true.
Proof.
  unfold verifySignatureInput. destruct (verify_body _ _ _ _ _ _ _ _) as [r|] eqn:Ev; [|done]. intros ->.
  unfold verify_body in Ev. case_bool_decide; [done|]. case_bool_decide; [done|].
  destruct (parse_params _ !! js "keyid") as [[|c k]|]; [done| |done].
  destruct (time_reason _ _ _) eqn:Et; [done|]. case_bool_decide; [done|].
  apply bind_Ok in Ev as (b & -> & Ev). apply bind_Ok in Ev as (extra & Hx & Ev).
  apply bind_Ok in Ev as ([pk|] & Hk & Ev); [|done].
  apply bind_Ok in Ev as (ok & Hv & Ev). injection Ev as -> <- <-.
  exists pk. do 4 eexists. split_and!; [done|done| | |exact Et|exact Hx|exact Hv];
    unfold param_value, number_param; case_match; eauto.
Qed.

(** The verifier's time checks, in whole seconds. *)
(** C17. Whatever the verifier accepts was signed. Suppose the key found under a
    key id only verifies signature bases of a known set of requests (Ed25519 is not
    forged), which are ASCII and one component per line, and the verified request
    has no line breaks either. Then an accepted request has the method, target,
    covered headers and body digest of one of them, and the verifier's clock is
    within 30 seconds of that request's validity window, of at most 300 seconds. *)
Theorem accepted_request_was_signed (signed : list SignedData) h sg m u b g lk kid pk rs :
  lk kid = Ok (Some pk) →
  (∀ msg s, c_verify E pk msg s = Ok true → ∃ d, d ∈ signed ∧ msg = utf8 (base_of d)) →
  Forall (λ d, one_line d ∧ Forall (λ c, c < 128) (utf8 (base_of d))) signed →
  (∀ n, param_value n → c_Number E (num_to_string n) = n) →
  Forall (λ d, param_value (sd_created d) ∧ param_value (sd_expires d)) signed →
  10 ∉ h → 10 ∉ c_upper E m → 10 ∉ u → 10 ∉ computeContentDigest E b → (∀ n v, g n = Ok v → 10 ∉ v) →
  verifySignatureInput E h sg m u (Ok b) lk (Some g) = mkVerify true kid rs →
  ∃ d, d ∈ signed ∧ c_upper E (sd_method d) = c_upper E m ∧ sd_uri d = u ∧
    (0 <? body_length (sd_body d)) = (0 <? body_length b) ∧
    (0 < body_length b → computeContentDigest E (sd_body d) = computeContentDigest E b) ∧
    Forall (λ c, g c.1 = Ok c.2) (sd_extra d) ∧
    ∀ cr ex, sd_created d = num_of_Z cr → sd_expires d = num_of_Z ex → 0 < cr < 2 ^ 52 → 0 < ex < 2 ^ 52 →
      cr - 30 ≤ now_seconds E ≤ ex + 30 ∧ ex - cr ≤ 300.
Proof.
  intros Hk Hsig Hs Hnum Hpv Hh Hm Hu Hd Hg Hv.
  destruct (verify_valid _ _ _ _ _ _ _ _ _ Hv) as (pk' & cr & ex & b' & extra & Hk' & [= <-] & Hcr & Hex & Ht & Hx & Hok).
  rewrite Hk in Hk'. injection Hk' as <-. destruct (Hsig _ _ Hok) as (d & Hin & He).
  rewrite Forall_forall in Hs, Hpv. destruct (Hs d Hin) as [Hol Hasc], (Hpv d Hin) as [Hpc Hpe].
  rewrite (utf8_low (base_of d)) in He by done. rewrite (utf8_low (base_of d)) in Hasc by done.
  rewrite <- He in Hasc. rewrite (utf8_low _ Hasc) in He.
  apply collect_extra_Ok in Hx.
  pose (d' := mkData m u cr ex b extra). assert (Hol' : one_line d').
  { split; [done..|]. eapply Forall_impl; [exact Hx|]. intros [n v] (Hn & Hnd & g' & [= <-] & Hgv). cbn [fst snd] in *.
    apply quoted_chars in Hn as [Hq Hc]; [|done]. split_and!; [|by eapply Hg|done|done].
    intros [?%not_elem_of_nil|Hn%elem_of_trim]%Hc; [done|]. apply Hh, (elem_of_split_on 59 _ _ _) with (2 := Hn).
    pose proof (split_on_ne 59 h). destruct (split_on 59 h); [done|]. apply elem_of_cons. by left. }
  destruct (base_binds d' d Hol' Hol He) as [S1 S2 S3 S4 S5 S6 S7]. cbn in S1, S2, S3, S4, S5, S6, S7.
  assert (cr = sd_created d) as -> by (rewrite <- (Hnum cr), S3 by done; by apply Hnum).
  assert (ex = sd_expires d) as -> by (rewrite <- (Hnum ex), S4 by done; by apply Hnum).
  exists d. split_and!; [done..| | |].
  - intros Hb. symmetry. by apply S6.
  - rewrite <- S7. eapply Forall_impl; [exact Hx|]. by intros c (_ & _ & g' & [= <-] & ?).
  - intros c0 x0 Ec Ee Hc0 Hx0. apply time_reason_None; [by rewrite <- Ec, <- Ee|done..].
Qed.

End Binding.
(** *** Witnesses *)

(** A runtime in which a signature is the message itself and [Number] knows two
    times. *)
Definition toy_number (s : jstr) : number :=
  if decide (s = js "100") then num_of_Z 100 else if decide (s = js "400") then num_of_Z 400 else NaN.

Definition toy_env (verify : Z → list Z → list Z → result jstr bool) : cenv Z :=
  mkCenv Z 100000 (js "0a-1b") (λ d x, Ok 7) (λ k m, (λ c, c mod 256) <$> m) verify (λ m, take 2 m) unb64url
    toy_number (fmap (λ c, if (97 <=? c) && (c <=? 122) then c - 32 else c)) (λ _, None) id (λ _, Throw [])
    (λ _, Throw []).

Definition toy_runtime : cenv Z := toy_env (λ k m s, Ok (bool_decide (s = (λ c, c mod 256) <$> m))).

Definition toy_request : RequestLike :=
  mkRequest (js "https://example.com/x") (Some (js "post")) None (Some (Text (js "hi"))) None None.

Definition toy_hdr (n : jstr) : result jstr jstr := Ok (js "value").
Definition toy_keys (n : jstr) : result jstr (option Z) := Ok (Some 7).
Definition toy_extra : option (list (jstr * jstr)) := Some [(js "idempotency-key", js "value")].

Lemma toy_runtime_ok : runtime_ok toy_runtime 7 7 100 400.
Proof.
  split; [| |vm_compute; reflexivity..].
  - intros m. cbn. f_equal. by apply bool_decide_true.
  - intros m. apply unb64url_b64url. apply Forall_fmap, Forall_true. intros c. apply Z.mod_pos_bound. lia.
Qed.

Lemma signed_request_verifies_witness :
  ∃ r, signRequest toy_runtime toy_request (inr 7) (js "k") (js "did:x") toy_extra = Ok r ∧
    verifySignatureInput (at_time 420000 toy_runtime) (sigInput r) (signature r) (js "POST") (js "https://example.com/x")
      (Ok (Some (Text (js "hi")))) toy_keys (Some toy_hdr) = mkVerify true (js "vrl:agent:did:x|k") None ∧
    ∃ reason, verifySignatureInput (at_time 431000 toy_runtime) (sigInput r) (signature r) (js "POST") (js "https://example.com/x")
      (Ok (Some (Text (js "hi")))) toy_keys (Some toy_hdr) = mkVerify false (js "vrl:agent:did:x|k") (Some reason).
Proof.
  assert (H := λ t, signed_request_verifies toy_runtime toy_request 7 7 (js "k") (js "did:x") toy_extra toy_hdr toy_keys 100 400 t _
    toy_runtime_ok eq_refl ltac:(not_in) ltac:(not_in)
    ltac:(repeat constructor; not_in || discriminate) eq_refl ltac:(vm_compute; discriminate) eq_refl eq_refl
    ltac:(lia) ltac:(lia) eq_refl).
  eexists. split; [reflexivity|]. split.
  - specialize (H 420000). cbv zeta in H. rewrite decide_True in H; [exact H|]. vm_compute. repeat split; discriminate.
  - specialize (H 431000). cbv zeta in H. rewrite decide_False in H; [exact H|]. vm_compute. intros [[_ H1] _]. by apply H1.
Defined.

Lemma nonce_not_covered_witness :
  ∃ prefix, js "0a1b" ≠ js "ff" ∧
    verifySignatureInput (at_time 120000 toy_runtime) (prefix ++ js ";nonce=" ++ js "ff")
      (b64url (c_sign toy_runtime 7 (utf8 (buildSignatureBase toy_runtime (js "POST") (js "https://example.com/x")
                 (num_of_Z 100) (num_of_Z 400) (Some (Text (js "hi"))) None))))
      (js "POST") (js "https://example.com/x") (Ok (Some (Text (js "hi")))) toy_keys None
    = mkVerify true (js "vrl:agent:did:x|k") None.
Proof.
  destruct (nonce_not_covered toy_runtime toy_request (inr 7) (js "k") (js "did:x") None _ (js "ff")
    (b64url (c_sign toy_runtime 7 (utf8 (buildSignatureBase toy_runtime (js "POST") (js "https://example.com/x")
                 (num_of_Z 100) (num_of_Z 400) (Some (Text (js "hi"))) None))))
    (js "POST") (js "https://example.com/x") (Ok (Some (Text (js "hi")))) toy_keys None
    eq_refl eq_refl ltac:(discriminate) eq_refl ltac:(discriminate)) as (prefix & _ & H).
  exists prefix. split; [discriminate|]. rewrite H. vm_compute. reflexivity.
Defined.

Definition toy_data : SignedData :=
  mkData (js "POST") (js "https://example.com/x") (num_of_Z 100) (num_of_Z 400) (Some (Text (js "hi")))
    [(js "idempotency-key", js "value")].

(** The same runtime with a key that has signed one request. *)
Definition toy_signed : cenv Z :=
  toy_env (λ k m s, Ok (bool_decide (m = utf8 (base_of toy_runtime toy_data)))).

Lemma Ok_true_decide {X} (P : Prop) `{Decision P} : Ok (E := X) (bool_decide P) = Ok true → P.
Proof. intros [= H']. by apply bool_decide_eq_true in H'. Qed.

Lemma toy_signed_only msg s : c_verify toy_signed 7 msg s = Ok true → msg = utf8 (base_of toy_runtime toy_data).
Proof. cbn [c_verify toy_signed toy_env]. apply Ok_true_decide. Qed.

Lemma toy_number_value n : param_value toy_signed n → toy_number (num_to_string n) = n.
Proof.
  intros [->|[s ->]]; [vm_compute; reflexivity|]. cbn [c_Number toy_signed toy_env]. unfold toy_number at 2 3.
  repeat case_decide; vm_compute; reflexivity.
Qed.

Definition toy_header : jstr :=
  sig_input (quote_name <$> component_names (sd_body toy_data) (Some (sd_extra toy_data))) (js "kid")
    (num_of_Z 100) (num_of_Z 400) (js "ab").

Lemma toy_one_line : one_line toy_signed toy_data.
Proof. split; [not_in..|]. apply Forall_singleton. split_and!; not_in. Qed.

Lemma accepted_request_was_signed_witness :
  ∃ d, d ∈ [toy_data] ∧ sd_uri d = js "https://example.com/x" ∧ 100 - 30 ≤ now_seconds toy_signed ≤ 400 + 30.
Proof.
  destruct (accepted_request_was_signed toy_signed [toy_data] toy_header (js "AA") (js "post") (js "https://example.com/x")
    (Some (Text (js "hi"))) toy_hdr toy_keys (js "kid") 7 None) as (d & Hin & _ & Hu & _ & _ & _ & Ht).
  - reflexivity.
  - intros msg s H. exists toy_data. split; [by left|]. exact (toy_signed_only _ _ H).
  - apply Forall_singleton. split; [exact toy_one_line|not_in].
  - exact toy_number_value.
  - apply Forall_singleton. split; right; [exists (js "100")|exists (js "400")]; reflexivity.
  - not_in.
  - not_in.
  - not_in.
  - not_in.
  - intros n v [= <-]. not_in.
  - vm_compute. reflexivity.
  - exists d. split; [done|]. split; [done|]. apply list_elem_of_singleton in Hin as ->.
    apply (Ht 100 400); (reflexivity || lia).
Defined.

End ClientInv.
