(* ===== verification/ClientTokens.v ===== *)
(** * Tokens of the Node client at the control plane

    The composition of [src/client/node/index.ts] ([submitAttestation],
    [signJWT]) with the control plane's verification and ingest
    ([grpc/trustEngineClient.ts], [domains/attestation/attestationService.ts]). The
    two programs meet in the token only: the record [wire] states what the
    runtime's encoders and decoders make of its three segments. *)

From stdpp Require Import base gmap strings list.
From Stdlib Require Import ZArith Lia.
From S2P Require Import Prelude Json Errors Db Principals SchemaValidator Attestations JsText Client.

Module ClientTokens.
Import Coerce Verifier AttestationRepo AttestationService SchemaValidator LegacyConfig ApiClient.

(** *** The three segments of a token *)

Lemma split_dot_app cur a b : 46 ∉ a → split_dot cur (a ++ 46 :: b) = (cur ++ a) :: split_dot [] b.
Proof.
  revert cur. induction a as [|c a IH]; intros cur Ha; simpl; [by rewrite app_nil_r|].
  apply not_elem_of_cons in Ha as [Hc Ha]. rewrite (proj2 (Z.eqb_neq c 46)) by congruence.
  rewrite IH by done. by rewrite <- app_assoc.
Qed.

Lemma split_dot_clean cur a : 46 ∉ a → split_dot cur a = [cur ++ a].
Proof.
  revert cur. induction a as [|c a IH]; intros cur Ha; simpl; [by rewrite app_nil_r|].
  apply not_elem_of_cons in Ha as [Hc Ha]. rewrite (proj2 (Z.eqb_neq c 46)) by congruence.
  rewrite IH by done. by rewrite <- app_assoc.
Qed.

Definition unit16 (c : Z) : Prop := 0 ≤ c < 65536.

Lemma utf8_bytes s : Forall unit16 s → Forall byte (utf8 s).
Proof.
  enough (∀ n s, (length s < n)%nat → Forall unit16 s → Forall byte (utf8 s)) by eauto.
  clear s. induction n as [|n IH]; intros s Hn Hs; [lia|]. destruct s as [|c s]; [constructor|]. simpl in Hn.
  apply Forall_cons in Hs as [Hc Hs]. unfold unit16 in Hc. cbn [utf8].
  assert (Hr : Forall byte replacement) by (repeat constructor; unfold byte; lia).
  destruct (is_high c) eqn:Eh.
  - unfold is_high in Eh. bool_to_prop. destruct s as [|d s]; [done|]. destruct (is_low d) eqn:El.
    + unfold is_low in El. bool_to_prop. apply Forall_cons in Hs as [Hd Hs].
      apply Forall_app. split; [|apply IH; [simpl in Hn; lia|done]].
      unfold utf8_pair. repeat constructor; unfold byte; zdiv.
    + apply Forall_app. split; [done|]. by apply IH; [lia|].
  - apply Forall_app. split; [|by apply IH; [lia|]]. destruct (is_low c); [done|].
    unfold utf8_unit. split_ifs; repeat constructor; unfold byte; zdiv.
Qed.

Section Wire.
Context {KeyObject : Type} (E : cenv KeyObject) (e : env).

Definition signing_input (payload : json) : jstr :=
  b64url (utf8 (stringify jwt_header)) ++ [46] ++ b64url (utf8 (stringify payload)).

(** What is between the client and the server: the segments decode to what
    they encode, strings are UTF-16 and the signature verifies under [raw]. *)
Record wire (k : KeyObject) (raw : list Z) (payload : json) : Prop := {
  w_header : e_decode e (b64url (utf8 (stringify jwt_header))) = Some jwt_header;
  w_payload : e_decode e (b64url (utf8 (stringify payload))) = Some payload;
  w_units : Forall unit16 (stringify payload);
  w_bytes : ∀ m, Forall byte (c_sign E k m);
  w_sig : ∀ m, e_decode_bytes e (b64url (c_sign E k m)) = c_sign E k m;
  w_raw : length raw = 32%nat;
  w_verify : ∀ m, e_verify e raw m (c_sign E k (utf8 m)) = true
}.

Lemma token_segments k raw payload : wire k raw payload →
  split_dot [] (signJWT E payload k) =
  [b64url (utf8 (stringify jwt_header)); b64url (utf8 (stringify payload));
   b64url (c_sign E k (utf8 (signing_input payload)))].
Proof.
  intros [_ _ Hu Hb _ _ _].
  assert (Hclean : ∀ bs, Forall byte bs → 46 ∉ b64url bs) by (intros bs Hbs; apply b64url_clean; [done|set_solver]).
  assert (Hh : Forall unit16 (stringify jwt_header)) by (apply (bool_decide_unpack _); vm_compute; exact I).
  change (signJWT E payload k) with (b64url (utf8 (stringify jwt_header)) ++ 46 :: b64url (utf8 (stringify payload)) ++
    46 :: b64url (c_sign E k (utf8 (signing_input payload)))).
  rewrite split_dot_app by by apply Hclean, utf8_bytes. rewrite split_dot_app by by apply Hclean, utf8_bytes.
  by rewrite split_dot_clean by apply Hclean, Hb.
Qed.

(** The payload the server reads. *)
Definition client_vp (fs : list (jstr * json)) (type : jstr) (delta : number) : VerifyPayload :=
  mkVP type (JObj fs) delta true (num_of_Z (c_now E / 1000)) (num_of_Z (c_now E / 1000 + 31536000))
    [] [] (js "participants") false [].

Lemma toPayload_client this subject fs type delta :
  isNaN delta = false →
  toPayload e (attestation_payload E this subject (JObj fs) type delta) = Ok (client_vp fs type delta).
Proof. intros Hd. destruct delta; [discriminate Hd|reflexivity..]. Qed.

(** The control plane's verifier accepts a token of the client. With a key of
    the issuer among the candidates, a token built from a non-empty issuer and
    subject, an object of facts and a trust delta that is a number is reported
    valid, until a year after it was issued, with exactly the client's issuer,
    subject, type, facts, delta and times, no schema version, and the default
    visibility. *)
Theorem client_token_verified this subject fs type delta keyId raw :
  wire (_privKey this) raw (attestation_payload E this subject (JObj fs) type delta) →
  _issuer this ≠ [] → subject ≠ [] → isNaN delta = false →
  0 ≤ c_now E → e_now e / 1000 < c_now E / 1000 + 31536000 →
  verifyAttestation e (signJWT E (attestation_payload E this subject (JObj fs) type delta) (_privKey this))
    [mkCandidate keyId raw] =
  Ok (Valid keyId (_issuer this) subject (client_vp fs type delta)).
Proof.
  intros Hw Hi Hs Hd Hnow Hexp. pose proof (token_segments _ _ _ Hw) as Hseg.
  destruct Hw as [Hh Hp Hu Hb Hsig Hraw Hver]. unfold verifyAttestation.
  rewrite bool_decide_false by (intros H0; rewrite H0 in Hseg; discriminate Hseg).
  cbn [length]. rewrite bool_decide_false by done.
  rewrite Hseg, Hh, Hp. cbn [is_nullish jwt_header attestation_payload].
  change (String_ (nullish (get _ "iss") (JStr []))) with (_issuer this).
  change (String_ (nullish (get _ "sub") (JStr []))) with subject.
  rewrite (bool_decide_true (String_ _ = js "EdDSA")) by reflexivity. cbn [negb andb].
  rewrite (bool_decide_false (_issuer this = [])), (bool_decide_false (subject = [])) by done.
  cbn [try_keys kc_publicKeyRaw].
  rewrite bool_decide_true, Hsig by done.
  change (b64url (utf8 (stringify jwt_header)) ++ [46] ++ _) with
    (signing_input (attestation_payload E this subject (JObj fs) type delta)). rewrite Hver. cbn [negb orb].
  rewrite toPayload_client by done. unfold mbind, result_bind. cbn [vp_expiresAtUnix client_vp].
  rewrite !num_ltb_int. rewrite (proj2 (Z.ltb_lt (e_now e / 1000) _)) by done. by rewrite andb_false_r.
Qed.

(** *** Submission *)

(** What a successful submission decoded and checked. *)
Lemma submit_checked tok d row b d' :
  Attestations.AttestationService.submitAttestation e tok d = (Ok (row, b), d') →
  ∃ h p sg payload kid keyId vp version legacy fh subj d1 d2,
    split_dot [] tok = [h; p; sg] ∧ e_decode e p = Some payload ∧ toPayload e payload = Ok vp ∧
    check_payload e kid (String_ (nullish (get payload "iss") (JStr []))) vp = Ok (version, legacy, fh) ∧
    createAttestation (e_now e) (e_row_id e)
      (new_row e tok version fh keyId (String_ (nullish (get payload "iss") (JStr []))) subj vp) d1 = (Ok row, d2).
Proof.
  intros H. unfold Attestations.AttestationService.submitAttestation in H.
  apply M_bind_Ok in H as ([[[header payload] kid] iat] & d0 & Hpre & H). injection Hpre as _ <-.
  apply M_bind_Ok in H as (issuer & d1 & Hp & H). injection Hp as <- <-.
  destruct (principals d !! _); [|done]. apply M_bind_Ok in H as ([] & d1 & [= <-] & H).
  apply M_bind_Ok in H as (rec & d1 & Hi & H). injection Hi as <- <-.
  destruct (issuers d !! _); [|done]. apply M_bind_Ok in H as ([] & d1 & [= <-] & H).
  apply M_bind_Ok in H as (ks & d1 & Hks & H). destruct ks as [|k0 ks]; [done|].
  apply M_bind_Ok in H as ([] & d2 & [= <-] & H).
  apply M_bind_Ok in H as ([kid' vi vs vp|] & d2 & Hv & H); [|done]. injection Hv as Hv <-.
  apply verifyAttestation_Valid in Hv as (h & p1 & sg & header' & payload' & Hsplit & _ & Hdec & Hvp & -> & _).
  apply M_bind_Ok in H as ([[version legacy] fh] & d2 & Hchk & H). injection Hchk as Hchk <-.
  apply M_bind_Ok in H as (subj & d2 & _ & H).
  apply catch_Ok in H as [H|(err & d3 & _ & Hh)].
  2: { exfalso. destruct err; unfold throw in Hh; [done|destruct (has_sqlstate _ _); done|done]. }
  apply M_bind_Ok in H as (row' & d3 & Hst & H). injection H as <- <- <-.
  apply store_Ok in Hst as (Hcr & _). by exists h, p1, sg, payload', kid, kid', vp, version, legacy, fh, subj, d2, d3.
Qed.

Lemma check_payload_v0 kid issuer vp version legacy fh :
  vp_schemaVersion vp = [] → check_payload e kid issuer vp = Ok (version, legacy, fh) → version = js "0".
Proof.
  unfold check_payload. intros ->. destruct (isV0AllowedForIssuer _ _); [|done]. intros H. invert_ok. by simplify_eq.
Qed.

(** A token of the client can only enter through the legacy door. The client
    sends neither a schema version nor a visibility, so when the control plane
    stores its attestation, the issuer is on the legacy allowlist, the attestation is
    a behavioral report, the cutoff date has not passed, and the row has schema
    version 0, the client's facts and the client's issuer. *)
Theorem client_token_legacy_only this subject fs type delta raw d row b d' :
  wire (_privKey this) raw (attestation_payload E this subject (JObj fs) type delta) →
  isNaN delta = false →
  Attestations.AttestationService.submitAttestation e
    (signJWT E (attestation_payload E this subject (JObj fs) type delta) (_privKey this)) d = (Ok (row, b), d') →
  _issuer this ∈ getV0Allowlist (e_allowlist e) ∧ type = js "behavioral" ∧
  (∃ t, e_cutoff e = Some (Some t) ∧ e_now e ≤ t) ∧
  a_schema_version row = js "0" ∧ a_facts row = JObj fs ∧ a_issuer_id row = _issuer this.
Proof.
  intros Hw Hd H. pose proof (token_segments _ _ _ Hw) as Hseg. destruct Hw as [_ Hp _ _ _ _ _].
  apply submit_checked in H as (h & p & sg & payload & kid & keyId & vp & version & legacy & fh & subj & d1 & d2 &
    Hsplit & Hdec & Hvp & Hchk & Hcr).
  rewrite Hseg in Hsplit.
  apply ClientInv.cons_inv in Hsplit as [_ [<- _]%ClientInv.cons_inv]. rewrite Hp in Hdec.
  assert (payload = attestation_payload E this subject (JObj fs) type delta) as -> by congruence. clear Hdec.
  rewrite toPayload_client in Hvp by done. assert (vp = client_vp fs type delta) as -> by congruence. clear Hvp.
  change (String_ _) with (_issuer this) in Hchk, Hcr.
  pose proof (check_payload_v0 _ _ (client_vp fs type delta) _ _ _ eq_refl Hchk) as ->.
  apply check_payload_Ok in Hchk as [Hsch _].
  apply createAttestation_Ok in Hcr as (_ & _ & _ & Ei & _ & _ & Ef & _ & _ & Ev & _).
  apply schema_v0_only_for_legacy in Hsch as (Hty & _ & i & t & [= <-] & _ & Hin & Hcu & Ht).
  split_and!; [done|done|by exists t|done|done|done].
Qed.

End Wire.

(** *** Witnesses *)

Definition toy_client : VeriLinkClient := mkClient (js "https://c") (js "vrl:p:i") 7.
Definition toy_facts : list (jstr * json) := [(js "ok", JBool true)].
Definition toy_payload : json :=
  attestation_payload ClientInv.toy_runtime toy_client (js "did:web:s") (JObj toy_facts) (js "behavioral") (num_of_Z 10).

Definition toy_server : env :=
  mkEnv 200000 (Some (js "vrl:p:i")) (Some (Some 900000)) (js "u") (js "row1") (λ s, js "h" ++ s)
    (λ s, if decide (s = b64url (utf8 (stringify jwt_header))) then Some jwt_header
          else if decide (s = b64url (utf8 (stringify toy_payload))) then Some toy_payload else None)
    (λ _, None) unb64url (λ k m s, bool_decide (s = (λ c, c mod 256) <$> utf8 m)) (λ _, NaN)
    (λ n, (λ z, z * 1000) <$> num_to_Z n).

Lemma toy_wire : wire ClientInv.toy_runtime toy_server 7 (repeat 7 32) toy_payload.
Proof.
  split.
  - vm_compute. reflexivity.
  - vm_compute. reflexivity.
  - apply (bool_decide_unpack _). vm_compute. exact I.
  - intros m. apply Forall_fmap, Forall_true. intros c. apply Z.mod_pos_bound. lia.
  - intros m. apply unb64url_b64url, Forall_fmap, Forall_true. intros c. apply Z.mod_pos_bound. lia.
  - reflexivity.
  - intros m. by apply bool_decide_true.
Qed.

Lemma client_token_verified_witness :
  ∃ vp, verifyAttestation toy_server (signJWT ClientInv.toy_runtime toy_payload 7)
    [mkCandidate (js "k1") (repeat 7 32)] = Ok (Valid (js "k1") (js "vrl:p:i") (js "did:web:s") vp) ∧
    vp_trustLevelDelta vp = num_of_Z 10.
Proof.
  eexists. split.
  - apply (client_token_verified ClientInv.toy_runtime toy_server toy_client (js "did:web:s") toy_facts (js "behavioral")
      (num_of_Z 10) (js "k1") (repeat 7 32) toy_wire);
      [discriminate|discriminate|reflexivity|vm_compute; discriminate|vm_compute; reflexivity].
  - reflexivity.
Defined.

Lemma client_token_legacy_only_witness :
  ∃ row d', Attestations.AttestationService.submitAttestation toy_server
      (signJWT ClientInv.toy_runtime toy_payload 7) sample_ingest_db = (Ok (row, true), d') ∧
    a_schema_version row = js "0".
Proof.
  destruct (Attestations.AttestationService.submitAttestation toy_server
      (signJWT ClientInv.toy_runtime toy_payload 7) sample_ingest_db) as [[[row b]|err] d'] eqn:H;
    [|vm_compute in H; discriminate H].
  destruct (client_token_legacy_only ClientInv.toy_runtime toy_server toy_client (js "did:web:s") toy_facts
    (js "behavioral") (num_of_Z 10) (repeat 7 32) sample_ingest_db row b d' toy_wire eq_refl H) as (_ & _ & _ & Hv & _).
  exists row, d'. split; [|exact Hv]. replace b with true; [reflexivity|]. symmetry.
  apply (f_equal (λ x, match x.1 with Ok (_, c) => c | _ => true end)) in H. vm_compute in H. symmetry. exact H.
Defined.

End ClientTokens.
