(* ===== verification/Dashboard.v ===== *)
(** * The dashboard's data layer

    [src/dashboard/src/lib] ([aggregates.ts], [staleness.ts],
    [queryKeys.ts]), the session state of [auth/session.ts] and the fetch wrapper
    [api/client.ts].  Dates, locale comparison and the network are the section
    variables. *)

From stdpp Require Import base gmap strings sorting list.
From Stdlib Require Import ZArith Lia.
From S2P Require Import Prelude Json Errors.

(** ** [lib/aggregates.ts] *)
Module Aggregates.
Section Aggregates.

(** [new Date(s)] as local hours and minutes, [None] for an invalid date, and
    [a.localeCompare(b) <= 0]. *)
Context (local_time : jstr → option (Z * Z)) (locale_le : jstr → jstr → bool).

Record AggregateItem := mkItem {
  ai_bucket_minute : jstr; ai_dimension_kind : jstr; ai_dimension_value : jstr; ai_action : jstr; ai_count : Z }.

Record BucketPoint := mkPoint { bp_bucket : jstr; bp_label : jstr; bp_allow : Z; bp_deny : Z; bp_passthrough : Z }.

(** [String(n).padStart(2, '0')] *)
Definition pad2 (n : Z) : jstr := let s := show_Z n in repeat 48 (2 - length s) ++ s.

Definition formatBucketLabel (iso : jstr) : jstr :=
  match local_time iso with None => iso | Some (h, m) => pad2 h ++ js ":" ++ pad2 m end.

(** [point[item.action] += item.count] for the three actions. *)
Definition bump_action (i : AggregateItem) (p : BucketPoint) : BucketPoint :=
  if decide (ai_action i = js "allow") then
    mkPoint (bp_bucket p) (bp_label p) (bp_allow p + ai_count i) (bp_deny p) (bp_passthrough p)
  else if decide (ai_action i = js "deny") then
    mkPoint (bp_bucket p) (bp_label p) (bp_allow p) (bp_deny p + ai_count i) (bp_passthrough p)
  else if decide (ai_action i = js "passthrough") then
    mkPoint (bp_bucket p) (bp_label p) (bp_allow p) (bp_deny p) (bp_passthrough p + ai_count i)
  else p.

(** One iteration over the map of points, in insertion order. *)
Definition add_item (points : list BucketPoint) (i : AggregateItem) : list BucketPoint :=
  if bool_decide (ai_bucket_minute i ∈ bp_bucket <$> points)
  then (λ p, if bool_decide (bp_bucket p = ai_bucket_minute i) then bump_action i p else p) <$> points
  else points ++ [bump_action i (mkPoint (ai_bucket_minute i) (formatBucketLabel (ai_bucket_minute i)) 0 0 0)].

Definition pivotAggregates (items : list AggregateItem) : list BucketPoint :=
  sort_by (λ a b, locale_le (bp_bucket a) (bp_bucket b)) (fold_left add_item items []).

(** *** Totals *)

(** The sum of the counts of one action in one bucket. *)
Definition total (bucket action : jstr) (items : list AggregateItem) : Z :=
  foldr (λ i n, (if decide (ai_bucket_minute i = bucket ∧ ai_action i = action) then ai_count i else 0) + n) 0 items.

Lemma total_snoc b a items i :
  total b a (items ++ [i]) = total b a items + (if decide (ai_bucket_minute i = b ∧ ai_action i = a) then ai_count i else 0).
Proof. unfold total. induction items as [|x l IH]; simpl; [lia|]. rewrite IH. lia. Qed.

Definition point_of (items : list AggregateItem) (b : jstr) : BucketPoint :=
  mkPoint b (formatBucketLabel b) (total b (js "allow") items) (total b (js "deny") items)
    (total b (js "passthrough") items).

Lemma total_snoc_same a items i :
  total (ai_bucket_minute i) a (items ++ [i]) =
  total (ai_bucket_minute i) a items + (if decide (ai_action i = a) then ai_count i else 0).
Proof. rewrite total_snoc. f_equal. repeat case_decide; tauto. Qed.

Lemma bumped_point_of i items : bump_action i (point_of items (ai_bucket_minute i)) = point_of (items ++ [i]) (ai_bucket_minute i).
Proof.
  unfold bump_action, point_of. rewrite !total_snoc_same. cbn [bp_bucket bp_label bp_allow bp_deny bp_passthrough].
  destruct (decide (ai_action i = js "allow")) as [E|E]; [rewrite ?E|];
    [|destruct (decide (ai_action i = js "deny")) as [E1|E1]; [rewrite ?E1|];
      [|destruct (decide (ai_action i = js "passthrough")) as [E2|E2]; [rewrite ?E2|]]];
    rewrite ?decide_False by (done || discriminate); by rewrite ?Z.add_0_r.
Qed.

Lemma point_of_other i items b : b ≠ ai_bucket_minute i → point_of (items ++ [i]) b = point_of items b.
Proof. intros Hb. unfold point_of. rewrite !total_snoc. repeat case_decide; try (f_equal; lia); exfalso; naive_solver. Qed.

Lemma total_absent b a items : b ∉ ai_bucket_minute <$> items → total b a items = 0.
Proof.
  induction items as [|i l IH]; [done|]. rewrite fmap_cons, not_elem_of_cons. intros [Hi Hl]. simpl. rewrite IH by done.
  case_decide; [|lia]. naive_solver.
Qed.

(** The map of points after a prefix of the items: one point per bucket seen. *)
Lemma fold_points items : ∃ bs, NoDup bs ∧ (∀ b, b ∈ bs ↔ b ∈ ai_bucket_minute <$> items) ∧
  fold_left add_item items [] = point_of items <$> bs.
Proof.
  induction items as [|i l IH] using rev_ind; [exists []; split_and!; [constructor|done|done]|].
  destruct IH as (bs & Hnd & Hin & Hf). rewrite fold_left_app. cbn [fold_left]. rewrite Hf.
  assert (Hid : bp_bucket <$> (point_of l <$> bs) = bs) by (rewrite <- list_fmap_compose; apply list_fmap_id).
  unfold add_item. rewrite Hid. case_bool_decide as Hb.
  - exists bs. split_and!; [done| |].
    + intros b. rewrite fmap_app, elem_of_app, Hin. change (ai_bucket_minute <$> [i]) with [ai_bucket_minute i].
      rewrite list_elem_of_singleton. split; [auto|]. intros [?| ->]; [done|]. by apply Hin.
    + rewrite <- list_fmap_compose. apply list_fmap_ext. intros k b _. simpl. case_bool_decide as Hk.
      * subst b. apply bumped_point_of.
      * symmetry. by apply point_of_other.
  - exists (bs ++ [ai_bucket_minute i]). split_and!.
    + apply NoDup_app. split_and!; [done| |apply NoDup_singleton]. intros b Hb' ->%list_elem_of_singleton. done.
    + intros b. rewrite !fmap_app, !elem_of_app, Hin. done.
    + rewrite fmap_app. f_equal.
      * apply list_fmap_ext. intros k b Hk. symmetry. apply point_of_other. intros ->. apply Hb.
        by eapply list_elem_of_lookup_2.
      * simpl. f_equal. rewrite <- bumped_point_of. f_equal. unfold point_of.
        by rewrite !total_absent by (by rewrite <- Hin).
Qed.

(** The chart adds up. Whatever the order of the rows and the locale, the
    pivot has exactly one point per minute that occurs, labelled by that minute, and
    each of its three bars is the sum of the counts of that action in that minute;
    rows with another action add nothing but do not lose their minute. *)
Theorem pivot_adds_up items :
  NoDup (bp_bucket <$> pivotAggregates items) ∧
  (∀ b, b ∈ bp_bucket <$> pivotAggregates items ↔ b ∈ ai_bucket_minute <$> items) ∧
  ∀ p, p ∈ pivotAggregates items → p = point_of items (bp_bucket p).
Proof.
  destruct (fold_points items) as (bs & Hnd & Hin & Hf). unfold pivotAggregates. rewrite Hf.
  assert (Hid : bp_bucket <$> (point_of items <$> bs) = bs) by (rewrite <- list_fmap_compose; apply list_fmap_id).
  rewrite !sort_by_Permutation, Hid. split_and!; [done| |].
  - intros b. by rewrite sort_by_Permutation, Hid.
  - intros p. rewrite sort_by_elem. by intros (b & -> & _)%list_elem_of_fmap.
Qed.

End Aggregates.
End Aggregates.

(** ** [lib/staleness.ts] *)
Module Staleness.
Section Staleness.
Context (Date_parse : jstr → option Z).

(** [60 * 60 * 1000] *)
Definition SCORE_STALENESS_THRESHOLD_MS : Z := 60 * 60 * 1000.

Definition isScoreStale (latestComputedAt : option jstr) (nowMs : Z) : bool :=
  match latestComputedAt with
  | None | Some [] => true
  | Some s => match Date_parse s with
              | None => true
              | Some t => SCORE_STALENESS_THRESHOLD_MS <? nowMs - t
              end
  end.

End Staleness.
End Staleness.

(** ** [lib/queryKeys.ts] *)
Module QueryKeys.

Record ProviderKeys := mkProviderKeys {
  graphSummary : list jstr; aggregates : list jstr; agents : list jstr; samples : list jstr;
  edgeNodes : list jstr; policyActive : list jstr }.

Definition providerQueryKeys (tenantId : option jstr) : ProviderKeys :=
  let t := default (js "none") tenantId in
  mkProviderKeys [js "graph-summary"; t] [js "decision-aggregates"; t] [js "decision-agents"; t]
    [js "decision-samples"; t] [js "edge-nodes"; t] [js "policy-active"; t].

Record AgentKeys := mkAgentKeys {
  k_principals : list jstr; k_detail : list jstr; k_keys : list jstr; k_scoreHistory : list jstr;
  k_attestationsIn : list jstr; k_attestationsOut : list jstr }.

Definition agentBuilderQueryKeys (tenantId principalId : option jstr) : AgentKeys :=
  let t := default (js "none") tenantId in
  let p := default (js "none") principalId in
  let k s := [js "agent-builder"; js s; t; p] in
  mkAgentKeys [js "agent-builder"; js "principals"; t] (k "principal"%string) (k "keys"%string)
    (k "score-history"%string) (k "attestations-in"%string) (k "attestations-out"%string).

Definition provider_list (k : ProviderKeys) : list (list jstr) :=
  [graphSummary k; aggregates k; agents k; samples k; edgeNodes k; policyActive k].
Definition agent_list (k : AgentKeys) : list (list jstr) :=
  [k_principals k; k_detail k; k_keys k; k_scoreHistory k; k_attestationsIn k; k_attestationsOut k].

(** Every cache key the dashboard uses for one tenant and principal. *)
Definition all_keys (t p : option jstr) : list (list jstr) :=
  provider_list (providerQueryKeys t) ++ agent_list (agentBuilderQueryKeys t p).

(** The query cache never mixes tenants. Two distinct tenant ids, neither the
    literal text 'none', share no cache key, whatever principals are selected, and
    within one selection no two of the twelve queries share a key. *)
Theorem cache_keys_partitioned t t' p p' :
  t ≠ t' → t ≠ Some (js "none") → t' ≠ Some (js "none") →
  NoDup (all_keys t p) ∧ ∀ k, k ∈ all_keys t p → k ∉ all_keys t' p'.
Proof.
  intros Hne Ht Ht'.
  assert (Hd : default (js "none") t ≠ default (js "none") t').
  { destruct t as [t|], t' as [t'|]; simpl; intros E; congruence. }
  unfold all_keys, provider_list, agent_list, providerQueryKeys, agentBuilderQueryKeys.
  cbn [graphSummary aggregates agents samples edgeNodes policyActive k_principals k_detail k_keys k_scoreHistory
       k_attestationsIn k_attestationsOut app].
  generalize dependent (default (js "none") t). generalize dependent (default (js "none") t').
  intros a b Hab. split.
  - repeat (apply NoDup_cons_2; [rewrite ?not_elem_of_cons; split_and?; try (intros [=]); try apply not_elem_of_nil|]).
    constructor.
  - intros k Hk Hk'. rewrite !elem_of_cons, elem_of_nil in Hk, Hk'.
    repeat (destruct Hk as [->|Hk]; [repeat (destruct Hk' as [E|Hk']; [first [discriminate E|injection E; intros; congruence]|]); exact Hk'|]). exact Hk.
Qed.

Lemma cache_keys_partitioned_witness :
  [js "edge-nodes"; js "ta"] ∉ all_keys (Some (js "tb")) None.
Proof.
  apply (cache_keys_partitioned (Some (js "ta")) (Some (js "tb")) None None); [discriminate..|].
  unfold all_keys. rewrite elem_of_app. left. do 4 (apply elem_of_cons; right). apply elem_of_cons. by left.
Defined.

End QueryKeys.

(** ** [auth/session.ts] and [api/client.ts] *)
Module ApiClientWeb.

(** The token lives in memory, the tenant id in [sessionStorage]. *)
Record session := mkSession { memoryToken : option jstr; storedTenantId : option jstr }.

Definition setStoredToken (token : option jstr) (s : session) : session := mkSession token (storedTenantId s).
Definition setStoredTenantId (tenantId : option jstr) (s : session) : session :=
  mkSession (memoryToken s) (match tenantId with Some [] => None | t => t end).

Record ApiError := mkApiError { ae_status : Z; ae_message : jstr; ae_body : json }.

(** Header names are case insensitive; they are kept in lower case. *)
Record web_request := mkWeb { w_path : jstr; w_method : jstr; w_headers : gmap jstr jstr; w_body : option jstr }.

Section fetch.
Context (apiBaseUrl : jstr) (parse : jstr → option json) (fetch : web_request → Z * jstr).

Definition with_default (k v : jstr) (h : gmap jstr jstr) : gmap jstr jstr :=
  match h !! k with Some _ => h | None => <[k := v]> h end.

Definition request_headers (s : session) (headers : gmap jstr jstr) (body : option jstr) : gmap jstr jstr :=
  let h := with_default (js "accept") (js "application/json") headers in
  let h := match body with Some _ => with_default (js "content-type") (js "application/json") h | None => h end in
  let h := match memoryToken s with Some (c :: t) => <[js "authorization" := js "Bearer " ++ c :: t]> h | _ => h end in
  match storedTenantId s with Some (c :: t) => <[js "x-tenant-id" := c :: t]> h | _ => h end.

Definition parsed_body (text : jstr) : json :=
  match text with [] => JNull | _ => default (JStr text) (parse text) end.

Definition error_message (status : Z) (body : json) : jstr :=
  match body with
  | JObj _ => match get (get body "error") "message" with
              | JStr m => m
              | _ => js "HTTP " ++ show_Z status
              end
  | _ => js "HTTP " ++ show_Z status
  end.

(** [res.ok] is a status of 200 to 299. *)
Definition apiFetch (s : session) (path method : jstr) (headers : gmap jstr jstr) (body : option jstr) :
  result ApiError json :=
  let url := apiBaseUrl ++ (match path with 47 :: _ => path | _ => 47 :: path end) in
  let '(status, text) := fetch (mkWeb url method (request_headers s headers body) body) in
  if status =? 204 then Ok JUndef
  else
    let b := parsed_body text in
    if (200 <=? status) && (status <=? 299) then Ok b
    else Throw (mkApiError status (error_message status b) b).

End fetch.

(** Errors of the control plane reach the dashboard. When a handler throws and
    the error handler's body arrives intact, the dashboard's fetch throws with the
    status and the message of the application error, internal errors without their
    original message. *)
Theorem api_error_reaches_caller base parse fetch s path method headers body err :
  parse (stringify (r_body (error err))) = Some (r_body (error err)) →
  (∀ r, fetch r = (r_status (error err), stringify (r_body (error err)))) →
  apiFetch base parse fetch s path method headers body =
  Throw (mkApiError (status (from err)) (message (from err)) (r_body (error err))).
Proof.
  intros Hp Hf. unfold apiFetch. rewrite Hf.
  assert (Hs : 400 ≤ r_status (error err)).
  { unfold error, status, STATUS_FOR. cbn [r_status]. destruct (code (from err)); lia. }
  rewrite (proj2 (Z.eqb_neq _ 204)), (proj2 (Z.leb_gt (r_status (error err)) 299)), andb_false_r by lia.
  assert (Hb : parsed_body parse (stringify (r_body (error err))) = r_body (error err)).
  { unfold parsed_body. by rewrite Hp. }
  by rewrite Hb.
Qed.

Lemma api_error_reaches_caller_witness :
  ∃ b, apiFetch (js "http://x") (λ _, Some (r_body (error (EApp (app_error NOT_FOUND (js "gone"))))))
      (λ _, (404, stringify (r_body (error (EApp (app_error NOT_FOUND (js "gone")))))))
      (mkSession None None) (js "v1/x") (js "GET") ∅ None = Throw (mkApiError 404 (js "gone") b).
Proof.
  eexists. apply (api_error_reaches_caller (js "http://x") _ _ (mkSession None None) (js "v1/x") (js "GET") ∅ None
    (EApp (app_error NOT_FOUND (js "gone")))); [reflexivity|]. intros r. reflexivity.
Defined.

End ApiClientWeb.
