(* ===== verification/DashboardAuth.v ===== *)
(** * Signing in to the dashboard

    [src/dashboard/src/auth/oidc.ts] (authorization code flow with PKCE),
    [pages/LoginPage.tsx], [pages/AuthCallbackPage.tsx], [auth/AuthProvider.tsx],
    [router.tsx] and [config.ts].

    The browser's [sessionStorage] is a finite map; random bytes, SHA-256, JSON
    parsing, the network and the URL class are the section variables.  The callback
    page's effect may run more than once: its runs are interleaved explicitly. *)

From stdpp Require Import base gmap strings list.
From Stdlib Require Import ZArith Lia.
From S2P Require Import Prelude Json Errors Db Auth JsText Dashboard.

(** ** [config.ts] *)
Module WebConfig.

Inductive AuthMode := ApiKeyMode | OidcMode.

Record web_config := mkWebConfig { apiBaseUrl : jstr; authMode : AuthMode; oidcIssuerUrl : jstr; oidcClientId : jstr }.

(** [s.replace(/\/$/, '')]. *)
Definition strip_slash (s : jstr) : jstr := match reverse s with 47 :: r => reverse r | _ => s end.

Definition config (env : jstr → option jstr) : web_config :=
  mkWebConfig (strip_slash (default [] (env (js "VITE_API_BASE_URL"))))
    (if bool_decide (env (js "VITE_AUTH_MODE") = Some (js "oidc")) then OidcMode else ApiKeyMode)
    (default [] (env (js "VITE_OIDC_ISSUER_URL"))) (default [] (env (js "VITE_OIDC_CLIENT_ID"))).

End WebConfig.

(** ** [auth/oidc.ts] *)
Module Oidc.
Import WebConfig.

Record OidcDiscovery := mkDiscovery { authorization_endpoint : jstr; token_endpoint : jstr }.

Inductive oidc_request := Get (url : jstr) | PostForm (url : jstr) (form : list (jstr * jstr)).

Section oidc.
Context (sha256 : list Z → list Z)
        (parse : jstr → option json)                        (** [JSON.parse] *)
        (fetch : oidc_request → result jstr (Z * jstr))     (** status and text, or a network error *)
        (with_query : jstr → list (jstr * jstr) → jstr).    (** [new URL(u)], [searchParams.set], [toString] *)

Definition base64UrlBytes (bytes : list Z) : jstr := b64url bytes.

Definition createPkcePair (random : list Z) : jstr * jstr :=
  let verifier := base64UrlBytes random in (verifier, base64UrlBytes (sha256 (utf8 verifier))).

Definition res_ok (status : Z) : bool := (200 <=? status) && (status <=? 299).

(** A field that is a non-empty string. *)
Definition text_field (v : json) (f : string) : option jstr :=
  match get v f with JStr (c :: s) => Some (c :: s) | _ => None end.

Definition discoverOidc (issuerUrl : jstr) : result jstr OidcDiscovery :=
  let base := strip_slash issuerUrl in
  res ← fetch (Get (base ++ js "/.well-known/openid-configuration"));
  if negb (res_ok res.1) then Throw (js "OIDC discovery failed: HTTP " ++ show_Z res.1)
  else match parse res.2 with
       | None => Throw (js "SyntaxError")
       | Some JNull => Throw (js "TypeError")
       | Some doc =>
           match text_field doc "authorization_endpoint", text_field doc "token_endpoint" with
           | Some a, Some t => Ok (mkDiscovery a t)
           | _, _ => Throw (js "OIDC discovery missing authorization_endpoint or token_endpoint")
           end
       end.

Definition authorize_params (clientId redirectUri state codeChallenge : jstr) : list (jstr * jstr) :=
  [(js "client_id", clientId); (js "redirect_uri", redirectUri); (js "response_type", js "code");
   (js "scope", js "openid email profile"); (js "state", state); (js "code_challenge", codeChallenge);
   (js "code_challenge_method", js "S256")].

Definition buildAuthorizeUrl (authorizationEndpoint clientId redirectUri state codeChallenge : jstr) : jstr :=
  with_query authorizationEndpoint (authorize_params clientId redirectUri state codeChallenge).

Definition token_params (clientId code redirectUri codeVerifier : jstr) : list (jstr * jstr) :=
  [(js "grant_type", js "authorization_code"); (js "code", code); (js "redirect_uri", redirectUri);
   (js "client_id", clientId); (js "code_verifier", codeVerifier)].

Definition exchangeAuthorizationCode (tokenEndpoint clientId code redirectUri codeVerifier : jstr) : result jstr jstr :=
  res ← fetch (PostForm tokenEndpoint (token_params clientId code redirectUri codeVerifier));
  let '(status, text) := res in
  match (match text with [] => Some (JObj []) | _ => parse text end) with
  | None => Throw (js "OIDC token response was not JSON (HTTP " ++ show_Z status ++ js ")")
  | Some JNull => Throw (js "TypeError")
  | Some body =>
      match res_ok status, text_field body "access_token" with
      | true, Some t => Ok t
      | _, _ =>
          if truthy (get body "error_description") then Throw (String_ (get body "error_description"))
          else if truthy (get body "error") then Throw (String_ (get body "error"))
          else Throw (js "OIDC token exchange HTTP " ++ show_Z status)
      end
  end.

End oidc.
End Oidc.

(** ** [pages/LoginPage.tsx] *)
Module LoginPage.
Import WebConfig Oidc.

Definition hex_unit (c : Z) : bool :=
  is_digit c || ((97 <=? c) && (c <=? 102)) || ((65 <=? c) && (c <=? 70)).

(** [/^vrl_[0-9a-f]{64}$/i.test(key)]. *)
Definition API_KEY_RE (key : jstr) : bool :=
  bool_decide (length key = 68%nat)
  && bool_decide ((λ c, if (65 <=? c) && (c <=? 90) then c + 32 else c) <$> take 4 key = js "vrl_")
  && forallb hex_unit (drop 4 key).

(** [onApiKeySubmit]: an error message, or the token set. *)
Definition onApiKeySubmit (input : jstr) : jstr + jstr :=
  let key := trim input in
  if API_KEY_RE key then inr key
  else inl (js "API key must be vrl_ followed by 64 hex characters (68 total)").

Definition VERIFIER : jstr := js "verilink.oidc.verifier".
Definition STATE : jstr := js "verilink.oidc.state".

Section start.
Context (sha256 : list Z → list Z) (parse : jstr → option json)
        (fetch : oidc_request → result jstr (Z * jstr)) (with_query : jstr → list (jstr * jstr) → jstr).

Definition redirect_uri (origin : jstr) : jstr := origin ++ js "/auth/callback".

(** [onOidcStart]: an error message, or the page to go to; and the storage. *)
Definition onOidcStart (c : web_config) (origin : jstr) (random : list Z) (uuid : jstr) (storage : gmap jstr jstr) :
  (jstr + jstr) * gmap jstr jstr :=
  match oidcIssuerUrl c, oidcClientId c with
  | _ :: _, _ :: _ =>
      let '(verifier, challenge) := createPkcePair sha256 random in
      match discoverOidc parse fetch (oidcIssuerUrl c) with
      | Throw e => (inl e, storage)
      | Ok d =>
          (inr (buildAuthorizeUrl with_query (authorization_endpoint d) (oidcClientId c) (redirect_uri origin) uuid challenge),
           <[STATE := uuid]> (<[VERIFIER := verifier]> storage))
      end
  | _, _ => (inl (js "OIDC is not configured (VITE_OIDC_ISSUER_URL / VITE_OIDC_CLIENT_ID)"), storage)
  end.

End start.

(** *** Properties *)

(** What the login form accepts is what the control plane takes for an API key,
    except for its prefix: a key the form accepts that starts with [vrl_] passes
    the server's format check and is looked up; one that spells the prefix in upper
    case, which the form also accepts, is taken for an OIDC token. *)
Theorem login_key_at_server e input key tenant :
  onApiKeySubmit input = inr key →
  let h := mkHeaders (Some (js "Bearer " ++ key)) None tenant in
  length key = 68%nat ∧
  Auth.authMiddleware e h =
    Auth.as_app_error (if bool_decide (take 4 key = js "vrl_") then Auth.authenticateApiKey e key
                       else Auth.authenticateOidc e key tenant).
Proof.
  unfold onApiKeySubmit. destruct (API_KEY_RE (trim input)) eqn:E; [|done]. intros [= <-].
  unfold API_KEY_RE in E. apply andb_true_iff in E as [[E1 _]%andb_true_iff _]. bool_to_prop. split; [done|].
  unfold Auth.authMiddleware. cbn [h_authorization h_x_tenant_id].
  assert (startsWith (js "Bearer ") (js "Bearer " ++ trim input) = true) as ->
    by (apply bool_decide_eq_true_2; apply take_app_length).
  replace (drop 7 (js "Bearer " ++ trim input)) with (trim input) by (symmetry; apply (drop_app_length (js "Bearer "))).
  unfold startsWith. change (length (js "vrl_")) with 4%nat. destruct (bool_decide _); done.
Qed.

(** A key in upper case, as the form lets through. *)
Lemma login_key_at_server_witness :
  let key := js "VRL_" ++ repeat 48 64 in
  onApiKeySubmit (js " " ++ key) = inr key ∧
  ∀ e tenant, Auth.authMiddleware e (mkHeaders (Some (js "Bearer " ++ key)) None tenant) =
    Auth.as_app_error (Auth.authenticateOidc e key tenant).
Proof.
  intros key. split; [vm_compute; reflexivity|]. intros e tenant.
  destruct (login_key_at_server e (js " " ++ key) key tenant) as [_ H]; [vm_compute; reflexivity|].
  rewrite H. reflexivity.
Defined.

End LoginPage.

(** ** [pages/AuthCallbackPage.tsx] *)
Module AuthCallback.
Import WebConfig Oidc LoginPage.

(** The query of the callback's URL. *)
Record callback_params := mkParams {
  cp_error_description : option jstr; cp_error : option jstr; cp_state : option jstr; cp_code : option jstr }.

Definition clearOidcTransient (storage : gmap jstr jstr) : gmap jstr jstr := delete STATE (delete VERIFIER storage).

(** [run] up to its first [await]: it stops with a message, or goes on with the
    code and the verifier. *)
Definition callback_begin (c : web_config) (p : callback_params) (storage : gmap jstr jstr) : jstr + (jstr * jstr) :=
  match (match cp_error_description p with Some (x :: d) => Some (x :: d) | _ => cp_error p end) with
  | Some (x :: err) => inl (x :: err)
  | _ =>
      match cp_state p, storage !! STATE with
      | Some (x :: state), Some expected =>
          if bool_decide (x :: state = expected) then
            match cp_code p, storage !! VERIFIER with
            | Some (y :: code), Some (z :: verifier) =>
                match oidcIssuerUrl c, oidcClientId c with
                | _ :: _, _ :: _ => inr (y :: code, z :: verifier)
                | _, _ => inl (js "OIDC is not configured")
                end
            | _, _ => inl (js "Missing authorization code or PKCE verifier")
            end
          else inl (js "Invalid OIDC state")
      | _, _ => inl (js "Invalid OIDC state")
      end
  end.

(** The two requests [run] then awaits. *)
Definition callback_exchange (parse : jstr → option json) (fetch : oidc_request → result jstr (Z * jstr))
    (c : web_config) (origin code verifier : jstr) : result jstr jstr :=
  d ← discoverOidc parse fetch (oidcIssuerUrl c);
  exchangeAuthorizationCode parse fetch (token_endpoint d) (oidcClientId c) code (redirect_uri origin) verifier.

(** One execution of the effect. *)
Record effect_run := mkRun { er_sent : option (jstr * jstr); er_pending : bool; er_cancelled : bool }.

Record page := mkPage {
  pg_storage : gmap jstr jstr; pg_token : option jstr; pg_message : jstr; pg_navigated : bool; pg_runs : list effect_run }.

Inductive page_event :=
| EffectRuns                              (** mount, or a dependency changed *)
| EffectCleanup                           (** the cleanup of the latest run *)
| Settles (i : nat) (r : result jstr jstr). (** the [i]-th run's exchange *)

Definition cancel (r : effect_run) : effect_run := mkRun (er_sent r) (er_pending r) true.
Definition settle_run (r : effect_run) : effect_run := mkRun (er_sent r) false (er_cancelled r).

Definition page_step (c : web_config) (p : callback_params) (e : page_event) (s : page) : page :=
  match e with
  | EffectRuns =>
      match callback_begin c p (pg_storage s) with
      | inl msg => mkPage (clearOidcTransient (pg_storage s)) (pg_token s) msg (pg_navigated s)
                     (pg_runs s ++ [mkRun None false false])
      | inr cv => mkPage (pg_storage s) (pg_token s) (pg_message s) (pg_navigated s)
                    (pg_runs s ++ [mkRun (Some cv) true false])
      end
  | EffectCleanup =>
      mkPage (pg_storage s) (pg_token s) (pg_message s) (pg_navigated s) (alter cancel (pred (length (pg_runs s))) (pg_runs s))
  | Settles i r =>
      match pg_runs s !! i with
      | Some run =>
          if er_pending run then
            let runs := <[i := settle_run run]> (pg_runs s) in
            let storage := clearOidcTransient (pg_storage s) in
            if er_cancelled run then mkPage storage (pg_token s) (pg_message s) (pg_navigated s) runs
            else match r with
                 | Ok token => mkPage storage (Some token) (pg_message s) true runs
                 | Throw e => mkPage storage (pg_token s) e (pg_navigated s) runs
                 end
          else s
      | None => s
      end
  end.

Definition page_run (c : web_config) (p : callback_params) (es : list page_event) (s : page) : page :=
  fold_left (λ s e, page_step c p e s) es s.

Definition open_page (storage : gmap jstr jstr) : page := mkPage storage None (js "Completing sign-in" ++ [8230]) false [].

(** *** Lemmas *)

(** What holds of a page opened on the storage [st]. *)
Definition run_ok (c : web_config) (p : callback_params) (st : gmap jstr jstr) (r : effect_run) : Prop :=
  (∀ cv, er_sent r = Some cv → callback_begin c p st = inr cv) ∧ (er_pending r = true → is_Some (er_sent r)).

Record page_inv (c : web_config) (p : callback_params) (st : gmap jstr jstr) (es : list page_event) (s : page) : Prop := {
  pv_storage : pg_storage s = st ∨ pg_storage s = clearOidcTransient st;
  pv_runs : Forall (run_ok c p st) (pg_runs s);
  pv_token : ∀ t, pg_token s = Some t → pg_storage s = clearOidcTransient st ∧
    (∃ i, Settles i (Ok t) ∈ es) ∧ ∃ cv, callback_begin c p st = inr cv }.

Lemma clear_twice st : clearOidcTransient (clearOidcTransient st) = clearOidcTransient st.
Proof.
  unfold clearOidcTransient. apply map_eq. intros k. rewrite !lookup_delete. repeat case_decide; done.
Qed.

Lemma begin_cleared c p st cv : callback_begin c p (clearOidcTransient st) = inr cv → False.
Proof.
  unfold callback_begin, clearOidcTransient. rewrite lookup_delete_eq. repeat case_match; done.
Qed.

Lemma page_step_inv c p st es e s : page_inv c p st es s → page_inv c p st (es ++ [e]) (page_step c p e s).
Proof.
  intros [Hst Hruns Htok].
  assert (Hclear : clearOidcTransient (pg_storage s) = clearOidcTransient st)
    by (destruct Hst as [-> | ->]; [done|apply clear_twice]).
  assert (Htok' : ∀ t, pg_token s = Some t → pg_storage s = clearOidcTransient st ∧
    (∃ i, Settles i (Ok t) ∈ es ++ [e]) ∧ ∃ cv, callback_begin c p st = inr cv).
  { intros t (? & (i & Hi) & ?)%Htok. split_and!; try done. exists i. apply elem_of_app. by left. }
  destruct e as [| |i r]; simpl.
  - destruct (callback_begin c p (pg_storage s)) as [msg|cv] eqn:Eb.
    + rewrite Hclear. split; simpl; [by right| |naive_solver].
      apply Forall_app. split; [done|]. apply Forall_singleton. by split.
    + assert (Hs : pg_storage s = st).
      { destruct Hst as [?|E]; [done|]. rewrite E in Eb. by apply begin_cleared in Eb. }
      rewrite Hs in Eb. split; simpl; [done| |done].
      apply Forall_app. split; [done|]. apply Forall_singleton. split; simpl; [by intros ? [= <-]|done].
  - split; simpl; [done| |done]. by apply Forall_alter.
  - destruct (pg_runs s !! i) as [run|] eqn:Er; [|by split]. destruct (er_pending run) eqn:Ep; [|by split].
    pose proof (Forall_lookup_1 _ _ _ _ Hruns Er) as [Hsent Hpend].
    destruct (Hpend Ep) as [cv Hcv]. pose proof (Hsent _ Hcv) as Hbegin.
    assert (H1 : Forall (run_ok c p st) (<[i:=settle_run run]> (pg_runs s))) by (apply Forall_insert; [done|by split]).
    destruct (er_cancelled run); [|destruct r as [t|err]]; rewrite Hclear; split; simpl; try done; try (by right).
    + intros t' Ht'. destruct (Htok' t' Ht') as (? & ? & ?). by split_and!.
    + intros t' [= <-]. split_and!; [done| |by exists cv]. exists i. apply elem_of_app. right. by apply list_elem_of_singleton.
    + intros t' Ht'. destruct (Htok' t' Ht') as (? & ? & ?). by split_and!.
Qed.

Lemma page_run_inv c p st es : page_inv c p st es (page_run c p es (open_page st)).
Proof.
  induction es as [|e es IH] using rev_ind; [split; [by left|done|done]|].
  unfold page_run. rewrite fold_left_app. by apply page_step_inv.
Qed.

Lemma b64url_nonempty a bs : 0 ≤ a → b64url (a :: bs) ≠ [].
Proof.
  intros Ha.
  assert (∃ l, base64 (a :: bs) = b64_char (a / 4) :: l) as [l Hl] by (destruct bs as [|b [|c r]]; simpl; eauto).
  unfold b64url. rewrite Hl. unfold replace_char. rewrite !fmap_cons. unfold remove_char. rewrite filter_cons_True; [done|].
  pose proof (Z.div_pos a 4 Ha ltac:(lia)). unfold b64_char. repeat (case_match; bool_to_prop; simpl); lia.
Qed.

(** What a successful start leaves behind. *)
Lemma onOidcStart_ok sha256 parse fetch with_query c origin random uuid st url st' :
  onOidcStart sha256 parse fetch with_query c origin random uuid st = (inr url, st') →
  ∃ d, discoverOidc parse fetch (oidcIssuerUrl c) = Ok d ∧ oidcIssuerUrl c ≠ [] ∧ oidcClientId c ≠ [] ∧
    url = with_query (authorization_endpoint d)
            (authorize_params (oidcClientId c) (redirect_uri origin) uuid (b64url (sha256 (utf8 (b64url random))))) ∧
    st' !! STATE = Some uuid ∧ st' !! VERIFIER = Some (b64url random).
Proof.
  unfold onOidcStart, createPkcePair, base64UrlBytes, buildAuthorizeUrl.
  destruct (oidcIssuerUrl c) as [|i0 i]; [done|]. destruct (oidcClientId c) as [|c0 cs]; [done|].
  destruct (discoverOidc parse fetch (i0 :: i)) as [d|e]; [|done]. intros [= <- <-]. exists d. split_and!; try done.
  - by rewrite lookup_insert_eq.
  - rewrite lookup_insert_ne by discriminate. by rewrite lookup_insert_eq.
Qed.

(** *** Properties *)

(** A sign-in that was started can be completed, and proves possession of the
    verifier. When the login page has sent the browser to the provider and the
    provider sends it back with the same state and a code, the callback asks the
    token endpoint with that code, the same client and redirect address, and a
    verifier whose SHA-256, base64url encoded, is the challenge of the first
    request; with any other state it stops. *)
Theorem oidc_start_callback sha256 parse fetch with_query c origin r0 random uuid st url st' code :
  onOidcStart sha256 parse fetch with_query c origin (r0 :: random) uuid st = (inr url, st') → 0 ≤ r0 → uuid ≠ [] → code ≠ [] →
  ∃ d verifier challenge,
    discoverOidc parse fetch (oidcIssuerUrl c) = Ok d ∧
    url = with_query (authorization_endpoint d) (authorize_params (oidcClientId c) (redirect_uri origin) uuid challenge) ∧
    challenge = b64url (sha256 (utf8 verifier)) ∧
    callback_begin c (mkParams None None (Some uuid) (Some code)) st' = inr (code, verifier) ∧
    callback_exchange parse fetch c origin code verifier =
      exchangeAuthorizationCode parse fetch (token_endpoint d) (oidcClientId c) code (redirect_uri origin) verifier ∧
    ∀ state, state ≠ uuid →
      callback_begin c (mkParams None None (Some state) (Some code)) st' = inl (js "Invalid OIDC state").
Proof.
  intros H Hr0 Hu Hc. destruct (onOidcStart_ok _ _ _ _ _ _ _ _ _ _ _ H) as (d & Hd & Hi & Hcl & -> & Hs & Hv).
  exists d, (b64url (r0 :: random)), (b64url (sha256 (utf8 (b64url (r0 :: random))))). split_and!; try done.
  - unfold callback_begin. cbn [cp_error_description cp_error cp_state cp_code]. rewrite Hs, Hv.
    pose proof (b64url_nonempty r0 random Hr0) as Hn. destruct (b64url (r0 :: random)) as [|v0 v]; [done|].
    destruct uuid as [|u0 u], code as [|c0 cs]; try done. rewrite bool_decide_eq_true_2 by done.
    by destruct (oidcIssuerUrl c), (oidcClientId c).
  - unfold callback_exchange. by rewrite Hd.
  - intros state Hne. unfold callback_begin. cbn [cp_error_description cp_error cp_state cp_code]. rewrite Hs.
    destruct state as [|s0 s]; [done|]. by rewrite bool_decide_eq_false_2.
Qed.

(** C33. No token without the state, the code and the verifier. However often the
    callback's effect runs and is cleaned up, and in whatever order its exchanges
    settle, a token is only set when one of them succeeded for a callback whose
    state was the stored one, with a code and a stored verifier; and when it is
    set, state and verifier are gone from the storage. *)
Theorem callback_token_guarded c p st es t :
  let s := page_run c p es (open_page st) in
  pg_token s = Some t →
  (∃ i, Settles i (Ok t) ∈ es) ∧
  (∃ state code verifier, cp_state p = Some state ∧ st !! STATE = Some state ∧ state ≠ [] ∧
     cp_code p = Some code ∧ code ≠ [] ∧ st !! VERIFIER = Some verifier ∧ verifier ≠ []) ∧
  pg_storage s !! STATE = None ∧ pg_storage s !! VERIFIER = None.
Proof.
  intros s Ht. destruct (pv_token _ _ _ _ _ (page_run_inv c p st es) t Ht) as (Hst & Hset & [cv Hb]). fold s in Hst.
  split_and!; [done| | |].
  - unfold callback_begin in Hb. destruct p as [ed er stt cd]; simpl in *.
    destruct (match ed with Some (x :: d) => Some (x :: d) | _ => er end) as [[|x err]|]; [|done|].
    all: destruct stt as [[|x1 state]|]; try done; destruct (st !! STATE) as [expected|]; try done;
      case_bool_decide; try done; subst; destruct cd as [[|y code]|]; try done;
      destruct (st !! VERIFIER) as [[|z v]|]; try done; eexists _, _, _; by split_and!.
  - rewrite Hst. unfold clearOidcTransient. by rewrite lookup_delete_eq.
  - rewrite Hst. unfold clearOidcTransient. rewrite lookup_delete_ne by discriminate. by rewrite lookup_delete_eq.
Qed.

(** Running the effect twice loses the sign-in. React's strict mode, in which the
    application is rendered, sets an effect up, cleans it up and sets it up again:
    both runs send the code, and since a code is good for one exchange only one can
    succeed. If that is the first run's, which was cancelled, no token is set
    whatever happens next. *)
Theorem double_effect_loses_signin c p st es :
  (∀ t, Settles 1 (Ok t) ∉ es) → Forall (λ e, ∃ i r, e = Settles i r) es →
  pg_token (page_run c p ([EffectRuns; EffectCleanup; EffectRuns] ++ es) (open_page st)) = None.
Proof.
  intros H1 Hes. unfold page_run. rewrite fold_left_app.
  set (s0 := fold_left _ [EffectRuns; EffectCleanup; EffectRuns] (open_page st)).
  assert (Hs0 : pg_token s0 = None ∧ ∃ a b, pg_runs s0 = [a; b] ∧ er_cancelled a = true).
  { unfold s0. simpl. destruct (callback_begin c p st); simpl; (destruct (callback_begin c p _); simpl); eauto 10. }
  clearbody s0. revert s0 Hs0. induction es as [|e es IH]; intros s (Ht & a & b & Hr & Ha); [done|]. simpl.
  apply Forall_cons in Hes as [(i & r & ->) Hes].
  assert (Hne : ∀ t, Settles 1 (Ok t) ∉ es) by (intros t Hin; apply (H1 t); by right).
  apply IH; [done|done|]. simpl. rewrite Hr.
  destruct i as [|[|i]]; simpl; [| |split; [done|eauto]].
  - destruct (er_pending a); [|split; [done|eauto]]. rewrite Ha. split; [done|]. eexists _, _. split; [done|]. simpl. done.
  - destruct (er_pending b); [|split; [done|eauto]].
    destruct r as [t|err]; [by destruct (H1 t); left|].
    destruct (er_cancelled b); (split; [done|]); eexists _, _; by split.
Qed.

(** *** Witnesses *)

Definition demo_web : web_config := mkWebConfig (js "https://cp") OidcMode (js "https://idp/") (js "client").
Definition demo_doc : json :=
  JObj [(js "authorization_endpoint", JStr (js "https://idp/auth")); (js "token_endpoint", JStr (js "https://idp/token"))].
Definition demo_parse (s : jstr) : option json := Some demo_doc.
Definition demo_fetch (r : oidc_request) : result jstr (Z * jstr) := Ok (200, js "{}").
Definition demo_query (u : jstr) (ps : list (jstr * jstr)) : jstr := u ++ js "?" ++ concat ((λ '(k, v), k ++ js "=" ++ v ++ js "&") <$> ps).
Definition demo_store : gmap jstr jstr := <[STATE := js "st"]> {[VERIFIER := js "ver"]}.
Definition demo_params : callback_params := mkParams None None (Some (js "st")) (Some (js "code")).

Lemma oidc_start_callback_witness :
  ∃ url st' verifier, onOidcStart (λ b, b) demo_parse demo_fetch demo_query demo_web (js "https://app") [1; 2; 3] (js "st") ∅ = (inr url, st') ∧
    callback_begin demo_web demo_params st' = inr (js "code", verifier).
Proof.
  edestruct (oidc_start_callback (λ b, b) demo_parse demo_fetch demo_query demo_web (js "https://app") 1 [2; 3] (js "st") ∅)
    with (code := js "code") as (d & v & ch & _ & _ & _ & Hb & _); [reflexivity|lia|discriminate|discriminate|].
  eexists _, _, v. split; [reflexivity|]. exact Hb.
Defined.

Lemma callback_token_guarded_witness :
  let s := page_run demo_web demo_params [EffectRuns; Settles 0 (Ok (js "tok"))] (open_page demo_store) in
  pg_token s = Some (js "tok") ∧ pg_storage s !! STATE = None ∧ pg_storage s !! VERIFIER = None.
Proof.
  intros s. split; [vm_compute; reflexivity|].
  apply (callback_token_guarded demo_web demo_params demo_store [EffectRuns; Settles 0 (Ok (js "tok"))] (js "tok")).
  vm_compute. reflexivity.
Defined.

Lemma double_effect_loses_signin_witness :
  pg_token (page_run demo_web demo_params
    ([EffectRuns; EffectCleanup; EffectRuns] ++ [Settles 0 (Ok (js "tok")); Settles 1 (Throw (js "invalid_grant"))]) (open_page demo_store)) = None.
Proof.
  apply double_effect_loses_signin.
  - intros t Hin. apply elem_of_cons in Hin as [H|Hin]; [discriminate H|].
    apply elem_of_cons in Hin as [H|Hin]; [discriminate H|]. by apply elem_of_nil in Hin.
  - apply List.Forall_cons; [eauto|]. apply List.Forall_cons; [eauto|apply List.Forall_nil].
Defined.

End AuthCallback.

(** ** [auth/AuthProvider.tsx], [router.tsx] *)
Module AuthProvider.
Import ApiClientWeb.

(** The React state next to the stored session it mirrors. *)
Record auth_state := mkAuth { as_token : option jstr; as_tenantId : option jstr; as_session : session }.

Definition init (s : session) : auth_state := mkAuth (memoryToken s) (storedTenantId s) s.
Definition setToken (next : option jstr) (a : auth_state) : auth_state :=
  mkAuth next (as_tenantId a) (setStoredToken next (as_session a)).
Definition setTenantId (next : option jstr) (a : auth_state) : auth_state :=
  mkAuth (as_token a) next (setStoredTenantId next (as_session a)).
Definition signOut (a : auth_state) : auth_state := setTenantId None (setToken None a).
Definition isAuthenticated (a : auth_state) : bool := match as_token a with Some (_ :: _) => true | _ => false end.

Inductive view := Page (name : string) | RedirectTo (path : string) | NoRoute.

(** The route tree: what is rendered at a path. *)
Definition render (a : auth_state) (path : jstr) : view :=
  let require_auth p := if isAuthenticated a then Page p else RedirectTo "/login" in
  if bool_decide (path = js "/") then RedirectTo (if isAuthenticated a then "/provider" else "/login")
  else if bool_decide (path = js "/login") then Page "LoginPage"
  else if bool_decide (path = js "/auth/callback") then Page "AuthCallbackPage"
  else if bool_decide (path = js "/provider") then require_auth "ProviderHomePage"%string
  else if bool_decide (path = js "/agent-builder") then require_auth "AgentBuilderHomePage"%string
  else if bool_decide (path = js "/admin") then require_auth "AdminHomePage"%string
  else NoRoute.

(** *** Properties *)

(** Pages behind the guard need a token, and signing out takes it away: without a
    token every path renders the login page, the callback page, a redirect to the
    login page or nothing; after signing out this is so, nothing of the session is
    stored, and the next request carries no credentials. *)
Theorem guarded_pages_need_token a path :
  (isAuthenticated a = false →
    render a path ∈ [Page "LoginPage"; Page "AuthCallbackPage"; RedirectTo "/login"; NoRoute]) ∧
  isAuthenticated (signOut a) = false ∧ as_session (signOut a) = mkSession None None ∧
  request_headers (as_session (signOut a)) ∅ None !! js "authorization" = None.
Proof.
  split_and!; [|done|done|].
  - intros Ha. unfold render. rewrite Ha. repeat case_bool_decide; set_solver.
  - vm_compute. reflexivity.
Qed.

(** The query cache is not tied to the session: after signing out, whoever signs
    in next without choosing a tenant has the same cache keys, so that cached
    answers of the previous caller are found under them. *)
Theorem cache_keys_survive_sign_out a b t p :
  as_tenantId (setToken t (signOut a)) = None ∧
  QueryKeys.all_keys (as_tenantId (setToken t (signOut a))) p = QueryKeys.all_keys (as_tenantId (signOut b)) p.
Proof. done. Qed.

End AuthProvider.
