(* ===== verification/DashboardApi.v ===== *)
(** * The dashboard's requests, from the page to the tables and back

    [src/dashboard/src/api/provider.ts], [api/admin.ts], [api/agentBuilder.ts] and
    [lib/scoreSeries.ts] on top of [apiFetch] ([Dashboard]), and the read routes of
    the control plane they talk to that are in no other file
    ([routes/policies.ts] GET /active, the GET routes of [routes/admin.ts]).

    A route's result becomes a response by [responses.ts] ([Errors]); the theorems
    follow a request through the network, which is only assumed to carry the
    response's text. *)

From stdpp Require Import base gmap strings sorting list.
From Stdlib Require Import ZArith Lia.
From S2P Require Import Prelude Json GoText Errors Db Policy Bootstrap DeEmphasis Auth Access Billing JsText Config Dashboard.

(** ** Read routes of the control plane *)
Module ReadRoutes.
Import Auth Guards PolicyRepo.

(** GET /v1/policies/active *)
Definition get_active_policy (e : aenv) (h : headers) : M Policy :=
  u ← authMiddleware e h;
  tenantId ← lift (requireTenant u);
  policy ← reads (getActivePolicy tenantId);
  match policy with
  | None => lift (throw_app NOT_FOUND (js "No active policy for tenant"))
  | Some p => mret p
  end.

(** The two guards of the admin router. *)
Definition admin (e : aenv) (h : headers) : M user :=
  u ← authMiddleware e h;
  _ ← lift (requireStaff (Some u));
  mret u.

Definition get_bootstrap_issuers (e : aenv) (h : headers) : M (list BootstrapRepo.BootstrapIssuerRow) :=
  _ ← admin e h; reads BootstrapRepo.listBootstrapIssuers.

Definition get_unverified_issuers (e : aenv) (h : headers) : M (list (Issuer * Principal)) :=
  _ ← admin e h; reads BootstrapRepo.listUnverifiedIssuers.

(** GET /v1/admin/bootstrap/de-emphasis; [status] is [getDeEmphasisStatus]. *)
Definition get_de_emphasis (status : M DeEmphasis.DeEmphasisResult) (e : aenv) (h : headers) : M DeEmphasis.DeEmphasisResult :=
  _ ← admin e h; status.

End ReadRoutes.

(** ** The fetchers *)
Module DashboardApi.
Import ApiClientWeb BillingTransport.

(** What a fetcher can throw: the [ApiError] of [apiFetch], the error of reading a
    member of [null], or that of encoding a lone surrogate. *)
Inductive web_exn := WApi (e : ApiError) | WTypeError | WUriError.

(** [v.f]. *)
Definition member (v : json) (f : string) : result web_exn json :=
  if is_nullish v then Throw WTypeError else Ok (get v f).

Section fetchers.
Context (apiBaseUrl : jstr) (parse : jstr → option json) (fetch : web_request → Z * jstr) (s : session).

Definition call (path method : jstr) (body : option jstr) : result web_exn json :=
  match apiFetch apiBaseUrl parse fetch s path method ∅ body with Ok v => Ok v | Throw e => Throw (WApi e) end.

Definition get_json (path : jstr) : result web_exn json := call path (js "GET") None.

(** [(await apiFetch(path)).data] and [.data.f]. *)
Definition data (res : result web_exn json) : result web_exn json := r ← res; member r "data".
Definition data_field (f : string) (res : result web_exn json) : result web_exn json := d ← data res; member d f.

Definition encoded (id : jstr) : result web_exn jstr :=
  match encodeURIComponent id with Some e => Ok e | None => Throw WUriError end.

(** [catch (err) { if (err instanceof ApiError && err.status === 404) return null; throw err; }] *)
Definition null_on_404 (r : result web_exn json) : result web_exn json :=
  match r with
  | Throw (WApi e) => if ae_status e =? 404 then Ok JNull else Throw (WApi e)
  | r => r
  end.

(** *** [api/provider.ts] *)

Definition fetchAggregates (dimension : jstr) : result web_exn json :=
  data_field "items" (get_json (js "/v1/decisions/aggregates?dimension=" ++ dimension)).
Definition fetchSamples (limit : Z) : result web_exn json :=
  data_field "items" (get_json (js "/v1/decisions/samples?limit=" ++ show_Z limit)).
Definition fetchAgents (limit : Z) : result web_exn json :=
  data_field "items" (get_json (js "/v1/decisions/agents?limit=" ++ show_Z limit)).
Definition fetchEdgeNodes : result web_exn json := data_field "items" (get_json (js "/v1/edge-nodes")).
Definition fetchGraphSummary : result web_exn json := data (get_json (js "/v1/graph/summary")).
Definition fetchActivePolicy : result web_exn json :=
  null_on_404 (data_field "policy" (get_json (js "/v1/policies/active"))).

(** *** [api/admin.ts] *)

Definition fetchTenants : result web_exn json := data_field "items" (get_json (js "/v1/tenants")).
Definition fetchBootstrapIssuers : result web_exn json := data_field "items" (get_json (js "/v1/admin/bootstrap-issuers")).

(** The members of the patch: [None] absent. *)
Record issuer_patch := mkPatch { pa_current_weight : option number; pa_de_emphasis_reason : option (option jstr) }.

Definition patch_body (principalId : jstr) (p : issuer_patch) : json :=
  JObj ([(js "principal_id", JStr principalId)]
    ++ (match pa_current_weight p with Some w => [(js "current_weight", JNum w)] | None => [] end)
    ++ (match pa_de_emphasis_reason p with
        | Some (Some r) => [(js "de_emphasis_reason", JStr r)]
        | Some None => [(js "de_emphasis_reason", JNull)]
        | None => []
        end)).

Definition updateBootstrapIssuer (principalId : jstr) (p : issuer_patch) : result web_exn json :=
  data_field "issuer" (call (js "/v1/admin/bootstrap-issuers") (js "PATCH") (Some (stringify (patch_body principalId p)))).

Definition fetchUnverifiedIssuers : result web_exn json := data_field "items" (get_json (js "/v1/admin/issuers/unverified")).
Definition createPortalSession : result web_exn json :=
  null_on_404 (data_field "url" (call (js "/v1/billing/portal-session") (js "POST") (Some (js "{}")))).
Definition fetchDeEmphasis : result web_exn json := data (get_json (js "/v1/admin/bootstrap/de-emphasis")).

(** *** [api/agentBuilder.ts] *)

Definition fetchOwnedPrincipals : result web_exn json := data_field "items" (get_json (js "/v1/principals")).
Definition fetchPrincipalDetail (id : jstr) : result web_exn json :=
  e ← encoded id; data (get_json (js "/v1/principals/" ++ e)).
Definition fetchPrincipalKeys (id : jstr) : result web_exn json :=
  e ← encoded id; data (get_json (js "/v1/principals/" ++ e ++ js "/keys")).

Inductive direction := In | Out.
Definition fetchAttestations (id : jstr) (dir : direction) (limit : Z) : result web_exn json :=
  let param := match dir with In => js "subject_id" | Out => js "issuer_id" end in
  e ← encoded id;
  data_field "items" (get_json (js "/v1/attestations?" ++ param ++ js "=" ++ e ++ js "&limit=" ++ show_Z limit)).

Definition fetchScoreHistory (id : jstr) : result web_exn json :=
  e ← encoded id; data (get_json (js "/v1/scores/" ++ e ++ js "/history")).
Definition safeScoreHistory (id : jstr) : result web_exn json := null_on_404 (fetchScoreHistory id).

(** *** Lemmas *)

(** The network carries a response. *)
Definition carries (r : response) : Prop :=
  (∀ q, fetch q = (r_status r, stringify (r_body r))) ∧
  parse (stringify (r_body r)) = Some (r_body r) ∧ stringify (r_body r) ≠ [].

(** How a handler's result is answered. *)
Definition respond {A} (enc : A → json) (r : result exn A) : response :=
  match r with Ok a => ok (enc a) | Throw e => error e end.

Lemma error_status_range err : 400 ≤ r_status (error err) ≤ 503.
Proof. unfold error, status, STATUS_FOR. cbn [r_status]. destruct (code (from err)); lia. Qed.

Lemma call_ok d path method body : carries (ok d) → call path method body = Ok (ok_body d).
Proof.
  intros (Hf & Hp & Hne). change (r_body (ok d)) with (ok_body d) in *.
  assert (Hb : parsed_body parse (stringify (ok_body d)) = ok_body d).
  { unfold parsed_body. rewrite Hp. by destruct (stringify (ok_body d)). }
  unfold call, apiFetch. rewrite Hf. change (r_status (ok d)) with 200. cbv beta iota zeta.
  change (200 =? 204) with false. change ((200 <=? 200) && (200 <=? 299)) with true. cbv iota. by rewrite Hb.
Qed.

Lemma call_error err path method body :
  carries (error err) → ∃ e, call path method body = Throw (WApi e) ∧ ae_status e = status (from err) ∧ ae_message e = message (from err).
Proof.
  intros (Hf & Hp & Hne). eexists. unfold call.
  rewrite (api_error_reaches_caller apiBaseUrl parse fetch s path method ∅ body err Hp Hf). by split_and!.
Qed.

Lemma data_field_ok f d path method body :
  carries (ok d) → is_nullish d = false → data_field f (call path method body) = Ok (get d f).
Proof.
  intros Hc Hd. unfold data_field, data. rewrite (call_ok d) by done. unfold mbind, result_bind, member. simpl.
  change (get (ok_body d) "data") with d. by rewrite Hd.
Qed.

Lemma data_field_error f err path method body :
  carries (error err) → ∃ e, data_field f (call path method body) = Throw (WApi e) ∧ ae_status e = status (from err).
Proof.
  intros Hc. destruct (call_error err path method body Hc) as (e & He & Hs & _). exists e.
  unfold data_field, data. by rewrite He.
Qed.

(** *** Properties *)

(** What the policy card shows is the table. For a caller with a tenant, when the
    response arrives intact, the dashboard gets the tenant's active policy, or
    [null] exactly when the tenant has none; every other refusal is an error with
    the server's status, never [null]. *)
Theorem active_policy_end_to_end a h d r d' (enc : Policy → json) :
  ReadRoutes.get_active_policy a h d = (r, d') →
  carries (respond (λ p, JObj [(js "policy", enc p)]) r) → (∀ p, is_nullish (enc p) = false) →
  (∀ u d1 t, Auth.authMiddleware a h d = (Ok u, d1) → Guards.requireTenant u = Ok t →
     fetchActivePolicy = Ok (match PolicyRepo.getActivePolicy t d1 with Some p => enc p | None => JNull end)) ∧
  (∀ err, r = Throw err → status (from err) ≠ 404 →
     ∃ e, fetchActivePolicy = Throw (WApi e) ∧ ae_status e = status (from err)).
Proof.
  intros Hr Hc Henc. split.
  - intros u d1 t Hu Ht. unfold ReadRoutes.get_active_policy in Hr.
    rewrite (M_bind_run _ _ _ _ _ Hu) in Hr. rewrite Ht in Hr. cbv [mbind M_bind lift reads] in Hr.
    unfold fetchActivePolicy, get_json.
    destruct (PolicyRepo.getActivePolicy t d1) as [p|].
    + injection Hr as <- <-. by rewrite (data_field_ok _ _ _ _ _ Hc).
    + injection Hr as <- <-. destruct (data_field_error "policy" _ (js "/v1/policies/active") (js "GET") None Hc) as (e & He & Hs).
      rewrite He. unfold null_on_404. by rewrite Hs.
  - intros err -> Hs. unfold fetchActivePolicy, get_json.
    destruct (data_field_error "policy" _ (js "/v1/policies/active") (js "GET") None Hc) as (e & He & He').
    exists e. rewrite He. unfold null_on_404. rewrite He'. by rewrite (proj2 (Z.eqb_neq _ _)).
Qed.

(** The billing link tells the truth. For a caller with a tenant the dashboard
    gets [null], which it shows as having no subscription, exactly when the tenant
    has none; otherwise it gets the portal's address, or an error. *)
Theorem portal_link_end_to_end a (e : benv) h d r d' u d1 t :
  BillingRoutes.post_portal a e h d = (r, d') →
  Auth.authMiddleware a h d = (Ok u, d1) → Guards.requireTenant u = Ok t →
  carries (respond (λ url, JObj [(js "url", JStr url)]) r) →
  (∀ c u x, be_portal e c u = Throw x → status (from x) ≠ 404) →
  (createPortalSession = Ok JNull ↔ SubscriptionRepo.getSubscriptionByTenant t d1 = None) ∧
  (∀ url, createPortalSession = Ok (JStr url) → r = Ok url).
Proof.
  intros Hr Hu Ht Hc Hx. unfold BillingRoutes.post_portal in Hr.
  rewrite (M_bind_run _ _ _ _ _ Hu) in Hr. rewrite Ht in Hr. cbv [mbind M_bind lift reads] in Hr.
  assert (Hr' : r = BillingService.createPortalSession e t d1) by congruence. clear Hr. subst r.
  unfold createPortalSession. unfold BillingService.createPortalSession in *.
  destruct (SubscriptionRepo.getSubscriptionByTenant t d1) as [sub|].
  - destruct (mbind _ _) as [url|x] eqn:E in Hc |- *.
    + rewrite (data_field_ok _ _ _ _ _ Hc) by done. simpl. split; [split; discriminate|]. by intros url' [= <-].
    + destruct (data_field_error "url" _ (js "/v1/billing/portal-session") (js "POST") (Some (js "{}")) Hc) as (e' & He & Hs).
      rewrite He. unfold null_on_404. rewrite Hs.
      assert (Hne : status (from x) ≠ 404).
      { unfold mbind, result_bind, BillingService.webAppUrl in E. destruct (truthy_str _); [by eapply Hx|].
        unfold throw_app in E. injection E as <-. vm_compute. discriminate. }
      rewrite (proj2 (Z.eqb_neq _ _)) by done. split; [split; discriminate|discriminate].
  - destruct (data_field_error "url" _ (js "/v1/billing/portal-session") (js "POST") (Some (js "{}")) Hc) as (e' & He & Hs).
    rewrite He. unfold null_on_404. rewrite Hs. split; [done|]. discriminate.
Qed.

(** The members of the body that the route reads. *)
Definition weight_json (w : option number) : json := match w with Some w => JNum w | None => JUndef end.
Definition reason_json (r : option (option jstr)) : json :=
  match r with Some (Some r) => JStr r | Some None => JNull | None => JUndef end.

Lemma patch_body_fields principal p :
  get (patch_body principal p) "principal_id" = JStr principal ∧
  get (patch_body principal p) "current_weight" = weight_json (pa_current_weight p) ∧
  get (patch_body principal p) "de_emphasis_reason" = reason_json (pa_de_emphasis_reason p) ∧
  get (patch_body principal p) "remove_from_registry" = JUndef.
Proof. destruct p as [[w|] [[r|]|]]; split_and!; reflexivity. Qed.

(** What the registry editor sends is what the server applies: any weight between
    0 and 1 and any reason passes the validation of the route and comes out as the
    same update. *)
Lemma patch_parsed c principal w reason user :
  isNaN w = false → num_ltb w (num_of_Z 0) = false → num_ltb (num_of_Z 1) w = false →
  BootstrapRepo.parse_patch (patch_body (c :: principal) (mkPatch (Some w) (Some reason))) user =
    Ok (c :: principal, BootstrapRepo.mkBootUpdate (Some w) (Some reason) (Some user) None) ∧
  BootstrapRepo.parse_patch (patch_body (c :: principal) (mkPatch None (Some reason))) user =
    Ok (c :: principal, BootstrapRepo.mkBootUpdate None (Some reason) (Some user) None).
Proof.
  intros H1 H2 H3. unfold BootstrapRepo.parse_patch.
  destruct (patch_body_fields (c :: principal) (mkPatch (Some w) (Some reason))) as (-> & -> & -> & ->).
  destruct (patch_body_fields (c :: principal) (mkPatch None (Some reason))) as (-> & -> & -> & ->).
  change (is_nullish (patch_body _ _)) with false.
  destruct reason as [reason|]; cbv [guard_or negb mbind result_bind weight_json reason_json pa_current_weight pa_de_emphasis_reason];
    rewrite ?H1, ?H2, ?H3; done.
Qed.

End fetchers.

(** ** Ids in addresses *)

(** What percent decoding makes of a text: its bytes. *)
Definition hex_of (c : Z) : Z := if c <? 65 then c - 48 else c - 55.
Fixpoint unpercent (s : jstr) : list Z :=
  match s with
  | 37 :: h :: l :: s' => (16 * hex_of h + hex_of l) :: unpercent s'
  | c :: s' => c :: unpercent s'
  | [] => []
  end.

(** A character that keeps its meaning inside a path segment or a query value. *)
Definition segment_char (c : Z) : bool := unreserved c || (c =? 37).

(** *** What the browser and the server make of an address

    The URL parser cuts the fragment and the query off, resolves dot segments, written
    as full stops or as [%2e], and the router of the control plane matches what is left
    segment by segment; parameters of the query are separated by ampersands. *)

Definition cut (sep : Z) (s : jstr) : jstr := hd [] (split_on sep s).

Fixpoint undot (s : jstr) : jstr :=
  match s with
  | [] => []
  | c :: s' =>
      match s' with
      | d1 :: d2 :: s'' =>
          if (c =? 37) && ((d1 =? 50) && ((d2 =? 69) || (d2 =? 101))) then 46 :: undot s'' else c :: undot s'
      | _ => c :: undot s'
      end
  end.

Fixpoint resolve (acc segs : list jstr) : list jstr :=
  match segs with
  | [] => reverse acc
  | x :: rest =>
      if bool_decide (undot x = js ".")
      then match rest with [] => reverse ([] :: acc) | _ => resolve acc rest end
      else if bool_decide (undot x = js "..")
      then let acc := match acc with [] => [] | [a] => [a] | _ :: acc => acc end in
           match rest with [] => reverse ([] :: acc) | _ => resolve acc rest end
      else resolve (x :: acc) rest
  end.

Definition route (path : jstr) : list jstr * list (jstr * jstr) :=
  let address := cut 35 path in
  (resolve [] (split_on 47 (cut 63 address)),
   match tl (split_on 63 address) with
   | [] => []
   | q => (λ kv, (cut 61 kv, join [61] (tl (split_on 61 kv)))) <$> split_on 38 (join [63] q)
   end).

(** The request of a GET fetcher, and a network that answers it with data [d]. *)
Definition get_request (base : jstr) (s : session) (path : jstr) : web_request :=
  mkWeb (base ++ path) (js "GET") (request_headers s ∅ None) None.

Definition answers (parse : jstr → option json) (response : Z * jstr) (d : json) : Prop :=
  ∃ text, response = (200, text) ∧ parse text = Some (ok_body d) ∧ text ≠ [].

Lemma hex_of_upper d : 0 ≤ d < 16 → hex_of (upper_hex d) = d ∧ segment_char (upper_hex d) = true.
Proof.
  intros Hd. unfold upper_hex, hex_of, segment_char, unreserved, is_digit. destruct (d <? 10) eqn:E; bool_to_prop.
  - rewrite (proj2 (Z.ltb_lt (48 + d) 65)) by lia. split; [lia|].
    by rewrite (proj2 (Z.leb_le 48 (48 + d))), (proj2 (Z.leb_le (48 + d) 57)) by lia.
  - rewrite (proj2 (Z.ltb_ge (55 + d) 65)) by lia. split; [lia|].
    rewrite (proj2 (Z.leb_le 65 (55 + d))), (proj2 (Z.leb_le (55 + d) 90)) by lia. by rewrite !orb_true_r.
Qed.

Lemma unpercent_bytes bs s :
  Forall (λ b, 0 ≤ b < 256) bs →
  unpercent (concat (percent <$> bs) ++ s) = bs ++ unpercent s ∧ forallb segment_char (concat (percent <$> bs)) = true.
Proof.
  induction bs as [|b bs IH]; intros HF; [done|]. apply Forall_cons in HF as [Hb HF]. destruct (IH HF) as [IH1 IH2].
  pose proof (Z.div_pos b 16 ltac:(lia) ltac:(lia)). pose proof (Z.div_lt_upper_bound b 16 16 ltac:(lia) ltac:(lia)).
  pose proof (Z.mod_pos_bound b 16 ltac:(lia)). pose proof (Z_div_mod_eq_full b 16).
  destruct (hex_of_upper (b / 16) ltac:(lia)) as [E1 E2], (hex_of_upper (b mod 16) ltac:(lia)) as [E3 E4].
  split; simpl; [|by rewrite E2, E4]. rewrite E1, E3. change (concat (list_fmap _ _ percent bs)) with (concat (percent <$> bs)).
  f_equal; [lia|exact IH1].
Qed.

Lemma unreserved_plain c s : unreserved c = true → unpercent (c :: s) = c :: unpercent s ∧ 0 ≤ c < 128.
Proof.
  intros Hu. assert (Hr : c ≠ 37 ∧ 0 ≤ c < 128).
  { unfold unreserved in Hu. rewrite !orb_true_iff, !andb_true_iff in Hu. unfold is_digit in Hu. rewrite andb_true_iff in Hu.
    rewrite bool_decide_eq_true in Hu. destruct Hu as [[[[? ?]|[? ?]]|[? ?]]|Hin]; bool_to_prop; [lia..|].
    change (js "-_.!~*'()") with [45; 95; 46; 33; 126; 42; 39; 40; 41] in Hin. set_unfold in Hin. lia. }
  destruct Hr as [H1 H2]. split; [|done]. destruct c as [|p|p]; [done| |done].
  simpl. repeat (destruct p as [p|p|]; try done).
Qed.

(** The bytes of a character that is encoded. *)
Lemma utf8_unit_bytes c : 0 ≤ c < 65536 → unreserved c = false → Forall (λ b, 0 ≤ b < 256 ∧ b ≠ 46) (utf8_unit c).
Proof.
  intros Hc Hu. assert (Hd : c ≠ 46) by (by intros ->). unfold utf8_unit.
  pose proof (Z.mod_pos_bound c 64 ltac:(lia)). pose proof (Z.mod_pos_bound (c / 64) 64 ltac:(lia)).
  destruct (c <? 128) eqn:E1; [|destruct (c <? 2048) eqn:E2]; bool_to_prop.
  - apply Forall_singleton. lia.
  - pose proof (Z.div_pos c 64 ltac:(lia) ltac:(lia)). pose proof (Z.div_lt_upper_bound c 64 32 ltac:(lia) ltac:(lia)).
    apply Forall_cons. split; [lia|]. apply Forall_singleton. lia.
  - pose proof (Z.div_pos c 4096 ltac:(lia) ltac:(lia)). pose proof (Z.div_lt_upper_bound c 4096 16 ltac:(lia) ltac:(lia)).
    apply Forall_cons. split; [lia|]. apply Forall_cons. split; [lia|]. apply Forall_singleton. lia.
Qed.

Lemma utf8_pair_bytes h l : is_high h = true → is_low l = true → Forall (λ b, 0 ≤ b < 256 ∧ b ≠ 46) (utf8_pair h l).
Proof.
  unfold is_high, is_low. intros Hh Hl. bool_to_prop. unfold utf8_pair.
  set (c := 0x10000 + (h - 0xd800) * 1024 + (l - 0xdc00)). assert (Hc : 0 ≤ c < 1114112) by lia.
  pose proof (Z.mod_pos_bound c 64 ltac:(lia)). pose proof (Z.mod_pos_bound (c / 64) 64 ltac:(lia)).
  pose proof (Z.mod_pos_bound (c / 4096) 64 ltac:(lia)).
  pose proof (Z.div_pos c 262144 ltac:(lia) ltac:(lia)). pose proof (Z.div_lt_upper_bound c 262144 5 ltac:(lia) ltac:(lia)).
  repeat (apply Forall_cons; split; [lia|]). apply Forall_nil. exact I.
Qed.

(** *** Encoded ids *)

(** What [encodeURIComponent] writes, as a relation: characters that stay, and bytes
    of characters that do not, none of which is a full stop. *)
Inductive encodes : jstr → jstr → Prop :=
| enc_nil : encodes [] []
| enc_char c s e : unreserved c = true → encodes s e → encodes (c :: s) (c :: e)
| enc_bytes cs bs s e : cs ≠ [] → bs ≠ [] → Forall (λ b, 0 ≤ b < 256 ∧ b ≠ 46) bs → utf8 (cs ++ s) = bs ++ utf8 s →
    encodes s e → encodes (cs ++ s) (concat (percent <$> bs) ++ e).

Lemma encode_encodes id e : Forall (λ c, 0 ≤ c < 65536) id → encodeURIComponent id = Some e → encodes id e.
Proof.
  enough (∀ n id e, (length id < n)%nat → Forall (λ c, 0 ≤ c < 65536) id → encodeURIComponent id = Some e → encodes id e) by eauto.
  clear id e. induction n as [|n IH]; intros id e Hn HF He; [lia|].
  destruct id as [|c s]; [injection He as <-; constructor|]. apply Forall_cons in HF as [Hc HF]. simpl in Hn.
  cbn [encodeURIComponent] in He. destruct (unreserved c) eqn:Hu.
  - destruct (encodeURIComponent s) as [r|] eqn:Er; [|done]. injection He as <-. constructor; [done|]. by apply IH; [lia|..].
  - destruct (is_high c) eqn:Eh.
    + destruct s as [|l s']; [done|]. destruct (is_low l) eqn:El; [|done].
      destruct (encodeURIComponent s') as [r|] eqn:Er; [|done].
      change (Some (concat (percent <$> utf8_pair c l) ++ r) = Some e) in He. apply (inj Some) in He as <-.
      apply Forall_cons in HF as [_ HF]. simpl in Hn. apply (enc_bytes [c; l]); [done|done| | |by apply IH; [lia|..]].
      * by apply utf8_pair_bytes.
      * change ([c; l] ++ s') with (c :: l :: s'). cbn [utf8]. by rewrite Eh, El.
    + destruct (is_low c) eqn:El; [done|]. destruct (encodeURIComponent s) as [r|] eqn:Er; [|done].
      change (Some (concat (percent <$> utf8_unit c) ++ r) = Some e) in He. apply (inj Some) in He as <-.
      apply (enc_bytes [c]); [done| | | |by apply IH; [lia|..]].
      * unfold utf8_unit. by repeat case_match.
      * by apply utf8_unit_bytes.
      * change ([c] ++ s) with (c :: s). cbn [utf8]. by rewrite Eh, El.
Qed.

Lemma encodes_segment id e : encodes id e → forallb segment_char e = true ∧ unpercent e = utf8 id.
Proof.
  induction 1 as [|c s e Hu _ [I1 I2]|cs bs s e _ _ HF Hb _ [I1 I2]]; [done| |].
  - destruct (unreserved_plain c e Hu) as [Hp Hr].
    assert (is_high c = false ∧ is_low c = false) as [Eh El]
      by (unfold is_high, is_low; rewrite !andb_false_iff, !Z.leb_gt; lia).
    cbn [utf8]. rewrite Eh, El, Hp, I2. split; [|unfold utf8_unit; by rewrite (proj2 (Z.ltb_lt _ _)) by lia].
    simpl. rewrite I1. unfold segment_char. by rewrite Hu.
  - destruct (unpercent_bytes bs e) as [P1 P2]; [eapply Forall_impl; [exact HF|]; simpl; tauto|].
    by rewrite P1, I2, Hb, forallb_app, P2, I1.
Qed.

Lemma undot_other c s : c ≠ 37 → undot (c :: s) = c :: undot s.
Proof. intros Hc. cbn [undot]. destruct s as [|d1 [|d2 s]]; [done|done|]. by rewrite (proj2 (Z.eqb_neq _ _)). Qed.

Lemma upper_hex_not_percent d : 0 ≤ d < 16 → upper_hex d ≠ 37.
Proof. unfold upper_hex. destruct (d <? 10); lia. Qed.

Lemma undot_percent b s : 0 ≤ b < 256 → b ≠ 46 → undot (percent b ++ s) = percent b ++ undot s.
Proof.
  intros Hb Hne. pose proof (Z.div_pos b 16 ltac:(lia) ltac:(lia)). pose proof (Z.div_lt_upper_bound b 16 16 ltac:(lia) ltac:(lia)).
  pose proof (Z.mod_pos_bound b 16 ltac:(lia)). pose proof (Z_div_mod_eq_full b 16).
  unfold percent. cbn [app]. set (h := upper_hex (b / 16)). set (l := upper_hex (b mod 16)).
  assert (Hh : undot (37 :: h :: l :: s) = 37 :: undot (h :: l :: s)).
  { cbn [undot]. assert ((h =? 50) && ((l =? 69) || (l =? 101)) = false) as ->; [|done].
    unfold h, l, upper_hex. destruct (Z.ltb_spec (b / 16) 10), (Z.ltb_spec (b mod 16) 10);
      apply andb_false_iff; rewrite orb_false_iff, !Z.eqb_neq; lia. }
  rewrite Hh, !undot_other by (by apply upper_hex_not_percent). done.
Qed.

(** An encoded id has no disguised full stop. *)
Lemma encodes_undot id e : encodes id e → undot e = e.
Proof.
  induction 1 as [|c s e Hu _ IH|cs bs s e _ _ HF _ _ IH]; [done| |].
  - rewrite undot_other, IH; [done|]. intros ->. discriminate Hu.
  - induction HF as [|b bs [Hb Hne] _ IHb]; [done|]. cbn [fmap list_fmap concat]. rewrite <- app_assoc, undot_percent by done. f_equal. exact IHb.
Qed.

Lemma encodes_plain id e : encodes id e → 37 ∉ e → id = e.
Proof.
  induction 1 as [|c s e _ _ IH|cs [|b bs] s e _ Hne _ _ _ _]; [done| |done|]; rewrite ?not_elem_of_cons.
  - intros [_ H]. by rewrite <- IH.
  - intros H. destruct H. by left.
Qed.

Lemma segment_free c e : forallb segment_char e = true → segment_char c = false → c ∉ e.
Proof. rewrite forallb_forall. intros H Hc Hin. apply list_elem_of_In, H in Hin. congruence. Qed.

(** *** Addresses *)

Lemma cut_free sep s : sep ∉ s → cut sep s = s.
Proof. intros H. unfold cut. by rewrite split_on_clean. Qed.

Lemma resolve_clean acc segs : Forall (λ s, undot s ≠ js "." ∧ undot s ≠ js "..") segs → resolve acc segs = reverse acc ++ segs.
Proof.
  intros HF. revert acc. induction HF as [|x segs [H1 H2] _ IH]; intros acc; cbn [resolve]; [by rewrite app_nil_r|].
  rewrite !bool_decide_eq_false_2 by done. rewrite IH, reverse_cons. by rewrite <- app_assoc.
Qed.

(** A path without a query: the segments it is written with, when none is a dot. *)
Lemma route_plain p : 35 ∉ p → 63 ∉ p → Forall (λ s, undot s ≠ js "." ∧ undot s ≠ js "..") (split_on 47 p) →
  route p = (split_on 47 p, []).
Proof.
  intros H1 H2 HF. unfold route, cut. rewrite !(split_on_clean 35), !(split_on_clean 63) by done. cbn [hd tl].
  by rewrite resolve_clean.
Qed.

Lemma id_not_dot id e : encodes id e → id ∉ [js "."; js ".."] → undot e ≠ js "." ∧ undot e ≠ js "..".
Proof.
  intros He Hid. rewrite (encodes_undot _ _ He). split; intros ->; apply Hid; rewrite (encodes_plain _ _ He); set_solver.
Qed.

Lemma answered_at base parse fetch s path d :
  (∃ p, path = 47 :: p) →
  answers parse (fetch (get_request base s path)) d →
  get_json base parse fetch s path = Ok (ok_body d).
Proof.
  intros [p ->] (text & Hf & Hp & Hne). unfold get_json, call, apiFetch. unfold get_request in Hf. rewrite Hf.
  cbn [Z.eqb Z.leb]. assert (Hb : parsed_body parse text = ok_body d) by (unfold parsed_body; rewrite Hp; by destruct text).
  change (200 =? 204) with false. change ((200 <=? 200) && (200 <=? 299)) with true. cbv iota beta zeta. by rewrite Hb.
Qed.

(** A path of segments without dots, and its route. *)
Definition segment_ok (w : jstr) : Prop := forallb segment_char w = true ∧ undot w ≠ js "." ∧ undot w ≠ js "..".

Definition path_of (ws : list jstr) : jstr := concat ((λ w, 47 :: w) <$> ws).

Lemma split_path w ws : Forall (λ w, 47 ∉ w) (w :: ws) → split_on 47 (w ++ path_of ws) = w :: ws.
Proof.
  revert w. induction ws as [|x ws IH]; intros w [Hw HF]%Forall_cons.
  - unfold path_of. simpl. by rewrite app_nil_r, split_on_clean.
  - change (path_of (x :: ws)) with (47 :: x ++ path_of ws). by rewrite split_on_app, IH.
Qed.

Lemma path_free sep ws : segment_char sep = false → sep ≠ 47 → Forall segment_ok ws → sep ∉ path_of ws.
Proof.
  intros Hs Hne. induction 1 as [|w ws [Hw _] _ IH]; [apply not_elem_of_nil|].
  change (path_of (w :: ws)) with (47 :: w ++ path_of ws). rewrite not_elem_of_cons, not_elem_of_app.
  split_and!; [done|by apply (segment_free sep w)|done].
Qed.

Lemma route_path ws : ws ≠ [] → Forall segment_ok ws → route (path_of ws) = ([] :: ws, []).
Proof.
  intros Hne HF. assert (Hsp : split_on 47 (path_of ws) = [] :: ws).
  { apply (split_path []). apply Forall_cons. split; [apply not_elem_of_nil|].
    eapply Forall_impl; [exact HF|]. intros w [Hw _]. by apply segment_free. }
  rewrite route_plain, Hsp; [done|by apply path_free|by apply path_free|].
  rewrite Hsp. apply Forall_cons. split; [done|]. eapply Forall_impl; [exact HF|]. intros w [_ H]. exact H.
Qed.

Lemma literal_ok (w : string) : forallb segment_char (js w) && bool_decide (undot (js w) ∉ [js "."; js ".."]) = true → segment_ok (js w).
Proof. intros [H1 H2%bool_decide_eq_true]%andb_true_iff. split; [done|]. set_solver. Qed.

Lemma id_ok id e : encodes id e → id ∉ [js "."; js ".."] → segment_ok e.
Proof. intros He Hid. split; [by apply (encodes_segment id)|by apply (id_not_dot id)]. Qed.

(** The query of [fetchAttestations]. *)
Lemma route_query path k1 v1 k2 v2 :
  path ≠ [] → Forall segment_ok path → Forall (λ w, forallb segment_char w = true) [k1; v1; k2; v2] →
  route (path_of path ++ 63 :: k1 ++ 61 :: v1 ++ 38 :: k2 ++ 61 :: v2) = ([] :: path, [(k1, v1); (k2, v2)]).
Proof.
  intros Hne HF Hq. set (q := k1 ++ 61 :: v1 ++ 38 :: k2 ++ 61 :: v2).
  assert (Hfree : ∀ c, segment_char c = false → c ∉ k1 ∧ c ∉ v1 ∧ c ∉ k2 ∧ c ∉ v2).
  { intros c Hc. repeat setoid_rewrite Forall_cons in Hq. destruct Hq as (? & ? & ? & ? & _).
    split_and!; by apply segment_free. }
  assert (Hq2 : ∀ c, segment_char c = false → c ≠ 61 → c ≠ 38 → c ∉ q).
  { intros c Hc H1 H2. destruct (Hfree c Hc) as (? & ? & ? & ?). unfold q.
    repeat (rewrite not_elem_of_app || rewrite not_elem_of_cons). tauto. }
  unfold route. rewrite (cut_free 35).
  2:{ rewrite not_elem_of_app, not_elem_of_cons. split_and!; [by apply path_free|done|by apply Hq2]. }
  pose proof (route_path path Hne HF) as Hr. unfold route in Hr. rewrite (cut_free 35) in Hr by (by apply path_free).
  assert (Hs63 : split_on 63 (path_of path ++ 63 :: q) = [path_of path; q]).
  { rewrite split_on_app by (by apply path_free). f_equal. apply split_on_clean. by apply Hq2. }
  assert (Hcut : cut 63 (path_of path ++ 63 :: q) = cut 63 (path_of path)).
  { unfold cut. rewrite Hs63. rewrite split_on_clean by (by apply path_free). done. }
  rewrite Hcut, Hs63. injection Hr as Hr _. rewrite Hr. cbn [tl join]. f_equal.
  destruct (Hfree 38 eq_refl) as (N1 & N2 & N3 & N4), (Hfree 61 eq_refl) as (M1 & M2 & M3 & M4).
  assert (Hsp : split_on 38 q = [k1 ++ 61 :: v1; k2 ++ 61 :: v2]).
  { unfold q. replace (k1 ++ 61 :: v1 ++ 38 :: k2 ++ 61 :: v2) with ((k1 ++ 61 :: v1) ++ 38 :: k2 ++ 61 :: v2) by (by rewrite <- app_assoc).
    rewrite split_on_app; [f_equal; apply split_on_clean|]; rewrite not_elem_of_app, not_elem_of_cons; done. }
  rewrite Hsp. unfold cut. cbn [fmap list_fmap]. rewrite !split_on_app, !split_on_clean by done. done.
Qed.

Lemma show_segment n : 0 ≤ n → forallb segment_char (show_Z n) = true.
Proof.
  intros Hn. destruct (show_Z_nonneg n Hn) as [Hd _]. apply all_digits_forallb in Hd. rewrite forallb_forall in *.
  intros c Hc%Hd. unfold segment_char, unreserved. by rewrite Hc.
Qed.

(** The fetcher [F] returns [out d] whatever the network says elsewhere, if it answers
    the GET of [path] with [d]. *)
Definition asks (base : jstr) (parse : jstr → option json) (s : session) (F : (web_request → Z * jstr) → result web_exn json)
    (path : jstr) (out : json → json) : Prop :=
  ∀ fetch d, is_nullish d = false → answers parse (fetch (get_request base s path)) d → F fetch = Ok (out d).

Lemma asks_data base parse s path : (∃ p, path = 47 :: p) →
  asks base parse s (λ fetch, data (get_json base parse fetch s path)) path (λ d, d).
Proof. intros Hp fetch d _ Ha. unfold data. by rewrite (answered_at _ _ _ _ _ d Hp Ha). Qed.

Lemma asks_field base parse s f path : (∃ p, path = 47 :: p) →
  asks base parse s (λ fetch, data_field f (get_json base parse fetch s path)) path (λ d, get d f).
Proof.
  intros Hp fetch d Hd Ha. unfold data_field, data. rewrite (answered_at _ _ _ _ _ d Hp Ha).
  cbn [mbind result_bind]. unfold member. change (is_nullish (ok_body d)) with false. cbn iota.
  change (get (ok_body d) "data") with d. cbn [mbind result_bind]. by rewrite Hd.
Qed.

Definition attestations_path (dir : direction) (e : jstr) (limit : Z) : jstr :=
  js "/v1/attestations?" ++ (match dir with In => js "subject_id" | Out => js "issuer_id" end) ++ js "=" ++ e
  ++ js "&limit=" ++ show_Z limit.

(** C34. An id in an address names its own principal. For an id of UTF-16 units
    without lone surrogates, the pages' fetchers (detail, keys, score history,
    attestations) return what the server answers to one GET each, whose address, as
    the URL parser and the router read it, is that fetcher's own route with one
    segment, or one query value, that decodes to the UTF-8 bytes of the id: no slash,
    question mark, ampersand or hash in an id leads elsewhere or adds a parameter.
    The exceptions are the ids [.], [..] and the empty one in a path: the encoding
    leaves full stops alone, so that dot segments are resolved
    ([dot_ids_leave_their_route]). *)
Theorem id_reaches_its_route base parse s id e :
  Forall (λ c, 0 ≤ c < 65536) id → encodeURIComponent id = Some e →
  let detail := js "/v1/principals/" ++ e in
  let keys := js "/v1/principals/" ++ e ++ js "/keys" in
  let history := js "/v1/scores/" ++ e ++ js "/history" in
  unpercent e = utf8 id ∧
  asks base parse s (λ fetch, fetchPrincipalDetail base parse fetch s id) detail (λ d, d) ∧
  asks base parse s (λ fetch, fetchPrincipalKeys base parse fetch s id) keys (λ d, d) ∧
  asks base parse s (λ fetch, fetchScoreHistory base parse fetch s id) history (λ d, d) ∧
  (∀ dir n, asks base parse s (λ fetch, fetchAttestations base parse fetch s id dir n) (attestations_path dir e n)
              (λ d, get d "items")) ∧
  (id ∉ [[]; js "."; js ".."] →
   route detail = ([[]; js "v1"; js "principals"; e], []) ∧
   route keys = ([[]; js "v1"; js "principals"; e; js "keys"], []) ∧
   route history = ([[]; js "v1"; js "scores"; e; js "history"], [])) ∧
  (∀ dir n, 0 ≤ n → route (attestations_path dir e n) =
     ([[]; js "v1"; js "attestations"],
      [((match dir with In => js "subject_id" | Out => js "issuer_id" end), e); (js "limit", show_Z n)])).
Proof.
  intros HF He detail keys history. pose proof (encode_encodes id e HF He) as Hen.
  destruct (encodes_segment id e Hen) as [Hseg Hun]. split; [done|].
  unfold fetchPrincipalDetail, fetchPrincipalKeys, fetchScoreHistory, fetchAttestations, encoded. rewrite He.
  cbn [mbind result_bind]. split_and!.
  - apply asks_data. by eexists.
  - apply asks_data. by eexists.
  - apply asks_data. by eexists.
  - intros dir n. apply asks_field. by eexists.
  - intros Hid. assert (Hok : segment_ok e) by (apply (id_ok id); [done|set_solver]).
    assert (Hw : ∀ ws, ws ≠ [] → Forall segment_ok ws → route (path_of ws) = ([] :: ws, [])) by apply route_path.
    specialize (Hw [js "v1"; js "principals"; e]) as H1. specialize (Hw [js "v1"; js "principals"; e; js "keys"]) as H2.
    specialize (Hw [js "v1"; js "scores"; e; js "history"]) as H3. unfold path_of in H1, H2, H3.
    cbn [fmap list_fmap concat] in H1, H2, H3. rewrite app_nil_r in H1.
    split_and!; [apply H1|apply H2|apply H3]; try done; repeat (apply Forall_cons_2 || apply Forall_nil_2);
      done || by apply literal_ok.
  - intros dir n Hn. pose proof (route_query [js "v1"; js "attestations"]) as H.
    specialize (H (match dir with In => js "subject_id" | Out => js "issuer_id" end) e (js "limit") (show_Z n)).
    unfold attestations_path. unfold path_of in H. cbn [fmap list_fmap concat] in H. apply H.
    + done.
    + repeat (apply Forall_cons_2 || apply Forall_nil_2); by apply literal_ok.
    + repeat (apply Forall_cons_2 || apply Forall_nil_2); [by destruct dir|done|done|by apply show_segment].
Qed.

(** The ids the encoding does not protect: the keys of principal [..] are asked of
    /v1/keys, its detail of /v1/, and the principal [.] is asked as the list of all. *)
Theorem dot_ids_leave_their_route :
  encodeURIComponent (js "..") = Some (js "..") ∧ encodeURIComponent (js ".") = Some (js ".") ∧
  route (js "/v1/principals/" ++ js ".." ++ js "/keys") = ([[]; js "v1"; js "keys"], []) ∧
  route (js "/v1/principals/" ++ js "..") = ([[]; js "v1"; []], []) ∧
  route (js "/v1/principals/" ++ js ".") = ([[]; js "v1"; js "principals"; []], []).
Proof. vm_compute. split_and!; reflexivity. Qed.
(** *** The properties at concrete inputs *)

(** A tenant without a policy; the network carries the 404. *)
Lemma active_policy_end_to_end_witness :
  let body := r_body (error (EApp (app_error NOT_FOUND (js "No active policy for tenant")))) in
  fetchActivePolicy (js "http://x") (λ _, Some body) (λ _, (404, stringify body)) (mkSession (Some AuthInv.a_key_secret) None) = Ok JNull.
Proof.
  intros body.
  edestruct (fst_run (Auth.authMiddleware (AuthInv.toy_env "k9" 49) AccessInv.key_headers AccessInv.shared_db)) as [d1 Hu];
    [vm_compute; reflexivity|].
  edestruct (fst_run (ReadRoutes.get_active_policy (AuthInv.toy_env "k9" 49) AccessInv.key_headers AccessInv.shared_db)) as [d2 Hr];
    [vm_compute; reflexivity|].
  destruct (active_policy_end_to_end (js "http://x") (λ _, Some body) (λ _, (404, stringify body))
    (mkSession (Some AuthInv.a_key_secret) None) _ _ _ _ _ (λ p, PolicyRepo.policy_json p) Hr) as [H _].
  - split; [intros q; reflexivity|]. split; [reflexivity|vm_compute; discriminate].
  - intros p. reflexivity.
  - rewrite (H _ _ _ Hu eq_refl).
    assert (Hd1 : d1 = (Auth.authMiddleware (AuthInv.toy_env "k9" 49) AccessInv.key_headers AccessInv.shared_db).2) by (by rewrite Hu).
    rewrite Hd1. vm_compute. reflexivity.
Defined.

(** An id with a slash, a question mark, a hash, a letter with an accent and an emoji,
    and a network that knows one address. *)
Definition odd_id : jstr := js "../b?#" ++ [233; 0xd83d; 0xde00].
Definition odd_path : jstr := js "/v1/principals/..%2Fb%3F%23%C3%A9%F0%9F%98%80/keys".
Definition one_address (r : web_request) : Z * jstr :=
  if decide (w_path r = odd_path) then (200, js "keys") else (404, js "nothing").

Lemma id_reaches_its_route_witness :
  let parse := λ t, if decide (t = js "keys") then Some (ok_body (JArr [])) else None in
  fetchPrincipalKeys [] parse one_address (mkSession None None) odd_id = Ok (JArr []) ∧
  route odd_path = ([[]; js "v1"; js "principals"; js "..%2Fb%3F%23%C3%A9%F0%9F%98%80"; js "keys"], []) ∧
  unpercent (js "..%2Fb%3F%23%C3%A9%F0%9F%98%80") = utf8 odd_id.
Proof.
  intros parse. destruct (id_reaches_its_route [] parse (mkSession None None) odd_id (js "..%2Fb%3F%23%C3%A9%F0%9F%98%80"))
    as (H1 & _ & H2 & _ & _ & H3 & _).
  - apply (bool_decide_unpack (Forall (λ c, 0 ≤ c < 65536) _)). vm_compute. exact I.
  - vm_compute. reflexivity.
  - split; [|split; [|exact H1]].
    + apply H2; [reflexivity|]. exists (js "keys"). split; [reflexivity|]. split; [reflexivity|discriminate].
    + apply H3. apply (bool_decide_unpack _). vm_compute. exact I.
Defined.

End DashboardApi.
