(* ===== verification/Wire.v ===== *)
(** * The interfaces the dashboard declares, and what the control plane sends

    The dashboard reads answers with TypeScript interfaces that nothing checks at
    run time ([src/dashboard/src/api/provider.ts], [admin.ts], [agentBuilder.ts]
    and [lib/aggregates.ts]).  Here each interface is a description [ity] of JSON
    values with a decidable [has_type]; the encoders give the JSON of the rows the
    control plane's queries return, column by column, as node-postgres and
    [JSON.stringify] print them: INTEGER and [::float] columns as numbers,
    [::text] columns as strings, timestamps as ISO strings, NULL as [null].
    The theorem: whatever rows a route returns, the fetcher's result has the
    declared type. *)

From stdpp Require Import base gmap strings list.
From Stdlib Require Import ZArith Lia.
From S2P Require Import Prelude Json JsonParse JsDate Errors Db Policy Bootstrap DeEmphasis Auth Access DecisionReads ScoreReads Config Dashboard DashboardApi.

Module Interface.

Inductive ity :=
| IString | INumber | IBoolean
| INullable (t : ity)
| IArray (t : ity)
| IObject (fields : list (string * ity)).

(** Members beyond the declared ones are allowed, as in TypeScript. A number that
    is not finite would arrive as [null]. *)
Fixpoint has_type (t : ity) (v : json) : bool :=
  match t with
  | IString => match v with JStr _ => true | _ => false end
  | INumber => match v with JNum n => isFinite n | _ => false end
  | IBoolean => match v with JBool _ => true | _ => false end
  | INullable t => match v with JNull => true | v => has_type t v end
  | IArray t => match v with JArr l => forallb (has_type t) l | _ => false end
  | IObject fs =>
      match v with
      | JObj _ => (fix go fs := match fs with [] => true | (f, t) :: fs' => has_type t (get v f) && go fs' end) fs
      | _ => false
      end
  end.

(** ** [api/provider.ts] *)

Definition AggregateItem : ity :=
  IObject [("bucket_minute", IString); ("dimension_kind", IString); ("dimension_value", IString); ("action", IString);
           ("count", INumber)].

Definition SampleRow : ity :=
  IObject [("id", IString); ("edge_node_id", IString); ("wal_seq", IString); ("fingerprint", IString);
           ("principal_id", INullable IString); ("score", INullable INumber); ("blacklisted", INullable IBoolean);
           ("score_reason", INullable IString); ("action", IString); ("decided_at", IString)].

Definition AgentRow : ity :=
  IObject [("principal_id", IString); ("name", INullable IString); ("entity_kind", INullable IString);
           ("decisions", INumber); ("last_decided_at", IString); ("score", INullable INumber);
           ("blacklisted", INullable IBoolean); ("score_reason", INullable IString); ("score_computed_at", INullable IString)].

Definition EdgeNodeRow : ity :=
  IObject [("id", IString); ("name", IString); ("status", IString); ("last_seen_at", INullable IString);
           ("last_sync_version", INullable IString); ("created_at", IString); ("last_cursor", INullable IString);
           ("last_sync_at", INullable IString); ("high_water_version", IString); ("lag", IString)].

Definition Policy : ity :=
  IObject [("id", IString); ("tenant_id", IString); ("name", IString); ("threshold", INumber);
           ("below_threshold_action", IString); ("unsigned_action", IString); ("allow_fingerprints", IArray IString);
           ("deny_fingerprints", IArray IString); ("fail_open_expired", IBoolean); ("no_drop_decisions", IBoolean);
           ("max_snapshot_age_seconds", INumber); ("allow_sample_rate", INumber); ("is_active", IBoolean);
           ("created_at", IString)].

Definition GraphSummary : ity :=
  IObject [("principals", IObject [("total", INumber); ("agents", INumber); ("issuers", INumber); ("both", INumber)]);
           ("attestations", IObject [("total", INumber)]);
           ("top_issuers", IArray (IObject [("issuer_id", IString); ("name", INullable IString); ("trust_weight", INumber);
                                            ("verified_at", INullable IString); ("outgoing", INumber)]));
           ("latest_score_computed_at", INullable IString)].

(** ** [api/admin.ts] *)

Definition TenantRow : ity :=
  IObject [("id", IString); ("slug", IString); ("name", IString); ("plan", IString); ("status", IString); ("created_at", IString)].

Definition BootstrapIssuer : ity :=
  IObject [("principal_id", IString); ("name", IString); ("current_weight", INumber); ("de_emphasis_reason", INullable IString);
           ("de_emphasized_at", INullable IString); ("approved_by", INullable IString); ("seeded_at", IString);
           ("trust_weight", INumber); ("verified_at", INullable IString)].

Definition UnverifiedIssuer : ity :=
  IObject [("principal_id", IString); ("name", INullable IString); ("entity_kind", IString); ("trust_weight", INumber);
           ("is_bootstrap", IBoolean); ("created_at", IString)].

Definition ContributionSplit : ity :=
  IObject [("bootstrap_weighted", INumber); ("organic_weighted", INumber); ("organic_pct", INumber);
           ("independent_organic_issuers", INumber); ("window_days", INumber); ("window_continuous", IBoolean)].

Definition CounterfactualDrop : ity :=
  IObject [("principal_id", IString); ("current_score", INumber); ("counterfactual_score", INumber);
           ("serving_tenant_id", INullable IString); ("tenant_threshold", INumber); ("drops_below_threshold", IBoolean)].

Definition CounterfactualReport : ity :=
  IObject [("root_id", IString); ("target_weight", INumber); ("graph_version", INumber);
           ("drops", IArray CounterfactualDrop); ("worst_case_drop", INumber)].

Definition DeEmphasisCandidate : ity :=
  IObject [("principal_id", IString); ("name", IString); ("current_weight", INumber); ("contribution", ContributionSplit);
           ("ready", IBoolean); ("not_ready_reasons", IArray IString); ("counterfactual", INullable CounterfactualReport)].

Definition DeEmphasisResult : ity :=
  IObject [("generated_at", IString); ("window_days", INumber); ("contribution", ContributionSplit);
           ("candidates", IArray DeEmphasisCandidate)].

(** ** [api/agentBuilder.ts] *)

Definition OwnedPrincipal : ity :=
  IObject [("id", IString); ("entity_kind", IString); ("name", INullable IString); ("owner_tenant_id", INullable IString);
           ("assurance_level", IString); ("first_seen_at", IString); ("last_seen_at", IString); ("status", IString)].

Definition PrincipalKey : ity :=
  IObject [("principal_id", IString); ("key_id", IString); ("key_hash", IString); ("control_verified_at", INullable IString);
           ("valid_from", IString); ("valid_until", INullable IString); ("revoked_at", INullable IString)].

Definition PrincipalDetail : ity :=
  IObject [("id", IString); ("entity_kind", IString); ("name", INullable IString); ("owner_tenant_id", INullable IString);
           ("status", IString);
           ("issuer", INullable (IObject [("trust_weight", INumber); ("verified_at", INullable IString); ("is_bootstrap", IBoolean)]))].

Definition AttestationRow : ity :=
  IObject [("id", IString); ("issuer_id", IString); ("subject_id", IString); ("attestation_type", IString);
           ("trust_delta", INumber); ("visibility", IString); ("issued_at", IString); ("received_at", IString)].

Definition ScoreHistoryPoint : ity :=
  IObject [("score", INumber); ("blacklisted", IBoolean); ("score_reason", IString); ("computed_at", IString);
           ("sync_version", IString)].

Definition ScoreHistory : ity :=
  IObject [("current", INullable (IObject [("score", INumber); ("blacklisted", IBoolean); ("score_reason", IString);
                                           ("computed_at", IString)]));
           ("items", IArray ScoreHistoryPoint)].

End Interface.

(** ** What the control plane sends *)
Module Encoders.

Definition int (z : Z) : json := JNum (num_of_Z z).
Definition weight (hundredths : Z) : json := JNum (num_ratio hundredths 100).
Definition text (z : Z) : json := JStr (show_Z z).
Definition iso (t : Z) : json := JStr (toISOString t).
Definition nullable {A} (f : A → json) (o : option A) : json := match o with Some x => f x | None => JNull end.

Definition aggregate_json (r : DecisionReadRepo.AggregateRow) : json :=
  JObj [(js "bucket_minute", iso (DecisionReadRepo.rw_bucket_minute r));
        (js "dimension_kind", JStr (DecisionReadRepo.rw_dimension_kind r));
        (js "dimension_value", JStr (DecisionReadRepo.rw_dimension_value r));
        (js "action", JStr (DecisionReadRepo.rw_action r)); (js "count", int (DecisionReadRepo.rw_count r))].

(** [id] is the row's serial number. *)
Definition sample_json (id : Z) (s : Sample) : json :=
  JObj [(js "id", text id); (js "edge_node_id", JStr (sm_edge_node_id s)); (js "wal_seq", text (sm_wal_seq s));
        (js "fingerprint", JStr (sm_fingerprint s)); (js "principal_id", nullable JStr (sm_principal_id s));
        (js "score", int (sm_score s)); (js "blacklisted", JBool (sm_blacklisted s));
        (js "score_reason", nullable JStr (sm_score_reason s)); (js "action", JStr (sm_action s));
        (js "decided_at", iso (sm_decided_at s))].

Definition agent_json (r : DecisionReadRepo.AgentRow) : json :=
  let p := DecisionReadRepo.ar_principal r in let n := DecisionReadRepo.ar_score r in
  JObj [(js "principal_id", JStr (DecisionReadRepo.ar_principal_id r)); (js "name", nullable JStr (p ≫= p_name));
        (js "entity_kind", nullable JStr (p_entity_kind <$> p)); (js "decisions", int (DecisionReadRepo.ar_decisions r));
        (js "last_decided_at", iso (DecisionReadRepo.ar_last_decided_at r)); (js "score", nullable int (ns_score <$> n));
        (js "blacklisted", nullable JBool (ns_blacklisted <$> n)); (js "score_reason", nullable JStr (ns_score_reason <$> n));
        (js "score_computed_at", nullable iso (ns_computed_at <$> n))].

(** No statement writes [last_sync_version]. *)
Definition edge_json (r : EdgeFleet.EdgeNodeRow) : json :=
  let n := EdgeFleet.er_node r in let c := EdgeFleet.er_cursor r in
  JObj [(js "id", JStr (en_id n)); (js "name", JStr (en_name n)); (js "status", JStr (en_status n));
        (js "last_seen_at", nullable iso (en_last_seen_at n)); (js "last_sync_version", JNull);
        (js "created_at", iso (en_created_at n)); (js "last_cursor", nullable text (sc_last_cursor <$> c));
        (js "last_sync_at", nullable iso (c ≫= sc_last_sync_at)); (js "high_water_version", text (EdgeFleet.er_high_water r));
        (js "lag", text (EdgeFleet.er_lag r))].

(** [POLICY_COLS] *)
Definition active_policy_json (p : Policy) : json :=
  JObj ([(js "id", JStr (pol_id p)); (js "tenant_id", JStr (pol_tenant_id p)); (js "name", JStr (pol_name p))]
        ++ PolicyRepo.policy_fields p
        ++ [(js "allow_sample_rate", JNum (num_ratio (pol_allow_sample_rate p) 1000)); (js "is_active", JBool (pol_is_active p));
            (js "created_at", iso (pol_created_at p))]).

Definition top_json (t : ScoreReads.TopIssuer) : json :=
  JObj [(js "issuer_id", JStr (ScoreReads.ti_issuer_id t)); (js "name", nullable JStr (ScoreReads.ti_name t));
        (js "trust_weight", weight (ScoreReads.ti_trust_weight t)); (js "verified_at", nullable iso (ScoreReads.ti_verified_at t));
        (js "outgoing", int (ScoreReads.ti_outgoing t))].

Definition summary_json (g : ScoreReads.GraphSummary) : json :=
  JObj [(js "principals", JObj [(js "total", int (ScoreReads.gs_total g)); (js "agents", int (ScoreReads.gs_agents g));
                                (js "issuers", int (ScoreReads.gs_issuers g)); (js "both", int (ScoreReads.gs_both g))]);
        (js "attestations", JObj [(js "total", int (ScoreReads.gs_attestations g))]);
        (js "top_issuers", JArr (top_json <$> ScoreReads.gs_top_issuers g));
        (js "latest_score_computed_at", nullable iso (ScoreReads.gs_latest g))].

Definition tenant_json (t : Tenant) : json :=
  JObj [(js "id", JStr (t_id t)); (js "slug", JStr (t_slug t)); (js "name", JStr (t_name t)); (js "plan", JStr (t_plan t));
        (js "status", JStr (t_status t)); (js "created_at", iso (t_created_at t))].

Definition bootstrap_json (r : BootstrapRepo.BootstrapIssuerRow) : json :=
  let b := BootstrapRepo.br_row r in
  JObj [(js "principal_id", JStr (b_principal_id b)); (js "name", JStr (b_name b));
        (js "current_weight", weight (b_current_weight b)); (js "de_emphasis_reason", nullable JStr (b_de_emphasis_reason b));
        (js "de_emphasized_at", nullable iso (b_de_emphasized_at b)); (js "approved_by", nullable JStr (b_approved_by b));
        (js "seeded_at", iso (b_seeded_at b)); (js "removed_from_registry_at", nullable iso (b_removed_from_registry_at b));
        (js "trust_weight", weight (BootstrapRepo.br_trust_weight r)); (js "verified_at", nullable iso (BootstrapRepo.br_verified_at r))].

Definition unverified_json (r : Issuer * Principal) : json :=
  JObj [(js "principal_id", JStr (i_principal_id r.1)); (js "name", nullable JStr (p_name r.2));
        (js "entity_kind", JStr (p_entity_kind r.2)); (js "trust_weight", weight (i_trust_weight r.1));
        (js "is_bootstrap", JBool (i_is_bootstrap r.1)); (js "created_at", iso (i_created_at r.1))].

Definition split_json (c : DeEmphasis.ContributionSplit) : json :=
  JObj [(js "bootstrap_weighted", int (DeEmphasis.cs_bootstrap_weighted c));
        (js "organic_weighted", int (DeEmphasis.cs_organic_weighted c)); (js "organic_pct", int (DeEmphasis.cs_organic_pct c));
        (js "independent_organic_issuers", int (DeEmphasis.cs_independent_organic_issuers c));
        (js "window_days", int (DeEmphasis.cs_window_days c)); (js "window_continuous", JBool (DeEmphasis.cs_window_continuous c))].

Definition drop_json (x : DeEmphasis.CounterfactualDrop) : json :=
  JObj [(js "principal_id", JStr (DeEmphasis.cd_principal_id x)); (js "current_score", int (DeEmphasis.cd_current_score x));
        (js "counterfactual_score", int (DeEmphasis.cd_counterfactual_score x));
        (js "serving_tenant_id", nullable JStr (DeEmphasis.cd_serving_tenant_id x));
        (js "tenant_threshold", int (DeEmphasis.cd_tenant_threshold x));
        (js "drops_below_threshold", JBool (DeEmphasis.cd_drops_below_threshold x))].

Definition report_json (r : DeEmphasis.CounterfactualReport) : json :=
  JObj [(js "root_id", JStr (DeEmphasis.cf_root_id r)); (js "target_weight", weight (DeEmphasis.cf_target_weight r));
        (js "graph_version", int (DeEmphasis.cf_graph_version r)); (js "drops", JArr (drop_json <$> DeEmphasis.cf_drops r));
        (js "worst_case_drop", int (DeEmphasis.cf_worst_case_drop r))].

Definition candidate_json (c : DeEmphasis.DeEmphasisCandidate) : json :=
  JObj [(js "principal_id", JStr (DeEmphasis.dc_principal_id c)); (js "name", JStr (DeEmphasis.dc_name c));
        (js "current_weight", weight (DeEmphasis.dc_current_weight c)); (js "contribution", split_json (DeEmphasis.dc_contribution c));
        (js "ready", JBool (DeEmphasis.dc_ready c)); (js "not_ready_reasons", JArr (JStr <$> DeEmphasis.dc_not_ready_reasons c));
        (js "counterfactual", report_json (DeEmphasis.dc_counterfactual c))].

Definition de_emphasis_json (r : DeEmphasis.DeEmphasisResult) : json :=
  JObj [(js "generated_at", iso (DeEmphasis.dr_generated_at r)); (js "window_days", int (DeEmphasis.dr_window_days r));
        (js "contribution", split_json (DeEmphasis.dr_contribution r));
        (js "candidates", JArr (candidate_json <$> DeEmphasis.dr_candidates r))].

(** [SELECT p.*] *)
Definition principal_fields (p : Principal) : list (jstr * json) :=
  [(js "id", JStr (p_id p)); (js "entity_kind", JStr (p_entity_kind p)); (js "name", nullable JStr (p_name p));
   (js "owner_tenant_id", nullable JStr (p_owner_tenant_id p)); (js "metadata", p_metadata p);
   (js "first_seen_at", iso (p_first_seen_at p)); (js "last_seen_at", iso (p_last_seen_at p)); (js "status", JStr (p_status p))].

Definition owned_json (r : Principal * jstr) : json := JObj (principal_fields r.1 ++ [(js "assurance_level", JStr r.2)]).

(** The principal with its issuer columns, and the nested [issuer]. *)
Definition detail_json (p : Principal) (i : option Issuer) : json :=
  JObj (principal_fields p
        ++ [(js "trust_weight", nullable weight (i_trust_weight <$> i)); (js "verified_at", nullable iso (i ≫= i_verified_at));
            (js "is_bootstrap", nullable JBool (i_is_bootstrap <$> i));
            (js "issuer", nullable (λ i, JObj [(js "trust_weight", weight (i_trust_weight i));
                                              (js "verified_at", nullable iso (i_verified_at i));
                                              (js "is_bootstrap", JBool (i_is_bootstrap i))]) i)]).

(** [SELECT *]; the raw key is a Buffer. *)
Definition key_json (k : PrincipalKey) : json :=
  JObj [(js "principal_id", JStr (k_principal_id k)); (js "key_id", JStr (k_key_id k));
        (js "public_key_raw", JObj [(js "type", JStr (js "Buffer")); (js "data", JArr (int <$> k_public_key_raw k))]);
        (js "public_key_jwk", k_public_key_jwk k); (js "key_hash", JStr (k_key_hash k));
        (js "control_verified_at", nullable iso (k_control_verified_at k)); (js "valid_from", iso (k_valid_from k));
        (js "valid_until", nullable iso (k_valid_until k)); (js "revoked_at", nullable iso (k_revoked_at k))].

(** [SELECT a.*] *)
Definition attestation_json (a : Attestation) : json :=
  JObj [(js "id", JStr (a_id a)); (js "issuer_id", JStr (a_issuer_id a)); (js "subject_id", JStr (a_subject_id a));
        (js "jws_token", JStr (a_jws_token a)); (js "token_digest", JStr (a_token_digest a)); (js "payload", a_payload a);
        (js "facts", a_facts a); (js "facts_hash", JStr (a_facts_hash a)); (js "visibility", JStr (a_visibility a));
        (js "trust_delta", int (a_trust_delta a)); (js "attestation_type", JStr (a_attestation_type a));
        (js "schema_version", JStr (a_schema_version a)); (js "jti", nullable JStr (a_jti a));
        (js "observation_id", nullable JStr (a_observation_id a)); (js "issued_at", iso (a_issued_at a));
        (js "expires_at", nullable iso (a_expires_at a)); (js "superseded_by", nullable JStr (a_superseded_by a));
        (js "sig_verified", JBool (a_sig_verified a)); (js "verified_key_id", JStr (a_verified_key_id a));
        (js "received_at", iso (a_received_at a)); (js "bootstrap_origin", JBool (a_bootstrap_origin a))].

Definition score_fields (r : ScoreRow) : list (jstr * json) :=
  [(js "score", int (ns_score r)); (js "blacklisted", JBool (ns_blacklisted r)); (js "score_reason", JStr (ns_score_reason r));
   (js "computed_at", iso (ns_computed_at r)); (js "sync_version", text (ns_sync_version r))].

Definition history_json (principalId : jstr) (r : option ScoreRow * list ScoreRow) : json :=
  JObj [(js "principal_id", JStr principalId);
        (js "current", nullable (λ c, JObj ([(js "principal_id", JStr (ns_principal_id c));
                                             (js "entity_kind", JStr (ns_entity_kind c))] ++ score_fields c)) r.1);
        (js "items", JArr ((λ x, JObj (score_fields x)) <$> r.2))].

(** [ok(res, { items })] *)
Definition items_json (rows : list json) : json := JObj [(js "items", JArr rows)].

End Encoders.

(** ** Every answer has the type its reader declares *)
Module WireInv.
Import ApiClientWeb DashboardApi Interface Encoders.

Lemma isFinite_of_Z z : isFinite (num_of_Z z) = true.
Proof. unfold num_of_Z, mk_fin. destruct z; [done|destruct (strip_pos _ _); done..]. Qed.

Lemma isFinite_ratio a b : isFinite (num_ratio a b) = true.
Proof. unfold num_ratio. repeat case_match; try done; unfold mk_fin; repeat case_match; done. Qed.

Lemma has_type_array {A} t (f : A → json) l : (∀ x, has_type t (f x) = true) → has_type (IArray t) (JArr (f <$> l)) = true.
Proof. intros H. cbn [has_type]. apply forallb_forall. intros v (x & -> & _)%list_elem_of_In%list_elem_of_fmap. apply H. Qed.

Lemma has_type_strings l : has_type (IArray IString) (JArr (JStr <$> l)) = true.
Proof. by apply has_type_array. Qed.

Lemma has_type_nullable {A} t (f : A → json) o : (∀ x, has_type t (f x) = true) → has_type (INullable t) (nullable f o) = true.
Proof. intros H. destruct o as [x|]; [|done]. cbn. specialize (H x). by destruct (f x). Qed.

Lemma has_type_non_null t v : has_type t v = true → has_type (INullable t) v = true.
Proof. intros H. by destruct v. Qed.

Lemma has_type_object fs kvs :
  Forall (λ ft : string * ity, has_type ft.2 (get (JObj kvs) ft.1) = true) fs → has_type (IObject fs) (JObj kvs) = true.
Proof.
  cbn [has_type]. induction 1 as [|[f t] fs H _ IH]; [done|]. apply andb_true_iff. by split.
Qed.

Lemma typed_int z : has_type INumber (int z) = true.
Proof. apply isFinite_of_Z. Qed.

Lemma typed_weight z : has_type INumber (weight z) = true.
Proof. apply isFinite_ratio. Qed.

Lemma typed_num z : has_type INumber (JNum (num_of_Z z)) = true.
Proof. apply isFinite_of_Z. Qed.

Lemma typed_ratio a b : has_type INumber (JNum (num_ratio a b)) = true.
Proof. apply isFinite_ratio. Qed.

(** Look up a declared member among those of an answer. *)
Ltac member_value :=
  repeat lazymatch goal with
  | |- has_type _ (lookup_field ?k ((?k', ?v) :: ?r)) = true =>
      let b := eval vm_compute in (bool_decide (k = k')) in
      lazymatch b with
      | true => change (lookup_field k ((k', v) :: r)) with v
      | false => change (lookup_field k ((k', v) :: r)) with (lookup_field k r)
      end
  end.

Create HintDb wire.
#[local] Hint Resolve typed_int typed_weight has_type_non_null has_type_strings typed_num typed_ratio : wire.

(** One goal per declared member. *)
Ltac typed :=
  intros; apply has_type_object; repeat (apply Forall_cons; split); try apply Forall_nil; try exact I; cbn [fst snd get];
  try unfold PolicyRepo.policy_fields; try unfold principal_fields; try unfold score_fields; cbn [app]; member_value;
  try reflexivity; auto with wire;
  try (apply has_type_nullable; intros; first [reflexivity|auto with wire]).

Lemma aggregate_typed r : has_type AggregateItem (aggregate_json r) = true.
Proof. unfold AggregateItem, aggregate_json. typed. Qed.

Lemma sample_typed i s : has_type SampleRow (sample_json i s) = true.
Proof. unfold SampleRow, sample_json. typed. Qed.

Lemma agent_typed r : has_type AgentRow (agent_json r) = true.
Proof. unfold AgentRow, agent_json. typed. Qed.

Lemma edge_typed r : has_type EdgeNodeRow (edge_json r) = true.
Proof. unfold EdgeNodeRow, edge_json. typed. Qed.

Lemma policy_typed p : has_type Policy (active_policy_json p) = true.
Proof. unfold Policy, active_policy_json. typed. Qed.

Lemma summary_typed g : has_type GraphSummary (summary_json g) = true.
Proof.
  unfold GraphSummary, summary_json. typed; [by typed..|]. apply has_type_array. unfold top_json. typed.
Qed.

Lemma tenant_typed t : has_type TenantRow (tenant_json t) = true.
Proof. unfold TenantRow, tenant_json. typed. Qed.

Lemma bootstrap_typed r : has_type BootstrapIssuer (bootstrap_json r) = true.
Proof. unfold BootstrapIssuer, bootstrap_json. typed. Qed.

Lemma unverified_typed r : has_type UnverifiedIssuer (unverified_json r) = true.
Proof. unfold UnverifiedIssuer, unverified_json. typed. Qed.

Lemma split_typed c : has_type ContributionSplit (split_json c) = true.
Proof. unfold ContributionSplit, split_json. typed. Qed.

Lemma report_typed r : has_type CounterfactualReport (report_json r) = true.
Proof.
  unfold CounterfactualReport, report_json. typed. apply has_type_array. unfold CounterfactualDrop, drop_json. typed.
Qed.

Lemma de_emphasis_typed r : has_type DeEmphasisResult (de_emphasis_json r) = true.
Proof.
  unfold DeEmphasisResult, de_emphasis_json. typed; [apply split_typed|]. apply has_type_array.
  unfold DeEmphasisCandidate, candidate_json. typed; [apply split_typed|]. apply has_type_non_null, report_typed.
Qed.

Lemma owned_typed r : has_type OwnedPrincipal (owned_json r) = true.
Proof. unfold OwnedPrincipal, owned_json. typed. Qed.

Lemma detail_typed p i : has_type PrincipalDetail (detail_json p i) = true.
Proof. unfold PrincipalDetail, detail_json. typed. typed. Qed.

Lemma key_typed k : has_type PrincipalKey (key_json k) = true.
Proof. unfold PrincipalKey, key_json. typed. Qed.

Lemma attestation_typed a : has_type AttestationRow (attestation_json a) = true.
Proof. unfold AttestationRow, attestation_json. typed. Qed.

Lemma history_typed p r : has_type ScoreHistory (history_json p r) = true.
Proof.
  unfold ScoreHistory, history_json. typed; [typed|]. apply has_type_array.
  unfold ScoreHistoryPoint. typed.
Qed.

Section answers.
Context (apiBaseUrl : jstr) (parse : jstr → option json) (fetch : web_request → Z * jstr) (s : session).

Local Abbreviation delivered := (DashboardApi.carries parse fetch).
Local Abbreviation request := (DashboardApi.call apiBaseUrl parse fetch s).

(** When the answer to what the route did arrives: a fetcher that returns, returns
    a value of its type, and it does return when the route succeeded. *)
Definition answered {A} (enc : A → json) (run : result exn A * db) (f : result web_exn json) (t : ity) : Prop :=
  delivered (respond enc run.1) → (∀ v, f = Ok v → has_type t v = true) ∧ (∀ x, run.1 = Ok x → ∃ v, f = Ok v).

Lemma answered_field {A} field path method body (enc : A → json) run t :
  (∀ x, is_nullish (enc x) = false ∧ has_type t (get (enc x) field) = true) →
  answered enc run (data_field field (request path method body)) t.
Proof.
  intros H Hc. destruct run as [[x|err] d']; cbn [fst respond] in *.
  - destruct (H x) as [Hn Ht]. rewrite (data_field_ok _ _ _ _ field _ path method body Hc Hn).
    split; [by intros v [= <-]|by eexists].
  - destruct (data_field_error apiBaseUrl parse fetch s field _ path method body Hc) as (e & -> & _). done.
Qed.

Lemma answered_data {A} path method body (enc : A → json) run t :
  (∀ x, has_type t (enc x) = true) → answered enc run (data (request path method body)) t.
Proof.
  intros H Hc. unfold data. destruct run as [[x|err] d']; cbn [fst respond] in *.
  - rewrite (call_ok apiBaseUrl parse fetch s _ path method body Hc). cbn [mbind result_bind].
    change (member (ok_body (enc x)) "data") with (Ok (enc x) : result web_exn json).
    split; [intros v [= <-]; apply H|by eexists].
  - destruct (call_error apiBaseUrl parse fetch s _ path method body Hc) as (e & -> & _). done.
Qed.

(** A 404 becomes [null]. *)
Lemma answered_null {A} (enc : A → json) run f t : answered enc run f t → answered enc run (null_on_404 f) (INullable t).
Proof.
  intros H Hc. destruct (H Hc) as [Ht Hok]. unfold null_on_404. split.
  - intros v Hv. destruct f as [w|[e| |]]; try done.
    + injection Hv as <-. by apply has_type_non_null, Ht.
    + destruct (_ =? _); [by injection Hv as <-|done].
  - intros x Hx. destruct (Hok x Hx) as [v ->]. by eexists.
Qed.

Lemma items_typed {A} t (f : A → json) before rows :
  (∀ x, has_type t (f x) = true) → forallb (λ kv : jstr * json, negb (bool_decide (kv.1 = js "items"))) before = true →
  is_nullish (JObj (before ++ [(js "items", JArr (f <$> rows))])) = false ∧
  has_type (IArray t) (get (JObj (before ++ [(js "items", JArr (f <$> rows))])) "items") = true.
Proof.
  intros H Hb. split; [done|]. assert (Hg : get (JObj (before ++ [(js "items", JArr (f <$> rows))])) "items" = JArr (f <$> rows)).
  { unfold get. induction before as [|[k v] before IH]; [reflexivity|]. cbn [forallb] in Hb.
    apply andb_true_iff in Hb as [Hk Hb]. apply negb_true_iff, bool_decide_eq_false in Hk. cbn [app lookup_field fst] in *.
    rewrite decide_False by congruence. by apply IH. }
  rewrite Hg. by apply has_type_array.
Qed.

(** The bodies of the routes' answers. *)
Definition window_json (from to : Z) : list (jstr * json) := [(js "from", iso from); (js "to", iso to)].
Definition aggregates_json (x : Z * Z * jstr * list DecisionReadRepo.AggregateRow) : json :=
  let '(from, to, dim, rows) := x in
  JObj ((window_json from to ++ [(js "dimension", JStr dim)]) ++ [(js "items", JArr (aggregate_json <$> rows))]).
Definition samples_json (id_of : Sample → Z) (x : Z * Z * list Sample) : json :=
  let '(from, to, rows) := x in JObj (window_json from to ++ [(js "items", JArr ((λ r, sample_json (id_of r) r) <$> rows))]).
Definition agents_json (x : Z * Z * list DecisionReadRepo.AgentRow) : json :=
  let '(from, to, rows) := x in JObj (window_json from to ++ [(js "items", JArr (agent_json <$> rows))]).
Definition paged_json {A} (f : A → json) (x : list A * Z) : json :=
  JObj [(js "items", JArr (f <$> x.1)); (js "total", int x.2)].

Lemma answered_items {A} path method body (f : A → json) run t :
  (∀ x, has_type t (f x) = true) →
  answered (λ rows, items_json (f <$> rows)) run (data_field "items" (request path method body)) (IArray t).
Proof. intros H. apply answered_field. intros rows. by apply (items_typed t f []). Qed.

Lemma answered_paged {A} path method body (f : A → json) run t :
  (∀ x, has_type t (f x) = true) → answered (paged_json f) run (data_field "items" (request path method body)) (IArray t).
Proof. intros H. apply answered_field. intros [rows n]. split; [done|]. by apply (has_type_array t f rows). Qed.

(** C38. Everything the dashboard fetches has the type it declares. For every read the
    dashboard makes, whatever the route did and whatever rows it returned: if the
    answer arrives, a fetcher that returns a value returns one of the interface
    declared for it, with [null] only where the interface admits it, and it does
    return one when the route succeeded. *)
Theorem dashboard_answers_well_typed Date_parse Number_ status a h d id eid dim n dir iss id_of from to off kind :
  BillingTransport.encodeURIComponent id = Some eid →
  let lim := Some (show_Z n) in
  let via {A} (enc : A → json) (m : M A) := answered enc (m d) in
  via aggregates_json (DecisionRoutes.get_aggregates Date_parse Number_ a h from to (Some dim))
    (fetchAggregates apiBaseUrl parse fetch s dim) (IArray AggregateItem) ∧
  via (samples_json id_of) (DecisionRoutes.get_samples Date_parse Number_ a h from to lim)
    (fetchSamples apiBaseUrl parse fetch s n) (IArray SampleRow) ∧
  via agents_json (DecisionRoutes.get_agents Date_parse Number_ a h from to lim)
    (fetchAgents apiBaseUrl parse fetch s n) (IArray AgentRow) ∧
  via (λ rows, items_json (edge_json <$> rows)) (EdgeFleet.get_edge_nodes a h)
    (fetchEdgeNodes apiBaseUrl parse fetch s) (IArray EdgeNodeRow) ∧
  via summary_json (ScoreReads.get_graph_summary a h) (fetchGraphSummary apiBaseUrl parse fetch s) GraphSummary ∧
  via (λ p, JObj [(js "policy", active_policy_json p)]) (ReadRoutes.get_active_policy a h)
    (fetchActivePolicy apiBaseUrl parse fetch s) (INullable Policy) ∧
  via (λ rows, items_json (tenant_json <$> rows)) (Tenants.get_tenants a h)
    (fetchTenants apiBaseUrl parse fetch s) (IArray TenantRow) ∧
  via (λ rows, items_json (bootstrap_json <$> rows)) (ReadRoutes.get_bootstrap_issuers a h)
    (fetchBootstrapIssuers apiBaseUrl parse fetch s) (IArray BootstrapIssuer) ∧
  via (λ rows, items_json (unverified_json <$> rows)) (ReadRoutes.get_unverified_issuers a h)
    (fetchUnverifiedIssuers apiBaseUrl parse fetch s) (IArray UnverifiedIssuer) ∧
  via de_emphasis_json (ReadRoutes.get_de_emphasis status a h) (fetchDeEmphasis apiBaseUrl parse fetch s) DeEmphasisResult ∧
  via (paged_json owned_json) (PrincipalRoutes.get_principals Number_ a h kind None off)
    (fetchOwnedPrincipals apiBaseUrl parse fetch s) (IArray OwnedPrincipal) ∧
  via (λ p, detail_json p iss) (PrincipalRoutes.get_principal a h id)
    (fetchPrincipalDetail apiBaseUrl parse fetch s id) PrincipalDetail ∧
  via (λ ks, JArr (key_json <$> ks)) (PrincipalRoutes.get_keys a h id)
    (fetchPrincipalKeys apiBaseUrl parse fetch s id) (IArray PrincipalKey) ∧
  via (paged_json attestation_json)
    (AttestationReads.get_attestations Number_ a h (if dir is Out then Some id else None) (if dir is In then Some id else None) lim off)
    (fetchAttestations apiBaseUrl parse fetch s id dir n) (IArray AttestationRow) ∧
  via (history_json id) (ScoreReads.get_score_history Number_ a h id None)
    (safeScoreHistory apiBaseUrl parse fetch s id) (INullable ScoreHistory).
Proof.
  intros He lim via. unfold via.
  unfold fetchPrincipalDetail, fetchPrincipalKeys, fetchAttestations, safeScoreHistory, fetchScoreHistory, encoded.
  rewrite He. cbn [mbind result_bind].
  split_and!.
  - apply answered_field. intros [[[f t] dm] rows]. apply items_typed; [apply aggregate_typed|reflexivity].
  - apply answered_field. intros [[f t] rows]. apply items_typed; [intros x; apply sample_typed|reflexivity].
  - apply answered_field. intros [[f t] rows]. apply items_typed; [apply agent_typed|reflexivity].
  - apply answered_items, edge_typed.
  - apply answered_data, summary_typed.
  - apply answered_null, answered_field. intros p. split; [done|]. apply policy_typed.
  - apply answered_items, tenant_typed.
  - apply answered_items, bootstrap_typed.
  - apply answered_items, unverified_typed.
  - apply answered_data, de_emphasis_typed.
  - apply answered_paged, owned_typed.
  - apply answered_data. intros p. apply detail_typed.
  - apply answered_data. intros ks. apply has_type_array, key_typed.
  - apply answered_paged, attestation_typed.
  - apply answered_null, answered_data, history_typed.
Qed.

End answers.

(** The tenant list of a database with two tenants, parsed from its text. *)
Lemma dashboard_answers_well_typed_witness :
  let a := AuthInv.toy_env "k9" 49 in
  let run := Tenants.get_tenants a AccessInv.key_headers AccessInv.shared_db in
  let text := stringify (r_body (respond (λ rows, items_json (tenant_json <$> rows)) run.1)) in
  ∃ v, fetchTenants (js "http://x") json_parse (λ _, (200, text)) (mkSession None None) = Ok v ∧
    has_type (IArray TenantRow) v = true.
Proof.
  intros a run text.
  destruct (dashboard_answers_well_typed (js "http://x") json_parse (λ _, (200, text)) (mkSession None None)
    (λ _, None) (λ _, NaN) (throw (EError [])) a AccessInv.key_headers AccessInv.shared_db (js "p") (js "p") (js "all") 5
    In None (λ _, 0) None None None None eq_refl) as (_ & _ & _ & _ & _ & _ & H & _).
  destruct H as [Ht Hok].
  - split; [|split].
    + intros q. vm_compute. reflexivity.
    + vm_compute. reflexivity.
    + vm_compute. discriminate.
  - destruct run.1 as [rows|err] eqn:Hr; [|vm_compute in Hr; discriminate Hr].
    destruct (Hok rows Hr) as [v Hv]. exists v. split; [exact Hv|by apply Ht].
Defined.

End WireInv.
