(* ===== verification/DashboardPages.v ===== *)
(** * The dashboard's pages

    [src/dashboard/src/pages] (provider, agent builder and admin pages with their
    panels), [components/EmptyState.tsx] and [lib/scoreSeries.ts].

    A component is a function of its props to what it shows: an empty state, a
    table of keyed rows of cells, a list of labelled values or a line of text.  Class
    names are kept where they carry meaning (the badges).  The rows are those of the
    control plane's tables; a date is shown by [locale] ([toLocaleString]).
    Components with state ([useState]) are records with one function per event. *)

From stdpp Require Import base gmap strings sorting list.
From Stdlib Require Import ZArith Lia.
From S2P Require Import Prelude Json Errors Db Principals Policy SyncLog Bootstrap DeEmphasis Auth Access DecisionReads ScoreReads.
From S2P Require Import SseSession JsText Dashboard DashboardAuth DashboardApi.

(** ** [components/EmptyState.tsx] and the shape of a panel *)
Module View.

Inductive EmptyStateAction := Href (label href : jstr) | OnClick (label : jstr).

(** Code points. *)
Definition ICONS : list (jstr * Z) :=
  [(js "edge", 0x1F5A8); (js "agents", 0x1F916); (js "decisions", 0x1F4CB); (js "policy", 0x2696); (js "graph", 0x1F578);
   (js "tenants", 0x1F3E2); (js "bootstrap", 0x1F331); (js "shield", 0x1F6E1); (js "keys", 0x1F511); (js "score", 0x1F4C8);
   (js "attest", 0x1F4DD); (js "issuer", 0x1F5D3); (js "clock", 0x23F0); (js "chart", 0x1F4CA); (js "plug", 0x1F50C);
   (js "seedling", 0x1F331); (js "warning", 0x26A0); (js "empty", 0x1F4ED)].

Definition icon_of (icon : jstr) : option Z := snd <$> find (λ kv, bool_decide (kv.1 = icon)) ICONS.

Inductive cell :=
| Txt (s : jstr)
| Code (s : jstr)
| CodeTitle (title s : jstr)
| Badge (kind label : jstr)
| Muted (s : jstr).

Inductive view :=
| VEmpty (glyph : Z) (title description : jstr) (action : option EmptyStateAction) (hint : option jstr)
| VTable (head : list jstr) (rows : list (jstr * list cell))
| VValues (items : list (jstr * cell))
| VMuted (s : jstr)
| VError (s : jstr)
| VBanner (title description : jstr) (action : jstr * jstr)
| VChart (label : jstr) (points : list (jstr * list (jstr * Z)))
| VNothing.

(** [ICONS[icon] ?? ICONS.empty] *)
Definition EmptyState (icon title description : string) (action : option (string * string)) (hint : option string) : view :=
  VEmpty (default 0x1F4ED (icon_of (js icon))) (js title) (js description)
    ((λ a, Href (js a.1) (js a.2)) <$> action) (js <$> hint).

(** The states of a query the pages distinguish. *)
Inductive query (A : Type) := QLoading | QError (message : option jstr) | QSuccess (data : A).
#[global] Arguments QLoading {A}.
#[global] Arguments QError {A} message.
#[global] Arguments QSuccess {A} data.

Definition query_data {A} (q : query A) : option A := match q with QSuccess a => Some a | _ => None end.

(** [error instanceof Error ? error.message : 'unknown error'] *)
Definition PanelState {A} (q : query A) : view :=
  match q with
  | QLoading => VMuted (js "Loading...")
  | QError m => VError (js "Failed to load: " ++ default (js "unknown error") m)
  | QSuccess _ => VNothing
  end.

(** [<PanelState {...q} />] followed by [{q.isSuccess && <C data={q.data} />}]. *)
Definition panel {A} (q : query A) (component : A → view) : view :=
  match q with QSuccess a => component a | _ => PanelState q end.

End View.

(** ** The panels *)
Module Panels.
Import View.
Section panels.
Context (locale : Z → jstr).

Definition shortId (id : jstr) : jstr :=
  let tail := default id (last (split_on 58 id)) in
  if (8 <? length tail)%nat then js "..." ++ drop (length tail - 8) tail else tail.

Definition shortFingerprint (fp : jstr) : jstr := if (12 <? length fp)%nat then take 12 fp ++ js "..." else fp.

Definition weight_text (w : Z) : jstr := num_to_string (num_ratio w 100).
Definition date_or (t : option Z) (none : string) : jstr := match t with Some t => locale t | None => js none end.

(** *** Provider *)

Definition agent_status (a : DecisionReadRepo.AgentRow) : cell :=
  match DecisionReadRepo.ar_score a with
  | Some s => if ns_blacklisted s then Badge (js "deny") (js "blacklisted") else Badge (js "allow") (ns_score_reason s)
  | None => Muted (js "unscored")
  end.

Definition agent_row (a : DecisionReadRepo.AgentRow) : jstr * list cell :=
  (DecisionReadRepo.ar_principal_id a,
   [CodeTitle (DecisionReadRepo.ar_principal_id a) (shortId (DecisionReadRepo.ar_principal_id a));
    match DecisionReadRepo.ar_principal a ≫= p_name with Some n => Txt n | None => Muted (js "-") end;
    Txt (show_Z (DecisionReadRepo.ar_decisions a));
    match DecisionReadRepo.ar_score a with Some s => Txt (show_Z (ns_score s)) | None => Muted (js "-") end;
    agent_status a;
    Txt (locale (DecisionReadRepo.ar_last_decided_at a))]).

Definition AgentList (agents : list DecisionReadRepo.AgentRow) : view :=
  match agents with
  | [] => EmptyState "agents" "No agents observed yet"
      "Agents appear here once the edge verifier starts processing requests. Deploy the edge verifier in front of your API to start collecting decision data."
      (Some ("Deploy edge verifier", "https://github.com/Numeracode/verilink#edge-verifier")%string)
      (Some "Agents are identified by their cryptographic fingerprint and named vrl:p:<uuid>."%string)
  | _ => VTable [js "Agent"; js "Name"; js "Decisions"; js "Score"; js "Status"; js "Last decision"] (agent_row <$> agents)
  end.

(** The rows of the feed with their [id]. *)
Definition sample_row (s : jstr * Sample) : jstr * list cell :=
  (s.1, [Txt (locale (sm_decided_at s.2)); CodeTitle (sm_fingerprint s.2) (shortFingerprint (sm_fingerprint s.2));
         Badge (sm_action s.2) (sm_action s.2); Txt (show_Z (sm_score s.2));
         match sm_score_reason s.2 with Some r => Txt r | None => Muted (js "-") end]).

Definition DecisionFeed (samples : list (jstr * Sample)) : view :=
  match samples with
  | [] => EmptyState "decisions" "No decisions recorded yet"
      "The decision feed populates once the edge verifier starts evaluating incoming API requests against your trust policy. All deny decisions are kept; allows are sampled."
      (Some ("Configure policy", "https://github.com/Numeracode/verilink#policies")%string)
      (Some "Decisions are categorized as allow, deny, or passthrough based on your active policy threshold."%string)
  | _ => VTable [js "Time"; js "Fingerprint"; js "Action"; js "Score"; js "Reason"] (sample_row <$> samples)
  end.

(** [BigInt(e.lag) > 0n]; the lag arrives as decimal text. *)
Definition edge_sync_row (e : EdgeFleet.EdgeNodeRow) : jstr * list cell :=
  let lagging := 0 <? EdgeFleet.er_lag e in
  (en_id (EdgeFleet.er_node e),
   [Txt (en_name (EdgeFleet.er_node e));
    Badge (js (if lagging then "passthrough" else "allow")%string) (en_status (EdgeFleet.er_node e));
    Txt (match EdgeFleet.er_cursor e with Some c => show_Z (sc_last_cursor c) | None => js "0" end);
    Txt (if lagging then show_Z (EdgeFleet.er_lag e) else js "0");
    Txt (date_or (EdgeFleet.er_cursor e ≫= sc_last_sync_at) "never")]).

Definition EdgeSyncStatus (edges : list EdgeFleet.EdgeNodeRow) : view :=
  match edges with
  | [] => EmptyState "edge" "No edge nodes registered"
      "Register an edge verifier node to start receiving trust decisions. The edge verifier sits in front of your API and enforces allow/deny based on VeriLink trust scores."
      (Some ("View setup guide", "https://github.com/Numeracode/verilink/blob/main/docs/superpowers/specs/2026-07-25-verilink-productization-design.md")%string)
      (Some "The edge verifier connects to the control plane via SSE sync and enforces your active policy."%string)
  | _ => VTable [js "Edge"; js "Status"; js "Cursor"; js "Lag"; js "Last sync"] (edge_sync_row <$> edges)
  end.

Definition PolicyCard (policy : option Policy) : view :=
  match policy with
  | None => EmptyState "policy" "No active policy set"
      "An active policy defines the trust score threshold, below-threshold action, and unsigned request handling. Set one to start enforcing trust decisions at the edge."
      (Some ("Set active policy", "https://github.com/Numeracode/verilink#policies")%string)
      (Some "The policy is per-tenant and synced to all edge nodes via SSE."%string)
  | Some p => VValues [(js "Name", Txt (pol_name p)); (js "Threshold", Txt (show_Z (pol_threshold p)));
      (js "Below threshold", Txt (pol_below_threshold_action p)); (js "Unsigned requests", Txt (pol_unsigned_action p));
      (js "Allow sample rate", Txt (num_to_string (num_ratio (pol_allow_sample_rate p) 1000)));
      (js "Max snapshot age", Txt (show_Z (pol_max_snapshot_age_seconds p) ++ js "s"))]
  end.

Definition StalenessBanner (show : bool) : view :=
  if show then
    VBanner (js "Scores may be stale")
      (js "No successful network score write in over an hour. This usually means the trust-engine is not running or cannot reach the control plane.")
      (js "Troubleshoot", js "https://github.com/Numeracode/verilink/blob/main/docs/gate-contract.md")
  else VNothing.

Definition TrustSummaryChart (points : list Aggregates.BucketPoint) : view :=
  match points with
  | [] => EmptyState "chart" "No decision data yet"
      "The trust summary chart populates once the edge verifier starts processing and sampling requests. Decisions are bucketed per minute and stacked by action (allow, deny, passthrough)."
      None (Some "This chart updates automatically as decisions flow in."%string)
  | _ => VChart (js "Decisions per minute by action")
      ((λ p, (Aggregates.bp_label p,
              [(js "allow", Aggregates.bp_allow p); (js "deny", Aggregates.bp_deny p);
               (js "passthrough", Aggregates.bp_passthrough p)])) <$> points)
  end.

(** *** Agent builder *)

Definition key_row (k : PrincipalKey) : jstr * list cell :=
  let revoked := bool_decide (k_revoked_at k ≠ None) in
  let verified := bool_decide (k_control_verified_at k ≠ None) in
  (k_key_id k,
   [Code (k_key_id k); Code (take 12 (k_key_hash k) ++ js "...");
    (if revoked then Badge (js "deny") (js "revoked")
     else if verified then Badge (js "allow") (js "verified") else Badge (js "passthrough") (js "control unverified"));
    Txt (locale (k_valid_from k));
    Txt (js (if revoked then "revoked" else if bool_decide (k_valid_until k = None) then "active" else "expiring")%string)]).

Definition KeyList (keys : list PrincipalKey) : view :=
  match keys with
  | [] => EmptyState "keys" "No keys registered"
      "This principal has no registered Ed25519 keys. Register a key by submitting an attestation signed with the key, or use the keygen tool to generate a new keypair and register the public key."
      (Some ("Generate keypair", "https://github.com/Numeracode/verilink#keygen")%string)
      (Some "Key control is verified when the principal proves ownership via a signed challenge."%string)
  | _ => VTable [js "Key id"; js "Hash"; js "Assurance"; js "Valid from"; js "Status"] (key_row <$> keys)
  end.

Import DashboardApi.

Definition attestation_row (dir : direction) (a : Attestation) : jstr * list cell :=
  let other := match dir with In => a_issuer_id a | Out => a_subject_id a end in
  (a_id a,
   [CodeTitle other (shortId other); Txt (a_attestation_type a);
    Txt (if 0 <? a_trust_delta a then 43 :: show_Z (a_trust_delta a) else show_Z (a_trust_delta a));
    Badge (js (if bool_decide (a_visibility a = js "public") then "allow" else "passthrough")%string) (a_visibility a);
    Txt (locale (a_issued_at a))]).

Definition AttestationFeed (dir : direction) (items : list Attestation) : view :=
  match items, dir with
  | [], In => EmptyState "attest" "No incoming attestations"
      "Other issuers can attest to this principal's behaviour. Incoming attestations appear here once a counterparty submits a signed JWS attestation naming this principal as the subject."
      None (Some "Attestations are cryptographically signed JWS tokens with RFC 8785 canonicalized facts."%string)
  | [], Out => EmptyState "attest" "No outgoing attestations"
      "Submit a signed attestation about another principal to start building a trust relationship. Use the Go or Node client to sign and submit a JWS token to the control plane."
      (Some ("View client docs", "https://github.com/Numeracode/verilink/tree/main/client")%string)
      (Some "The client signs with your Ed25519 private key; the control plane verifies and stores the attestation."%string)
  | _, _ => VTable [js (match dir with In => "From" | Out => "To" end)%string; js "Type"; js "Delta"; js "Visibility"; js "Issued"]
      (attestation_row dir <$> items)
  end.

Definition IssuerCard (issuer : option Issuer) : view :=
  match issuer with
  | None => VMuted (js "This principal is not an issuer.")
  | Some i => VValues [(js "Trust weight", Txt (weight_text (i_trust_weight i)));
      (js "Verified", Txt (date_or (i_verified_at i) "not verified"));
      (js "Bootstrap root", Txt (js (if i_is_bootstrap i then "yes" else "no")%string))]
  end.

(** A button per principal: its title, kind and assurance badge, and whether it is
    the selected one. *)
Definition principal_item (selectedId : option jstr) (p : Principal * jstr) : jstr * list cell :=
  (p_id p.1,
   [Txt (default (p_id p.1) (p_name p.1)); Txt (p_entity_kind p.1);
    (if bool_decide (p.2 = js "verified_key") then Badge (js "allow") (js "verified key") else Badge (js "passthrough") (js "unverified"));
    (if bool_decide (selectedId = Some (p_id p.1)) then Txt (js "is-selected") else Txt [])]).

Definition PrincipalList (principals : list (Principal * jstr)) (selectedId : option jstr) : view :=
  match principals with
  | [] => EmptyState "keys" "No owned principals yet"
      "Principals are the identity layer for agents and issuers. Create one by submitting an attestation with a new vrl:p:<uuid> subject, or use the keygen tool to generate a keypair."
      (Some ("Generate keypair", "https://github.com/Numeracode/verilink#keygen")%string)
      (Some "Each principal has an Ed25519 keypair. The private key stays with you; the public key is registered with VeriLink."%string)
  | _ => VTable [] (principal_item selectedId <$> principals)
  end.

End panels.
End Panels.

(** ** The admin panels *)
Module AdminPanels.
Import View Panels DeEmphasis ScoreReads.
Section admin.
Context (locale : Z → jstr).

(** The runbook linked by two empty states. *)
Definition runbook : string * string :=
  ("Open bootstrap runbook", "https://github.com/Numeracode/verilink/blob/main/docs/superpowers/plans/2026-08-11-plan-10-bootstrap-cold-start.md")%string.

Definition GraphHealth (summary : option GraphSummary) : view :=
  match summary with
  | None => VMuted (js "Loading graph health...")
  | Some s =>
      if gs_total s =? 0 then
        EmptyState "graph" "Trust graph is empty"
          "The graph will populate once principals (agents and issuers) are registered and attestations start flowing. Run the bootstrap seed to initialize the root-of-trust registry."
          (Some runbook)
          (Some "The seed creates the VeriLink bootstrap issuer and initial attestations for a non-empty cold-start graph."%string)
      else VValues [(js "Principals", Txt (show_Z (gs_total s))); (js "Agents", Txt (show_Z (gs_agents s)));
        (js "Issuers", Txt (show_Z (gs_issuers s))); (js "Attestations", Txt (show_Z (gs_attestations s)));
        (js "Latest score write", Txt (date_or locale (gs_latest s) "never"))]
  end.

Definition unverified_row (r : Issuer * Principal) : jstr * list cell :=
  (i_principal_id r.1,
   [match p_name r.2 with Some n => Txt n | None => Code (i_principal_id r.1) end; Txt (p_entity_kind r.2);
    Txt (weight_text (i_trust_weight r.1));
    (if i_is_bootstrap r.1 then Badge (js "allow") (js "yes") else Txt (js "no")); Txt (locale (i_created_at r.1))]).

Definition IssuerVerificationQueue (issuers : list (Issuer * Principal)) : view :=
  match issuers with
  | [] => EmptyState "issuer" "No issuers awaiting verification"
      "New issuers that have submitted a key-control proof but not yet been staff-verified appear here. The queue is empty when all known issuers are verified."
      None (Some "Verification is a manual staff action that sets issuers.verified_at."%string)
  | _ => VTable [js "Issuer"; js "Kind"; js "Trust weight"; js "Bootstrap"; js "Created"] (unverified_row <$> issuers)
  end.

Definition tenant_row (t : Tenant) : jstr * list cell :=
  (t_id t, [Txt (t_name t); Code (t_slug t); Badge (js "allow") (t_plan t); Txt (t_status t); Txt (locale (t_created_at t))]).

Definition TenantList (tenants : list Tenant) : view :=
  match tenants with
  | [] => EmptyState "tenants" "No tenants visible"
      "Tenants appear here once they are created. Your API key may be scoped to a single tenant; switch to a platform-staff key to see all tenants."
      None (Some "Tenants are the top-level isolation boundary for principals, policies, and edge nodes."%string)
  | _ => VTable [js "Name"; js "Slug"; js "Plan"; js "Status"; js "Created"] (tenant_row <$> tenants)
  end.

(** *** [DeEmphasisPanel.tsx] *)

Record stat_card := mkStat { st_label : jstr; st_value : jstr; st_highlight : bool }.

Definition stat_cards (c : ContributionSplit) : list stat_card :=
  [mkStat (js "Organic contribution") (show_Z (cs_organic_pct c) ++ js "%") (80 <=? cs_organic_pct c);
   mkStat (js "Independent organic issuers") (show_Z (cs_independent_organic_issuers c)) (3 <=? cs_independent_organic_issuers c);
   mkStat (js "Window")
     (if cs_window_continuous c then show_Z (cs_window_days c) ++ js " days (continuous)" else js "NOT continuous")
     (cs_window_continuous c);
   mkStat (js "Bootstrap weighted") (show_Z (cs_bootstrap_weighted c)) false].

(** The report of one root: the principals that would drop, or the line that says
    that none would. *)
Record report_view := mkReportView {
  rv_target_weight : jstr; rv_graph_version : jstr; rv_worst_case : jstr;
  rv_dropping : list (jstr * jstr); rv_none_drop : bool }.

Record candidate_view := mkCard {
  ca_badge : cell; ca_weight : jstr; ca_reasons : list jstr; ca_report : report_view }.

Definition drop_line (x : CounterfactualDrop) : jstr * jstr :=
  (cd_principal_id x,
   show_Z (cd_current_score x) ++ js " -> " ++ show_Z (cd_counterfactual_score x)
   ++ js " (threshold: " ++ show_Z (cd_tenant_threshold x) ++ js ")").

Definition CandidateCard (c : DeEmphasisCandidate) : candidate_view :=
  let report := dc_counterfactual c in
  let dropping := filter (λ x, cd_drops_below_threshold x = true) (cf_drops report) in
  mkCard (if dc_ready c then Badge (js "allow") (js "READY") else Badge (js "deny") (js "NOT READY"))
    (weight_text (dc_current_weight c))
    (if dc_ready c then [] else dc_not_ready_reasons c)
    (mkReportView (show_Z (cf_target_weight report)) (show_Z (cf_graph_version report)) (show_Z (cf_worst_case_drop report))
       (drop_line <$> dropping) (bool_decide (length dropping = 0%nat))).

Record de_emphasis_view := mkPanel {
  pv_stats : list stat_card; pv_generated : jstr; pv_no_candidates : bool; pv_cards : list (jstr * candidate_view) }.

Definition DeEmphasisPanel (r : DeEmphasisResult) : de_emphasis_view :=
  mkPanel (stat_cards (dr_contribution r)) (locale (dr_generated_at r)) (bool_decide (dr_candidates r = []))
    ((λ c, (dc_principal_id c, CandidateCard c)) <$> dr_candidates r).

End admin.

Lemma status_contribution engine now t d res d' :
  getDeEmphasisStatus engine now t d = (Ok res, d') → dr_contribution res = computeContributionSplit now t d.
Proof.
  unfold getDeEmphasisStatus. intros H. apply M_bind_Ok in H as (c & d1 & [= <- <-] & H).
  apply M_bind_Ok in H as (cs & d2 & [= <- <-] & H). by apply M_bind_Ok in H as (rs & d3 & Hf & [= <- <-]).
Qed.

Lemma reasons_when_not_ready engine t c b d r d' :
  candidate_result engine t c b d = (Ok r, d') → (dc_ready r = true ↔ dc_not_ready_reasons r = []).
Proof.
  unfold candidate_result. intros H. apply M_bind_Ok in H as (rep & d1 & H1 & [= <- <-]). cbn [dc_ready dc_not_ready_reasons].
  rewrite bool_decide_eq_true. split; [apply nil_length_inv|by intros ->].
Qed.

Lemma none_drop_iff (drops : list CounterfactualDrop) :
  existsb cd_drops_below_threshold drops = false ↔ filter (λ x, cd_drops_below_threshold x = true) drops = [].
Proof.
  induction drops as [|x l IH]; [done|]. simpl. rewrite orb_false_iff, IH, filter_cons. split.
  - intros [Hx Hl]. rewrite decide_False by congruence. done.
  - case_decide; [done|]. intros ->. split; [by destruct (cd_drops_below_threshold x)|done].
Qed.

(** The readiness panel never contradicts itself. For the status the control plane
    computes, there is a card per active root; a card says READY exactly when the
    three conditions of the panel are all highlighted and its report lists no
    principal that would drop; a READY card lists no reason, and a card that is not
    READY always gives one. *)
Theorem readiness_panel_consistent locale engine now t d res d' :
  getDeEmphasisStatus engine now t d = (Ok res, d') →
  let v := DeEmphasisPanel locale res in
  (pv_cards v).*1 = b_principal_id <$> candidates d ∧
  ∀ p c, (p, c) ∈ pv_cards v →
    (ca_badge c = Badge (js "allow") (js "READY") ↔
       (st_highlight <$> pv_stats v = [true; true; true; false] ∧ rv_dropping (ca_report c) = [])) ∧
    (ca_badge c = Badge (js "allow") (js "READY") ↔ ca_reasons c = []) ∧
    (rv_none_drop (ca_report c) = true ↔ rv_dropping (ca_report c) = []).
Proof.
  intros H. pose proof (status_contribution _ _ _ _ _ _ H) as Hc. destruct (status_spec _ _ _ _ _ _ H) as (-> & Hn & HF).
  unfold DeEmphasisPanel. cbn [pv_cards pv_stats]. split; [rewrite <- list_fmap_compose; exact Hn|].
  intros p c Hpc. apply list_elem_of_fmap in Hpc as (x & [= -> ->] & Hx).
  rewrite Forall_forall in HF. destruct (HF x Hx) as [b Hb]. rewrite Hc.
  destruct (candidate_spec _ _ _ _ _ _ _ Hb) as (_ & _ & _ & _ & Hr). pose proof (reasons_when_not_ready _ _ _ _ _ _ _ Hb) as Hr'.
  rewrite contribution_reasons_nil, none_drop_iff in Hr.
  set (s := computeContributionSplit now t d) in *. unfold CandidateCard. cbn [ca_badge ca_reasons ca_report rv_dropping rv_none_drop].
  set (dr := filter _ _) in *.
  assert (Hdr : drop_line <$> dr = [] ↔ dr = []) by (split; [apply fmap_nil_inv|by intros ->]).
  assert (Hb' : (if dc_ready x then Badge (js "allow") (js "READY") else Badge (js "deny") (js "NOT READY")) =
    Badge (js "allow") (js "READY") ↔ dc_ready x = true) by (destruct (dc_ready x); split; done).
  assert (Hst : st_highlight <$> stat_cards s = [true; true; true; false] ↔
    3 ≤ cs_independent_organic_issuers s ∧ 80 ≤ cs_organic_pct s ∧ cs_window_continuous s = true).
  { unfold stat_cards. cbn [fmap list_fmap st_highlight]. rewrite <- !Z.leb_le.
    destruct (80 <=? _), (3 <=? _), (cs_window_continuous s); intuition congruence. }
  rewrite Hb', Hdr, Hst, bool_decide_eq_true. split_and!.
  - rewrite Hr. tauto.
  - rewrite Hr'. destruct (dc_ready x); [|done]. split; [done|]. intros _. by apply Hr'.
  - split; [apply nil_length_inv|by intros ->].
Qed.

Lemma readiness_panel_consistent_witness :
  ∃ res, getDeEmphasisStatus one_hop_engine gate_time gate_time gate_db = (Ok res, gate_db) ∧
    (pv_cards (DeEmphasisPanel show_Z res)).*1 = b_principal_id <$> candidates gate_db.
Proof.
  destruct gate_status_runs as (res & d' & H). exists res. destruct (status_spec _ _ _ _ _ _ H) as (-> & _).
  exact (conj H (proj1 (readiness_panel_consistent show_Z one_hop_engine gate_time gate_time gate_db res gate_db H))).
Defined.

End AdminPanels.

(** ** [pages/admin/BootstrapEditor.tsx] *)
Module BootstrapEditor.
Import View Panels DashboardApi BootstrapRepo.

(** [const STEPS = [1.0, 0.5, 0.25, 0]] *)
Definition STEPS : list number := [num_of_Z 1; num_ratio 1 2; num_ratio 1 4; num_of_Z 0].

(** The weight column is [numeric(3,2)], read as a float. *)
Definition current_weight (i : BootstrapIssuerRow) : number := num_ratio (b_current_weight (br_row i)) 100.

(** The state of a row: it is created when the row is mounted and kept while the
    table shows a row with the same key ([principal_id]). *)
Record row := mkRow { rw_reason : jstr; rw_busy : bool }.

Definition issuer_reason (i : BootstrapIssuerRow) : jstr := default [] (b_de_emphasis_reason (br_row i)).
Definition mount (i : BootstrapIssuerRow) : row := mkRow (issuer_reason i) false.
Definition setReason (reason : jstr) (r : row) : row := mkRow reason (rw_busy r).
Definition setBusy (busy : bool) (r : row) : row := mkRow (rw_reason r) busy.

Definition reasonChanged (i : BootstrapIssuerRow) (r : row) : bool := negb (bool_decide (rw_reason r = issuer_reason i)).

(** The [disabled] attributes of the buttons. *)
Definition step_disabled (i : BootstrapIssuerRow) (r : row) (w : number) : bool :=
  rw_busy r || (bool_decide (w = current_weight i) && negb (reasonChanged i r)).
Definition save_disabled (i : BootstrapIssuerRow) (r : row) : bool := rw_busy r || negb (reasonChanged i r).

(** [reason || null] *)
Definition reason_or_null (r : row) : option jstr := match rw_reason r with [] => None | s => Some s end.

(** [applyWeight] and [saveReason] up to the [await]: the state and the patch that
    is sent; [settled] is the [finally]. *)
Definition applyWeight (w : number) (r : row) : row * issuer_patch :=
  (setBusy true r, mkPatch (Some w) (Some (reason_or_null r))).
Definition saveReason (r : row) : row * issuer_patch := (setBusy true r, mkPatch None (Some (reason_or_null r))).
Definition settled (r : row) : row := setBusy false r.

(** The cells of a row, and the table. *)
Definition row_cells (locale : Z → jstr) (i : BootstrapIssuerRow) (r : row) : list cell :=
  [Txt (b_name (br_row i)); Code (b_principal_id (br_row i)); Txt (num_to_string (current_weight i)); Txt (rw_reason r);
   match br_verified_at i with Some t => Txt (locale t) | None => Badge (js "passthrough") (js "unverified") end].

Definition BootstrapEditor (locale : Z → jstr) (issuers : list BootstrapIssuerRow) (rows : gmap jstr row) : view :=
  match issuers with
  | [] => EmptyState "bootstrap" "No bootstrap issuers registered"
      "The bootstrap registry is empty. Run the seed script to populate the curated root-of-truth with the VeriLink bootstrap issuer and initial seed agents."
      (Some AdminPanels.runbook)
      (Some "The seed is idempotent: reruns are no-ops and staff de-emphasis state is preserved."%string)
  | _ => VTable [js "Issuer"; js "Weight (Root)"; js "De-emphasis reason"; js "Verified"; js "Actions"]
      ((λ i, (b_principal_id (br_row i),
              row_cells locale i (default (mount i) (rows !! b_principal_id (br_row i))))) <$> issuers)
  end.

(** What a patch of the editor does to the registry: the body it is sent as,
    parsed by the route and applied. *)
Definition send (e : benv) (user : option jstr) (principalId : jstr) (p : issuer_patch) : M BootstrapIssuerRow :=
  patch_bootstrap_issuer e (patch_body principalId p) user.

(** *** Lemmas *)

Lemma step_in_range w : w ∈ STEPS → isNaN w = false ∧ num_ltb w (num_of_Z 0) = false ∧ num_ltb (num_of_Z 1) w = false.
Proof. unfold STEPS. rewrite !elem_of_cons, elem_of_nil. by intros [->|[->|[->|[->|[]]]]]. Qed.

(** The update a click amounts to. *)
Definition click_update (user : option jstr) (w : option number) (r : row) : BootstrapUpdate :=
  mkBootUpdate w (Some (reason_or_null r)) (Some user) None.

Lemma send_updates e user c p w r d :
  (∀ x, w = Some x → x ∈ STEPS) →
  send e user (c :: p) (mkPatch w (Some (reason_or_null r))) d =
  (updated ← updateBootstrapIssuer e (c :: p) (click_update user w r);
   match updated with Some r => mret r | None => lift (throw_app NOT_FOUND (js "Bootstrap issuer not found")) end) d.
Proof.
  intros Hw. unfold send, patch_bootstrap_issuer, click_update. destruct w as [w|].
  - destruct (step_in_range w (Hw w eq_refl)) as (H1 & H2 & H3).
    by rewrite (proj1 (patch_parsed c p w (reason_or_null r) user H1 H2 H3)).
  - by rewrite (proj2 (patch_parsed c p (num_of_Z 0) (reason_or_null r) user eq_refl eq_refl eq_refl)).
Qed.

Lemma send_row e user c p w r d i d' :
  (∀ x, w = Some x → x ∈ STEPS) →
  send e user (c :: p) (mkPatch w (Some (reason_or_null r))) d = (Ok i, d') →
  ∃ b, bootstrap_issuers d !! (c :: p) = Some b ∧ br_row i = apply_update e (click_update user w r) b ∧
       bootstrap_issuers d' !! (c :: p) = Some (br_row i).
Proof.
  intros Hw. rewrite send_updates by done. intros H. apply M_bind_Ok in H as (u & d1 & Hu & H).
  destruct u as [i'|]; [|by apply lift_Ok in H as [? _]]. injection H as -> ->.
  unfold updateBootstrapIssuer in Hu. cbn [no_columns click_update bu_current_weight bu_de_emphasis_reason] in Hu.
  rewrite withTransaction_Ok in Hu. destruct (no_columns _) eqn:En; [by destruct w|].
  apply M_bind_Ok in Hu as (row & d2 & Hrow & Hu). unfold update_row in Hrow.
  destruct (bootstrap_issuers d !! (c :: p)) as [b|] eqn:Eb; [|injection Hrow as <- <-; discriminate Hu].
  do 2 (match type of Hrow with (if ?x then _ else _) = _ => destruct x; [discriminate Hrow|] end). injection Hrow as <- <-.
  exists b. split; [done|].
  apply M_bind_Ok in Hu as (? & d3 & [= <- <-] & Hu). apply M_bind_Ok in Hu as (iss & d4 & [= <- <-] & [= <- <-]).
  split; [done|]. simpl. by rewrite lookup_insert_eq.
Qed.

(** *** Properties *)

(** Clicking a weight does what the button says. For a root of the registry whose
    row is idle, a click on an enabled weight button is accepted by the control
    plane's validation; if the write succeeds the root has that weight and the
    reason of the text field (none for an empty one, which also clears the
    de-emphasis date), and once the table shows the new row and the request has
    settled, that button and the save button are disabled: there is nothing left to
    save. The weights of the four buttons are stored without rounding when the
    column keeps two decimals. *)
Theorem click_applies_weight e user c p w r r1 patch d i d' :
  w ∈ STEPS → (∀ x, x ∈ STEPS → num_ratio (be_numeric32 e x) 100 = x) →
  rw_busy r = false → applyWeight w r = (r1, patch) → send e user (c :: p) patch d = (Ok i, d') →
  current_weight i = w ∧ b_de_emphasis_reason (br_row i) = reason_or_null r ∧
  (b_de_emphasized_at (br_row i) = None ↔ rw_reason r = []) ∧
  bootstrap_issuers d' !! (c :: p) = Some (br_row i) ∧
  step_disabled i (settled r1) w = true ∧ save_disabled i (settled r1) = true.
Proof.
  intros Hw Hnum Hb [= <- <-] Hs. apply send_row in Hs as (b & Hb' & Hrow & Hd'); [|by intros x [= <-]].
  assert (Hcw : current_weight i = w) by (unfold current_weight; rewrite Hrow; simpl; auto).
  assert (Hre : b_de_emphasis_reason (br_row i) = reason_or_null r) by (by rewrite Hrow).
  assert (Hch : reasonChanged i (settled (setBusy true r)) = false).
  { unfold reasonChanged, issuer_reason. rewrite Hre. apply negb_false_iff, bool_decide_eq_true. simpl.
    unfold reason_or_null. by destruct (rw_reason r). }
  split_and!; [done|done| |done|..].
  - rewrite Hrow. simpl. unfold reason_or_null. by destruct (rw_reason r).
  - unfold step_disabled. by rewrite Hch, Hcw, bool_decide_eq_true_2.
  - unfold save_disabled. by rewrite Hch.
Qed.

(** A row that was mounted before somebody else recorded a reason keeps its empty
    text field: its weight buttons are all enabled, whatever the table has refetched
    since, and a click erases that reason and the date of the de-emphasis together
    with setting the weight. *)
Theorem stale_row_erases_reason e user c p w i0 r1 patch d b i d' :
  w ∈ STEPS → issuer_reason i0 = [] →
  bootstrap_issuers d !! (c :: p) = Some b → default [] (b_de_emphasis_reason b) ≠ [] →
  applyWeight w (mount i0) = (r1, patch) → send e user (c :: p) patch d = (Ok i, d') →
  (∀ i1, br_row i1 = b → step_disabled i1 (mount i0) w = false) ∧
  bootstrap_issuers d' !! (c :: p) = Some (br_row i) ∧
  b_de_emphasis_reason (br_row i) = None ∧ b_de_emphasized_at (br_row i) = None.
Proof.
  intros Hw Hi0 Hb Hr [= <- <-] Hs. apply send_row in Hs as (b' & Hb' & Hrow & Hd'); [|by intros x [= <-]].
  rewrite Hb in Hb'. injection Hb' as <-. split_and!; [|done|..].
  - intros i1 Hi1. unfold step_disabled, reasonChanged, mount. cbn [rw_reason rw_busy]. rewrite Hi0.
    unfold issuer_reason. rewrite Hi1, (bool_decide_eq_false_2 ([] = _)) by (intros E; exact (Hr (eq_sym E))). by rewrite andb_false_r.
  - rewrite Hrow. simpl. unfold reason_or_null, mount. cbn [rw_reason]. by rewrite Hi0.
  - rewrite Hrow. simpl. unfold reason_or_null, mount. cbn [rw_reason]. by rewrite Hi0.
Qed.

(** *** The properties at concrete inputs *)

(** Two decimals, for the weights of the buttons. *)
Definition two_decimals (n : number) : Z :=
  if decide (n = num_of_Z 1) then 100 else if decide (n = num_ratio 1 2) then 50
  else if decide (n = num_ratio 1 4) then 25 else 0.
Definition editor_env : benv :=
  mkBenv 9000 id (λ b, b) id None (λ _ _, []) id two_decimals.
Definition reviewed_root : BootstrapIssuer :=
  mkBootstrapIssuer (js "vrl:p:r") (js "Root") 100 5 (Some 7) (Some (js "key compromised")) None None.
Definition editor_db : db := set_bootstrap_issuers {[js "vrl:p:r" := reviewed_root]} empty_db.
Definition mounted_before : BootstrapIssuerRow :=
  mkBootRow (mkBootstrapIssuer (js "vrl:p:r") (js "Root") 100 5 None None None None) 100 None.

Lemma click_applies_weight_witness :
  ∃ i d', send editor_env None (js "vrl:p:r") (applyWeight (num_ratio 1 4) (mkRow (js "organic volume") false)).2 editor_db = (Ok i, d') ∧
    current_weight i = num_ratio 1 4 ∧ b_de_emphasis_reason (br_row i) = Some (js "organic volume").
Proof.
  eexists _, _. split; [reflexivity|].
  match goal with |- current_weight ?x = _ ∧ _ =>
    destruct (click_applies_weight editor_env None 118 (js "rl:p:r") (num_ratio 1 4) (mkRow (js "organic volume") false) _ _ editor_db x _
      ltac:(vm_compute; do 2 right; left) ltac:(intros y Hy; unfold STEPS in Hy; rewrite !elem_of_cons, elem_of_nil in Hy;
        destruct Hy as [->|[->|[->|[->|[]]]]]; reflexivity) eq_refl eq_refl eq_refl) as (H1 & H2 & _) end.
  exact (conj H1 H2).
Defined.

Lemma stale_row_erases_reason_witness :
  ∃ i d', send editor_env None (js "vrl:p:r") (applyWeight (num_ratio 1 2) (mount mounted_before)).2 editor_db = (Ok i, d') ∧
    b_de_emphasis_reason (br_row i) = None ∧ b_de_emphasized_at (br_row i) = None.
Proof.
  eexists _, _. split; [reflexivity|].
  match goal with |- b_de_emphasis_reason (br_row ?x) = _ ∧ _ =>
    destruct (stale_row_erases_reason editor_env None 118 (js "rl:p:r") (num_ratio 1 2) mounted_before _ _ editor_db reviewed_root x _
      ltac:(vm_compute; right; left) eq_refl eq_refl ltac:(discriminate) eq_refl eq_refl) as (_ & _ & H) end.
  exact H.
Defined.

End BootstrapEditor.

(** ** [lib/scoreSeries.ts] *)
Module ScoreSeries.
Section series.
(** [Date.parse], and [new Date(s).toLocaleString()]. *)
Context (Date_parse : jstr → option Z) (locale_text : jstr → jstr).

Record ScoreHistoryPoint := mkHistory { hp_score : Z; hp_blacklisted : bool; hp_computed_at : jstr }.
Record ScoreSeriesPoint := mkSeries { sp_t : jstr; sp_label : jstr; sp_score : Z; sp_blacklisted : bool }.

(** The comparator is not positive: a difference with an unreadable date is [NaN],
    which counts as equal. *)
Definition not_after (a b : ScoreHistoryPoint) : bool :=
  match Date_parse (hp_computed_at a), Date_parse (hp_computed_at b) with
  | Some x, Some y => x <=? y
  | _, _ => true
  end.

Definition series_point (p : ScoreHistoryPoint) : ScoreSeriesPoint :=
  mkSeries (hp_computed_at p) (locale_text (hp_computed_at p)) (hp_score p) (hp_blacklisted p).

Definition scoreSeries (items : list ScoreHistoryPoint) : list ScoreSeriesPoint := series_point <$> sort_by not_after items.

Lemma insert_by_agree {A} (le le' : A → A → bool) x l :
  (∀ y, y ∈ l → le x y = le' x y) → insert_by le x l = insert_by le' x l.
Proof.
  induction l as [|y l IH]; [done|]. intros H. simpl. rewrite (H y) by set_solver. destruct (le' x y); [done|].
  f_equal. apply IH. set_solver.
Qed.

(** Sorting only compares members of the list. *)
Lemma sort_by_agree {A} (le le' : A → A → bool) l :
  (∀ x y, x ∈ l → y ∈ l → le x y = le' x y) → sort_by le l = sort_by le' l.
Proof.
  induction l as [|x l IH]; [done|]. intros H. cbn [sort_by]. rewrite IH by set_solver. apply insert_by_agree.
  intros y Hy%sort_by_elem. apply H; set_solver.
Qed.

(** The chart is the history, in order of time. The series has a point for every
    point of the history with its score and flag, no more and no fewer, and when all
    dates can be read no point is followed by an earlier one. *)
Theorem series_chronological items :
  (∀ p, p ∈ items → is_Some (Date_parse (hp_computed_at p))) →
  scoreSeries items ≡ₚ series_point <$> items ∧
  StronglySorted (λ a b, ∀ x y, Date_parse (sp_t a) = Some x → Date_parse (sp_t b) = Some y → x ≤ y) (scoreSeries items).
Proof.
  intros Hd. unfold scoreSeries. split; [by rewrite sort_by_Permutation|].
  set (key p := default 0 (Date_parse (hp_computed_at p))).
  rewrite (sort_by_agree not_after (λ a b, key a <=? key b)).
  2: { intros x y Hx Hy. destruct (Hd x Hx) as [u Hu], (Hd y Hy) as [v Hv]. unfold not_after, key. by rewrite Hu, Hv. }
  assert (Hs : StronglySorted (λ a b, (key a <=? key b) = true) (sort_by (λ a b, key a <=? key b) items)).
  { apply sort_by_sorted.
    - intros a b. rewrite !Z.leb_le. lia.
    - intros a b c. rewrite !Z.leb_le. lia. }
  induction Hs as [|a l Hs IH Hf]; [constructor|]. rewrite fmap_cons. constructor; [done|].
  apply Forall_fmap. eapply Forall_impl; [exact Hf|]. intros b Hab x y Hx Hy. simpl in Hx, Hy.
  unfold key in Hab. rewrite Hx, Hy in Hab. by apply Z.leb_le in Hab.
Qed.

End series.

Lemma series_chronological_witness :
  let parse s := if decide (s = js "b") then Some 2 else Some 1 in
  scoreSeries parse id [mkHistory 60 false (js "b"); mkHistory 50 false (js "a")] =
    [mkSeries (js "a") (js "a") 50 false; mkSeries (js "b") (js "b") 60 false] ∧
  StronglySorted (λ a b, ∀ x y, parse (sp_t a) = Some x → parse (sp_t b) = Some y → x ≤ y)
    (scoreSeries parse id [mkHistory 60 false (js "b"); mkHistory 50 false (js "a")]).
Proof.
  split; [reflexivity|].
  refine (proj2 (series_chronological (λ s, if decide (s = js "b") then Some 2 else Some 1) id _ _)).
  intros p _. case_decide; eexists; reflexivity.
Defined.

End ScoreSeries.

(** ** [pages/AgentBuilderHomePage.tsx] *)
Module AgentBuilderHome.
Import View Panels DashboardApi QueryKeys.

(** The selection ([useState]), the tenant of the session, and the cache of the
    list query by its key. *)
Record page := mkPage {
  pg_selectedId : option jstr; pg_tenantId : option jstr; pg_cache : gmap (list jstr) (list (Principal * jstr)) }.

Definition mount (tenantId : option jstr) (cache : gmap (list jstr) (list (Principal * jstr))) : page := mkPage None tenantId cache.

Definition principals_key (s : page) : list jstr := k_principals (agentBuilderQueryKeys (pg_tenantId s) (pg_selectedId s)).
Definition principals_data (s : page) : option (list (Principal * jstr)) := pg_cache s !! principals_key s.

Definition selected (s : page) : option jstr := match pg_selectedId s with Some [] => None | i => i end.

(** The effect that selects the first principal once the list is there. *)
Definition default_select (s : page) : page :=
  match selected s, principals_data s with
  | None, Some (p :: _) => mkPage (Some (p_id p.1)) (pg_tenantId s) (pg_cache s)
  | _, _ => s
  end.

Inductive event :=
| Loaded (key : list jstr) (principals : list (Principal * jstr))   (** the list query of a key has an answer *)
| Select (id : jstr)                                              (** a click on a principal of the list *)
| SetTenant (tenantId : option jstr).                             (** the tenant field of the header *)

Definition step (s : page) (e : event) : page :=
  default_select (match e with
                  | Loaded k l => mkPage (pg_selectedId s) (pg_tenantId s) (<[k := l]> (pg_cache s))
                  | Select i => mkPage (Some i) (pg_tenantId s) (pg_cache s)
                  | SetTenant t => mkPage (pg_selectedId s) t (pg_cache s)
                  end).

Definition run (s : page) (es : list event) : page := fold_left step es s.

(** The queries about the selected principal: their cache keys and what they ask. *)
Inductive detail_request := Detail (id : jstr) | Keys (id : jstr) | ScoreHistory (id : jstr) | Attestations (id : jstr) (dir : direction).

Definition detail_queries (s : page) : list (list jstr * detail_request) :=
  match selected s with
  | None => []
  | Some i =>
      let k := agentBuilderQueryKeys (pg_tenantId s) (pg_selectedId s) in
      [(k_detail k, Detail i); (k_keys k, Keys i); (k_scoreHistory k, ScoreHistory i);
       (k_attestationsIn k, Attestations i In); (k_attestationsOut k, Attestations i Out)]
  end.

(** What is shown below the header; the details only with a selection. *)
Section shown.
Context (locale : Z → jstr) (Date_parse : jstr → option Z) (locale_text : jstr → jstr).

Definition ScoreHistoryChart (points : list ScoreSeries.ScoreSeriesPoint) : view :=
  match points with
  | [] => EmptyState "score" "No score history yet"
      "This principal\'s network score will appear here once the trust engine computes a score. Scores are recomputed periodically (hourly) and on every new attestation."
      None (Some "The score is derived from the transitive trust graph using the VeriRank algorithm with time decay and distance decay."%string)
  | _ => VChart (js "Network score history") ((λ p, (ScoreSeries.sp_label p, [(js "score", ScoreSeries.sp_score p)])) <$> points)
  end.

Definition AgentBuilderHomePage (s : page) (principals : query (list (Principal * jstr))) (keys : query (list PrincipalKey))
  (history : query (option (list ScoreSeries.ScoreHistoryPoint))) (ain aout : query (list Attestation)) (detail : query (option Issuer)) :
  list (string * view) :=
  let series := ScoreSeries.scoreSeries Date_parse locale_text (default [] (mjoin (query_data history))) in
  [("Owned principals"%string, panel principals (λ l, PrincipalList l (pg_selectedId s)))]
  ++ (match selected s with
      | None => []
      | Some _ =>
          [("Keys & assurance", panel keys (KeyList locale));
           ("Network score history", panel history (λ _, ScoreHistoryChart series));
           ("Incoming (about this principal)", panel ain (AttestationFeed locale In));
           ("Outgoing (signed by this principal)", panel aout (AttestationFeed locale Out));
           ("Issuer relationship", panel detail (IssuerCard locale))]%string
      end).

End shown.

(** *** The selection while the tenant stays *)

(** Events of one tenant: its list queries answer with members of [l], and only
    members of [l] are clicked. *)
Definition listed (t : option jstr) (l : list (Principal * jstr)) (e : event) : Prop :=
  match e with
  | Loaded k l' => k ≠ k_principals (agentBuilderQueryKeys t None) ∨ ∀ p, p ∈ l' → p ∈ l
  | Select i => ∃ p, p ∈ l ∧ i = p_id p.1
  | SetTenant t' => t' = t
  end.

Record sound (t : option jstr) (l : list (Principal * jstr)) (s : page) : Prop := {
  so_tenant : pg_tenantId s = t;
  so_cache : ∀ l', pg_cache s !! k_principals (agentBuilderQueryKeys t None) = Some l' → ∀ p, p ∈ l' → p ∈ l;
  so_selected : ∀ i, pg_selectedId s = Some i → ∃ p, p ∈ l ∧ i = p_id p.1
}.

Lemma default_select_sound t l s : sound t l s → sound t l (default_select s).
Proof.
  intros [Ht Hc Hs]. unfold default_select. destruct (selected s); [done|].
  destruct (principals_data s) as [[|p l']|] eqn:E; [done| |done].
  split; [done|done|]. intros i [= <-]. exists p. split; [|done]. apply (Hc (p :: l')); [|set_solver].
  unfold principals_data, principals_key in E. rewrite Ht in E. exact E.
Qed.

Lemma step_sound t l s e : listed t l e → sound t l s → sound t l (step s e).
Proof.
  intros He [Ht Hc Hs]. apply default_select_sound. destruct e as [k l'|i|t']; simpl in He; split; cbn [pg_tenantId pg_cache pg_selectedId]; auto.
  - intros l2. rewrite lookup_insert_Some. intros [[-> <-]|[_ H]]; [|by apply Hc]. by destruct He.
  - intros j [= <-]. exact He.
Qed.

Lemma run_sound t l s es : Forall (listed t l) es → sound t l s → sound t l (run s es).
Proof.
  intros HF. revert s. induction HF as [|e es He HF IH]; intros s Hs; [done|]. simpl. apply IH. by apply step_sound.
Qed.

(** While the tenant stays the same, the builder's page only ever asks about the
    tenant's own principals: starting from an empty page, after any sequence of
    answers and clicks the selected principal is one of those the tenant's list
    contained, every detail query asks about it, under keys of this tenant, and if
    the last list is not empty something is selected. *)
Theorem builder_selects_listed t l es :
  Forall (listed t l) es →
  let s := run (mount t ∅) es in
  (∀ k q, (k, q) ∈ detail_queries s → ∃ p, p ∈ l ∧
     (q = Detail (p_id p.1) ∨ q = Keys (p_id p.1) ∨ q = ScoreHistory (p_id p.1) ∨ ∃ dir, q = Attestations (p_id p.1) dir) ∧
     k ∈ all_keys t (Some (p_id p.1))) ∧
  (∀ p l', principals_data (default_select s) = Some (p :: l') → p_id p.1 ≠ [] → detail_queries (default_select s) ≠ []).
Proof.
  intros HF s. assert (Hs : sound t l s) by (apply run_sound; [done|by split]). split.
  - intros k q. unfold detail_queries. destruct (selected s) as [i|] eqn:Ei; [|by rewrite elem_of_nil].
    assert (Hi : pg_selectedId s = Some i) by (unfold selected in Ei; destruct (pg_selectedId s) as [[]|]; congruence).
    destruct (so_selected _ _ _ Hs i Hi) as (p & Hp & ->). rewrite Hi, (so_tenant _ _ _ Hs). intros Hq. exists p. split; [done|].
    rewrite !elem_of_cons, elem_of_nil in Hq. unfold all_keys, agent_list. rewrite elem_of_app.
    destruct Hq as [[= -> ->]|[[= -> ->]|[[= -> ->]|[[= -> ->]|[[= -> ->]|[]]]]]]; (split; [eauto 7|right; set_solver]).
  - intros p l' Hd Hne. unfold detail_queries. destruct (selected (default_select s)) as [i|] eqn:Ei; [done|].
    exfalso. unfold default_select in Hd, Ei. destruct (selected s) as [i|] eqn:E1; [congruence|].
    destruct (principals_data s) as [[|p0 l0]|] eqn:E2; [congruence| |congruence].
    unfold selected in Ei. cbn [pg_selectedId] in Ei.
    assert (E3 : principals_data (mkPage (Some (p_id p0.1)) (pg_tenantId s) (pg_cache s)) = Some (p0 :: l0)) by exact E2.
    rewrite E3 in Hd. injection Hd as <- <-. by destruct (p_id p0.1).
Qed.

(** Changing the tenant does not change the selection: whatever list the new
    tenant has, the page keeps asking about the principal selected before, now under
    the new tenant's cache keys and header, and marks nothing in the new list as
    selected. The control plane serves the keys of that principal to every
    authenticated caller, so that they are shown as if they were the tenant's. *)
Theorem selection_survives_tenant_switch s i t' (l : list (Principal * jstr)) a h d u d1 :
  pg_selectedId s = Some i → i ≠ [] → (∀ p, p ∈ l → p_id p.1 ≠ i) → is_Some (principals d1 !! i) →
  Auth.authMiddleware a h d = (Ok u, d1) →
  let s' := run s [SetTenant t'; Loaded (k_principals (agentBuilderQueryKeys t' None)) l] in
  principals_data s' = Some l ∧ (k_keys (agentBuilderQueryKeys t' (Some i)), Keys i) ∈ detail_queries s' ∧
  (∀ p, p ∈ l → (principal_item (pg_selectedId s') p).2 !! 3%nat = Some (Txt [])) ∧
  ∃ ks, PrincipalRoutes.get_keys a h i d = (Ok ks, d1) ∧ ks = merge_sort PrincipalRepo.key_le (PrincipalRepo.keys_of i d1).
Proof.
  intros Hi Hne Hl [pr Hpr] Hu s'.
  assert (Hd : ∀ x, pg_selectedId x = Some i → default_select x = x).
  { intros x Hx. unfold default_select, selected. rewrite Hx. by destruct i. }
  assert (Hs' : s' = mkPage (Some i) t' (<[k_principals (agentBuilderQueryKeys t' None) := l]> (pg_cache s))).
  { unfold s'. cbn [run fold_left]. unfold step at 2. rewrite Hd by done. unfold step. cbn [pg_selectedId pg_tenantId pg_cache].
    rewrite Hi. by rewrite Hd. }
  rewrite Hs'. split_and!.
  - unfold principals_data. cbn [pg_cache]. apply lookup_insert_eq.
  - unfold detail_queries, selected. cbn [pg_selectedId pg_tenantId]. destruct i; [done|]. apply elem_of_cons. right. apply elem_of_cons. by left.
  - intros p Hp. unfold principal_item. cbn [pg_selectedId snd]. rewrite (bool_decide_eq_false_2 (Some i = _)); [reflexivity|]. intros [= ->]. by apply (Hl p).
  - eexists. split; [|reflexivity]. unfold PrincipalRoutes.get_keys. rewrite (M_bind_run _ _ _ _ _ Hu).
    unfold PrincipalService.listKeys, PrincipalService.getPrincipal, PrincipalRepo.getPrincipal, PrincipalRepo.listKeys.
    cbv [mbind M_bind reads]. by rewrite Hpr.
Qed.

End AgentBuilderHome.

(** ** Keys, edges and what their panels say *)
Module PanelInv.
Import View Panels.

Lemma lag_text z : (if 0 <? z then show_Z z else js "0") = js "0" ↔ z ≤ 0.
Proof.
  destruct (0 <? z) eqn:E; [apply Z.ltb_lt in E|apply Z.ltb_ge in E; split; [lia|done]].
  split; [|lia]. intros H. apply (SseRegistry.show_Z_inj z 0) in H; lia.
Qed.

Lemma lag_badge z s : Some (Badge (js (if (0 <? z)%Z then "passthrough" else "allow")%string) s) = Some (Badge (js "allow") s) ↔ z ≤ 0.
Proof. destruct (0 <? z) eqn:E; [apply Z.ltb_lt in E|apply Z.ltb_ge in E]; split; intros H; done || lia. Qed.

(** The fleet table agrees with the event log. Every edge of the tenant has a row,
    named by its id; the row shows the cursor of the edge, and lag 0 with the green
    badge exactly when the edge has received every event of the log. *)
Theorem fleet_table_agrees locale t d n :
  n ∈ EdgeFleet.listEdgeNodesForTenant t d →
  edge_sync_row locale n ∈
    (match EdgeSyncStatus locale (EdgeFleet.listEdgeNodesForTenant t d) with VTable _ rows => rows | _ => [] end) ∧
  let cursor := match sync_cursors d !! (en_tenant_id (EdgeFleet.er_node n), en_id (EdgeFleet.er_node n)) with
                | Some c => sc_last_cursor c | None => 0 end in
  let cells := (edge_sync_row locale n).2 in
  cells !! 2%nat = Some (Txt (show_Z cursor)) ∧
  (cells !! 3%nat = Some (Txt (js "0")) ↔ SyncLog.high_water d ≤ cursor) ∧
  (cells !! 1%nat = Some (Badge (js "allow") (en_status (EdgeFleet.er_node n))) ↔ SyncLog.high_water d ≤ cursor).
Proof.
  intros Hn. split.
  { unfold EdgeSyncStatus. destruct (EdgeFleet.listEdgeNodesForTenant t d) as [|x l]; [by apply elem_of_nil in Hn|].
    apply list_elem_of_fmap. eauto. }
  unfold EdgeFleet.listEdgeNodesForTenant in Hn. apply list_elem_of_fmap in Hn as (en & -> & _).
  unfold edge_sync_row, EdgeFleet.edge_row. cbn [EdgeFleet.er_node EdgeFleet.er_cursor EdgeFleet.er_lag].
  change (max_or_zero (se_sync_version <$> sync_events d)) with (SyncLog.high_water d).
  destruct (sync_cursors d !! _) as [c|]; cbn [snd lookup list_lookup]; (split; [done|]); split;
    first [rewrite lag_badge; lia|split; [intros [= H%lag_text]; lia|intros H; do 2 f_equal; apply lag_text; lia]].
Qed.

(** The key table does not look at the clock: a verified key whose validity has
    ended is shown as verified and "expiring", although the control plane no longer
    accepts signatures made with it. *)
Theorem expired_key_shown_expiring locale k now until :
  k_revoked_at k = None → k_control_verified_at k ≠ None → k_valid_until k = Some until → until < now →
  PrincipalRepo.key_active_at now k = false ∧
  (key_row locale k).2 !! 2%nat = Some (Badge (js "allow") (js "verified")) ∧
  (key_row locale k).2 !! 4%nat = Some (Txt (js "expiring")).
Proof.
  intros Hr Hc Hu Hlt. split.
  - unfold PrincipalRepo.key_active_at. rewrite Hu, (proj2 (Z.leb_gt now until)) by done. by rewrite andb_false_r.
  - unfold key_row. cbn [snd lookup list_lookup]. rewrite Hr, Hu.
    rewrite (bool_decide_eq_false_2 (None ≠ None)) by auto. by rewrite (bool_decide_eq_true_2 _ Hc).
Qed.

(** The agents table says "blacklisted" exactly for principals the engine has
    blacklisted, and "unscored" exactly for those without a score, whatever their
    score is. *)
Theorem agent_status_from_scores locale a :
  let cells := (agent_row locale a).2 in
  (cells !! 4%nat = Some (Badge (js "deny") (js "blacklisted")) ↔ ∃ s, DecisionReadRepo.ar_score a = Some s ∧ ns_blacklisted s = true) ∧
  (cells !! 4%nat = Some (Muted (js "unscored")) ↔ DecisionReadRepo.ar_score a = None).
Proof.
  unfold agent_row, agent_status. cbn [snd lookup list_lookup]. destruct (DecisionReadRepo.ar_score a) as [s|].
  - destruct (ns_blacklisted s) eqn:E; split; split; try done; eauto.
    + intros (s' & [= <-] & H). congruence.
  - split; split; try done. by intros (s & ? & _).
Qed.

(** *** The properties at concrete inputs *)

Definition fleet_db : db :=
  set_sync_cursors {[(js "t", js "n") := mkSyncCursor 0 None]}
    (set_edge_nodes {[js "n" := mkEdgeNode (js "n") (js "t") (js "edge") None (js "active") None 1]} empty_db).

Lemma fleet_table_agrees_witness :
  ∃ n, n ∈ EdgeFleet.listEdgeNodesForTenant (js "t") fleet_db ∧ (edge_sync_row show_Z n).2 !! 3%nat = Some (Txt (js "0")).
Proof.
  exists (EdgeFleet.edge_row fleet_db (mkEdgeNode (js "n") (js "t") (js "edge") None (js "active") None 1)).
  assert (H : EdgeFleet.edge_row fleet_db (mkEdgeNode (js "n") (js "t") (js "edge") None (js "active") None 1)
    ∈ EdgeFleet.listEdgeNodesForTenant (js "t") fleet_db) by (vm_compute; left).
  split; [exact H|]. destruct (fleet_table_agrees show_Z (js "t") fleet_db _ H) as (_ & _ & [_ Hz] & _).
  apply Hz. vm_compute. discriminate.
Defined.

End PanelInv.

(** ** [pages/BillingLink.tsx] *)
Module BillingLink.
Import DashboardApi.

Record link := mkLink { bl_busy : bool; bl_msg : option jstr }.

Definition open_begin (l : link) : link := mkLink true None.

(** After the [await]: where the browser goes, and the state after [finally]. *)
Definition open_end (r : result web_exn json) : option jstr * link :=
  match r with
  | Ok url =>
      if truthy url then (Some (String_ url), mkLink false None)
      else (None, mkLink false (Some (js "No subscription yet " ++ [8212] ++ js " upgrade via checkout to manage billing.")))
  | Throw _ => (None, mkLink false (Some (js "Could not open the billing portal.")))
  end.

Definition button (l : link) : jstr * bool := (js (if bl_busy l then "Opening..." else "Manage billing")%string, bl_busy l).

End BillingLink.

(** ** [pages/ProviderHomePage.tsx] *)
Module ProviderHome.
Import View Panels DashboardApi.
Section provider.
Context (locale : Z → jstr) (local_time : jstr → option (Z * Z)) (locale_le : jstr → jstr → bool) (Date_parse : jstr → option Z).

(** The answers of the six queries. *)
Record provider_queries := mkProvider {
  pq_summary : query (option jstr);                              (** its [latest_score_computed_at] *)
  pq_aggregates : query (list Aggregates.AggregateItem);
  pq_agents : query (list DecisionReadRepo.AgentRow);
  pq_samples : query (list (jstr * Sample));
  pq_edges : query (list EdgeFleet.EdgeNodeRow);
  pq_policy : query (option Policy) }.

Definition ProviderHomePage (q : provider_queries) (nowMs : Z) : list (string * view) :=
  let stale := Staleness.isScoreStale Date_parse (mjoin (query_data (pq_summary q))) nowMs in
  let points := Aggregates.pivotAggregates local_time locale_le (default [] (query_data (pq_aggregates q))) in
  let isSuccess := match pq_summary q with QSuccess _ => true | _ => false end in
  [("banner", StalenessBanner (isSuccess && stale));
   ("Trust summary", panel (pq_aggregates q) (λ _, TrustSummaryChart points));
   ("Agents", panel (pq_agents q) (AgentList locale));
   ("Decision feed", panel (pq_samples q) (DecisionFeed locale));
   ("Edge sync status", panel (pq_edges q) (EdgeSyncStatus locale));
   ("Active policy", panel (pq_policy q) PolicyCard)]%string.

(** The banner is shown exactly when the summary has arrived and the last score
    write is missing, unreadable or more than an hour old: never while loading, and
    not for a failed request. *)
Theorem banner_exact q nowMs :
  ("banner"%string, StalenessBanner true) ∈ ProviderHomePage q nowMs ↔
  ∃ latest, pq_summary q = QSuccess latest ∧
    ∀ s t, latest = Some s → s ≠ [] → Date_parse s = Some t → 3600000 < nowMs - t.
Proof.
  unfold ProviderHomePage. rewrite !elem_of_cons, elem_of_nil.
  assert (H : ∀ b, ("banner"%string, StalenessBanner true) = ("banner"%string, StalenessBanner b) ↔ b = true).
  { intros []; split; done. }
  rewrite H, andb_true_iff. split.
  - intros [[Hs Hst]|[[=]|[[=]|[[=]|[[=]|[[=]|[]]]]]]]. destruct (pq_summary q) as [| |latest]; [done..|].
    exists latest. split; [done|]. intros s t -> Hs0 Ht. destruct s as [|c s]; [done|]. cbn in Hst. rewrite Ht in Hst. by apply Z.ltb_lt.
  - intros (latest & -> & Hl). left. split; [done|]. cbn. destruct latest as [[|c s]|]; [done| |done]. cbn.
    destruct (Date_parse (c :: s)) as [t|] eqn:Ht; [|done]. apply Z.ltb_lt. by apply (Hl (c :: s)).
Qed.

End provider.
End ProviderHome.

(** ** [pages/AdminHomePage.tsx] *)
Module AdminHome.
Import View DashboardApi AdminPanels QueryKeys.

(** The keys of the admin queries. *)
Record AdminKeys := mkAdminKeys {
  ad_tenants : list jstr; ad_bootstrap : list jstr; ad_unverified : list jstr; ad_summary : list jstr; ad_deEmphasis : list jstr }.

Definition admin_keys (tenantId : option jstr) : AdminKeys :=
  let t := default (js "none") tenantId in
  mkAdminKeys [js "admin"; js "tenants"; t] [js "admin"; js "bootstrap"; t] [js "admin"; js "unverified"; t]
    (graphSummary (providerQueryKeys tenantId)) [js "admin"; js "de-emphasis"; t].

(** [queryClient.invalidateQueries({ queryKey })]: the queries whose key starts with
    it are fetched again. *)
Definition invalidates (queryKey key : list jstr) : bool := bool_decide (take (length queryKey) key = queryKey).

(** The [onSuccess] of the update. *)
Definition refetched (tenantId : option jstr) : list (list jstr) :=
  let k := admin_keys tenantId in
  filter (λ key, invalidates [js "admin"; js "bootstrap"] key = true)
    [ad_tenants k; ad_bootstrap k; ad_unverified k; ad_summary k; ad_deEmphasis k].

Record admin_queries := mkAdmin {
  aq_summary : query ScoreReads.GraphSummary; aq_tenants : query (list Tenant); aq_bootstrap : query (list BootstrapRepo.BootstrapIssuerRow);
  aq_deEmphasis : query DeEmphasis.DeEmphasisResult; aq_unverified : query (list (Issuer * Principal)) }.

Definition AdminHomePage (locale : Z → jstr) (q : admin_queries) (rows : gmap jstr BootstrapEditor.row) (updateError : option (option jstr)) :
  list (string * view) * option de_emphasis_view :=
  ([("Graph health", panel (aq_summary q) (λ s, GraphHealth locale (Some s)));
   ("Tenants", panel (aq_tenants q) (TenantList locale));
   ("Bootstrap registry", panel (aq_bootstrap q) (λ l, BootstrapEditor.BootstrapEditor locale l rows));
   ("update", match updateError with
              | Some m => VError (js "Update failed: " ++ default (js "unknown") m)
              | None => VNothing
              end);
   ("De-emphasis readiness", PanelState (aq_deEmphasis q));
   ("Issuer verification queue", panel (aq_unverified q) (IssuerVerificationQueue locale))]%string,
   DeEmphasisPanel locale <$> query_data (aq_deEmphasis q)).

(** After a weight was changed only the registry table is fetched again. The
    readiness panel shows the weights of the same roots and keeps its previous
    answer. *)
Theorem update_refetches_registry_only t :
  refetched t = [ad_bootstrap (admin_keys t)] ∧ ad_deEmphasis (admin_keys t) ∉ refetched t.
Proof.
  assert (H : refetched t = [ad_bootstrap (admin_keys t)]) by reflexivity. rewrite H. split; [done|]. set_solver.
Qed.

End AdminHome.

(** ** [layouts/AppShell.tsx] *)
Module AppShell.
Import AuthProvider.

Definition NAV : list (jstr * jstr) :=
  [(js "/provider", js "Provider"); (js "/agent-builder", js "Agent builder"); (js "/admin", js "Admin")].

(** [auth.setTenantId(e.target.value.trim() || null)], on every change of the field. *)
Definition onTenantChange (value : jstr) (a : auth_state) : auth_state :=
  setTenantId (match trim value with [] => None | t => Some t end) a.

(** The links of the header lead to pages: for a caller with a token each of them
    renders its own page, for others all lead to the login page; and what is in the
    tenant field is, without surrounding white space, the tenant of the next request
    (an empty field sends none). *)
Theorem shell_links_and_tenant a value :
  (isAuthenticated a = true → render a <$> NAV.*1 = [Page "ProviderHomePage"; Page "AgentBuilderHomePage"; Page "AdminHomePage"]) ∧
  (isAuthenticated a = false → render a <$> NAV.*1 = replicate 3 (RedirectTo "/login")) ∧
  ApiClientWeb.request_headers (as_session (onTenantChange value a)) ∅ None !! js "x-tenant-id" =
    match trim value with [] => None | t => Some t end.
Proof.
  split_and!.
  - intros Ha. unfold render. rewrite Ha. reflexivity.
  - intros Ha. unfold render. rewrite Ha. reflexivity.
  - unfold onTenantChange, setTenantId, ApiClientWeb.setStoredTenantId, ApiClientWeb.request_headers.
    cbn [as_session ApiClientWeb.storedTenantId ApiClientWeb.memoryToken]. destruct (trim value) as [|c t].
    + destruct (ApiClientWeb.memoryToken (as_session a)) as [[|x s]|]; reflexivity.
    + by rewrite lookup_insert_eq.
Qed.

End AppShell.
